(** * AllGather-GEMM: tile scheduling, data movement and orchestration

    A shallow embedding of [python/triton_dist/kernels/nvidia/allgather_gemm.py]
    and the properties its specification states about it.

    Integer model.  Program ids, tile indices, sizes and strides are
    modelled as [Z].  Every division in the kernels has non-negative
    operands whenever the divisor is positive, so the truncating division
    of the device code and the flooring division of the host code agree
    with [Z.div] and [Z.modulo]; sizes are assumed to stay inside the
    machine range, so no wrap-around is modelled.  A zero divisor is a
    fault in the source: the theorems below carry the hypotheses that
    keep every divisor positive.

    Element model.  Matrix elements are exact integers; the conversion of
    the accumulator to the output element type is the identity.

    Memory model.  Each tensor lives in a buffer of its own (a map from
    element offsets to values); a pointer is an offset from the base of
    its buffer and the strides are the ones the kernels receive. *)

From Stdlib Require Import ZArith List Bool Lia String Sorted.
From Stdlib Require Import Ascii DecimalString DecimalPos DecimalZ.
Import ListNotations.
Local Open Scope Z_scope.

(** ** The part of [triton.language] the kernels use *)

Module Tl.

(** [tl.cdiv(x, div)] and [triton.cdiv]: [(x + div - 1) // div]. *)
Definition cdiv (x d : Z) : Z := (x + d - 1) / d.

(** [tl.arange(0, n)]. *)
Definition arange (n : Z) : list Z := map Z.of_nat (seq 0 (Z.to_nat n)).

(** A buffer maps element offsets to values. *)
Definition buffer := Z -> Z.

(** A two-dimensional block of lanes, indexed by the lane coordinates. *)
Definition block := Z -> Z -> Z.

Definition lanes (rows cols : Z) : list (Z * Z) :=
  list_prod (arange rows) (arange cols).

(** [tl.load(ptrs, mask=mask, other=other)]. *)
Definition load (buf : buffer) (ptrs : Z -> Z -> Z) (mask : Z -> Z -> bool)
    (other : Z) : block :=
  fun i j => if mask i j then buf (ptrs i j) else other.

(** [tl.store(ptrs, vals, mask=mask)] on a [rows] x [cols] block: the
    buffer after the store holds, at each offset some unmasked lane
    points to, the value of that lane. *)
Definition store (buf : buffer) (rows cols : Z) (ptrs : Z -> Z -> Z)
    (vals : block) (mask : Z -> Z -> bool) : buffer :=
  fun q =>
    match find (fun l => mask (fst l) (snd l) && (ptrs (fst l) (snd l) =? q))
               (lanes rows cols) with
    | Some l => vals (fst l) (snd l)
    | None => buf q
    end.

(** [tl.zeros((rows, cols))]. *)
Definition zeros : block := fun _ _ => 0.

(** Sum of [f 0 .. f (n-1)]. *)
Definition sumZ (n : Z) (f : Z -> Z) : Z :=
  fold_left (fun s k => s + f k) (arange n) 0.

(** [tl.dot(a, b)] for [a] of shape [rows, BK] and [b] of shape [BK, cols]. *)
Definition dot (BK : Z) (a b : block) : block :=
  fun i j => sumZ BK (fun kk => a i kk * b kk j).

End Tl.

(** A kernel launch runs one program instance per program id; the
    instances of a grid are independent, so any order of the ids is a
    valid schedule. *)
Definition launch (kernel : Z -> Tl.buffer -> Tl.buffer) (sched : list Z)
    (buf : Tl.buffer) : Tl.buffer :=
  fold_left (fun b pid => kernel pid b) sched buf.

(** A strided view is dense on a [rows] x [cols] index range when
    distinct indices have distinct offsets. *)
Definition dense_view (rows cols sm sn : Z) : Prop :=
  forall i j i' j',
    0 <= i < rows -> 0 <= j < cols -> 0 <= i' < rows -> 0 <= j' < cols ->
    i * sm + j * sn = i' * sm + j' * sn -> i = i' /\ j = j'.

(** ** [copy_kernel] *)

(** [undef] stands for the unspecified value a masked-off lane of a load
    without [other] receives. *)
Definition copy_kernel (undef : Z) (sm_id rank : Z)
    (local_buf global_buf : Tl.buffer)
    (M_per_rank N stride_local_m stride_local_n stride_global_m stride_global_n
     BLOCK_SIZE_M BLOCK_SIZE_N : Z) : Tl.buffer :=
  let num_pid_n := Tl.cdiv N BLOCK_SIZE_N in
  let pid_m := sm_id / num_pid_n in
  let pid_n := sm_id mod num_pid_n in
  let data_ptr := fun offs_m offs_n =>
    (pid_m * BLOCK_SIZE_M + offs_m) * stride_local_m
    + (pid_n * BLOCK_SIZE_N + offs_n) * stride_local_n in
  let dst_ptr := fun offs_m offs_n =>
    (rank * M_per_rank + pid_m * BLOCK_SIZE_M + offs_m) * stride_global_m
    + (pid_n * BLOCK_SIZE_N + offs_n) * stride_global_n in
  let mask_data := fun offs_m offs_n =>
    (pid_m * BLOCK_SIZE_M + offs_m <? M_per_rank)
    && (pid_n * BLOCK_SIZE_N + offs_n <? N) in
  let mask_dst := fun offs_m offs_n =>
    (pid_m * BLOCK_SIZE_M + offs_m <? M_per_rank)
    && (pid_n * BLOCK_SIZE_N + offs_n <? N) in
  let data := Tl.load local_buf data_ptr mask_data undef in
  Tl.store global_buf BLOCK_SIZE_M BLOCK_SIZE_N dst_ptr data mask_dst.

(** The grid of [local_copy_and_barrier_all]:
    [cdiv(M_per_rank, BLOCK_SIZE_M) * cdiv(N, BLOCK_SIZE_N)] programs. *)
Definition copy_grid (M_per_rank N BLOCK_SIZE_M BLOCK_SIZE_N : Z) : Z :=
  Tl.cdiv M_per_rank BLOCK_SIZE_M * Tl.cdiv N BLOCK_SIZE_N.

(** ** [copy_and_barrier_all_inter_node_kernel] *)

Module LanguageExtra.

(** [st(ptr + q, v)]: the store of one thread. *)
Definition st (buf : Tl.buffer) (q v : Z) : Tl.buffer :=
  fun q' => if q' =? q then v else buf q'.

End LanguageExtra.

(** The memory the kernel works on: the workspace, the readiness flags
    and the synchronisation buffer of the barrier. *)
Record copy_barrier_mem (sync : Type) := {
  cb_global_buf : Tl.buffer;
  cb_symm_barrier : Tl.buffer;
  cb_symm_sync : sync
}.
Arguments cb_global_buf {sync} _.
Arguments cb_symm_barrier {sync} _.
Arguments cb_symm_sync {sync} _.

Section CopyAndBarrier.

(** [barrier_all_intra_node_non_atomic(rank, num_ranks, symm_sync_ptr,
    flag_value)] is defined in [common_ops]: it is a parameter here,
    acting on the synchronisation buffer it is handed. *)
Variable sync : Type.
Variable barrier_all_intra_node_non_atomic : Z -> Z -> sync -> Z -> sync.

(** The number of threads of a program; [tid(0)] ranges over them. *)
Variable num_threads : Z.

(** [if thread_idx < num_ranks: st(symm_barrier_ptr + thread_idx,
    1 if thread_idx == rank else 0)], for every thread of the program. *)
Definition set_symm_barrier (rank num_ranks : Z) (symm_barrier : Tl.buffer)
    : Tl.buffer :=
  fold_left
    (fun b thread_idx =>
       if thread_idx <? num_ranks then
         LanguageExtra.st b thread_idx (if thread_idx =? rank then 1 else 0)
       else b)
    (Tl.arange num_threads) symm_barrier.

Definition copy_and_barrier_all_inter_node_kernel (undef : Z)
    (sm_id rank num_ranks : Z) (local_buf : Tl.buffer)
    (mem : copy_barrier_mem sync)
    (M_per_rank N stride_local_m stride_local_n stride_global_m
     stride_global_n flag_value BLOCK_SIZE_M BLOCK_SIZE_N : Z)
    : copy_barrier_mem sync :=
  let sync1 :=
    barrier_all_intra_node_non_atomic rank num_ranks (cb_symm_sync mem)
                                      flag_value in
  let global_buf :=
    copy_kernel undef sm_id rank local_buf (cb_global_buf mem) M_per_rank N
                stride_local_m stride_local_n stride_global_m stride_global_n
                BLOCK_SIZE_M BLOCK_SIZE_N in
  let symm_barrier := set_symm_barrier rank num_ranks (cb_symm_barrier mem) in
  let sync2 :=
    barrier_all_intra_node_non_atomic rank num_ranks sync1 (flag_value + 1) in
  {| cb_global_buf := global_buf; cb_symm_barrier := symm_barrier;
     cb_symm_sync := sync2 |}.

(** The launch of [local_copy_and_barrier_all] with [is_internode]
    unset: one program per tile of 128 x 256 elements of the shard. *)
Definition local_copy_and_barrier_all_launch (undef : Z) (sched : list Z)
    (rank num_ranks : Z) (local_data : Tl.buffer)
    (mem : copy_barrier_mem sync)
    (M_per_rank N stride_local_0 stride_local_1 stride_global_0
     stride_global_1 phase : Z) : copy_barrier_mem sync :=
  fold_left
    (fun m sm_id =>
       copy_and_barrier_all_inter_node_kernel undef sm_id rank num_ranks
         local_data m M_per_rank N stride_local_0 stride_local_1
         stride_global_0 stride_global_1 phase 128 256)
    sched mem.

End CopyAndBarrier.

(** ** Tensor descriptors and readiness flags *)

(** [tl.make_tensor_descriptor(ptr, shape, strides, block_shape)]: a
    block load returns zero for the elements outside [shape], a block
    store drops them. *)
Record tensor_descriptor := {
  shape : Z * Z;
  strides : Z * Z;
  block_shape : Z * Z
}.

Definition desc_in_bounds (d : tensor_descriptor) (r c : Z) : bool :=
  (0 <=? r) && (r <? fst (shape d)) && (0 <=? c) && (c <? snd (shape d)).

Definition desc_ptr (d : tensor_descriptor) (r c : Z) : Z :=
  r * fst (strides d) + c * snd (strides d).

(** [desc.load([r, c])]. *)
Definition desc_load (d : tensor_descriptor) (buf : Tl.buffer) (r c : Z)
    : Tl.block :=
  Tl.load buf (fun i j => desc_ptr d (r + i) (c + j))
          (fun i j => desc_in_bounds d (r + i) (c + j)) 0.

(** [desc.store([r, c], vals)]. *)
Definition desc_store (d : tensor_descriptor) (buf : Tl.buffer) (r c : Z)
    (vals : Tl.block) : Tl.buffer :=
  Tl.store buf (fst (block_shape d)) (snd (block_shape d))
           (fun i j => desc_ptr d (r + i) (c + j)) vals
           (fun i j => desc_in_bounds d (r + i) (c + j)).

(** [dl.wait(ptr + first, num, "gpu", "acquire", waitValue=v)] returns
    once each of the [num] flags from slot [first] on holds [v]; the
    flags are given as they stand, so a wait that cannot return is
    [false] and the program that issued it has no result. *)
Definition dl_wait (flags : Z -> Z) (first num v : Z) : bool :=
  forallb (fun r => flags (first + r) =? v) (Tl.arange num).

(** The slots a wait reads. *)
Definition wait_slots (first num : Z) : list Z :=
  map (fun r => first + r) (Tl.arange num).

(** Observable steps of a GEMM program, in program order. *)
Inductive event :=
| EvWait (first num : Z)          (* dl.wait on slots first .. first+num-1 *)
| EvLoadA (offs_m offs_k : Z)     (* load of the A block at these offsets *)
| EvLoadB (offs_n offs_k : Z)     (* load of the B block at these offsets *)
| EvStoreC (offs_m offs_n : Z).   (* store of a C block at these offsets *)

Definition is_load_a (e : event) : bool :=
  match e with EvLoadA _ _ => true | _ => false end.

Definition is_wait (e : event) : bool :=
  match e with EvWait _ _ => true | _ => false end.

(** The ranks whose rows [r * M_per_rank, (r+1) * M_per_rank) meet the
    row range [lo, hi). *)
Definition owns_rows (M_per_rank lo hi r : Z) : Prop :=
  exists x, r * M_per_rank <= x < (r + 1) * M_per_rank /\ lo <= x < hi.

(** The number of A-block loads in a trace. *)
Definition count_loads_a (tr : list event) : Z :=
  Z.of_nat (List.length (filter is_load_a tr)).

(** ** [kernel_consumer_gemm_non_persistent] *)

Module NonPersistent.

(** The arguments of a launch; the output buffer [c_ptr] is threaded
    through the programs. *)
Record args := {
  a_ptr : Tl.buffer;
  b_ptr : Tl.buffer;
  M : Z; N : Z; K : Z;
  stride_am : Z; stride_ak : Z;
  stride_bk : Z; stride_bn : Z;
  stride_cm : Z; stride_cn : Z;
  rank : Z;
  WORLD_SIZE : Z;
  barrier_ptr : Z -> Z;
  BLOCK_SIZE_M : Z; BLOCK_SIZE_N : Z; BLOCK_SIZE_K : Z;
  GROUP_SIZE_M : Z
}.

Section Kernel.

Variable p : args.

Local Abbreviation a_ptr := (a_ptr p).
Local Abbreviation b_ptr := (b_ptr p).
Local Abbreviation M := (M p).
Local Abbreviation N := (N p).
Local Abbreviation K := (K p).
Local Abbreviation stride_am := (stride_am p).
Local Abbreviation stride_ak := (stride_ak p).
Local Abbreviation stride_bk := (stride_bk p).
Local Abbreviation stride_bn := (stride_bn p).
Local Abbreviation stride_cm := (stride_cm p).
Local Abbreviation stride_cn := (stride_cn p).
Local Abbreviation rank := (rank p).
Local Abbreviation WORLD_SIZE := (WORLD_SIZE p).
Local Abbreviation barrier_ptr := (barrier_ptr p).
Local Abbreviation BLOCK_SIZE_M := (BLOCK_SIZE_M p).
Local Abbreviation BLOCK_SIZE_N := (BLOCK_SIZE_N p).
Local Abbreviation BLOCK_SIZE_K := (BLOCK_SIZE_K p).
Local Abbreviation GROUP_SIZE_M := (GROUP_SIZE_M p).

Definition num_pid_m := Tl.cdiv M BLOCK_SIZE_M.
Definition num_pid_n := Tl.cdiv N BLOCK_SIZE_N.
Definition num_pid_in_group := GROUP_SIZE_M * num_pid_n.
Definition group_id (pid : Z) := pid / num_pid_in_group.
Definition first_pid_m (pid : Z) := group_id pid * GROUP_SIZE_M.
Definition group_size_m (pid : Z) :=
  Z.min (num_pid_m - first_pid_m pid) GROUP_SIZE_M.

(** [pid_m] and [pid_n] of the grouped ordering, before the swizzle. *)
Definition grouped_pid_m (pid : Z) :=
  first_pid_m pid + ((pid mod num_pid_in_group) mod group_size_m pid).
Definition pid_n (pid : Z) := (pid mod num_pid_in_group) / group_size_m pid.

(** Threadblock swizzle. *)
Definition m_per_rank := M / WORLD_SIZE.
Definition m_offset := m_per_rank * rank.
Definition pid_m_offset := Tl.cdiv m_offset BLOCK_SIZE_M.
Definition pid_m (pid : Z) := (grouped_pid_m pid + pid_m_offset) mod num_pid_m.

(** Wait for segment ready. *)
Definition rank_beg (offs_am : Z) := offs_am / m_per_rank.
Definition rank_end (offs_am : Z) :=
  (Z.min (offs_am + BLOCK_SIZE_M) M - 1) / m_per_rank.

(** Pointers to the first blocks of A and B. *)
Definition offs_am (pid i : Z) := (pid_m pid * BLOCK_SIZE_M + i) mod M.
Definition offs_bn (pid j : Z) := (pid_n pid * BLOCK_SIZE_N + j) mod N.
Definition a_ptrs0 (pid : Z) : Z -> Z -> Z :=
  fun i kk => offs_am pid i * stride_am + kk * stride_ak.
Definition b_ptrs0 (pid : Z) : Z -> Z -> Z :=
  fun kk j => kk * stride_bk + offs_bn pid j * stride_bn.

(** The masks of the two loads of iteration [k]. *)
Definition a_mask (k : Z) : Z -> Z -> bool :=
  fun _ kk => kk <? K - k * BLOCK_SIZE_K.
Definition b_mask (k : Z) : Z -> Z -> bool :=
  fun kk _ => kk <? K - k * BLOCK_SIZE_K.

Record kstate := {
  a_ptrs : Z -> Z -> Z;
  b_ptrs : Z -> Z -> Z;
  accumulator : Tl.block;
  ktrace : list event
}.

(** One iteration of the loop over [k]. *)
Definition k_step (pid : Z) (st : kstate) (k : Z) : kstate :=
  let a := Tl.load a_ptr (a_ptrs st) (a_mask k) 0 in
  let b := Tl.load b_ptr (b_ptrs st) (b_mask k) 0 in
  {| a_ptrs := fun i kk => a_ptrs st i kk + BLOCK_SIZE_K * stride_ak;
     b_ptrs := fun kk j => b_ptrs st kk j + BLOCK_SIZE_K * stride_bk;
     accumulator :=
       fun i j => accumulator st i j + Tl.dot BLOCK_SIZE_K a b i j;
     ktrace := ktrace st ++
       [EvLoadA (pid_m pid * BLOCK_SIZE_M) (k * BLOCK_SIZE_K);
        EvLoadB (pid_n pid * BLOCK_SIZE_N) (k * BLOCK_SIZE_K)] |}.

(** The state of the loop when iteration [n] begins. *)
Definition k_state (pid : Z) (tr : list event) (n : Z) : kstate :=
  fold_left (k_step pid) (Tl.arange n)
    {| a_ptrs := a_ptrs0 pid; b_ptrs := b_ptrs0 pid;
       accumulator := Tl.zeros; ktrace := tr |}.

(** [for k in range(0, tl.cdiv(K, BLOCK_SIZE_K))]. *)
Definition k_loop (pid : Z) (tr : list event) : kstate :=
  k_state pid tr (Tl.cdiv K BLOCK_SIZE_K).

(** The reading of the specification that the loads are masked at the
    M and N boundaries: a lane of the A load (of the B load) whose row
    lies beyond the last row of A (of B) is masked off. *)
Definition loads_masked_at_boundary : Prop :=
  forall pid k i j kk,
    0 <= pid < Tl.cdiv M BLOCK_SIZE_M * Tl.cdiv N BLOCK_SIZE_N ->
    0 <= k < Tl.cdiv K BLOCK_SIZE_K ->
    0 <= i < BLOCK_SIZE_M -> 0 <= j < BLOCK_SIZE_N ->
    0 <= kk < BLOCK_SIZE_K ->
    (M <= pid_m pid * BLOCK_SIZE_M + i -> a_mask k i kk = false)
    /\ (N <= pid_n pid * BLOCK_SIZE_N + j -> b_mask k kk j = false).

(** Write back the block of C with masks. *)
Definition c_ptrs (pid : Z) : Z -> Z -> Z :=
  fun i j => stride_cm * (pid_m pid * BLOCK_SIZE_M + i)
             + stride_cn * (pid_n pid * BLOCK_SIZE_N + j).
Definition c_mask (pid : Z) : Z -> Z -> bool :=
  fun i j => (pid_m pid * BLOCK_SIZE_M + i <? M)
             && (pid_n pid * BLOCK_SIZE_N + j <? N).

(** The program once its wait has returned. *)
Definition body (pid : Z) (c_ptr : Tl.buffer) : Tl.buffer * list event :=
  let offs := pid_m pid * BLOCK_SIZE_M in
  let beg := rank_beg offs in
  let num := rank_end offs - beg + 1 in
  let st := k_loop pid [EvWait beg num] in
  (Tl.store c_ptr BLOCK_SIZE_M BLOCK_SIZE_N (c_ptrs pid) (accumulator st)
            (c_mask pid),
   ktrace st ++ [EvStoreC (pid_m pid * BLOCK_SIZE_M)
                          (pid_n pid * BLOCK_SIZE_N)]).

(** One program instance: [None] when its wait never returns. *)
Definition kernel (pid : Z) (c_ptr : Tl.buffer)
    : option (Tl.buffer * list event) :=
  let offs := pid_m pid * BLOCK_SIZE_M in
  let beg := rank_beg offs in
  let num := rank_end offs - beg + 1 in
  if dl_wait barrier_ptr beg num 1 then Some (body pid c_ptr) else None.

(** The grid of [ag_gemm_non_persistent_op]. *)
Definition grid := Tl.cdiv M BLOCK_SIZE_M * Tl.cdiv N BLOCK_SIZE_N.

(** The program id that computes tile [(m, n)]: the inverse of
    [pid |-> (pid_m pid, pid_n pid)], used to state and prove that the
    mapping is one-to-one and onto. *)
Definition pid_of_tile (m n : Z) : Z :=
  let m0 := (m - pid_m_offset) mod num_pid_m in
  let g := m0 / GROUP_SIZE_M in
  let s := Z.min (num_pid_m - g * GROUP_SIZE_M) GROUP_SIZE_M in
  g * num_pid_in_group + n * s + (m0 - g * GROUP_SIZE_M).

(** The whole launch, for a schedule of the program ids. *)
Fixpoint run (sched : list Z) (c_ptr : Tl.buffer) : option Tl.buffer :=
  match sched with
  | [] => Some c_ptr
  | pid :: rest =>
      match kernel pid c_ptr with
      | Some (c', _) => run rest c'
      | None => None
      end
  end.

End Kernel.
End NonPersistent.

(** ** [kernel_consumer_gemm_persistent] *)

Module Persistent.

(** The arguments of a launch; [ready_value] and [LOCAL_WORLD_SIZE]
    default to 1 and 8 in the source.  The output buffer [c_ptr] is
    threaded through the scheduling units. *)
Record args := {
  a_ptr : Tl.buffer;
  b_ptr : Tl.buffer;
  M : Z; N : Z; K : Z;
  rank : Z;
  num_ranks : Z;
  ready_ptr : Z -> Z;
  BLOCK_SIZE_M : Z; BLOCK_SIZE_N : Z; BLOCK_SIZE_K : Z;
  GROUP_SIZE_M : Z;
  EPILOGUE_SUBTILE : bool;
  NUM_SMS : Z;
  ready_value : Z;
  LOCAL_WORLD_SIZE : Z
}.

Section Kernel.

Variable p : args.

Local Abbreviation a_ptr := (a_ptr p).
Local Abbreviation b_ptr := (b_ptr p).
Local Abbreviation M := (M p).
Local Abbreviation N := (N p).
Local Abbreviation K := (K p).
Local Abbreviation rank := (rank p).
Local Abbreviation num_ranks := (num_ranks p).
Local Abbreviation ready_ptr := (ready_ptr p).
Local Abbreviation BLOCK_SIZE_M := (BLOCK_SIZE_M p).
Local Abbreviation BLOCK_SIZE_N := (BLOCK_SIZE_N p).
Local Abbreviation BLOCK_SIZE_K := (BLOCK_SIZE_K p).
Local Abbreviation GROUP_SIZE_M := (GROUP_SIZE_M p).
Local Abbreviation EPILOGUE_SUBTILE := (EPILOGUE_SUBTILE p).
Local Abbreviation NUM_SMS := (NUM_SMS p).
Local Abbreviation ready_value := (ready_value p).
Local Abbreviation LOCAL_WORLD_SIZE := (LOCAL_WORLD_SIZE p).

Definition num_pid_m := Tl.cdiv M BLOCK_SIZE_M.
Definition num_pid_n := Tl.cdiv N BLOCK_SIZE_N.
Definition k_tiles := Tl.cdiv K BLOCK_SIZE_K.
Definition num_tiles := num_pid_m * num_pid_n.
Definition node_id := rank / LOCAL_WORLD_SIZE.
Definition nnodes := num_ranks / LOCAL_WORLD_SIZE.

Definition a_desc : tensor_descriptor :=
  {| shape := (M, K); strides := (K, 1);
     block_shape := (BLOCK_SIZE_M, BLOCK_SIZE_K) |}.
Definition b_desc : tensor_descriptor :=
  {| shape := (N, K); strides := (K, 1);
     block_shape := (BLOCK_SIZE_N, BLOCK_SIZE_K) |}.
Definition c_desc : tensor_descriptor :=
  {| shape := (M, N); strides := (N, 1);
     block_shape :=
       (BLOCK_SIZE_M,
        if EPILOGUE_SUBTILE then BLOCK_SIZE_N / 2 else BLOCK_SIZE_N) |}.

Definition tiles_per_SM (start_pid : Z) : Z :=
  num_tiles / NUM_SMS
  + (if start_pid <? num_tiles mod NUM_SMS then 1 else 0).

Definition M_per_rank := M / num_ranks.
Definition pid_ms_per_rank := Tl.cdiv M_per_rank BLOCK_SIZE_M.
Definition num_pid_in_group := GROUP_SIZE_M * num_pid_n.

(** The grouped ordering of the tile ids. *)
Definition group_id (tile_id : Z) := tile_id / num_pid_in_group.
Definition first_pid_m (tile_id : Z) := group_id tile_id * GROUP_SIZE_M.
Definition group_size_m (tile_id : Z) :=
  Z.min (num_pid_m - first_pid_m tile_id) GROUP_SIZE_M.
Definition grouped_pid_m (tile_id : Z) :=
  first_pid_m tile_id + (tile_id mod group_size_m tile_id).
Definition pid_n (tile_id : Z) :=
  (tile_id mod num_pid_in_group) / group_size_m tile_id.

(** Swizzle m, single node. *)
Definition swizzle_single (pid_m : Z) : Z :=
  let alpha := 0 in
  let beta := 0 in
  (pid_m + (((Z.lxor rank alpha + beta) mod num_ranks) * pid_ms_per_rank))
  mod num_pid_m.

(** Swizzle m, several nodes. *)
Definition m_rank (pid_m : Z) := pid_m / pid_ms_per_rank.
Definition pid_m_intra_rank (pid_m : Z) :=
  pid_m - m_rank pid_m * pid_ms_per_rank.
Definition m_node_id (pid_m : Z) := m_rank pid_m / LOCAL_WORLD_SIZE.
Definition m_local_rank (pid_m : Z) := m_rank pid_m mod LOCAL_WORLD_SIZE.
Definition swizzle_m_node_id (pid_m : Z) := (m_node_id pid_m + node_id) mod nnodes.
Definition swizzle_m_local_rank (pid_m : Z) :=
  (m_local_rank pid_m + rank) mod LOCAL_WORLD_SIZE.
Definition swizzle_m_rank (pid_m : Z) :=
  swizzle_m_node_id pid_m * LOCAL_WORLD_SIZE + swizzle_m_local_rank pid_m.
Definition swizzle_multi (pid_m : Z) : Z :=
  swizzle_m_rank pid_m * pid_ms_per_rank + pid_m_intra_rank pid_m.

Definition swizzle_m (pid_m : Z) : Z :=
  if nnodes =? 1 then swizzle_single pid_m else swizzle_multi pid_m.

Definition pid_m (tile_id : Z) := swizzle_m (grouped_pid_m tile_id).

Definition rank_beg (offs_am : Z) := offs_am / M_per_rank.
Definition rank_end (offs_am : Z) :=
  (Z.min (offs_am + BLOCK_SIZE_M) M - 1) / M_per_rank.

Record state := {
  st_tile_id : Z;
  st_ki : Z;
  st_pid_m : Z;
  st_pid_n : Z;
  st_offs_am : Z;
  st_offs_bn : Z;
  st_accumulator : Tl.block;
  st_c : Tl.buffer;
  st_trace : list event
}.

Definition init (start_pid : Z) (c_ptr : Tl.buffer) : state :=
  {| st_tile_id := start_pid - NUM_SMS; st_ki := -1;
     st_pid_m := 0; st_pid_n := 0; st_offs_am := 0; st_offs_bn := 0;
     st_accumulator := Tl.zeros; st_c := c_ptr; st_trace := [] |}.

(** The branch [if ki == 0]: advance to the next tile and wait for its
    rows. *)
Definition enter_tile (st : state) : option state :=
  let tile_id := st_tile_id st + NUM_SMS in
  let pm := pid_m tile_id in
  let pn := pid_n tile_id in
  let offs_am := pm * BLOCK_SIZE_M in
  let offs_bn := pn * BLOCK_SIZE_N in
  let beg := rank_beg offs_am in
  let num := rank_end offs_am - beg + 1 in
  if dl_wait ready_ptr beg num ready_value then
    Some {| st_tile_id := tile_id; st_ki := st_ki st;
            st_pid_m := pm; st_pid_n := pn;
            st_offs_am := offs_am; st_offs_bn := offs_bn;
            st_accumulator := st_accumulator st; st_c := st_c st;
            st_trace := st_trace st ++ [EvWait beg num] |}
  else None.

(** The stores of the branch [if ki == k_tiles - 1]: the accumulator
    goes to [C] in one block, or in two half-width blocks when
    [EPILOGUE_SUBTILE] is set. *)
Definition epilogue_store (c : Tl.buffer) (offs_am offs_bn : Z)
    (accumulator : Tl.block) : Tl.buffer * list event :=
  if EPILOGUE_SUBTILE then
    let acc0 : Tl.block := fun i j => accumulator i j in
    let acc1 : Tl.block :=
      fun i j => accumulator i (BLOCK_SIZE_N / 2 + j) in
    let c' := desc_store c_desc c offs_am offs_bn acc0 in
    (desc_store c_desc c' offs_am (offs_bn + BLOCK_SIZE_N / 2) acc1,
     [EvStoreC offs_am offs_bn;
      EvStoreC offs_am (offs_bn + BLOCK_SIZE_N / 2)])
  else
    (desc_store c_desc c offs_am offs_bn accumulator,
     [EvStoreC offs_am offs_bn]).

(** The branch [if ki == k_tiles - 1]: store the tile and clear the
    accumulator. *)
Definition epilogue (st : state) : state :=
  let '(c', evs) :=
    epilogue_store (st_c st) (st_offs_am st) (st_offs_bn st)
                   (st_accumulator st) in
  {| st_tile_id := st_tile_id st; st_ki := st_ki st;
     st_pid_m := st_pid_m st; st_pid_n := st_pid_n st;
     st_offs_am := st_offs_am st; st_offs_bn := st_offs_bn st;
     st_accumulator := Tl.zeros; st_c := c';
     st_trace := st_trace st ++ evs |}.

(** The loads and the dot product of one iteration. *)
Definition mma (st : state) : state :=
  let offs_k := st_ki st * BLOCK_SIZE_K in
  let a := desc_load a_desc a_ptr (st_offs_am st) offs_k in
  let b := desc_load b_desc b_ptr (st_offs_bn st) offs_k in
  let bT : Tl.block := fun kk j => b j kk in
  {| st_tile_id := st_tile_id st; st_ki := st_ki st;
     st_pid_m := st_pid_m st; st_pid_n := st_pid_n st;
     st_offs_am := st_offs_am st; st_offs_bn := st_offs_bn st;
     st_accumulator :=
       fun i j => st_accumulator st i j + Tl.dot BLOCK_SIZE_K a bT i j;
     st_c := st_c st;
     st_trace := st_trace st ++
       [EvLoadA (st_offs_am st) offs_k; EvLoadB (st_offs_bn st) offs_k] |}.

Definition set_ki (st : state) (ki : Z) : state :=
  {| st_tile_id := st_tile_id st; st_ki := ki;
     st_pid_m := st_pid_m st; st_pid_n := st_pid_n st;
     st_offs_am := st_offs_am st; st_offs_bn := st_offs_bn st;
     st_accumulator := st_accumulator st; st_c := st_c st;
     st_trace := st_trace st |}.

(** One iteration of the loop. *)
Definition step (st : state) : option state :=
  let ki := if st_ki st =? k_tiles - 1 then 0 else st_ki st + 1 in
  let st := set_ki st ki in
  match (if ki =? 0 then enter_tile st else Some st) with
  | None => None
  | Some st =>
      let st := mma st in
      Some (if ki =? k_tiles - 1 then epilogue st else st)
  end.

Fixpoint iterate (n : nat) (st : state) : option state :=
  match n with
  | O => Some st
  | S n' =>
      match step st with
      | Some st' => iterate n' st'
      | None => None
      end
  end.

(** One scheduling unit: [for _ in range(0, k_tiles * tiles_per_SM)]. *)
Definition kernel (start_pid : Z) (c_ptr : Tl.buffer) : option state :=
  iterate (Z.to_nat (k_tiles * tiles_per_SM start_pid)) (init start_pid c_ptr).

(** The grid of the persistent ops: [min(NUM_SMS, number of tiles)]. *)
Definition grid := Z.min NUM_SMS num_tiles.

Fixpoint run (sched : list Z) (c_ptr : Tl.buffer) : option Tl.buffer :=
  match sched with
  | [] => Some c_ptr
  | p :: rest =>
      match kernel p c_ptr with
      | Some st => run rest (st_c st)
      | None => None
      end
  end.

(** What the loop does for one tile, in closed form: the wait that
    guards it, the accumulator when its last slice has been added, its
    effect on [C], and its steps in program order. *)
Definition tile_wait_first (tile_id : Z) : Z :=
  rank_beg (pid_m tile_id * BLOCK_SIZE_M).
Definition tile_wait_num (tile_id : Z) : Z :=
  rank_end (pid_m tile_id * BLOCK_SIZE_M)
  - rank_beg (pid_m tile_id * BLOCK_SIZE_M) + 1.
Definition tile_ready (tile_id : Z) : bool :=
  dl_wait ready_ptr (tile_wait_first tile_id) (tile_wait_num tile_id)
          ready_value.
Definition slice_product (tile_id ki : Z) : Tl.block :=
  let a := desc_load a_desc a_ptr (pid_m tile_id * BLOCK_SIZE_M)
                     (ki * BLOCK_SIZE_K) in
  let b := desc_load b_desc b_ptr (pid_n tile_id * BLOCK_SIZE_N)
                     (ki * BLOCK_SIZE_K) in
  Tl.dot BLOCK_SIZE_K a (fun kk j => b j kk).
Definition tile_accumulator (tile_id : Z) : Tl.block :=
  fun i j => Tl.sumZ k_tiles (fun ki => slice_product tile_id ki i j).
Definition tile_store (tile_id : Z) (c : Tl.buffer) : Tl.buffer :=
  fst (epilogue_store c (pid_m tile_id * BLOCK_SIZE_M)
                      (pid_n tile_id * BLOCK_SIZE_N)
                      (tile_accumulator tile_id)).
Definition slice_events (tile_id ki : Z) : list event :=
  [EvLoadA (pid_m tile_id * BLOCK_SIZE_M) (ki * BLOCK_SIZE_K);
   EvLoadB (pid_n tile_id * BLOCK_SIZE_N) (ki * BLOCK_SIZE_K)].
Definition tile_events (tile_id : Z) : list event :=
  EvWait (tile_wait_first tile_id) (tile_wait_num tile_id)
  :: flat_map (slice_events tile_id) (Tl.arange k_tiles)
  ++ snd (epilogue_store (fun _ => 0) (pid_m tile_id * BLOCK_SIZE_M)
                         (pid_n tile_id * BLOCK_SIZE_N) Tl.zeros).

(** The tile id the grouped ordering sends to [(m0, n)]: the inverse of
    [tile_id |-> (grouped_pid_m tile_id, pid_n tile_id)]. *)
Definition tile_of_grouped (m0 n : Z) : Z :=
  let g := m0 / GROUP_SIZE_M in
  let s := Z.min (num_pid_m - g * GROUP_SIZE_M) GROUP_SIZE_M in
  g * num_pid_in_group + n * s
  + (m0 - g * GROUP_SIZE_M - g * num_pid_in_group) mod s.

(** The row tile each swizzle sends to [m]: the inverses of
    [swizzle_single] and, for a rank count that is a multiple of
    [LOCAL_WORLD_SIZE] and shards that are whole row tiles, of
    [swizzle_multi]. *)
Definition unswizzle_single (m : Z) : Z :=
  (m - ((Z.lxor rank 0 + 0) mod num_ranks) * pid_ms_per_rank) mod num_pid_m.
Definition unswizzle_multi (m : Z) : Z :=
  let r' := m / pid_ms_per_rank in
  let node := (r' / LOCAL_WORLD_SIZE - node_id) mod nnodes in
  let local := (r' mod LOCAL_WORLD_SIZE - rank) mod LOCAL_WORLD_SIZE in
  (node * LOCAL_WORLD_SIZE + local) * pid_ms_per_rank
  + m mod pid_ms_per_rank.
Definition unswizzle_m (m : Z) : Z :=
  if nnodes =? 1 then unswizzle_single m else unswizzle_multi m.

(** The layouts the swizzle is written for: one node, or several whole
    nodes with shards made of whole row tiles. *)
Definition layout_ok : Prop :=
  nnodes = 1
  \/ (1 < nnodes /\ 0 < LOCAL_WORLD_SIZE
      /\ num_ranks = nnodes * LOCAL_WORLD_SIZE
      /\ M_per_rank mod BLOCK_SIZE_M = 0).

(** The tile id that computes tile [(m, n)]. *)
Definition tile_of (m n : Z) : Z := tile_of_grouped (unswizzle_m m) n.

(** The number of iterations of the loop a unit has run when it
    returns: each iteration loads one block of A. *)
Definition iterations (start_pid : Z) (c_ptr : Tl.buffer) : option Z :=
  option_map (fun st => count_loads_a (st_trace st)) (kernel start_pid c_ptr).

(** The tile ids unit [start_pid] works on, in order. *)
Definition tiles_of_unit (start_pid : Z) : list Z :=
  map (fun i => start_pid + i * NUM_SMS) (Tl.arange (tiles_per_SM start_pid)).

End Kernel.
End Persistent.

(** ** Host side: ops, contexts and entry points *)

Module Host.

Inductive dtype :=
| float16 | bfloat16 | float32 | float8_e4m3fn | float8_e5m2 | int8.

Definition dtype_eqb (x y : dtype) : bool :=
  match x, y with
  | float16, float16 | bfloat16, bfloat16 | float32, float32
  | float8_e4m3fn, float8_e4m3fn | float8_e5m2, float8_e5m2
  | int8, int8 => true
  | _, _ => false
  end.

(** What the host code reads of a two-dimensional [torch.Tensor]. *)
Record Tensor := {
  shape0 : Z;
  shape1 : Z;
  tensor_dtype : dtype
}.

(** What a host function does besides computing its result, in the order
    it does it: the work it hands to the device or to the communication
    runtime, and its calls of [local_copy_and_barrier_all]. *)
Inductive work :=
| CallLocalCopyAndBarrierAll (phase : Z) (is_internode : bool)
| WaitStream
| Synchronize
| BarrierAllOnStream
| CreateSymmTensors
| FillBarrier
| SetSignal
| LaunchCopyKernel (rank M_per_rank N : Z)
| LaunchCopyAndBarrier (rank num_ranks M_per_rank N flag_value : Z)
| AllGatherIntraNode (rank num_ranks : Z)
| AllGatherFullMeshPull (rank num_ranks : Z)
| AllGatherInterNode (rank num_local_ranks num_ranks signal_target : Z)
| LaunchGemmNonPersistent (autotune : bool) (M N K rank num_ranks : Z)
| LaunchGemmPersistent (autotune : bool)
    (M N K rank num_ranks NUM_SMS ready_value : Z).

(** Device work proper. *)
Definition is_device_work (w : work) : bool :=
  match w with CallLocalCopyAndBarrierAll _ _ => false | _ => true end.

(** The outcome of a host function: an exception or a value. *)
Inductive result (A : Type) :=
| Raise (exn : string)
| Return (v : A).
Arguments Raise {A} exn.
Arguments Return {A} v.

Definition AssertionError (msg : string) : string :=
  String.append "AssertionError: " msg.

Definition raised {A : Type} (r : result A) : bool :=
  match r with Raise _ => true | Return _ => false end.

(** [local_copy_and_barrier_all]. *)
Definition local_copy_and_barrier_all (rank num_ranks M_per_rank N phase : Z)
    (is_internode : bool) : list work :=
  CallLocalCopyAndBarrierAll phase is_internode ::
  if negb is_internode then
    [LaunchCopyAndBarrier rank num_ranks M_per_rank N phase]
  else
    [BarrierAllOnStream; FillBarrier; LaunchCopyKernel rank M_per_rank N;
     SetSignal; BarrierAllOnStream].

(** [ag_gemm_non_persistent_op]. *)
Definition ag_gemm_non_persistent_op (a b : Tensor)
    (rank num_local_ranks num_ranks : Z) (serial autotune : bool)
    : list work * result unit :=
  if negb (shape1 a =? shape1 b) then
    ([], Raise (AssertionError "Incompatible dimensions"))
  else if negb (dtype_eqb (tensor_dtype a) (tensor_dtype b)) then
    ([], Raise (AssertionError "Incompatible dtypes"))
  else
    let M_per_rank := shape0 a in
    let K := shape1 b in
    let M := M_per_rank * num_ranks in
    let N_per_rank := shape0 b in
    let call_ag :=
      if num_local_ranks =? num_ranks then [AllGatherIntraNode rank num_ranks]
      else [AllGatherInterNode rank num_local_ranks num_ranks 1] in
    ([WaitStream; WaitStream]
       ++ (if serial then call_ag ++ [WaitStream; Synchronize] else call_ag)
       ++ [LaunchGemmNonPersistent autotune M N_per_rank K rank num_ranks;
           WaitStream; WaitStream],
     Return tt).

(** [ag_gemm_intra_node_persistent_op]; [multi_processor_count] is the
    device property the op reads. *)
Definition ag_gemm_intra_node_persistent_op (multi_processor_count : Z)
    (a b : Tensor) (rank num_ranks : Z) (serial autotune : bool)
    : list work * result unit :=
  if negb (shape1 a =? shape1 b) then
    ([], Raise (AssertionError "Incompatible dimensions"))
  else if negb (dtype_eqb (tensor_dtype a) (tensor_dtype b)) then
    ([], Raise (AssertionError "Incompatible dtypes"))
  else
    let M_per_rank := shape0 a in
    let K := shape1 b in
    let M := M_per_rank * num_ranks in
    let N_per_rank := shape0 b in
    let NUM_SMS := multi_processor_count in
    let call_ag := [AllGatherFullMeshPull rank num_ranks] in
    ([WaitStream; WaitStream]
       ++ (if serial then call_ag ++ [WaitStream; Synchronize] else call_ag)
       ++ [LaunchGemmPersistent autotune M N_per_rank K rank num_ranks
                                NUM_SMS 1;
           WaitStream; WaitStream],
     Return tt).

(** [ag_gemm_inter_node_persistent_op]. *)
Definition ag_gemm_inter_node_persistent_op (multi_processor_count : Z)
    (a b : Tensor) (rank num_ranks local_world_size signal_target : Z)
    (autotune copy_engine_dispatch : bool) : list work * result unit :=
  if negb (shape1 a =? shape1 b) then
    ([], Raise (AssertionError "Incompatible dimensions"))
  else if negb (dtype_eqb (tensor_dtype a) (tensor_dtype b)) then
    ([], Raise (AssertionError "Incompatible dtypes"))
  else
    let M_per_rank := shape0 a in
    let K := shape1 b in
    let M := M_per_rank * num_ranks in
    let N_per_rank := shape0 b in
    let n_nodes := num_ranks / local_world_size in
    let num_ag_sms :=
      if copy_engine_dispatch then n_nodes - 1
      else local_world_size + n_nodes - 2 in
    let num_gemm_sms := multi_processor_count - num_ag_sms in
    ([WaitStream; WaitStream;
      AllGatherInterNode rank local_world_size num_ranks signal_target;
      LaunchGemmPersistent autotune M N_per_rank K rank num_ranks
                           num_gemm_sms signal_target;
      WaitStream; WaitStream],
     Return tt).

(** The fields of [AllGatherGEMMTensorParallelContext] the host code
    computes with; the buffers and streams it also holds take no part
    in any decision. *)
Record AllGatherGEMMTensorParallelContext := {
  ctx_rank : Z;
  ctx_num_ranks : Z;
  ctx_num_local_ranks : Z;
  ctx_local_rank : Z;
  ctx_serial : bool;
  ctx_autotune : bool;
  ctx_phase : Z
}.

(** The dataclass default [phase: int = 1]. *)
Definition default_phase : Z := 1.

(** [create_ag_gemm_intra_node_context]. *)
Definition create_ag_gemm_intra_node_context (tensor_A tensor_B : Tensor)
    (rank num_ranks : Z) (serial autotune : bool)
    : list work * result AllGatherGEMMTensorParallelContext :=
  let K := shape1 tensor_A in
  if negb (shape1 tensor_B =? K) then
    ([], Raise (AssertionError "tensor_B should has shape (col_major) [N_per_rank, K]"))
  else if negb (dtype_eqb (tensor_dtype tensor_A) (tensor_dtype tensor_B)) then
    ([], Raise (AssertionError "tensor_A.dtype == tensor_B.dtype"))
  else
    ([CreateSymmTensors; CreateSymmTensors; CreateSymmTensors; FillBarrier;
      FillBarrier; BarrierAllOnStream; Synchronize],
     Return {| ctx_rank := rank; ctx_num_ranks := num_ranks;
               ctx_local_rank := rank; ctx_num_local_ranks := num_ranks;
               ctx_serial := serial; ctx_autotune := autotune;
               ctx_phase := default_phase |}).

(** [create_ag_gemm_inter_node_context]. *)
Definition create_ag_gemm_inter_node_context (tensor_A tensor_B : Tensor)
    (rank num_ranks num_local_ranks : Z) (serial autotune : bool)
    : list work * result AllGatherGEMMTensorParallelContext :=
  let K := shape1 tensor_A in
  if negb (shape1 tensor_B =? K) then
    ([], Raise (AssertionError "tensor_B should has shape (col_major) [N_per_rank, K]"))
  else if negb (dtype_eqb (tensor_dtype tensor_A) (tensor_dtype tensor_B)) then
    ([], Raise (AssertionError "tensor_A.dtype == tensor_B.dtype"))
  else
    let local_rank := rank mod num_local_ranks in
    ([CreateSymmTensors; CreateSymmTensors; CreateSymmTensors; FillBarrier;
      FillBarrier; BarrierAllOnStream; Synchronize],
     Return {| ctx_rank := rank; ctx_num_ranks := num_ranks;
               ctx_local_rank := local_rank;
               ctx_num_local_ranks := num_local_ranks;
               ctx_serial := serial; ctx_autotune := autotune;
               ctx_phase := default_phase |}).

(** A context as one of the two constructors returns it. *)
Definition fresh (ctx : AllGatherGEMMTensorParallelContext) : Prop :=
  (exists A B rank num_ranks serial autotune w,
     create_ag_gemm_intra_node_context A B rank num_ranks serial autotune
     = (w, Return ctx))
  \/ (exists A B rank num_ranks num_local_ranks serial autotune w,
        create_ag_gemm_inter_node_context A B rank num_ranks num_local_ranks
                                          serial autotune
        = (w, Return ctx)).

(** [ctx.phase += 2]. *)
Definition bump_phase (ctx : AllGatherGEMMTensorParallelContext)
    : AllGatherGEMMTensorParallelContext :=
  {| ctx_rank := ctx_rank ctx; ctx_num_ranks := ctx_num_ranks ctx;
     ctx_num_local_ranks := ctx_num_local_ranks ctx;
     ctx_local_rank := ctx_local_rank ctx;
     ctx_serial := ctx_serial ctx; ctx_autotune := ctx_autotune ctx;
     ctx_phase := ctx_phase ctx + 2 |}.

(** The body of [ag_gemm_intra_node] once [ctx] is bound: what it does,
    its outcome, and the context object as the call leaves it. *)
Definition ag_gemm_intra_node_with (multi_processor_count : Z) (a b : Tensor)
    (ctx : AllGatherGEMMTensorParallelContext) (persistent : bool)
    : (list work * result unit) * AllGatherGEMMTensorParallelContext :=
  let M_per_rank := shape0 a in
  let K := shape1 a in
  let copy := local_copy_and_barrier_all (ctx_rank ctx) (ctx_num_ranks ctx)
                M_per_rank K (ctx_phase ctx) false in
  let ctx := bump_phase ctx in
  let '(w, res) :=
    if persistent then
      ag_gemm_intra_node_persistent_op multi_processor_count a b
        (ctx_rank ctx) (ctx_num_ranks ctx) (ctx_serial ctx) (ctx_autotune ctx)
    else
      ag_gemm_non_persistent_op a b (ctx_rank ctx) (ctx_num_local_ranks ctx)
        (ctx_num_ranks ctx) (ctx_serial ctx) (ctx_autotune ctx) in
  ((copy ++ w, res), ctx).

(** [ag_gemm_intra_node]: with [ctx=None] a context is created for the
    call and dropped with it; the second component is the caller's
    context object after the call. *)
Definition ag_gemm_intra_node (multi_processor_count : Z) (a b : Tensor)
    (ctx : option AllGatherGEMMTensorParallelContext)
    (rank num_ranks : option Z) (persistent : bool)
    : (list work * result unit)
      * option AllGatherGEMMTensorParallelContext :=
  match ctx with
  | Some c =>
      let '(r, c') :=
        ag_gemm_intra_node_with multi_processor_count a b c persistent in
      (r, Some c')
  | None =>
      match rank, num_ranks with
      | Some rk, Some nr =>
          match create_ag_gemm_intra_node_context a b rk nr false false with
          | (w, Raise e) => ((w, Raise e), None)
          | (w, Return c) =>
              let '((w', r), _) :=
                ag_gemm_intra_node_with multi_processor_count a b c
                                        persistent in
              ((w ++ w', r), None)
          end
      | _, _ =>
          (([], Raise (AssertionError "rank is not None and num_ranks is not None")),
           None)
      end
  end.

(** The body of [ag_gemm_inter_node] once [ctx] is bound. *)
Definition ag_gemm_inter_node_with (multi_processor_count : Z) (a b : Tensor)
    (ctx : AllGatherGEMMTensorParallelContext)
    (local_world_size signal_target : Z) (persistent : bool)
    : (list work * result unit) * AllGatherGEMMTensorParallelContext :=
  let M_per_rank := shape0 a in
  let K := shape1 a in
  let copy := local_copy_and_barrier_all (ctx_rank ctx) (ctx_num_ranks ctx)
                M_per_rank K (ctx_phase ctx) true in
  let ctx := bump_phase ctx in
  let '(w, res) :=
    if persistent then
      ag_gemm_inter_node_persistent_op multi_processor_count a b
        (ctx_rank ctx) (ctx_num_ranks ctx) local_world_size signal_target
        (ctx_autotune ctx) true
    else
      ag_gemm_non_persistent_op a b (ctx_rank ctx) (ctx_num_local_ranks ctx)
        (ctx_num_ranks ctx) (ctx_serial ctx) (ctx_autotune ctx) in
  ((copy ++ w, res), ctx).

(** [ag_gemm_inter_node]. *)
Definition ag_gemm_inter_node (multi_processor_count : Z) (a b : Tensor)
    (ctx : option AllGatherGEMMTensorParallelContext)
    (rank num_ranks : option Z) (local_world_size signal_target : Z)
    (persistent : bool)
    : (list work * result unit)
      * option AllGatherGEMMTensorParallelContext :=
  match ctx with
  | Some c =>
      let '(r, c') :=
        ag_gemm_inter_node_with multi_processor_count a b c local_world_size
                                signal_target persistent in
      (r, Some c')
  | None =>
      match rank, num_ranks with
      | Some rk, Some nr =>
          match create_ag_gemm_inter_node_context a b rk nr 8 false false with
          | (w, Raise e) => ((w, Raise e), None)
          | (w, Return c) =>
              let '((w', r), _) :=
                ag_gemm_inter_node_with multi_processor_count a b c
                  local_world_size signal_target persistent in
              ((w ++ w', r), None)
          end
      | _, _ =>
          (([], Raise (AssertionError "rank is not None and num_ranks is not None")),
           None)
      end
  end.

(** A call of one of the two entry points that passes a context. *)
Inductive call :=
| IntraNode (a b : Tensor) (persistent : bool)
| InterNode (a b : Tensor) (local_world_size signal_target : Z)
            (persistent : bool).

Definition run_call (multi_processor_count : Z) (c : call)
    (ctx : AllGatherGEMMTensorParallelContext)
    : (list work * result unit)
      * option AllGatherGEMMTensorParallelContext :=
  match c with
  | IntraNode a b persistent =>
      ag_gemm_intra_node multi_processor_count a b (Some ctx) None None
                         persistent
  | InterNode a b lws target persistent =>
      ag_gemm_inter_node multi_processor_count a b (Some ctx) None None
                         lws target persistent
  end.


(** The phase values a call handed to [local_copy_and_barrier_all]. *)
Definition phases_passed (w : list work) : list Z :=
  flat_map (fun e => match e with
                     | CallLocalCopyAndBarrierAll phase _ => [phase]
                     | _ => []
                     end) w.

End Host.

(** ** [matmul_get_configs] *)

Module Autotune.

(** [triton.Config({'BLOCK_SIZE_M': .., 'BLOCK_SIZE_N': ..,
    "BLOCK_SIZE_K": .., "GROUP_SIZE_M": ..}, num_stages=.., num_warps=..)]. *)
Record Config := {
  BLOCK_SIZE_M : Z;
  BLOCK_SIZE_N : Z;
  BLOCK_SIZE_K : Z;
  GROUP_SIZE_M : Z;
  num_stages : Z;
  num_warps : Z
}.

(** The list comprehension of [matmul_get_configs], outermost [for]
    first. *)
Definition matmul_get_configs : list Config :=
  flat_map (fun BM =>
    flat_map (fun BN =>
      flat_map (fun BK =>
        flat_map (fun s =>
          map (fun w =>
                 {| BLOCK_SIZE_M := BM; BLOCK_SIZE_N := BN;
                    BLOCK_SIZE_K := BK; GROUP_SIZE_M := 8;
                    num_stages := s; num_warps := w |})
              [4; 8])
          [3; 4])
        [64; 128])
      [128; 256])
    [128].

End Autotune.

(** ** The GEMM launches of the host functions, on the device *)

Module Launches.

(** A two-dimensional tensor on the device: its storage, shape and
    strides. *)
Record DeviceTensor := {
  data : Tl.buffer;
  shape0 : Z;
  shape1 : Z;
  stride0 : Z;
  stride1 : Z
}.

(** [torch.empty([s0, s1])]: contiguous, with whatever [storage] holds. *)
Definition torch_empty (storage : Tl.buffer) (s0 s1 : Z) : DeviceTensor :=
  {| data := storage; shape0 := s0; shape1 := s1;
     stride0 := Z.max s1 1; stride1 := 1 |}.

(** [torch.ones([n])], followed in memory by [beyond]. *)
Definition torch_ones (n : Z) (beyond : Z -> Z) : Z -> Z :=
  fun r => if (0 <=? r) && (r <? n) then 1 else beyond r.

(** The block sizes of a launch: those the caller passes, or with
    [autotune] those of the configuration [choice] the autotuner has
    settled on. *)
Definition blocks (autotune : bool) (choice : Autotune.Config)
    (BLOCK_M BLOCK_N BLOCK_K : Z) : Z * Z * Z * Z :=
  if autotune then
    (Autotune.BLOCK_SIZE_M choice, Autotune.BLOCK_SIZE_N choice,
     Autotune.BLOCK_SIZE_K choice, Autotune.GROUP_SIZE_M choice)
  else (BLOCK_M, BLOCK_N, BLOCK_K, 8).

(** The launch of [ag_gemm_non_persistent_op]: [workspace] and
    [barrier] are [workspace_tensors[local_rank]] and
    [barrier_tensors[local_rank]]. *)
Definition ag_gemm_non_persistent_op (a b c workspace : DeviceTensor)
    (barrier : Z -> Z) (rank num_ranks : Z)
    (autotune : bool) (choice : Autotune.Config)
    (BLOCK_M BLOCK_N BLOCK_K : Z) : NonPersistent.args :=
  let M_per_rank := shape0 a in
  let M := M_per_rank * num_ranks in
  let N_per_rank := shape0 b in
  let K := shape1 b in
  let '(BM, BN, BK, G) := blocks autotune choice BLOCK_M BLOCK_N BLOCK_K in
  {| NonPersistent.a_ptr := data workspace; NonPersistent.b_ptr := data b;
     NonPersistent.M := M; NonPersistent.N := N_per_rank;
     NonPersistent.K := K;
     NonPersistent.stride_am := stride0 workspace;
     NonPersistent.stride_ak := stride1 workspace;
     NonPersistent.stride_bk := stride1 b;
     NonPersistent.stride_bn := stride0 b;
     NonPersistent.stride_cm := stride0 c;
     NonPersistent.stride_cn := stride1 c;
     NonPersistent.rank := rank; NonPersistent.WORLD_SIZE := num_ranks;
     NonPersistent.barrier_ptr := barrier;
     NonPersistent.BLOCK_SIZE_M := BM; NonPersistent.BLOCK_SIZE_N := BN;
     NonPersistent.BLOCK_SIZE_K := BK; NonPersistent.GROUP_SIZE_M := G |}.

(** The launch of [ag_gemm_intra_node_persistent_op]; [ready_value]
    and [LOCAL_WORLD_SIZE] are left to the defaults of the kernel. *)
Definition ag_gemm_intra_node_persistent_op (multi_processor_count : Z)
    (a b workspace : DeviceTensor) (barrier : Z -> Z) (rank num_ranks : Z)
    (autotune : bool) (choice : Autotune.Config)
    (BLOCK_M BLOCK_N BLOCK_K : Z) : Persistent.args :=
  let M_per_rank := shape0 a in
  let M := M_per_rank * num_ranks in
  let N_per_rank := shape0 b in
  let K := shape1 b in
  let NUM_SMS := multi_processor_count in
  let '(BM, BN, BK, G) := blocks autotune choice BLOCK_M BLOCK_N BLOCK_K in
  {| Persistent.a_ptr := data workspace; Persistent.b_ptr := data b;
     Persistent.M := M; Persistent.N := N_per_rank; Persistent.K := K;
     Persistent.rank := rank; Persistent.num_ranks := num_ranks;
     Persistent.ready_ptr := barrier;
     Persistent.BLOCK_SIZE_M := BM; Persistent.BLOCK_SIZE_N := BN;
     Persistent.BLOCK_SIZE_K := BK; Persistent.GROUP_SIZE_M := G;
     Persistent.EPILOGUE_SUBTILE := false;
     Persistent.NUM_SMS := NUM_SMS; Persistent.ready_value := 1;
     Persistent.LOCAL_WORLD_SIZE := 8 |}.

(** The launch of [ag_gemm_intra_node] with [persistent] unset, on the
    output [C = torch.empty([ctx.num_ranks * M_per_rank, N_per_rank])];
    the op is called with its default block sizes. *)
Definition ag_gemm_intra_node_non_persistent (a b workspace : DeviceTensor)
    (barrier : Z -> Z) (storage : Tl.buffer)
    (ctx : Host.AllGatherGEMMTensorParallelContext)
    (choice : Autotune.Config) : NonPersistent.args :=
  let M_per_rank := shape0 a in
  let N_per_rank := shape0 b in
  let C := torch_empty storage (Host.ctx_num_ranks ctx * M_per_rank)
                       N_per_rank in
  ag_gemm_non_persistent_op a b C workspace barrier (Host.ctx_rank ctx)
    (Host.ctx_num_ranks ctx) (Host.ctx_autotune ctx) choice 128 256 64.

(** The launch of [ag_gemm_intra_node] with [persistent] set. *)
Definition ag_gemm_intra_node_persistent (multi_processor_count : Z)
    (a b workspace : DeviceTensor) (barrier : Z -> Z)
    (ctx : Host.AllGatherGEMMTensorParallelContext)
    (choice : Autotune.Config) : Persistent.args :=
  ag_gemm_intra_node_persistent_op multi_processor_count a b workspace
    barrier (Host.ctx_rank ctx) (Host.ctx_num_ranks ctx)
    (Host.ctx_autotune ctx) choice 128 256 64.

(** The launch of [ag_gemm_inter_node_persistent_op]: the units left
    over from the all-gather run the GEMM, and [LOCAL_WORLD_SIZE] is
    left to the default of the kernel. *)
Definition ag_gemm_inter_node_persistent_op (multi_processor_count : Z)
    (a b workspace : DeviceTensor) (barrier : Z -> Z)
    (rank num_ranks local_world_size signal_target : Z)
    (autotune : bool) (choice : Autotune.Config)
    (copy_engine_dispatch : bool)
    (BLOCK_M BLOCK_N BLOCK_K : Z) : Persistent.args :=
  let M_per_rank := shape0 a in
  let M := M_per_rank * num_ranks in
  let N_per_rank := shape0 b in
  let K := shape1 b in
  let n_nodes := num_ranks / local_world_size in
  let num_ag_sms :=
    if copy_engine_dispatch then n_nodes - 1
    else local_world_size + n_nodes - 2 in
  let num_gemm_sms := multi_processor_count - num_ag_sms in
  let '(BM, BN, BK, G) := blocks autotune choice BLOCK_M BLOCK_N BLOCK_K in
  {| Persistent.a_ptr := data workspace; Persistent.b_ptr := data b;
     Persistent.M := M; Persistent.N := N_per_rank; Persistent.K := K;
     Persistent.rank := rank; Persistent.num_ranks := num_ranks;
     Persistent.ready_ptr := barrier;
     Persistent.BLOCK_SIZE_M := BM; Persistent.BLOCK_SIZE_N := BN;
     Persistent.BLOCK_SIZE_K := BK; Persistent.GROUP_SIZE_M := G;
     Persistent.EPILOGUE_SUBTILE := false;
     Persistent.NUM_SMS := num_gemm_sms;
     Persistent.ready_value := signal_target;
     Persistent.LOCAL_WORLD_SIZE := 8 |}.

(** The launch of [ag_gemm_inter_node] with [persistent] set. *)
Definition ag_gemm_inter_node_persistent (multi_processor_count : Z)
    (a b workspace : DeviceTensor) (barrier : Z -> Z)
    (ctx : Host.AllGatherGEMMTensorParallelContext)
    (choice : Autotune.Config) (local_world_size signal_target : Z)
    : Persistent.args :=
  ag_gemm_inter_node_persistent_op multi_processor_count a b workspace
    barrier (Host.ctx_rank ctx) (Host.ctx_num_ranks ctx) local_world_size
    signal_target (Host.ctx_autotune ctx) choice true 128 256 64.

(** The launch of [gemm_non_persistent] in the branch
    [if not ctx.autotune]; [BLOCK_M], [BLOCK_N] and [BLOCK_K] are the
    fields of the context of these names and the flags are
    [ctx.fake_barrier_tensor]. *)
Definition gemm_non_persistent (a b : DeviceTensor) (storage : Tl.buffer)
    (ctx : Host.AllGatherGEMMTensorParallelContext)
    (BLOCK_M BLOCK_N BLOCK_K : Z) (beyond : Z -> Z) : NonPersistent.args :=
  let M := shape0 a in
  let K := shape1 a in
  let N := shape0 b in
  let C := torch_empty storage M N in
  {| NonPersistent.a_ptr := data a; NonPersistent.b_ptr := data b;
     NonPersistent.M := M; NonPersistent.N := N; NonPersistent.K := K;
     NonPersistent.stride_am := stride0 a;
     NonPersistent.stride_ak := stride1 a;
     NonPersistent.stride_bk := stride1 b;
     NonPersistent.stride_bn := stride0 b;
     NonPersistent.stride_cm := stride0 C;
     NonPersistent.stride_cn := stride1 C;
     NonPersistent.rank := Host.ctx_rank ctx;
     NonPersistent.WORLD_SIZE := Host.ctx_num_ranks ctx;
     NonPersistent.barrier_ptr :=
       torch_ones (Host.ctx_num_ranks ctx) beyond;
     NonPersistent.BLOCK_SIZE_M := BLOCK_M;
     NonPersistent.BLOCK_SIZE_N := BLOCK_N;
     NonPersistent.BLOCK_SIZE_K := BLOCK_K;
     NonPersistent.GROUP_SIZE_M := 8 |}.

(** The launch of [gemm_persistent]. *)
Definition gemm_persistent (multi_processor_count : Z) (a b : DeviceTensor)
    (ctx : Host.AllGatherGEMMTensorParallelContext)
    (choice : Autotune.Config) (BLOCK_M BLOCK_N BLOCK_K : Z)
    (beyond : Z -> Z) : Persistent.args :=
  let M := shape0 a in
  let K := shape1 a in
  let N := shape0 b in
  let NUM_SMS := multi_processor_count in
  let '(BM, BN, BK, G) :=
    blocks (Host.ctx_autotune ctx) choice BLOCK_M BLOCK_N BLOCK_K in
  {| Persistent.a_ptr := data a; Persistent.b_ptr := data b;
     Persistent.M := M; Persistent.N := N; Persistent.K := K;
     Persistent.rank := Host.ctx_rank ctx;
     Persistent.num_ranks := Host.ctx_num_ranks ctx;
     Persistent.ready_ptr := torch_ones (Host.ctx_num_ranks ctx) beyond;
     Persistent.BLOCK_SIZE_M := BM; Persistent.BLOCK_SIZE_N := BN;
     Persistent.BLOCK_SIZE_K := BK; Persistent.GROUP_SIZE_M := G;
     Persistent.EPILOGUE_SUBTILE := false;
     Persistent.NUM_SMS := NUM_SMS; Persistent.ready_value := 1;
     Persistent.LOCAL_WORLD_SIZE := 8 |}.

End Launches.

(** ** A launch on another content of the workspace *)

(** The arguments [cfg] with the buffer [a] in the place of [a_ptr]. *)
Definition np_on_workspace (cfg : NonPersistent.args) (a : Tl.buffer)
    : NonPersistent.args :=
  {| NonPersistent.a_ptr := a;
     NonPersistent.b_ptr := NonPersistent.b_ptr cfg;
     NonPersistent.M := NonPersistent.M cfg;
     NonPersistent.N := NonPersistent.N cfg;
     NonPersistent.K := NonPersistent.K cfg;
     NonPersistent.stride_am := NonPersistent.stride_am cfg;
     NonPersistent.stride_ak := NonPersistent.stride_ak cfg;
     NonPersistent.stride_bk := NonPersistent.stride_bk cfg;
     NonPersistent.stride_bn := NonPersistent.stride_bn cfg;
     NonPersistent.stride_cm := NonPersistent.stride_cm cfg;
     NonPersistent.stride_cn := NonPersistent.stride_cn cfg;
     NonPersistent.rank := NonPersistent.rank cfg;
     NonPersistent.WORLD_SIZE := NonPersistent.WORLD_SIZE cfg;
     NonPersistent.barrier_ptr := NonPersistent.barrier_ptr cfg;
     NonPersistent.BLOCK_SIZE_M := NonPersistent.BLOCK_SIZE_M cfg;
     NonPersistent.BLOCK_SIZE_N := NonPersistent.BLOCK_SIZE_N cfg;
     NonPersistent.BLOCK_SIZE_K := NonPersistent.BLOCK_SIZE_K cfg;
     NonPersistent.GROUP_SIZE_M := NonPersistent.GROUP_SIZE_M cfg |}.

Definition p_on_workspace (cfg : Persistent.args) (a : Tl.buffer)
    : Persistent.args :=
  {| Persistent.a_ptr := a;
     Persistent.b_ptr := Persistent.b_ptr cfg;
     Persistent.M := Persistent.M cfg;
     Persistent.N := Persistent.N cfg;
     Persistent.K := Persistent.K cfg;
     Persistent.rank := Persistent.rank cfg;
     Persistent.num_ranks := Persistent.num_ranks cfg;
     Persistent.ready_ptr := Persistent.ready_ptr cfg;
     Persistent.BLOCK_SIZE_M := Persistent.BLOCK_SIZE_M cfg;
     Persistent.BLOCK_SIZE_N := Persistent.BLOCK_SIZE_N cfg;
     Persistent.BLOCK_SIZE_K := Persistent.BLOCK_SIZE_K cfg;
     Persistent.GROUP_SIZE_M := Persistent.GROUP_SIZE_M cfg;
     Persistent.EPILOGUE_SUBTILE := Persistent.EPILOGUE_SUBTILE cfg;
     Persistent.NUM_SMS := Persistent.NUM_SMS cfg;
     Persistent.ready_value := Persistent.ready_value cfg;
     Persistent.LOCAL_WORLD_SIZE := Persistent.LOCAL_WORLD_SIZE cfg |}.

(** Two outcomes of a program of the non-persistent kernel that cannot
    be told apart: neither returns, or both return with the same
    content of C and the same steps. *)
Definition same_outcome (r r' : option (Tl.buffer * list event)) : Prop :=
  match r, r' with
  | Some (c, tr), Some (c', tr') => (forall q, c q = c' q) /\ tr = tr'
  | None, None => True
  | _, _ => False
  end.

(** The same for a unit of the persistent kernel. *)
Definition same_unit_outcome (r r' : option Persistent.state) : Prop :=
  match r, r' with
  | Some st, Some st' =>
      (forall q, Persistent.st_c st q = Persistent.st_c st' q)
      /\ Persistent.st_trace st = Persistent.st_trace st'
  | None, None => True
  | _, _ => False
  end.

(** ** [AllGatherGEMMTensorParallelContext.update] *)

Module Context.
Import Host.

(** [update] assigns the fields it is given; of the fields kept in the
    model, [local_rank] and [phase] are not among them. *)
Definition update (self : AllGatherGEMMTensorParallelContext)
    (rank num_ranks num_local_ranks : Z) (serial autotune : bool)
    : AllGatherGEMMTensorParallelContext :=
  {| ctx_rank := rank; ctx_num_ranks := num_ranks;
     ctx_num_local_ranks := num_local_ranks;
     ctx_local_rank := ctx_local_rank self;
     ctx_serial := serial; ctx_autotune := autotune;
     ctx_phase := ctx_phase self |}.

(** What a caller does with a context it holds: a call of one of the
    two entry points, or an [update]. *)
Inductive action :=
| Call (c : call)
| Update (rank num_ranks num_local_ranks : Z) (serial autotune : bool).

Definition is_call (a : action) : bool :=
  match a with Call _ => true | Update _ _ _ _ _ => false end.

(** What a context holds from the runtime, as the constructor got it:
    the number of tensors in the lists [workspace_tensors] and
    [barrier_tensors], and the number of flags of a tensor of
    [barrier_tensors].  [update] assigns none of them. *)
Record tensors := {
  len_workspace_tensors : Z;
  len_barrier_tensors : Z;
  barrier_numel : Z
}.

(** [xs[i]] on a list or on a tensor of [len] entries takes an index
    from [-len] to [len - 1] and raises an [IndexError] on any other. *)
Definition subscript_ok (len i : Z) : bool := (- len <=? i) && (i <? len).

(** The exceptions of these two kinds are kept by their class, without
    their message. *)
Definition IndexError : string := "IndexError".

(** [torch.empty([d0, d1])] raises on a negative size. *)
Definition empty_ok (d0 d1 : Z) : bool := (0 <=? d0) && (0 <=? d1).

Definition RuntimeError : string := "RuntimeError".

(** Whether a call gets as far as [ctx.phase += 2].  Before that
    statement an entry point creates
    [C = torch.empty([ctx.num_ranks * M_per_rank, N_per_rank])] and
    takes its workspace and its barrier tensor out of the lists of the
    context, at [ctx.rank] in [ag_gemm_intra_node] and at
    [ctx.local_rank] in [ag_gemm_inter_node]; with [is_internode],
    [local_copy_and_barrier_all] also takes [barrier_ptr[rank]]. *)
Definition reaches_bump (h : tensors) (c : call)
    (ctx : AllGatherGEMMTensorParallelContext) : bool :=
  match c with
  | IntraNode a b _ =>
      empty_ok (ctx_num_ranks ctx * shape0 a) (shape0 b)
      && subscript_ok (len_workspace_tensors h) (ctx_rank ctx)
      && subscript_ok (len_barrier_tensors h) (ctx_rank ctx)
  | InterNode a b _ _ _ =>
      empty_ok (ctx_num_ranks ctx * shape0 a) (shape0 b)
      && subscript_ok (len_workspace_tensors h) (ctx_local_rank ctx)
      && subscript_ok (len_barrier_tensors h) (ctx_local_rank ctx)
      && subscript_ok (barrier_numel h) (ctx_rank ctx)
  end.

(** A call of an entry point on a context object that may have been
    updated: what it does, its outcome, and the context as the call
    leaves it.  A call that raises before [ctx.phase += 2] leaves the
    context as it found it; [barrier_ptr[rank]] raises after
    [local_copy_and_barrier_all] has been handed the phase and has
    launched [copy_kernel]. *)
Definition call_on (multi_processor_count : Z) (h : tensors) (c : call)
    (ctx : AllGatherGEMMTensorParallelContext)
    : (list work * result unit) * AllGatherGEMMTensorParallelContext :=
  match c with
  | IntraNode a b persistent =>
      if negb (empty_ok (ctx_num_ranks ctx * shape0 a) (shape0 b)) then
        (([], Raise RuntimeError), ctx)
      else if negb (subscript_ok (len_workspace_tensors h) (ctx_rank ctx))
      then (([], Raise IndexError), ctx)
      else if negb (subscript_ok (len_barrier_tensors h) (ctx_rank ctx))
      then (([], Raise IndexError), ctx)
      else ag_gemm_intra_node_with multi_processor_count a b ctx persistent
  | InterNode a b local_world_size signal_target persistent =>
      if negb (empty_ok (ctx_num_ranks ctx * shape0 a) (shape0 b)) then
        (([], Raise RuntimeError), ctx)
      else if negb (subscript_ok (len_workspace_tensors h)
                                 (ctx_local_rank ctx))
      then (([], Raise IndexError), ctx)
      else if negb (subscript_ok (len_barrier_tensors h)
                                 (ctx_local_rank ctx))
      then (([], Raise IndexError), ctx)
      else if negb (subscript_ok (barrier_numel h) (ctx_rank ctx)) then
        (([CallLocalCopyAndBarrierAll (ctx_phase ctx) true;
           BarrierAllOnStream; FillBarrier;
           LaunchCopyKernel (ctx_rank ctx) (shape0 a) (shape1 a)],
          Raise IndexError), ctx)
      else ag_gemm_inter_node_with multi_processor_count a b ctx
             local_world_size signal_target persistent
  end.

(** What is kept of a call: the call, the context it found, what it
    did, its outcome and the context it left. *)
Record outcome := {
  oc_call : call;
  oc_found : AllGatherGEMMTensorParallelContext;
  oc_work : list work;
  oc_result : result unit;
  oc_left : AllGatherGEMMTensorParallelContext
}.

(** A sequence of actions on one context object: the calls in call
    order, and the context at the end. *)
Fixpoint run_actions (multi_processor_count : Z) (h : tensors)
    (acts : list action) (ctx : AllGatherGEMMTensorParallelContext)
    : list outcome * AllGatherGEMMTensorParallelContext :=
  match acts with
  | [] => ([], ctx)
  | Call c :: rest =>
      let '((w, r), ctx') := call_on multi_processor_count h c ctx in
      let '(os, ctx'') := run_actions multi_processor_count h rest ctx' in
      ({| oc_call := c; oc_found := ctx; oc_work := w; oc_result := r;
          oc_left := ctx' |} :: os, ctx'')
  | Update rank num_ranks num_local_ranks serial autotune :: rest =>
      run_actions multi_processor_count h rest
        (update ctx rank num_ranks num_local_ranks serial autotune)
  end.

(** The calls that got as far as [ctx.phase += 2]. *)
Definition through (h : tensors) (o : outcome) : bool :=
  reaches_bump h (oc_call o) (oc_found o).

End Context.

(** ** The barrier calls of the fused copy kernel *)




(** ** The reference result *)

(** Element [(i, j)] of the view of [buf] with strides [(s0, s1)]. *)
Definition at2 (buf : Tl.buffer) (s0 s1 i j : Z) : Z := buf (i * s0 + j * s1).

(** The dense product of [A] with the transpose of [B] ([B] stored as
    [N, K]): [sum over k < K of A[i][k] * B[j][k]]. *)
Definition reference (A B : Z -> Z -> Z) (K i j : Z) : Z :=
  Tl.sumZ K (fun k => A i k * B j k).

(** The row-wise concatenation, in rank order, of the ranks' shards of
    [M_per_rank] rows each. *)
Definition concat_shards (shard : Z -> Z -> Z -> Z) (M_per_rank : Z)
    : Z -> Z -> Z :=
  fun i k => shard (i / M_per_rank) (i mod M_per_rank) k.

(** ** The scenario of the specification

    Two ranks with shards of two rows, [K = 4], [N_per_rank = 2]:
    rank 0 holds [[1,2,3,4],[5,6,7,8]], rank 1 holds
    [[9,10,11,12],[13,14,15,16]], and B is [[1,0,0,1],[0,1,1,0]]. *)

Module Scenario.

Definition shard (r i k : Z) : Z := (r * 2 + i) * 4 + k + 1.

(** The workspace once gathered: the 4 x 4 matrix of 1 .. 16, row-major. *)
Definition workspace : Tl.buffer := fun q => q + 1.

Definition B : Tl.buffer :=
  fun q => nth (Z.to_nat q) [1; 0; 0; 1; 0; 1; 1; 0] 0.

Definition non_persistent (rank BLOCK_SIZE_M BLOCK_SIZE_N : Z)
    : NonPersistent.args := {|
  NonPersistent.a_ptr := workspace; NonPersistent.b_ptr := B;
  NonPersistent.M := 4; NonPersistent.N := 2; NonPersistent.K := 4;
  NonPersistent.stride_am := 4; NonPersistent.stride_ak := 1;
  NonPersistent.stride_bk := 1; NonPersistent.stride_bn := 4;
  NonPersistent.stride_cm := 2; NonPersistent.stride_cn := 1;
  NonPersistent.rank := rank; NonPersistent.WORLD_SIZE := 2;
  NonPersistent.barrier_ptr := fun _ => 1;
  NonPersistent.BLOCK_SIZE_M := BLOCK_SIZE_M;
  NonPersistent.BLOCK_SIZE_N := BLOCK_SIZE_N;
  NonPersistent.BLOCK_SIZE_K := 3; NonPersistent.GROUP_SIZE_M := 8 |}.

(** One node of two ranks. *)
Definition persistent (rank : Z) : Persistent.args := {|
  Persistent.a_ptr := workspace; Persistent.b_ptr := B;
  Persistent.M := 4; Persistent.N := 2; Persistent.K := 4;
  Persistent.rank := rank; Persistent.num_ranks := 2;
  Persistent.ready_ptr := fun _ => 1;
  Persistent.BLOCK_SIZE_M := 2; Persistent.BLOCK_SIZE_N := 2;
  Persistent.BLOCK_SIZE_K := 3; Persistent.GROUP_SIZE_M := 8;
  Persistent.EPILOGUE_SUBTILE := false;
  Persistent.NUM_SMS := 3; Persistent.ready_value := 1;
  Persistent.LOCAL_WORLD_SIZE := 2 |}.

(** Two nodes of two ranks each, shards of two rows. *)
Definition two_nodes (rank : Z) : Persistent.args := {|
  Persistent.a_ptr := workspace; Persistent.b_ptr := B;
  Persistent.M := 8; Persistent.N := 2; Persistent.K := 4;
  Persistent.rank := rank; Persistent.num_ranks := 4;
  Persistent.ready_ptr := fun _ => 1;
  Persistent.BLOCK_SIZE_M := 2; Persistent.BLOCK_SIZE_N := 2;
  Persistent.BLOCK_SIZE_K := 3; Persistent.GROUP_SIZE_M := 8;
  Persistent.EPILOGUE_SUBTILE := false;
  Persistent.NUM_SMS := 3; Persistent.ready_value := 1;
  Persistent.LOCAL_WORLD_SIZE := 2 |}.

Definition tensor_A : Host.Tensor :=
  {| Host.shape0 := 2; Host.shape1 := 4; Host.tensor_dtype := Host.float16 |}.
Definition tensor_B : Host.Tensor :=
  {| Host.shape0 := 2; Host.shape1 := 4; Host.tensor_dtype := Host.float16 |}.
Definition tensor_B_wrong_K : Host.Tensor :=
  {| Host.shape0 := 2; Host.shape1 := 5; Host.tensor_dtype := Host.float16 |}.

(** The context [create_ag_gemm_intra_node_context] returns for rank 0. *)
Definition context : Host.AllGatherGEMMTensorParallelContext :=
  {| Host.ctx_rank := 0; Host.ctx_num_ranks := 2;
     Host.ctx_num_local_ranks := 2; Host.ctx_local_rank := 0;
     Host.ctx_serial := false; Host.ctx_autotune := false;
     Host.ctx_phase := 1 |}.

End Scenario.

(** ** [_kernel_consumer_gemm_non_persistent_repr] *)

Module Repr.
Import Host.
Local Open Scope string_scope.

(** [str(n)] for an [int], as an f-string prints it. *)
Definition str (n : Z) : string := NilZero.string_of_int (Z.to_int n).

(** [s.lstrip("*")]. *)
Fixpoint lstrip_star (s : string) : string :=
  match s with
  | String c rest => if Ascii.eqb c "*" then lstrip_star rest else s
  | EmptyString => EmptyString
  end.

(** What the function reads of [proxy]: the entries of
    [proxy.signature] and of [proxy.constants] it looks up.  The three
    pointers and the three block sizes are parameters of the kernel,
    so their entries exist; a stride is a key of the constants only
    when the launch made it one, and [None] stands for a stride that is
    not. *)
Record proxy := {
  signature_a_ptr : string;
  signature_b_ptr : string;
  signature_c_ptr : string;
  BLOCK_SIZE_M : Z;
  BLOCK_SIZE_N : Z;
  BLOCK_SIZE_K : Z;
  stride_am : option Z;
  stride_ak : option Z;
  stride_bk : option Z;
  stride_bn : option Z;
  stride_cm : option Z;
  stride_cn : option Z
}.

(** [constexprs.get(name, None) == 1]. *)
Definition is_one (v : option Z) : bool :=
  match v with Some n => (n =? 1)%Z | None => false end.

(** One of the three [if .. elif .. else: raise] blocks: the letter of
    a matrix from its two strides, the first one tested first. *)
Definition trans (first second : option Z) : result string :=
  if is_one first then Return "n"
  else if is_one second then Return "t"
  else Raise "Exception: both stride_am/stride_ak != 1".

Definition _kernel_consumer_gemm_non_persistent_repr
    (cap_major cap_minor : Z) (p : proxy) : result string :=
  let a_dtype := lstrip_star (signature_a_ptr p) in
  let b_dtype := lstrip_star (signature_b_ptr p) in
  let c_dtype := lstrip_star (signature_c_ptr p) in
  let BM := BLOCK_SIZE_M p in
  let BN := BLOCK_SIZE_N p in
  let BK := BLOCK_SIZE_K p in
  match trans (stride_am p) (stride_ak p) with
  | Raise e => Raise e
  | Return a_trans =>
      match trans (stride_bk p) (stride_bn p) with
      | Raise e => Raise e
      | Return b_trans =>
          match trans (stride_cm p) (stride_cn p) with
          | Raise e => Raise e
          | Return c_trans =>
              Return ("triton3x_sm" ++ str cap_major ++ str cap_minor
                      ++ "_ag_gemm_tensorop_" ++ a_dtype ++ "_" ++ b_dtype
                      ++ "_" ++ c_dtype ++ "_" ++ str BM ++ "x" ++ str BN
                      ++ "x" ++ str BK ++ "_" ++ a_trans ++ b_trans
                      ++ c_trans)
          end
      end
  end.

(** A string without the character [sep]. *)
Fixpoint free_of (sep : ascii) (s : string) : bool :=
  match s with
  | EmptyString => true
  | String c rest => negb (Ascii.eqb c sep) && free_of sep rest
  end.

End Repr.

(** ** [_matmul_launch_metadata] *)

Module Metadata.
Import Host.

(** The entries of [args] the function looks up, [None] for a name that
    is not a key: [M], [N] and [K] are integers, [c_ptr] is given by
    the [element_size()] of the tensor, and [FP8_OUTPUT] by its truth
    value. *)
Record launch_args := {
  arg_M : option Z;
  arg_N : option Z;
  arg_K : option Z;
  arg_c_ptr : option Z;
  arg_FP8_OUTPUT : option bool
}.

Definition KeyError (key : string) : string :=
  String.append "KeyError: " key.

Section WithFloat.

(** The floating-point numbers of Python, with the conversion of an
    [int] and the product. *)
Variable float : Type.
Variable float_of_int : Z -> float.
Variable fmul : float -> float -> float.
Variable two : float.

Inductive value :=
| Str (s : string)
| Int (n : Z)
| Float (x : float).

(** [d[key] = v] on a dict in insertion order. *)
Fixpoint dict_set (d : list (string * value)) (key : string) (v : value)
    : list (string * value) :=
  match d with
  | [] => [(key, v)]
  | (k, v') :: rest =>
      if String.eqb k key then (k, v) :: rest
      else (k, v') :: dict_set rest key v
  end.

Definition _matmul_launch_metadata (kernel_name : string)
    (args : launch_args) : result (list (string * value)) :=
  let ret := [] in
  match arg_M args with
  | None => Raise (KeyError "M")
  | Some M =>
  match arg_N args with
  | None => Raise (KeyError "N")
  | Some N =>
  match arg_K args with
  | None => Raise (KeyError "K")
  | Some K =>
      let ret :=
        dict_set ret "name"
          (Str (kernel_name ++ " [M=" ++ Repr.str M ++ ", N=" ++ Repr.str N
                ++ ", K=" ++ Repr.str K ++ "]")%string) in
      let bytes_per_elem :=
        match arg_c_ptr args with
        | Some element_size => Some element_size
        | None =>
            match arg_FP8_OUTPUT args with
            | Some fp8 => Some (if fp8 then 1 else 2)
            | None => None
            end
        end in
      match bytes_per_elem with
      | None => Raise (KeyError "FP8_OUTPUT")
      | Some bytes_per_elem =>
          let ret :=
            dict_set ret
              (String.append "flops" (Repr.str (bytes_per_elem * 8)))
              (Float (fmul (fmul (fmul two (float_of_int M))
                                 (float_of_int N))
                           (float_of_int K))) in
          let ret :=
            dict_set ret "bytes"
              (Int (bytes_per_elem * (M * K + N * K + M * N))) in
          Return ret
      end
  end end end.

End WithFloat.

Arguments Str {float} s.
Arguments Int {float} n.
Arguments Float {float} x.

End Metadata.

(** ** Further concrete inputs *)

Module Examples.

(** The scenario with an empty inner dimension. *)
Definition empty_K_non_persistent : NonPersistent.args := {|
  NonPersistent.a_ptr := Scenario.workspace; NonPersistent.b_ptr := Scenario.B;
  NonPersistent.M := 4; NonPersistent.N := 2; NonPersistent.K := 0;
  NonPersistent.stride_am := 1; NonPersistent.stride_ak := 1;
  NonPersistent.stride_bk := 1; NonPersistent.stride_bn := 1;
  NonPersistent.stride_cm := 2; NonPersistent.stride_cn := 1;
  NonPersistent.rank := 1; NonPersistent.WORLD_SIZE := 2;
  NonPersistent.barrier_ptr := fun _ => 1;
  NonPersistent.BLOCK_SIZE_M := 2; NonPersistent.BLOCK_SIZE_N := 2;
  NonPersistent.BLOCK_SIZE_K := 3; NonPersistent.GROUP_SIZE_M := 8 |}.

Definition empty_K_persistent : Persistent.args := {|
  Persistent.a_ptr := Scenario.workspace; Persistent.b_ptr := Scenario.B;
  Persistent.M := 4; Persistent.N := 2; Persistent.K := 0;
  Persistent.rank := 1; Persistent.num_ranks := 2;
  Persistent.ready_ptr := fun _ => 0;
  Persistent.BLOCK_SIZE_M := 2; Persistent.BLOCK_SIZE_N := 2;
  Persistent.BLOCK_SIZE_K := 3; Persistent.GROUP_SIZE_M := 8;
  Persistent.EPILOGUE_SUBTILE := false;
  Persistent.NUM_SMS := 3; Persistent.ready_value := 1;
  Persistent.LOCAL_WORLD_SIZE := 2 |}.

(** The shard of rank 1, B, and the workspace of the scenario as
    tensors on the device. *)
Definition shard_a : Launches.DeviceTensor :=
  {| Launches.data := fun q => q + 9; Launches.shape0 := 2;
     Launches.shape1 := 4; Launches.stride0 := 4; Launches.stride1 := 1 |}.
Definition tensor_b : Launches.DeviceTensor :=
  {| Launches.data := Scenario.B; Launches.shape0 := 2;
     Launches.shape1 := 4; Launches.stride0 := 4; Launches.stride1 := 1 |}.
Definition workspace : Launches.DeviceTensor :=
  {| Launches.data := Scenario.workspace; Launches.shape0 := 16384;
     Launches.shape1 := 4; Launches.stride0 := 4; Launches.stride1 := 1 |}.

(** A whole A of [rows] rows: the first rows of the workspace. *)
Definition whole_a (rows : Z) : Launches.DeviceTensor :=
  {| Launches.data := Scenario.workspace; Launches.shape0 := rows;
     Launches.shape1 := 4; Launches.stride0 := 4; Launches.stride1 := 1 |}.

(** The context of rank 1 on one node of eight ranks. *)
Definition context_of_eight : Host.AllGatherGEMMTensorParallelContext :=
  {| Host.ctx_rank := 1; Host.ctx_num_ranks := 8;
     Host.ctx_num_local_ranks := 8; Host.ctx_local_rank := 1;
     Host.ctx_serial := false; Host.ctx_autotune := false;
     Host.ctx_phase := 1 |}.



(** The non-persistent kernel as the op launches it on contiguous
    [float16] operands with the default blocks: the unit strides are
    constants, the others are not. *)
Definition proxy : Repr.proxy :=
  {| Repr.signature_a_ptr := "*fp16"; Repr.signature_b_ptr := "*fp16";
     Repr.signature_c_ptr := "*fp16";
     Repr.BLOCK_SIZE_M := 128; Repr.BLOCK_SIZE_N := 256;
     Repr.BLOCK_SIZE_K := 64;
     Repr.stride_am := None; Repr.stride_ak := Some 1;
     Repr.stride_bk := Some 1; Repr.stride_bn := None;
     Repr.stride_cm := None; Repr.stride_cn := Some 1 |}.

(** The workspace of the scenario before the shard of rank 0 has
    arrived: its two rows hold zeros. *)
Definition workspace_without_rank_0 : Tl.buffer :=
  fun q => if q <? 8 then 0 else q + 1.

(** The first configuration of [matmul_get_configs]. *)
Definition config : Autotune.Config :=
  {| Autotune.BLOCK_SIZE_M := 128; Autotune.BLOCK_SIZE_N := 128;
     Autotune.BLOCK_SIZE_K := 64; Autotune.GROUP_SIZE_M := 8;
     Autotune.num_stages := 3; Autotune.num_warps := 4 |}.

(** A contiguous tensor of [rows] x [cols] elements that holds ones. *)
Definition ones (rows cols : Z) : Launches.DeviceTensor :=
  {| Launches.data := fun _ => 1; Launches.shape0 := rows;
     Launches.shape1 := cols; Launches.stride0 := cols;
     Launches.stride1 := 1 |}.

(** The context of rank 9 on two nodes of eight ranks, without
    autotune. *)
Definition context_of_rank_9 : Host.AllGatherGEMMTensorParallelContext :=
  {| Host.ctx_rank := 9; Host.ctx_num_ranks := 16;
     Host.ctx_num_local_ranks := 8; Host.ctx_local_rank := 1;
     Host.ctx_serial := false; Host.ctx_autotune := false;
     Host.ctx_phase := 1 |}.

(** The GEMM launch of [ag_gemm_inter_node] with [persistent] set on
    that rank, for a shard of 64 rows and a B of 256 rows with 64
    columns each, all ones: [M = 1024], [N = 256], [K = 64], blocks of
    128 x 256 x 64, every flag set. *)
Definition sixteen_ranks_persistent : Persistent.args :=
  Launches.ag_gemm_inter_node_persistent 132 (ones 64 64) (ones 256 64)
    (ones 16384 64) (fun _ => 1) context_of_rank_9 config 8 1.

(** The GEMM launch of [ag_gemm_intra_node] with [persistent] unset on
    the same context and operands, on a C of zeros. *)
Definition sixteen_ranks_non_persistent : NonPersistent.args :=
  Launches.ag_gemm_intra_node_non_persistent (ones 64 64) (ones 256 64)
    (ones 16384 64) (fun _ => 1) (fun _ => 0) context_of_rank_9 config.

(** The persistent kernel on rank 0 of 20 ranks, with one row per rank
    and row tiles of one row, on [NUM_SMS] units. *)
Definition twenty_ranks (NUM_SMS : Z) : Persistent.args := {|
  Persistent.a_ptr := fun _ => 1; Persistent.b_ptr := fun _ => 1;
  Persistent.M := 20; Persistent.N := 20; Persistent.K := 1;
  Persistent.rank := 0; Persistent.num_ranks := 20;
  Persistent.ready_ptr := fun _ => 1;
  Persistent.BLOCK_SIZE_M := 1; Persistent.BLOCK_SIZE_N := 20;
  Persistent.BLOCK_SIZE_K := 1; Persistent.GROUP_SIZE_M := 8;
  Persistent.EPILOGUE_SUBTILE := false;
  Persistent.NUM_SMS := NUM_SMS; Persistent.ready_value := 1;
  Persistent.LOCAL_WORLD_SIZE := 8 |}.


End Examples.

(** ** Basic facts *)

Lemma In_arange (n x : Z) : In x (Tl.arange n) <-> 0 <= x < n.
Proof.
  unfold Tl.arange. rewrite in_map_iff. split.
  - intros [k [<- Hk]]. apply in_seq in Hk. lia.
  - intros H. exists (Z.to_nat x). split; [lia|]. apply in_seq. lia.
Qed.

Lemma In_lanes (rows cols i j : Z) :
  In (i, j) (Tl.lanes rows cols) <-> (0 <= i < rows /\ 0 <= j < cols).
Proof.
  unfold Tl.lanes. rewrite in_prod_iff, !In_arange. tauto.
Qed.

Lemma store_miss buf rows cols ptrs vals mask q :
  (forall i j, 0 <= i < rows -> 0 <= j < cols -> mask i j = true ->
               ptrs i j <> q) ->
  Tl.store buf rows cols ptrs vals mask q = buf q.
Proof.
  intros H. unfold Tl.store.
  destruct (find _ _) as [[i j]|] eqn:E; [|reflexivity].
  apply find_some in E. destruct E as [Hin Hb]. simpl in Hb.
  apply In_lanes in Hin. apply andb_true_iff in Hb. destruct Hb as [Hm Hp].
  apply Z.eqb_eq in Hp. exfalso. apply (H i j); tauto.
Qed.

Lemma store_hit buf rows cols ptrs vals mask i j :
  0 <= i < rows -> 0 <= j < cols -> mask i j = true ->
  (forall i' j', 0 <= i' < rows -> 0 <= j' < cols -> mask i' j' = true ->
                 ptrs i' j' = ptrs i j -> vals i' j' = vals i j) ->
  Tl.store buf rows cols ptrs vals mask (ptrs i j) = vals i j.
Proof.
  intros Hi Hj Hm Hc. unfold Tl.store.
  destruct (find _ _) as [[i' j']|] eqn:E.
  - apply find_some in E. destruct E as [Hin Hb]. simpl in Hb |- *.
    apply In_lanes in Hin. apply andb_true_iff in Hb. destruct Hb as [Hm' Hp].
    apply Z.eqb_eq in Hp. apply Hc; tauto.
  - exfalso.
    assert (Hin : In (i, j) (Tl.lanes rows cols)) by (apply In_lanes; tauto).
    pose proof (find_none _ _ E _ Hin) as Hn. simpl in Hn.
    rewrite Hm, Z.eqb_refl in Hn. discriminate.
Qed.

(** What a store writes, as a partial map from offsets to values. *)
Lemma store_cases buf rows cols ptrs vals mask q :
  (Tl.store buf rows cols ptrs vals mask q = buf q /\
   forall i j, 0 <= i < rows -> 0 <= j < cols -> mask i j = true ->
               ptrs i j <> q)
  \/ exists i j, 0 <= i < rows /\ 0 <= j < cols /\ mask i j = true /\
                 ptrs i j = q /\
                 Tl.store buf rows cols ptrs vals mask q = vals i j.
Proof.
  unfold Tl.store.
  destruct (find _ _) as [[i j]|] eqn:E.
  - right. apply find_some in E. destruct E as [Hin Hb]. simpl in Hb.
    apply In_lanes in Hin. apply andb_true_iff in Hb. destruct Hb as [Hm Hp].
    apply Z.eqb_eq in Hp. exists i, j. simpl. tauto.
  - left. split; [reflexivity|]. intros i j Hi Hj Hm Hp.
    assert (Hin : In (i, j) (Tl.lanes rows cols)) by (apply In_lanes; tauto).
    pose proof (find_none _ _ E _ Hin) as Hn. simpl in Hn.
    rewrite Hm in Hn. simpl in Hn. apply Z.eqb_neq in Hn. contradiction.
Qed.

(** A launch whose programs only ever write a value that is right for
    the offset they write leaves every offset either untouched or right. *)
Lemma launch_untouched kernel sched buf q :
  (forall pid b, In pid sched -> kernel pid b q = b q) ->
  launch kernel sched buf q = buf q.
Proof.
  unfold launch. revert buf. induction sched as [|p l IH]; intros buf H; simpl.
  - reflexivity.
  - rewrite IH.
    + apply H. now left.
    + intros pid b Hin. apply H. now right.
Qed.

Lemma launch_written kernel sched buf q v :
  (forall pid b, In pid sched -> kernel pid b q = b q \/ kernel pid b q = v) ->
  (exists pid, In pid sched /\ forall b, kernel pid b q = v) ->
  launch kernel sched buf q = v.
Proof.
  unfold launch. revert buf.
  induction sched as [|p l IH]; intros buf Hall [pid [Hin Hw]].
  - destruct Hin.
  - simpl.
    assert (Hkeep : forall l' b, (forall pid b, In pid l' ->
                kernel pid b q = b q \/ kernel pid b q = v) ->
              b q = v ->
              fold_left (fun b pid => kernel pid b) l' b q = v).
    { clear. induction l' as [|p' l' IH']; intros b Hall Hb; simpl; [exact Hb|].
      apply IH'.
      - intros pid b' Hin. apply Hall. now right.
      - destruct (Hall p' b (or_introl eq_refl)) as [E|E]; congruence. }
    destruct Hin as [<-|Hin].
    + apply Hkeep.
      * intros pid' b Hin'. apply Hall. now right.
      * apply Hw.
    + apply IH.
      * intros pid' b Hin'. apply Hall. now right.
      * exists pid. split; assumption.
Qed.

(** ** Ceiling division *)

Lemma cdiv_nonneg x d : 0 < d -> 0 <= x -> 0 <= Tl.cdiv x d.
Proof. intros Hd Hx. unfold Tl.cdiv. apply Z.div_pos; lia. Qed.

Lemma cdiv_pos x d : 0 < d -> 0 < x -> 0 < Tl.cdiv x d.
Proof.
  intros Hd Hx. unfold Tl.cdiv.
  apply Z.div_str_pos. lia.
Qed.

Lemma div_lt_cdiv x d i : 0 < d -> 0 <= i < x -> i / d < Tl.cdiv x d.
Proof.
  intros Hd Hi. unfold Tl.cdiv.
  apply Z.div_lt_upper_bound; [lia|].
  pose proof (Z.mod_pos_bound (x + d - 1) d Hd).
  pose proof (Z.div_mod (x + d - 1) d ltac:(lia)). lia.
Qed.

Lemma cdiv_mul_ge x d : 0 < d -> x <= Tl.cdiv x d * d.
Proof.
  intros Hd. unfold Tl.cdiv.
  pose proof (Z.mod_pos_bound (x + d - 1) d Hd).
  pose proof (Z.div_mod (x + d - 1) d ltac:(lia)). lia.
Qed.

Lemma lt_cdiv_mul x d t : 0 < d -> 0 <= t < Tl.cdiv x d -> t * d < x.
Proof.
  intros Hd Ht. unfold Tl.cdiv in *.
  pose proof (Z.mod_pos_bound (x + d - 1) d Hd).
  pose proof (Z.div_mod (x + d - 1) d ltac:(lia)). nia.
Qed.

Lemma cdiv_exact q d : 0 < d -> Tl.cdiv (q * d) d = q.
Proof.
  intros Hd. unfold Tl.cdiv.
  replace (q * d + d - 1) with (d - 1 + q * d) by lia.
  rewrite Z.div_add by lia. rewrite Z.div_small; lia.
Qed.

(** Quotient and remainder of [q * d + r]. *)
Lemma div_mul_add q d r : 0 <= r < d -> (q * d + r) / d = q.
Proof.
  intros Hr. symmetry. apply (Z.div_unique_pos _ _ q r); lia.
Qed.

Lemma mod_mul_add q d r : 0 <= r < d -> (q * d + r) mod d = r.
Proof.
  intros Hr. symmetry. apply (Z.mod_unique_pos _ _ q r); lia.
Qed.

(** Row-major offsets determine their indices. *)
Lemma row_major_inj n i j i' j' :
  0 <= j < n -> 0 <= j' < n -> i * n + j = i' * n + j' -> i = i' /\ j = j'.
Proof.
  intros Hj Hj' E.
  assert (Ei : i = i').
  { rewrite <- (div_mul_add i n j Hj), <- (div_mul_add i' n j' Hj'), E.
    reflexivity. }
  subst i'. split; [reflexivity|lia].
Qed.

Lemma row_major_dense rows cols sm :
  cols <= sm -> dense_view rows cols sm 1.
Proof.
  intros H i j i' j' Hi Hj Hi' Hj' E.
  apply (row_major_inj sm); lia.
Qed.

(** ** [copy_kernel] writes the rows of its rank and nothing else *)

Section CopyKernel.

Variables (undef rank : Z) (local_buf : Tl.buffer).
Variables (M_per_rank N sl_m sl_n sg_m sg_n BM BN : Z).
Hypothesis HBM : 0 < BM.
Hypothesis HBN : 0 < BN.
Hypothesis HMpr : 0 <= M_per_rank.

Let program (pid : Z) (g : Tl.buffer) : Tl.buffer :=
  copy_kernel undef pid rank local_buf g M_per_rank N sl_m sl_n sg_m sg_n
              BM BN.

Lemma copy_kernel_cases pid g q :
  0 <= pid < copy_grid M_per_rank N BM BN ->
  program pid g q = g q \/
  exists i j, 0 <= i < M_per_rank /\ 0 <= j < N /\
              q = (rank * M_per_rank + i) * sg_m + j * sg_n /\
              program pid g q = local_buf (i * sl_m + j * sl_n).
Proof.
  intros Hpid. unfold program, copy_kernel.
  set (npn := Tl.cdiv N BN).
  assert (Hnpn : 0 < npn).
  { unfold copy_grid in Hpid. fold npn in Hpid.
    destruct (Z_lt_le_dec 0 npn) as [|Hle]; [assumption|].
    pose proof (cdiv_nonneg M_per_rank BM HBM HMpr). nia. }
  assert (Hpm : 0 <= pid / npn) by (apply Z.div_pos; lia).
  pose proof (Z.mod_pos_bound pid npn Hnpn) as Hpn.
  match goal with
  | |- context [Tl.store g BM BN ?p ?v ?m] =>
      destruct (store_cases g BM BN p v m q)
        as [[E _]|[i [j [Hi [Hj [Hm [Hp E]]]]]]]
  end.
  - left. exact E.
  - right. apply andb_true_iff in Hm. destruct Hm as [Hm1 Hm2].
    apply Z.ltb_lt in Hm1, Hm2.
    exists (pid / npn * BM + i), (pid mod npn * BN + j).
    split; [nia|]. split; [nia|]. split.
    + rewrite <- Hp. ring.
    + rewrite E. unfold Tl.load.
      apply Z.ltb_lt in Hm1, Hm2. rewrite Hm1, Hm2. reflexivity.
Qed.

Lemma copy_kernel_covers max_M i j g :
  0 <= rank -> (rank + 1) * M_per_rank <= max_M ->
  dense_view max_M N sg_m sg_n ->
  0 <= i < M_per_rank -> 0 <= j < N ->
  program (i / BM * Tl.cdiv N BN + j / BN) g
    ((rank * M_per_rank + i) * sg_m + j * sg_n)
  = local_buf (i * sl_m + j * sl_n).
Proof.
  intros Hr Hmax Hdense Hi Hj. unfold program, copy_kernel.
  set (npn := Tl.cdiv N BN).
  assert (Hjn : 0 <= j / BN < npn).
  { split; [apply Z.div_pos; lia|]. apply div_lt_cdiv; lia. }
  rewrite (div_mul_add (i / BM) npn (j / BN) Hjn).
  rewrite (mod_mul_add (i / BM) npn (j / BN) Hjn).
  pose proof (Z.div_mod i BM ltac:(lia)) as Ei.
  pose proof (Z.mod_pos_bound i BM HBM) as Bi.
  pose proof (Z.div_mod j BN ltac:(lia)) as Ej.
  pose proof (Z.mod_pos_bound j BN HBN) as Bj.
  assert (Ri : i / BM * BM + i mod BM = i) by lia.
  assert (Rj : j / BN * BN + j mod BN = j) by lia.
  assert (Hti : (i / BM * BM + i mod BM <? M_per_rank) = true)
    by (apply Z.ltb_lt; lia).
  assert (Htj : (j / BN * BN + j mod BN <? N) = true)
    by (apply Z.ltb_lt; lia).
  match goal with
  | |- Tl.store g BM BN ?p ?v ?m ?q = _ =>
      set (P := p); set (V := v); set (Mk := m);
      replace q with (P (i mod BM) (j mod BN)) by (unfold P; nia)
  end.
  assert (Hm : Mk (i mod BM) (j mod BN) = true)
    by (unfold Mk; rewrite Hti, Htj; reflexivity).
  rewrite store_hit; try assumption.
  - unfold V, Tl.load. fold (Mk (i mod BM) (j mod BN)). rewrite Hm.
    f_equal. nia.
  - intros i' j' Hi' Hj' Hm' Hp. unfold V, Tl.load.
    fold (Mk i' j'). fold (Mk (i mod BM) (j mod BN)). rewrite Hm, Hm'.
    unfold Mk in Hm'. apply andb_true_iff in Hm'. destruct Hm' as [Hm1 Hm2].
    apply Z.ltb_lt in Hm1, Hm2. unfold P in Hp.
    assert (H0 : 0 <= i / BM) by (apply Z.div_pos; lia).
    assert (H1 : 0 <= j / BN) by (apply Z.div_pos; lia).
    destruct (Hdense (rank * M_per_rank + i / BM * BM + i') (j / BN * BN + j')
                (rank * M_per_rank + i / BM * BM + i mod BM)
                (j / BN * BN + j mod BN)) as [E1 E2]; try nia.
    replace i' with (i mod BM) by lia. replace j' with (j mod BN) by lia.
    reflexivity.
Qed.

End CopyKernel.

(** C10.  Launched over its grid for rank [rank], [copy_kernel] leaves
    the workspace with rows [rank * M_per_rank .. (rank+1) * M_per_rank)
    equal to the local buffer, element for element; every element of
    the workspace in another row keeps its value; and no offset other
    than those of the owned rows is written at all. *)
Theorem copy_kernel_owned_rows
    (undef rank : Z) (local_buf global_buf : Tl.buffer)
    (M_per_rank N sl_m sl_n sg_m sg_n BM BN max_M : Z) (sched : list Z) :
  0 < BM -> 0 < BN -> 0 <= rank -> 0 <= M_per_rank ->
  (rank + 1) * M_per_rank <= max_M ->
  dense_view max_M N sg_m sg_n ->
  (forall pid, In pid sched <-> 0 <= pid < copy_grid M_per_rank N BM BN) ->
  let global' :=
    launch (fun pid g => copy_kernel undef pid rank local_buf g M_per_rank N
                                     sl_m sl_n sg_m sg_n BM BN)
           sched global_buf in
  (forall i j, 0 <= i < M_per_rank -> 0 <= j < N ->
     global' ((rank * M_per_rank + i) * sg_m + j * sg_n)
     = local_buf (i * sl_m + j * sl_n))
  /\ (forall i j, 0 <= i < max_M -> 0 <= j < N ->
        ~ (rank * M_per_rank <= i < (rank + 1) * M_per_rank) ->
        global' (i * sg_m + j * sg_n) = global_buf (i * sg_m + j * sg_n))
  /\ (forall q,
        (forall i j, 0 <= i < M_per_rank -> 0 <= j < N ->
                     q <> (rank * M_per_rank + i) * sg_m + j * sg_n) ->
        global' q = global_buf q).
Proof.
  intros HBM HBN Hr HM Hmax Hdense Hsched global'.
  assert (Hframe : forall q,
        (forall i j, 0 <= i < M_per_rank -> 0 <= j < N ->
                     q <> (rank * M_per_rank + i) * sg_m + j * sg_n) ->
        global' q = global_buf q).
  { intros q Hq. unfold global'. apply launch_untouched.
    intros pid b Hin. apply Hsched in Hin.
    destruct (copy_kernel_cases undef rank local_buf M_per_rank N sl_m sl_n
                sg_m sg_n BM BN HBM HBN HM pid b q Hin)
      as [E|[i [j [Hi [Hj [Eq _]]]]]]; [exact E|].
    exfalso. exact (Hq i j Hi Hj Eq). }
  split; [|split; [|exact Hframe]].
  - intros i j Hi Hj. unfold global'. apply launch_written.
    + intros pid b Hin. apply Hsched in Hin.
      destruct (copy_kernel_cases undef rank local_buf M_per_rank N sl_m sl_n
                  sg_m sg_n BM BN HBM HBN HM pid b
                  ((rank * M_per_rank + i) * sg_m + j * sg_n) Hin)
        as [E|[i' [j' [Hi' [Hj' [Eq E]]]]]]; [left; exact E|].
      right. rewrite E.
      destruct (Hdense (rank * M_per_rank + i) j (rank * M_per_rank + i') j')
        as [E1 E2]; try nia.
      replace i' with i by lia. rewrite E2. reflexivity.
    + exists (i / BM * Tl.cdiv N BN + j / BN). split.
      * apply Hsched. unfold copy_grid.
        assert (0 <= i / BM < Tl.cdiv M_per_rank BM).
        { split; [apply Z.div_pos; lia|]. apply div_lt_cdiv; lia. }
        assert (0 <= j / BN < Tl.cdiv N BN).
        { split; [apply Z.div_pos; lia|]. apply div_lt_cdiv; lia. }
        nia.
      * intros b.
        apply (copy_kernel_covers undef rank local_buf M_per_rank N sl_m sl_n
                 sg_m sg_n BM BN HBM HBN HM max_M); assumption.
  - intros i j Hi Hj Hout. apply Hframe.
    intros i' j' Hi' Hj' Eq.
    destruct (Hdense i j (rank * M_per_rank + i') j') as [E1 E2]; try nia.
Qed.

(** ** The grouped ordering *)

(** A linear id [t] below [P * Q] lies in group [t / (G * Q)], whose
    first row tile is below [P] and whose [s] row tiles hold [s * Q]
    ids. *)
Lemma group_decomp P Q G t :
  0 < P -> 0 < Q -> 0 < G -> 0 <= t < P * Q ->
  let g := t / (G * Q) in
  let s := Z.min (P - g * G) G in
  0 <= g /\ g * G < P /\ 0 < s <= G /\ 0 <= t mod (G * Q) < s * Q
  /\ t = g * (G * Q) + t mod (G * Q).
Proof.
  intros HP HQ HG Ht g s.
  assert (HW : 0 < G * Q) by nia.
  pose proof (Z.div_mod t (G * Q) ltac:(lia)) as E.
  pose proof (Z.mod_pos_bound t (G * Q) HW) as B.
  fold g in E.
  assert (Hg : 0 <= g) by (apply Z.div_pos; lia).
  assert (Hf : g * G < P) by nia.
  assert (Hs : s = G \/ s = P - g * G) by (unfold s; lia).
  destruct Hs as [Hs | Hs]; repeat split; try lia; nia.
Qed.

(** Rotation of [0 .. P) by a fixed amount is inverted by the opposite
    rotation. *)
Lemma rotate_back P m off :
  0 < P -> 0 <= m < P -> ((m - off) mod P + off) mod P = m.
Proof.
  intros HP Hm. rewrite Zplus_mod_idemp_l.
  replace (m - off + off) with m by lia. apply Z.mod_small. lia.
Qed.

Lemma rotate_forth P m off :
  0 < P -> 0 <= m < P -> ((m + off) mod P - off) mod P = m.
Proof.
  intros HP Hm. rewrite Zminus_mod_idemp_l.
  replace (m + off - off) with m by lia. apply Z.mod_small. lia.
Qed.

Section NonPersistentTiles.

Variable cfg : NonPersistent.args.

Local Abbreviation M := (NonPersistent.M cfg).
Local Abbreviation N := (NonPersistent.N cfg).
Local Abbreviation BM := (NonPersistent.BLOCK_SIZE_M cfg).
Local Abbreviation BN := (NonPersistent.BLOCK_SIZE_N cfg).
Local Abbreviation G := (NonPersistent.GROUP_SIZE_M cfg).

Hypothesis HM : 0 < M.
Hypothesis HN : 0 < N.
Hypothesis HBM : 0 < BM.
Hypothesis HBN : 0 < BN.
Hypothesis HG : 0 < G.

Local Abbreviation P := (NonPersistent.num_pid_m cfg).
Local Abbreviation Q := (NonPersistent.num_pid_n cfg).
Local Abbreviation gpid_m := (NonPersistent.grouped_pid_m cfg).
Local Abbreviation fpid_m := (NonPersistent.pid_m cfg).
Local Abbreviation fpid_n := (NonPersistent.pid_n cfg).
Local Abbreviation inv := (NonPersistent.pid_of_tile cfg).

Lemma np_P_pos : 0 < P.
Proof. apply cdiv_pos; assumption. Qed.

Lemma np_Q_pos : 0 < Q.
Proof. apply cdiv_pos; assumption. Qed.

Lemma np_grouped_range t :
  0 <= t < P * Q ->
  t / (G * Q) * G <= gpid_m t
  /\ gpid_m t < t / (G * Q) * G + Z.min (P - t / (G * Q) * G) G
  /\ 0 <= fpid_n t < Q.
Proof.
  intros Ht.
  destruct (group_decomp P Q G t np_P_pos np_Q_pos HG Ht)
    as [Hg [Hf [Hs [Hr E]]]].
  unfold NonPersistent.grouped_pid_m, NonPersistent.pid_n,
    NonPersistent.group_size_m, NonPersistent.first_pid_m,
    NonPersistent.group_id, NonPersistent.num_pid_in_group.
  set (s := Z.min (P - t / (G * Q) * G) G) in *.
  set (r := t mod (G * Q)) in *.
  pose proof (Z.mod_pos_bound r s ltac:(lia)).
  assert (0 <= r / s) by (apply Z.div_pos; lia).
  assert (r / s < Q) by (apply Z.div_lt_upper_bound; nia).
  lia.
Qed.

Lemma np_tile_range t :
  0 <= t < P * Q -> 0 <= fpid_m t < P /\ 0 <= fpid_n t < Q.
Proof.
  intros Ht. split.
  - unfold NonPersistent.pid_m. apply Z.mod_pos_bound. apply np_P_pos.
  - apply np_grouped_range. assumption.
Qed.

Lemma np_grouped_mod_bounds t :
  0 <= t < P * Q -> 0 <= gpid_m t < P.
Proof.
  intros Ht.
  destruct (group_decomp P Q G t np_P_pos np_Q_pos HG Ht)
    as [Hg [Hf [Hs [Hr E]]]].
  pose proof (np_grouped_range t Ht) as [H1 [H2 _]].
  assert (Z.min (P - t / (G * Q) * G) G <= P - t / (G * Q) * G)
    by apply Z.le_min_l.
  nia.
Qed.

(** The id is recovered from the grouped row tile and the column tile. *)
Lemma np_grouped_inverse t :
  0 <= t < P * Q ->
  let m0 := gpid_m t in
  let g := m0 / G in
  t = g * (G * Q) + fpid_n t * Z.min (P - g * G) G + (m0 - g * G).
Proof.
  intros Ht m0 g.
  destruct (group_decomp P Q G t np_P_pos np_Q_pos HG Ht)
    as [Hg [Hf [Hs [Hr E]]]].
  pose proof (np_grouped_range t Ht) as [H1 [H2 _]].
  assert (Eg : g = t / (G * Q)).
  { unfold g, m0. symmetry.
    apply (Z.div_unique_pos _ _ _ (gpid_m t - t / (G * Q) * G)); lia. }
  rewrite Eg.
  unfold m0, NonPersistent.grouped_pid_m, NonPersistent.pid_n,
    NonPersistent.group_size_m, NonPersistent.first_pid_m,
    NonPersistent.group_id, NonPersistent.num_pid_in_group.
  set (s := Z.min (P - t / (G * Q) * G) G) in *.
  set (r := t mod (G * Q)) in *.
  pose proof (Z.div_mod r s ltac:(lia)). lia.
Qed.

Lemma np_pid_of_tile_spec m n :
  0 <= m < P -> 0 <= n < Q ->
  0 <= inv m n < P * Q /\ fpid_m (inv m n) = m /\ fpid_n (inv m n) = n.
Proof.
  intros Hm Hn.
  pose proof np_P_pos as HP. pose proof np_Q_pos as HQ.
  unfold NonPersistent.pid_of_tile.
  set (off := NonPersistent.pid_m_offset cfg).
  set (m0 := (m - off) mod P).
  assert (Hm0 : 0 <= m0 < P) by (apply Z.mod_pos_bound; lia).
  set (g := m0 / G).
  set (s := Z.min (P - g * G) G).
  unfold NonPersistent.num_pid_in_group.
  pose proof (Z.div_mod m0 G ltac:(lia)) as Em.
  pose proof (Z.mod_pos_bound m0 G HG) as Bm. fold g in Em.
  assert (Hg : 0 <= g) by (apply Z.div_pos; lia).
  assert (Hs : 0 < s <= G) by (unfold s; lia).
  assert (Hx : 0 <= m0 - g * G < s) by (unfold s; lia).
  assert (HsP : g * G + s <= P) by (unfold s; lia).
  set (r := n * s + (m0 - g * G)).
  assert (Hr : 0 <= r < s * Q) by (unfold r; nia).
  assert (HrW : 0 <= r < G * Q) by nia.
  replace (g * (G * Q) + n * s + (m0 - g * G)) with (g * (G * Q) + r)
    by (unfold r; lia).
  assert (Ediv : (g * (G * Q) + r) / (G * Q) = g) by (apply div_mul_add; lia).
  assert (Emod : (g * (G * Q) + r) mod (G * Q) = r)
    by (apply mod_mul_add; lia).
  assert (Egm : gpid_m (g * (G * Q) + r) = m0).
  { unfold NonPersistent.grouped_pid_m, NonPersistent.group_size_m,
      NonPersistent.first_pid_m, NonPersistent.group_id,
      NonPersistent.num_pid_in_group.
    rewrite Ediv, Emod. fold s. unfold r.
    rewrite (mod_mul_add n s (m0 - g * G) Hx). lia. }
  split; [nia|]. split.
  - unfold NonPersistent.pid_m. rewrite Egm. fold off. unfold m0.
    apply rotate_back; lia.
  - unfold NonPersistent.pid_n, NonPersistent.group_size_m,
      NonPersistent.first_pid_m, NonPersistent.group_id,
      NonPersistent.num_pid_in_group.
    rewrite Ediv, Emod. fold s. unfold r.
    apply div_mul_add. exact Hx.
Qed.

Lemma np_pid_of_tile_unique t :
  0 <= t < P * Q -> inv (fpid_m t) (fpid_n t) = t.
Proof.
  intros Ht.
  pose proof np_P_pos as HP.
  pose proof (np_grouped_mod_bounds t Ht) as Hm0.
  unfold NonPersistent.pid_of_tile, NonPersistent.pid_m.
  rewrite (rotate_forth P (gpid_m t) _ HP Hm0).
  unfold NonPersistent.num_pid_in_group.
  symmetry. apply np_grouped_inverse. exact Ht.
Qed.

End NonPersistentTiles.

Section PersistentTiles.

Variable cfg : Persistent.args.

Local Abbreviation M := (Persistent.M cfg).
Local Abbreviation N := (Persistent.N cfg).
Local Abbreviation BM := (Persistent.BLOCK_SIZE_M cfg).
Local Abbreviation BN := (Persistent.BLOCK_SIZE_N cfg).
Local Abbreviation G := (Persistent.GROUP_SIZE_M cfg).

Hypothesis HM : 0 < M.
Hypothesis HN : 0 < N.
Hypothesis HBM : 0 < BM.
Hypothesis HBN : 0 < BN.
Hypothesis HG : 0 < G.

Local Abbreviation P := (Persistent.num_pid_m cfg).
Local Abbreviation Q := (Persistent.num_pid_n cfg).
Local Abbreviation gpid_m := (Persistent.grouped_pid_m cfg).
Local Abbreviation gpid_n := (Persistent.pid_n cfg).
Local Abbreviation inv := (Persistent.tile_of_grouped cfg).

Lemma p_P_pos : 0 < P.
Proof. apply cdiv_pos; assumption. Qed.

Lemma p_Q_pos : 0 < Q.
Proof. apply cdiv_pos; assumption. Qed.

Lemma p_grouped_range t :
  0 <= t < P * Q ->
  t / (G * Q) * G <= gpid_m t
  /\ gpid_m t < t / (G * Q) * G + Z.min (P - t / (G * Q) * G) G
  /\ 0 <= gpid_m t < P
  /\ 0 <= gpid_n t < Q.
Proof.
  intros Ht.
  destruct (group_decomp P Q G t p_P_pos p_Q_pos HG Ht)
    as [Hg [Hf [Hs [Hr E]]]].
  unfold Persistent.grouped_pid_m, Persistent.pid_n,
    Persistent.group_size_m, Persistent.first_pid_m,
    Persistent.group_id, Persistent.num_pid_in_group.
  set (s := Z.min (P - t / (G * Q) * G) G) in *.
  set (r := t mod (G * Q)) in *.
  pose proof (Z.mod_pos_bound t s ltac:(lia)).
  assert (0 <= r / s) by (apply Z.div_pos; lia).
  assert (r / s < Q) by (apply Z.div_lt_upper_bound; nia).
  assert (s <= P - t / (G * Q) * G) by (unfold s; lia).
  nia.
Qed.

Lemma p_grouped_inverse t :
  0 <= t < P * Q -> inv (gpid_m t) (gpid_n t) = t.
Proof.
  intros Ht.
  destruct (group_decomp P Q G t p_P_pos p_Q_pos HG Ht)
    as [Hg [Hf [Hs [Hr E]]]].
  pose proof (p_grouped_range t Ht) as [H1 [H2 _]].
  unfold Persistent.tile_of_grouped.
  assert (Eg : gpid_m t / G = t / (G * Q)).
  { symmetry.
    apply (Z.div_unique_pos _ _ _ (gpid_m t - t / (G * Q) * G)); lia. }
  rewrite Eg.
  unfold Persistent.grouped_pid_m, Persistent.pid_n,
    Persistent.group_size_m, Persistent.first_pid_m,
    Persistent.group_id, Persistent.num_pid_in_group.
  set (g := t / (G * Q)) in *.
  set (s := Z.min (P - g * G) G) in *.
  set (r := t mod (G * Q)) in *.
  replace (g * G + t mod s - g * G - g * (G * Q))
    with (t mod s - g * (G * Q)) by lia.
  rewrite Zminus_mod_idemp_l.
  replace (t - g * (G * Q)) with r by lia.
  pose proof (Z.div_mod r s ltac:(lia)). lia.
Qed.

Lemma p_tile_of_grouped_spec m0 n :
  0 <= m0 < P -> 0 <= n < Q ->
  0 <= inv m0 n < P * Q /\ gpid_m (inv m0 n) = m0 /\ gpid_n (inv m0 n) = n.
Proof.
  intros Hm0 Hn.
  pose proof p_P_pos as HP. pose proof p_Q_pos as HQ.
  unfold Persistent.tile_of_grouped, Persistent.num_pid_in_group.
  set (g := m0 / G).
  set (s := Z.min (P - g * G) G).
  pose proof (Z.div_mod m0 G ltac:(lia)) as Em.
  pose proof (Z.mod_pos_bound m0 G HG) as Bm. fold g in Em.
  assert (Hg : 0 <= g) by (apply Z.div_pos; lia).
  assert (Hs : 0 < s <= G) by (unfold s; lia).
  assert (Hy : 0 <= m0 - g * G < s) by (unfold s; lia).
  assert (HsP : g * G + s <= P) by (unfold s; lia).
  set (x := (m0 - g * G - g * (G * Q)) mod s).
  assert (Hx : 0 <= x < s) by (apply Z.mod_pos_bound; lia).
  set (r := n * s + x).
  assert (Hr : 0 <= r < s * Q) by (unfold r; nia).
  assert (HrW : 0 <= r < G * Q) by nia.
  replace (g * (G * Q) + n * s + x) with (g * (G * Q) + r)
    by (unfold r; lia).
  assert (Ediv : (g * (G * Q) + r) / (G * Q) = g) by (apply div_mul_add; lia).
  assert (Emod : (g * (G * Q) + r) mod (G * Q) = r)
    by (apply mod_mul_add; lia).
  split; [nia|]. split.
  - unfold Persistent.grouped_pid_m, Persistent.group_size_m,
      Persistent.first_pid_m, Persistent.group_id,
      Persistent.num_pid_in_group.
    rewrite Ediv. fold s.
    assert (Ex : (g * (G * Q) + r) mod s = m0 - g * G).
    { unfold r.
      replace (g * (G * Q) + (n * s + x)) with (g * (G * Q) + x + n * s)
        by lia.
      rewrite Z.mod_add by lia. unfold x.
      rewrite Zplus_mod_idemp_r.
      replace (g * (G * Q) + (m0 - g * G - g * (G * Q))) with (m0 - g * G)
        by lia.
      apply Z.mod_small. exact Hy. }
    rewrite Ex. lia.
  - unfold Persistent.pid_n, Persistent.group_size_m,
      Persistent.first_pid_m, Persistent.group_id,
      Persistent.num_pid_in_group.
    rewrite Ediv, Emod. fold s. unfold r.
    apply div_mul_add. exact Hx.
Qed.

End PersistentTiles.

(** ** The tiles of the scheduling units *)

Section Units.

Variables (T S : Z).
Hypothesis HS : 0 < S.

Let per_unit (p : Z) : Z := T / S + (if p <? T mod S then 1 else 0).

Lemma unit_of_tile t :
  0 <= t < T ->
  0 <= t mod S < S /\ 0 <= t / S < per_unit (t mod S)
  /\ t = t mod S + t / S * S.
Proof.
  intros Ht. unfold per_unit.
  pose proof (Z.div_mod t S ltac:(lia)) as Et.
  pose proof (Z.mod_pos_bound t S HS) as Bt.
  pose proof (Z.div_mod T S ltac:(lia)) as ET.
  pose proof (Z.mod_pos_bound T S HS) as BT.
  assert (0 <= t / S) by (apply Z.div_pos; lia).
  repeat split; try lia.
  destruct (Z.ltb_spec (t mod S) (T mod S)); nia.
Qed.

Lemma tile_of_unit p i :
  0 <= p < S -> 0 <= i < per_unit p ->
  0 <= p + i * S < T /\ (p + i * S) mod S = p /\ (p + i * S) / S = i.
Proof.
  intros Hp Hi. unfold per_unit in Hi.
  pose proof (Z.div_mod T S ltac:(lia)) as ET.
  pose proof (Z.mod_pos_bound T S HS) as BT.
  split; [|split].
  - destruct (Z.ltb_spec p (T mod S)); nia.
  - replace (p + i * S) with (i * S + p) by lia. apply mod_mul_add. lia.
  - replace (p + i * S) with (i * S + p) by lia. apply div_mul_add. lia.
Qed.

End Units.

Section UnitTiles.

Variable cfg : Persistent.args.

Local Abbreviation NUM_SMS := (Persistent.NUM_SMS cfg).

Hypothesis HS : 0 < NUM_SMS.

Local Abbreviation T := (Persistent.num_tiles cfg).
Local Abbreviation tiles := (Persistent.tiles_of_unit cfg).
Local Abbreviation per_SM := (Persistent.tiles_per_SM cfg).

Lemma In_tiles_of_unit p t :
  In t (tiles p) <-> exists i, 0 <= i < per_SM p /\ t = p + i * NUM_SMS.
Proof.
  unfold Persistent.tiles_of_unit. rewrite in_map_iff. split.
  - intros [i [E Hi]]. apply In_arange in Hi. exists i. split; [exact Hi|].
    symmetry. exact E.
  - intros [i [Hi E]]. exists i. split; [symmetry; exact E|].
    apply In_arange. exact Hi.
Qed.

(** Every tile id belongs to a unit. *)
Lemma tiles_cover t :
  0 <= t < T -> 0 <= t mod NUM_SMS < NUM_SMS /\ In t (tiles (t mod NUM_SMS)).
Proof.
  intros Ht.
  destruct (unit_of_tile T NUM_SMS HS t Ht) as [Hp [Hi E]].
  split; [exact Hp|]. apply In_tiles_of_unit. exists (t / NUM_SMS).
  split; [exact Hi| exact E].
Qed.

(** A unit only holds tile ids of the grid, and only those congruent to
    its own index. *)
Lemma tiles_within p t :
  0 <= p < NUM_SMS -> In t (tiles p) -> 0 <= t < T /\ t mod NUM_SMS = p.
Proof.
  intros Hp Hin. apply In_tiles_of_unit in Hin. destruct Hin as [i [Hi ->]].
  destruct (tile_of_unit T NUM_SMS HS p i Hp Hi) as [H1 [H2 _]].
  split; assumption.
Qed.

Lemma tiles_disjoint p p' t :
  0 <= p < NUM_SMS -> 0 <= p' < NUM_SMS ->
  In t (tiles p) -> In t (tiles p') -> p = p'.
Proof.
  intros Hp Hp' H1 H2.
  apply (tiles_within p t Hp) in H1. apply (tiles_within p' t Hp') in H2.
  lia.
Qed.

Lemma tiles_NoDup p : NoDup (tiles p).
Proof.
  unfold Persistent.tiles_of_unit.
  apply NoDup_map_NoDup_ForallPairs.
  - intros i j _ _ E. nia.
  - unfold Tl.arange. apply NoDup_map_NoDup_ForallPairs.
    + intros i j _ _ E. lia.
    + apply seq_NoDup.
Qed.

End UnitTiles.

(** ** Sums *)

Lemma arange_nonpos n : n <= 0 -> Tl.arange n = [].
Proof.
  intros H. unfold Tl.arange. replace (Z.to_nat n) with O by lia. reflexivity.
Qed.

Lemma arange_succ n : 0 <= n -> Tl.arange (n + 1) = Tl.arange n ++ [n].
Proof.
  intros H. unfold Tl.arange.
  replace (Z.to_nat (n + 1)) with (S (Z.to_nat n)) by lia.
  rewrite seq_S, map_app. simpl. f_equal. f_equal. lia.
Qed.

Lemma length_arange n : List.length (Tl.arange n) = Z.to_nat n.
Proof. unfold Tl.arange. rewrite length_map, length_seq. reflexivity. Qed.

Lemma sumZ_0 f : Tl.sumZ 0 f = 0.
Proof. reflexivity. Qed.

Lemma sumZ_succ n f : 0 <= n -> Tl.sumZ (n + 1) f = Tl.sumZ n f + f n.
Proof.
  intros H. unfold Tl.sumZ. rewrite arange_succ by exact H.
  rewrite fold_left_app. reflexivity.
Qed.

Lemma sumZ_ext n f g :
  (forall k, 0 <= k < n -> f k = g k) -> Tl.sumZ n f = Tl.sumZ n g.
Proof.
  destruct (Z_lt_le_dec n 0) as [Hneg|Hn].
  - intros _. unfold Tl.sumZ. rewrite arange_nonpos by lia. reflexivity.
  - revert f g. pattern n. apply natlike_ind; [| |exact Hn].
    + intros. reflexivity.
    + intros x Hx IH f g H. unfold Z.succ. rewrite !sumZ_succ by exact Hx.
      rewrite (IH f g) by (intros; apply H; lia). rewrite H by lia.
      reflexivity.
Qed.

Lemma sumZ_split a m f :
  0 <= a -> 0 <= m ->
  Tl.sumZ (a + m) f = Tl.sumZ a f + Tl.sumZ m (fun k => f (a + k)).
Proof.
  intros Ha Hm. pattern m. apply natlike_ind; [| |exact Hm].
  - rewrite Z.add_0_r, sumZ_0. lia.
  - intros x Hx IH. unfold Z.succ. rewrite Z.add_assoc.
    rewrite !sumZ_succ by lia. rewrite IH. lia.
Qed.

(** A sum over [n] chunks of [B] consecutive indices. *)
Lemma sumZ_chunks n B g :
  0 <= n -> 0 <= B ->
  Tl.sumZ n (fun k => Tl.sumZ B (fun kk => g (k * B + kk)))
  = Tl.sumZ (n * B) g.
Proof.
  intros Hn HB. pattern n. apply natlike_ind; [| |exact Hn].
  - reflexivity.
  - intros x Hx IH. unfold Z.succ. rewrite sumZ_succ by exact Hx.
    replace ((x + 1) * B) with (x * B + B) by lia.
    rewrite sumZ_split by nia. rewrite IH. reflexivity.
Qed.

(** Terms masked off beyond [K] do not count. *)
Lemma sumZ_mask n K h :
  0 <= K <= n ->
  Tl.sumZ n (fun x => if x <? K then h x else 0) = Tl.sumZ K h.
Proof.
  intros H. replace n with (K + (n - K)) by lia.
  rewrite sumZ_split by lia.
  rewrite (sumZ_ext K _ h).
  - assert (E : Tl.sumZ (n - K) (fun k => if K + k <? K then h (K + k) else 0)
               = Tl.sumZ (n - K) (fun _ => 0)).
    { apply sumZ_ext. intros k Hk.
      destruct (Z.ltb_spec (K + k) K); [lia|reflexivity]. }
    rewrite E.
    assert (Z0 : forall m, 0 <= m -> Tl.sumZ m (fun _ => 0) = 0).
    { intros m Hm. pattern m. apply natlike_ind; [reflexivity| |exact Hm].
      intros x Hx IH. unfold Z.succ. rewrite sumZ_succ by exact Hx. lia. }
    rewrite Z0 by lia. lia.
  - intros k Hk. destruct (Z.ltb_spec k K); [reflexivity|lia].
Qed.

(** The tiled and masked dot product is the plain one. *)
Lemma tiled_dot K BK f :
  0 < BK -> 0 <= K ->
  Tl.sumZ (Tl.cdiv K BK)
    (fun k => Tl.sumZ BK
       (fun kk => if k * BK + kk <? K then f (k * BK + kk) else 0))
  = Tl.sumZ K f.
Proof.
  intros HBK HK.
  rewrite (sumZ_chunks (Tl.cdiv K BK) BK
             (fun x => if x <? K then f x else 0)).
  - apply sumZ_mask. split; [exact HK|]. apply cdiv_mul_ge. exact HBK.
  - apply cdiv_nonneg; assumption.
  - lia.
Qed.

(** ** Readiness waits *)

Lemma In_wait_slots first num r :
  In r (wait_slots first num) <-> first <= r < first + num.
Proof.
  unfold wait_slots. rewrite in_map_iff. split.
  - intros [k [<- Hk]]. apply In_arange in Hk. lia.
  - intros H. exists (r - first). split; [lia|]. apply In_arange. lia.
Qed.

Lemma dl_wait_true flags first num v :
  dl_wait flags first num v = true
  <-> forall r, In r (wait_slots first num) -> flags r = v.
Proof.
  unfold dl_wait. rewrite forallb_forall. split.
  - intros H r Hr. apply In_wait_slots in Hr.
    specialize (H (r - first)).
    replace (first + (r - first)) with r in H by lia.
    apply Z.eqb_eq, H, In_arange. lia.
  - intros H k Hk. apply Z.eqb_eq, H, In_wait_slots.
    apply In_arange in Hk. lia.
Qed.

(** The slots from [offs / Mpr] to [(min(offs + BM, M) - 1) / Mpr] are
    the ranks whose rows meet the rows [offs .. min(offs + BM, M)); when
    the tile lies beyond the last row of a matrix of whole shards, both
    are empty. *)
Lemma wait_slots_owners Mpr BM M offs r :
  0 < Mpr -> 0 < BM -> 0 <= offs ->
  offs < M \/ (0 <= M /\ M mod Mpr = 0) ->
  let beg := offs / Mpr in
  let last := (Z.min (offs + BM) M - 1) / Mpr in
  In r (wait_slots beg (last - beg + 1))
  <-> owns_rows Mpr offs (Z.min (offs + BM) M) r.
Proof.
  intros HMpr HBM Hoffs Hcase beg last. unfold owns_rows.
  rewrite In_wait_slots.
  set (hi := Z.min (offs + BM) M) in *.
  pose proof (Z.div_mod offs Mpr ltac:(lia)) as E1.
  pose proof (Z.mod_pos_bound offs Mpr HMpr) as B1.
  pose proof (Z.div_mod (hi - 1) Mpr ltac:(lia)) as E2.
  pose proof (Z.mod_pos_bound (hi - 1) Mpr HMpr) as B2.
  fold beg in E1. fold last in E2.
  destruct (Z_lt_le_dec offs M) as [Hin|Hout].
  - assert (Hhi : offs < hi) by (unfold hi; lia).
    split.
    + intros Hr. exists (Z.max (r * Mpr) offs). nia.
    + intros [x [Hx1 Hx2]]. nia.
  - destruct Hcase as [Hc|[HM0 Hc]]; [lia|].
    assert (Ehi : hi = M) by (unfold hi; lia).
    pose proof (Z.div_mod M Mpr ltac:(lia)) as E3.
    rewrite Hc, Z.add_0_r in E3.
    assert (H1 : last < M / Mpr) by nia.
    assert (H2 : M / Mpr <= beg) by nia.
    split.
    + intros Hr. exfalso. lia.
    + intros [x [Hx1 Hx2]]. lia.
Qed.

(** ** The non-persistent kernel *)

Section NonPersistentKernel.

Variable cfg : NonPersistent.args.

Local Abbreviation a_buf := (NonPersistent.a_ptr cfg).
Local Abbreviation b_buf := (NonPersistent.b_ptr cfg).
Local Abbreviation M := (NonPersistent.M cfg).
Local Abbreviation N := (NonPersistent.N cfg).
Local Abbreviation K := (NonPersistent.K cfg).
Local Abbreviation BM := (NonPersistent.BLOCK_SIZE_M cfg).
Local Abbreviation BN := (NonPersistent.BLOCK_SIZE_N cfg).
Local Abbreviation BK := (NonPersistent.BLOCK_SIZE_K cfg).
Local Abbreviation G := (NonPersistent.GROUP_SIZE_M cfg).
Local Abbreviation sam := (NonPersistent.stride_am cfg).
Local Abbreviation sak := (NonPersistent.stride_ak cfg).
Local Abbreviation sbk := (NonPersistent.stride_bk cfg).
Local Abbreviation sbn := (NonPersistent.stride_bn cfg).
Local Abbreviation scm := (NonPersistent.stride_cm cfg).
Local Abbreviation scn := (NonPersistent.stride_cn cfg).

Hypothesis HM : 0 < M.
Hypothesis HN : 0 < N.
Hypothesis HK : 0 <= K.
Hypothesis HBM : 0 < BM.
Hypothesis HBN : 0 < BN.
Hypothesis HBK : 0 < BK.
Hypothesis HG : 0 < G.

Local Abbreviation load_events pid :=
  (fun k => [EvLoadA (NonPersistent.pid_m cfg pid * BM) (k * BK);
             EvLoadB (NonPersistent.pid_n cfg pid * BN) (k * BK)]).

(** The state of the loop over [k] after [n] iterations. *)
Lemma np_k_loop_prefix pid tr n :
  0 <= n ->
  let st := NonPersistent.k_state cfg pid tr n in
  (forall i kk, NonPersistent.a_ptrs st i kk
                = NonPersistent.a_ptrs0 cfg pid i kk + n * BK * sak)
  /\ (forall kk j, NonPersistent.b_ptrs st kk j
                   = NonPersistent.b_ptrs0 cfg pid kk j + n * BK * sbk)
  /\ (forall i j, NonPersistent.accumulator st i j
        = Tl.sumZ n (fun k => Tl.sumZ BK (fun kk =>
            if k * BK + kk <? K then
              a_buf (NonPersistent.offs_am cfg pid i * sam
                     + (k * BK + kk) * sak)
              * b_buf ((k * BK + kk) * sbk
                       + NonPersistent.offs_bn cfg pid j * sbn)
            else 0)))
  /\ NonPersistent.ktrace st = tr ++ flat_map (load_events pid) (Tl.arange n).
Proof.
  intros Hn. unfold NonPersistent.k_state.
  pattern n. apply natlike_ind; [| |exact Hn].
  - simpl. repeat split; intros; try lia.
    rewrite app_nil_r. reflexivity.
  - intros x Hx [IHa [IHb [IHc IHt]]]. unfold Z.succ.
    rewrite arange_succ by exact Hx. rewrite fold_left_app.
    set (st := fold_left _ (Tl.arange x) _) in *.
    simpl. repeat split.
    + intros i kk. rewrite IHa. lia.
    + intros kk j. rewrite IHb. lia.
    + intros i j. rewrite sumZ_succ by exact Hx. rewrite IHc. f_equal.
      unfold Tl.dot. apply sumZ_ext. intros kk Hkk.
      unfold Tl.load, NonPersistent.a_mask, NonPersistent.b_mask.
      rewrite IHa, IHb.
      unfold NonPersistent.a_ptrs0, NonPersistent.b_ptrs0.
      destruct (Z.ltb_spec kk (K - x * BK));
        destruct (Z.ltb_spec (x * BK + kk) K); try lia.
      f_equal; f_equal; lia.
    + rewrite IHt, flat_map_app, <- app_assoc. simpl. reflexivity.
Qed.

(** What the loop leaves in the accumulator and in the trace. *)
Lemma np_k_loop_spec pid tr :
  (forall i j,
     NonPersistent.accumulator (NonPersistent.k_loop cfg pid tr) i j
     = Tl.sumZ K (fun x =>
         a_buf (NonPersistent.offs_am cfg pid i * sam + x * sak)
         * b_buf (x * sbk + NonPersistent.offs_bn cfg pid j * sbn)))
  /\ NonPersistent.ktrace (NonPersistent.k_loop cfg pid tr)
     = tr ++ flat_map (load_events pid) (Tl.arange (Tl.cdiv K BK)).
Proof.
  unfold NonPersistent.k_loop.
  destruct (np_k_loop_prefix pid tr (Tl.cdiv K BK)
              (cdiv_nonneg K BK HBK HK)) as [_ [_ [Hc Ht]]].
  split; [|exact Ht].
  intros i j. rewrite Hc.
  apply (tiled_dot K BK
           (fun x => a_buf (NonPersistent.offs_am cfg pid i * sam + x * sak)
                     * b_buf (x * sbk
                              + NonPersistent.offs_bn cfg pid j * sbn)));
    assumption.
Qed.

Local Abbreviation ref :=
  (reference (at2 a_buf sam sak) (at2 b_buf sbn sbk) K).

Local Abbreviation program :=
  (fun pid c => fst (NonPersistent.body cfg pid c)).

(** The accumulator of an in-range lane holds the reference value of
    its element. *)
Lemma np_acc_value pid tr i j :
  0 <= NonPersistent.pid_m cfg pid * BM + i < M ->
  0 <= NonPersistent.pid_n cfg pid * BN + j < N ->
  NonPersistent.accumulator (NonPersistent.k_loop cfg pid tr) i j
  = ref (NonPersistent.pid_m cfg pid * BM + i)
        (NonPersistent.pid_n cfg pid * BN + j).
Proof.
  intros Hi Hj.
  destruct (np_k_loop_spec pid tr) as [Hacc _].
  rewrite Hacc. unfold reference, at2. apply sumZ_ext. intros x Hx.
  assert (E1 : NonPersistent.offs_am cfg pid i
               = NonPersistent.pid_m cfg pid * BM + i)
    by (unfold NonPersistent.offs_am; apply Z.mod_small; exact Hi).
  assert (E2 : NonPersistent.offs_bn cfg pid j
               = NonPersistent.pid_n cfg pid * BN + j)
    by (unfold NonPersistent.offs_bn; apply Z.mod_small; exact Hj).
  rewrite E1, E2. f_equal. f_equal. ring.
Qed.

(** A program writes nothing but right values, inside [C]. *)
Lemma np_body_cases pid c q :
  0 <= pid < NonPersistent.grid cfg ->
  program pid c q = c q \/
  exists i j, 0 <= i < M /\ 0 <= j < N /\ q = i * scm + j * scn /\
              program pid c q = ref i j.
Proof.
  intros Hpid. unfold NonPersistent.body. cbv beta zeta. simpl fst.
  destruct (np_tile_range cfg HM HN HBM HBN HG pid Hpid) as [Hpm Hpn].
  match goal with
  | |- context [Tl.store c BM BN ?p ?v ?m] =>
      destruct (store_cases c BM BN p v m q)
        as [[E _]|[i [j [Hi [Hj [Hm [Hp E]]]]]]]
  end.
  - left. exact E.
  - right. unfold NonPersistent.c_mask in Hm.
    apply andb_true_iff in Hm. destruct Hm as [Hm1 Hm2].
    apply Z.ltb_lt in Hm1, Hm2.
    exists (NonPersistent.pid_m cfg pid * BM + i),
           (NonPersistent.pid_n cfg pid * BN + j).
    split; [nia|]. split; [nia|]. split.
    + rewrite <- Hp. unfold NonPersistent.c_ptrs. ring.
    + rewrite E. apply np_acc_value; nia.
Qed.

(** The element [(i, j)] of [C] is written by the program of its tile. *)
Lemma np_body_covers i j c :
  dense_view M N scm scn ->
  0 <= i < M -> 0 <= j < N ->
  0 <= NonPersistent.pid_of_tile cfg (i / BM) (j / BN)
     < NonPersistent.grid cfg
  /\ program (NonPersistent.pid_of_tile cfg (i / BM) (j / BN)) c
       (i * scm + j * scn) = ref i j.
Proof.
  intros Hdense Hi Hj.
  assert (Htm : 0 <= i / BM < NonPersistent.num_pid_m cfg).
  { split; [apply Z.div_pos; lia|]. apply div_lt_cdiv; lia. }
  assert (Htn : 0 <= j / BN < NonPersistent.num_pid_n cfg).
  { split; [apply Z.div_pos; lia|]. apply div_lt_cdiv; lia. }
  destruct (np_pid_of_tile_spec cfg HM HN HBM HBN HG _ _ Htm Htn)
    as [Hpid [Epm Epn]].
  set (pid := NonPersistent.pid_of_tile cfg (i / BM) (j / BN)) in *.
  split; [exact Hpid|].
  pose proof (Z.div_mod i BM ltac:(lia)) as Ei.
  pose proof (Z.mod_pos_bound i BM HBM) as Bi.
  pose proof (Z.div_mod j BN ltac:(lia)) as Ej.
  pose proof (Z.mod_pos_bound j BN HBN) as Bj.
  unfold NonPersistent.body. cbv beta zeta. simpl fst.
  assert (Ea : i * scm + j * scn
               = NonPersistent.c_ptrs cfg pid (i mod BM) (j mod BN)).
  { unfold NonPersistent.c_ptrs. rewrite Epm, Epn. nia. }
  assert (Hm : NonPersistent.c_mask cfg pid (i mod BM) (j mod BN) = true).
  { unfold NonPersistent.c_mask. rewrite Epm, Epn.
    apply andb_true_iff. split; apply Z.ltb_lt; lia. }
  rewrite Ea. rewrite store_hit; try assumption.
  - rewrite np_acc_value by (rewrite ?Epm, ?Epn; lia).
    rewrite Epm, Epn. f_equal; lia.
  - intros i' j' Hi' Hj' Hm' Hp.
    unfold NonPersistent.c_mask in Hm'. rewrite Epm, Epn in Hm'.
    apply andb_true_iff in Hm'. destruct Hm' as [Hm1 Hm2].
    apply Z.ltb_lt in Hm1, Hm2.
    unfold NonPersistent.c_ptrs in Hp. rewrite Epm, Epn in Hp.
    destruct (Hdense (i / BM * BM + i') (j / BN * BN + j')
                (i / BM * BM + i mod BM) (j / BN * BN + j mod BN))
      as [E1 E2]; try nia.
    replace i' with (i mod BM) by lia. replace j' with (j mod BN) by lia.
    reflexivity.
Qed.

(** With every wait satisfied the launch is the composition of the
    programs' bodies. *)
Lemma np_run_ready sched c :
  (forall pid, In pid sched ->
     dl_wait (NonPersistent.barrier_ptr cfg)
       (NonPersistent.rank_beg cfg (NonPersistent.pid_m cfg pid * BM))
       (NonPersistent.rank_end cfg (NonPersistent.pid_m cfg pid * BM)
        - NonPersistent.rank_beg cfg (NonPersistent.pid_m cfg pid * BM) + 1)
       1 = true) ->
  NonPersistent.run cfg sched c = Some (launch program sched c).
Proof.
  revert c. induction sched as [|pid rest IH]; intros c H.
  - reflexivity.
  - cbn [NonPersistent.run]. unfold NonPersistent.kernel.
    rewrite H by (now left).
    change (launch program (pid :: rest) c)
      with (launch program rest (fst (NonPersistent.body cfg pid c))).
    destruct (NonPersistent.body cfg pid c) as [c' tr]. cbn [fst].
    apply IH. intros pid' Hin. apply H. now right.
Qed.

(** The slots a program waits on are slots of the flag buffer. *)
Lemma np_wait_slots_in_buffer pid r :
  0 < NonPersistent.WORLD_SIZE cfg ->
  M mod NonPersistent.WORLD_SIZE cfg = 0 ->
  0 <= pid < NonPersistent.grid cfg ->
  In r (wait_slots
          (NonPersistent.rank_beg cfg (NonPersistent.pid_m cfg pid * BM))
          (NonPersistent.rank_end cfg (NonPersistent.pid_m cfg pid * BM)
           - NonPersistent.rank_beg cfg (NonPersistent.pid_m cfg pid * BM)
           + 1)) ->
  0 <= r < NonPersistent.WORLD_SIZE cfg.
Proof.
  intros HW Hdiv Hpid Hr. apply In_wait_slots in Hr.
  destruct (np_tile_range cfg HM HN HBM HBN HG pid Hpid) as [Hpm _].
  pose proof (lt_cdiv_mul M BM _ HBM Hpm) as Hoff.
  unfold NonPersistent.rank_beg, NonPersistent.rank_end,
    NonPersistent.m_per_rank in *.
  set (WS := NonPersistent.WORLD_SIZE cfg) in *.
  set (offs := NonPersistent.pid_m cfg pid * BM) in *.
  pose proof (Z.div_mod M WS ltac:(lia)) as EM.
  assert (Hmpr : 0 < M / WS) by nia.
  assert (H0 : 0 <= offs / (M / WS)) by (apply Z.div_pos; nia).
  assert (H1 : (Z.min (offs + BM) M - 1) / (M / WS) < WS).
  { apply Z.div_lt_upper_bound; [exact Hmpr|]. nia. }
  lia.
Qed.

End NonPersistentKernel.

(** ** The persistent kernel: one tile *)

Lemma store_ext buf buf' rows cols ptrs vals vals' mask q :
  buf q = buf' q ->
  (forall i j, 0 <= i < rows -> 0 <= j < cols -> vals i j = vals' i j) ->
  Tl.store buf rows cols ptrs vals mask q
  = Tl.store buf' rows cols ptrs vals' mask q.
Proof.
  intros Hb Hv. unfold Tl.store.
  destruct (find _ _) as [[i j]|] eqn:E; [|exact Hb].
  apply find_some in E. destruct E as [Hin _]. apply In_lanes in Hin.
  simpl. apply Hv; tauto.
Qed.

Section PersistentKernel.

Variable cfg : Persistent.args.

Local Abbreviation k := (Persistent.k_tiles cfg).
Local Abbreviation S := (Persistent.NUM_SMS cfg).
Local Abbreviation BM := (Persistent.BLOCK_SIZE_M cfg).
Local Abbreviation BN := (Persistent.BLOCK_SIZE_N cfg).
Local Abbreviation BK := (Persistent.BLOCK_SIZE_K cfg).

Hypothesis Hk : 0 < k.

Lemma iterate_add a b st :
  Persistent.iterate cfg (a + b) st
  = match Persistent.iterate cfg a st with
    | Some st' => Persistent.iterate cfg b st'
    | None => None
    end.
Proof.
  revert st. induction a as [|a IH]; intros st; simpl.
  - reflexivity.
  - destruct (Persistent.step cfg st) as [st'|]; [apply IH|reflexivity].
Qed.

Lemma step_boundary st :
  Persistent.st_ki st = -1 \/ Persistent.st_ki st = k - 1 ->
  Persistent.step cfg st
  = match Persistent.enter_tile cfg (Persistent.set_ki st 0) with
    | None => None
    | Some e =>
        Some (if 0 =? k - 1
              then Persistent.epilogue cfg (Persistent.mma cfg e)
              else Persistent.mma cfg e)
    end.
Proof.
  intros H. unfold Persistent.step.
  assert (E : (if Persistent.st_ki st =? k - 1 then 0
               else Persistent.st_ki st + 1) = 0).
  { destruct (Z.eqb_spec (Persistent.st_ki st) (k - 1)); lia. }
  cbv zeta. rewrite E. reflexivity.
Qed.

Lemma step_mid st :
  0 <= Persistent.st_ki st < k - 1 ->
  Persistent.step cfg st
  = Some (if Persistent.st_ki st + 1 =? k - 1
          then Persistent.epilogue cfg
                 (Persistent.mma cfg
                    (Persistent.set_ki st (Persistent.st_ki st + 1)))
          else Persistent.mma cfg
                 (Persistent.set_ki st (Persistent.st_ki st + 1))).
Proof.
  intros H. unfold Persistent.step.
  assert (E : (if Persistent.st_ki st =? k - 1 then 0
               else Persistent.st_ki st + 1) = Persistent.st_ki st + 1).
  { destruct (Z.eqb_spec (Persistent.st_ki st) (k - 1)); lia. }
  cbv zeta. rewrite E.
  destruct (Z.eqb_spec (Persistent.st_ki st + 1) 0); [lia|]. reflexivity.
Qed.

(** The state inside tile [t], when [j] slices have been accumulated
    and nothing has been stored: [st0] is the state the tile was
    entered from. *)
Let mid (st0 : Persistent.state) (t j : Z) (st : Persistent.state) : Prop :=
  Persistent.st_tile_id st = t
  /\ Persistent.st_ki st = j - 1
  /\ Persistent.st_pid_m st = Persistent.pid_m cfg t
  /\ Persistent.st_pid_n st = Persistent.pid_n cfg t
  /\ Persistent.st_offs_am st = Persistent.pid_m cfg t * BM
  /\ Persistent.st_offs_bn st = Persistent.pid_n cfg t * BN
  /\ (forall i jj, Persistent.st_accumulator st i jj
        = Tl.sumZ j (fun ki => Persistent.slice_product cfg t ki i jj))
  /\ Persistent.st_c st = Persistent.st_c st0
  /\ Persistent.st_trace st
     = Persistent.st_trace st0
       ++ EvWait (Persistent.tile_wait_first cfg t)
                 (Persistent.tile_wait_num cfg t)
       :: flat_map (Persistent.slice_events cfg t) (Tl.arange j).

Lemma mma_mid st0 t j st :
  1 <= j -> mid st0 t j st ->
  mid st0 t (j + 1)
      (Persistent.mma cfg (Persistent.set_ki st (Persistent.st_ki st + 1))).
Proof.
  intros Hj [H1 [H2 [H3 [H4 [H5 [H6 [H7 [H8 H9]]]]]]]].
  unfold mid, Persistent.mma, Persistent.set_ki.
  cbn [Persistent.st_tile_id Persistent.st_ki Persistent.st_pid_m
       Persistent.st_pid_n Persistent.st_offs_am Persistent.st_offs_bn
       Persistent.st_accumulator Persistent.st_c Persistent.st_trace].
  repeat split; try assumption; try lia.
  - intros i jj. rewrite sumZ_succ by lia. rewrite H7. f_equal.
    unfold Persistent.slice_product. rewrite H5, H6, H2.
    replace (j - 1 + 1) with j by lia. reflexivity.
  - rewrite H9. rewrite arange_succ by lia.
    rewrite flat_map_app. cbn [flat_map]. rewrite app_nil_r.
    rewrite H5, H6, H2. replace (j - 1 + 1) with j by lia.
    rewrite <- app_assoc. reflexivity.
Qed.

Lemma enter_mid st e :
  Persistent.st_accumulator st = Tl.zeros ->
  Persistent.enter_tile cfg (Persistent.set_ki st 0) = Some e ->
  mid st (Persistent.st_tile_id st + S) 1 (Persistent.mma cfg e).
Proof.
  intros Hz He. unfold Persistent.enter_tile in He. cbv zeta in He.
  destruct (dl_wait _ _ _ _); [|discriminate]. inversion He; subst e; clear He.
  unfold mid, Persistent.mma, Persistent.set_ki.
  cbn [Persistent.st_tile_id Persistent.st_ki Persistent.st_pid_m
       Persistent.st_pid_n Persistent.st_offs_am Persistent.st_offs_bn
       Persistent.st_accumulator Persistent.st_c Persistent.st_trace].
  repeat split; try reflexivity.
  - intros i jj. rewrite Hz. unfold Tl.zeros.
    change 1 with (0 + 1). rewrite sumZ_succ by lia. rewrite sumZ_0.
    reflexivity.
  - rewrite <- app_assoc. reflexivity.
Qed.

Lemma enter_tile_ready st :
  Persistent.enter_tile cfg st <> None
  <-> Persistent.tile_ready cfg (Persistent.st_tile_id st + S) = true.
Proof.
  unfold Persistent.enter_tile, Persistent.tile_ready,
    Persistent.tile_wait_first, Persistent.tile_wait_num.
  cbv zeta. destruct (dl_wait _ _ _ _); split; congruence.
Qed.

(** The first [j] iterations of a tile, for [j] short of the last. *)
Lemma p_slices st n :
  (Persistent.st_ki st = -1 \/ Persistent.st_ki st = k - 1) ->
  Persistent.st_accumulator st = Tl.zeros ->
  Persistent.tile_ready cfg (Persistent.st_tile_id st + S) = true ->
  Z.of_nat (Datatypes.S n) < k ->
  exists st', Persistent.iterate cfg (Datatypes.S n) st = Some st'
              /\ mid st (Persistent.st_tile_id st + S)
                     (Z.of_nat (Datatypes.S n)) st'.
Proof.
  intros Hb Hz Hr. induction n as [|n IH]; intros Hn.
  - cbn [Persistent.iterate]. rewrite (step_boundary st Hb).
    destruct (Persistent.enter_tile cfg (Persistent.set_ki st 0)) as [e|] eqn:E.
    + destruct (Z.eqb_spec 0 (k - 1)); [lia|].
      eexists. split; [reflexivity|]. apply enter_mid; assumption.
    + exfalso. apply (proj2 (enter_tile_ready (Persistent.set_ki st 0)));
        [exact Hr | exact E].
  - destruct IH as [st' [E Hmid]]; [lia|].
    replace (Datatypes.S (Datatypes.S n)) with (Datatypes.S n + 1)%nat by lia.
    rewrite iterate_add, E. cbn [Persistent.iterate].
    pose proof Hmid as [_ [Hki _]].
    rewrite step_mid by lia.
    destruct (Z.eqb_spec (Persistent.st_ki st' + 1) (k - 1)); [lia|].
    eexists. split; [reflexivity|].
    replace (Z.of_nat (Datatypes.S n + 1)) with (Z.of_nat (Datatypes.S n) + 1)
      by lia.
    apply mma_mid; [lia|exact Hmid].
Qed.

Lemma epilogue_store_ext c c' o1 o2 acc acc' :
  (forall i j, acc i j = acc' i j) ->
  (forall q, c q = c' q) ->
  forall q, fst (Persistent.epilogue_store cfg c o1 o2 acc) q
            = fst (Persistent.epilogue_store cfg c' o1 o2 acc') q.
Proof.
  intros Ha Hc. unfold Persistent.epilogue_store.
  destruct (Persistent.EPILOGUE_SUBTILE cfg); cbn [fst snd].
  - intros q. unfold desc_store.
    apply store_ext.
    + apply store_ext; [apply Hc|]. intros; apply Ha.
    + intros; apply Ha.
  - intros q. unfold desc_store.
    apply store_ext; [apply Hc|]. intros; apply Ha.
Qed.

Lemma epilogue_store_events c c' o1 o2 acc acc' :
  snd (Persistent.epilogue_store cfg c o1 o2 acc)
  = snd (Persistent.epilogue_store cfg c' o1 o2 acc').
Proof.
  unfold Persistent.epilogue_store.
  destruct (Persistent.EPILOGUE_SUBTILE cfg); reflexivity.
Qed.

Lemma tile_store_ext t c c' :
  (forall q, c q = c' q) ->
  forall q, Persistent.tile_store cfg t c q = Persistent.tile_store cfg t c' q.
Proof.
  intros Hc. unfold Persistent.tile_store.
  apply epilogue_store_ext; [reflexivity|exact Hc].
Qed.

Lemma launch_ext (kernel : Z -> Tl.buffer -> Tl.buffer) l c c' :
  (forall t b b', (forall q, b q = b' q) ->
                  forall q, kernel t b q = kernel t b' q) ->
  (forall q, c q = c' q) ->
  forall q, launch kernel l c q = launch kernel l c' q.
Proof.
  intros Hk0. unfold launch. revert c c'.
  induction l as [|t l IH]; intros c c' Hc q; simpl.
  - apply Hc.
  - apply IH. intros q'. apply Hk0. exact Hc.
Qed.

(** The state between two tiles. *)
Let boundary (st : Persistent.state) : Prop :=
  (Persistent.st_ki st = -1 \/ Persistent.st_ki st = k - 1)
  /\ Persistent.st_accumulator st = Tl.zeros.

Lemma epilogue_mid st t m :
  mid st t k m ->
  let st' := Persistent.epilogue cfg m in
  boundary st'
  /\ Persistent.st_tile_id st' = t
  /\ (forall q, Persistent.st_c st' q
                = Persistent.tile_store cfg t (Persistent.st_c st) q)
  /\ Persistent.st_trace st'
     = Persistent.st_trace st ++ Persistent.tile_events cfg t.
Proof.
  intros [H1 [H2 [H3 [H4 [H5 [H6 [H7 [H8 H9]]]]]]]] st'.
  unfold st', Persistent.epilogue.
  pose proof (epilogue_store_ext (Persistent.st_c m) (Persistent.st_c st)
              (Persistent.st_offs_am m) (Persistent.st_offs_bn m)
              (Persistent.st_accumulator m)
              (Persistent.tile_accumulator cfg t)) as Ec.
  pose proof (epilogue_store_events (Persistent.st_c m) (fun _ => 0)
              (Persistent.st_offs_am m) (Persistent.st_offs_bn m)
              (Persistent.st_accumulator m) Tl.zeros) as Ee.
  destruct (Persistent.epilogue_store cfg (Persistent.st_c m) _ _ _)
    as [c' evs].
  cbn [fst snd] in Ec, Ee.
  unfold boundary.
  cbn [Persistent.st_tile_id Persistent.st_ki Persistent.st_pid_m
       Persistent.st_pid_n Persistent.st_offs_am Persistent.st_offs_bn
       Persistent.st_accumulator Persistent.st_c Persistent.st_trace].
  split; [split; [right; lia|reflexivity]|].
  split; [exact H1|]. split.
  - intros q. rewrite Ec.
    + unfold Persistent.tile_store. rewrite H5, H6. reflexivity.
    + intros i j. rewrite H7. reflexivity.
    + intros q'. rewrite H8. reflexivity.
  - rewrite H9, Ee, H5, H6. unfold Persistent.tile_events.
    rewrite <- app_assoc. reflexivity.
Qed.

(** A whole tile: [k_tiles] iterations from one boundary to the next. *)
Lemma p_tile st :
  boundary st ->
  Persistent.tile_ready cfg (Persistent.st_tile_id st + S) = true ->
  exists st', Persistent.iterate cfg (Z.to_nat k) st = Some st'
    /\ boundary st'
    /\ Persistent.st_tile_id st' = Persistent.st_tile_id st + S
    /\ (forall q, Persistent.st_c st' q
          = Persistent.tile_store cfg (Persistent.st_tile_id st + S)
              (Persistent.st_c st) q)
    /\ Persistent.st_trace st'
       = Persistent.st_trace st
         ++ Persistent.tile_events cfg (Persistent.st_tile_id st + S).
Proof.
  intros [Hb Hz] Hr.
  destruct (Z.eq_dec k 1) as [E1|Hk1].
  - rewrite E1. change (Z.to_nat 1) with 1%nat.
    cbn [Persistent.iterate]. rewrite (step_boundary st Hb).
    destruct (Persistent.enter_tile cfg (Persistent.set_ki st 0))
      as [e|] eqn:E.
    + destruct (Z.eqb_spec 0 (k - 1)); [|lia].
      eexists. split; [reflexivity|].
      apply epilogue_mid. rewrite E1. apply enter_mid; assumption.
    + exfalso. apply (proj2 (enter_tile_ready (Persistent.set_ki st 0)));
        [exact Hr | exact E].
  - replace (Z.to_nat k) with (Datatypes.S (Z.to_nat (k - 2)) + 1)%nat by lia.
    rewrite iterate_add.
    destruct (p_slices st (Z.to_nat (k - 2)) Hb Hz Hr ltac:(lia))
      as [m [E Hmid]].
    rewrite E. cbn [Persistent.iterate].
    pose proof Hmid as [_ [Hki _]].
    rewrite step_mid by lia.
    destruct (Z.eqb_spec (Persistent.st_ki m + 1) (k - 1)); [|lia].
    eexists. split; [reflexivity|].
    apply epilogue_mid.
    replace k with (Z.of_nat (Datatypes.S (Z.to_nat (k - 2))) + 1) at 1
      by lia.
    apply mma_mid; [lia|exact Hmid].
Qed.

(** A unit that finds a tile not ready stops there. *)
Lemma p_tile_blocked st n :
  boundary st ->
  Persistent.tile_ready cfg (Persistent.st_tile_id st + S) = false ->
  Persistent.iterate cfg (Datatypes.S n) st = None.
Proof.
  intros [Hb _] Hr. cbn [Persistent.iterate]. rewrite (step_boundary st Hb).
  destruct (Persistent.enter_tile cfg (Persistent.set_ki st 0)) as [e|] eqn:E;
    [|reflexivity].
  exfalso.
  assert (H : Persistent.enter_tile cfg (Persistent.set_ki st 0) <> None)
    by congruence.
  apply enter_tile_ready in H. cbn [Persistent.set_ki Persistent.st_tile_id] in H.
  congruence.
Qed.

(** The next [n] tiles of a unit. *)
Lemma p_tiles st n :
  boundary st ->
  (forall i, 0 <= i < Z.of_nat n ->
     Persistent.tile_ready cfg (Persistent.st_tile_id st + (i + 1) * S)
     = true) ->
  let tiles := map (fun i => Persistent.st_tile_id st + (i + 1) * S)
                   (Tl.arange (Z.of_nat n)) in
  exists st', Persistent.iterate cfg (Z.to_nat k * n) st = Some st'
    /\ boundary st'
    /\ Persistent.st_tile_id st'
       = Persistent.st_tile_id st + Z.of_nat n * S
    /\ (forall q, Persistent.st_c st' q
          = launch (Persistent.tile_store cfg) tiles (Persistent.st_c st) q)
    /\ Persistent.st_trace st'
       = Persistent.st_trace st ++ flat_map (Persistent.tile_events cfg) tiles.
Proof.
  intros Hb. induction n as [|n IH]; intros Hr tiles.
  - exists st. rewrite Nat.mul_0_r. unfold tiles. simpl.
    repeat split; try reflexivity; try apply Hb; try lia.
    rewrite app_nil_r. reflexivity.
  - destruct IH as [st1 [E1 [Hb1 [Ht1 [Hc1 Htr1]]]]].
    { intros i Hi. apply Hr. lia. }
    replace (Z.to_nat k * Datatypes.S n)%nat
      with (Z.to_nat k * n + Z.to_nat k)%nat by lia.
    rewrite iterate_add, E1.
    destruct (p_tile st1 Hb1) as [st2 [E2 [Hb2 [Ht2 [Hc2 Htr2]]]]].
    { rewrite Ht1.
      replace (Persistent.st_tile_id st + Z.of_nat n * S + S)
        with (Persistent.st_tile_id st + (Z.of_nat n + 1) * S) by lia.
      apply Hr. lia. }
    exists st2. split; [exact E2|]. split; [exact Hb2|].
    assert (Et : Persistent.st_tile_id st1 + S
                 = Persistent.st_tile_id st + (Z.of_nat n + 1) * S)
      by (rewrite Ht1; lia).
    assert (Etiles : tiles
              = map (fun i => Persistent.st_tile_id st + (i + 1) * S)
                    (Tl.arange (Z.of_nat n))
                ++ [Persistent.st_tile_id st1 + S]).
    { unfold tiles.
      replace (Z.of_nat (Datatypes.S n)) with (Z.of_nat n + 1) by lia.
      rewrite arange_succ by lia. rewrite map_app, Et. reflexivity. }
    split; [lia|]. split.
    + intros q. rewrite Hc2, Etiles. unfold launch at 1.
      rewrite fold_left_app. cbn [fold_left].
      apply tile_store_ext. exact Hc1.
    + rewrite Htr2, Htr1, Etiles, flat_map_app. cbn [flat_map].
      rewrite app_nil_r, <- app_assoc. reflexivity.
Qed.

Hypothesis HS : 0 < S.
Hypothesis HT : 0 <= Persistent.num_tiles cfg.

Lemma tiles_per_SM_nonneg start_pid :
  0 <= Persistent.tiles_per_SM cfg start_pid.
Proof.
  unfold Persistent.tiles_per_SM.
  assert (0 <= Persistent.num_tiles cfg / S) by (apply Z.div_pos; lia).
  destruct (_ <? _); lia.
Qed.

(** One scheduling unit whose tiles are all ready: its effect on [C] is
    that of its tiles in order, and so is its trace. *)
Lemma p_kernel start_pid c :
  (forall t, In t (Persistent.tiles_of_unit cfg start_pid) ->
             Persistent.tile_ready cfg t = true) ->
  exists st, Persistent.kernel cfg start_pid c = Some st
    /\ (forall q, Persistent.st_c st q
          = launch (Persistent.tile_store cfg)
                   (Persistent.tiles_of_unit cfg start_pid) c q)
    /\ Persistent.st_trace st
       = flat_map (Persistent.tile_events cfg)
                  (Persistent.tiles_of_unit cfg start_pid).
Proof.
  intros Hr. unfold Persistent.kernel.
  pose proof (tiles_per_SM_nonneg start_pid) as Hn.
  rewrite Z2Nat.inj_mul by lia.
  assert (Etiles : map (fun i => Persistent.st_tile_id
                                   (Persistent.init cfg start_pid c)
                                 + (i + 1) * S)
                       (Tl.arange (Z.of_nat (Z.to_nat
                          (Persistent.tiles_per_SM cfg start_pid))))
                   = Persistent.tiles_of_unit cfg start_pid).
  { unfold Persistent.tiles_of_unit. rewrite Z2Nat.id by exact Hn.
    apply map_ext. intros i. cbn [Persistent.init Persistent.st_tile_id].
    lia. }
  destruct (p_tiles (Persistent.init cfg start_pid c)
              (Z.to_nat (Persistent.tiles_per_SM cfg start_pid)))
    as [st [E [_ [_ [Hc Htr]]]]].
  - split; [left; reflexivity|reflexivity].
  - intros i Hi. apply Hr. rewrite <- Etiles. apply in_map_iff.
    exists i. split; [reflexivity|]. apply In_arange. exact Hi.
  - exists st. split; [exact E|]. rewrite Etiles in Hc, Htr.
    split; [exact Hc|exact Htr].
Qed.

(** The whole launch, when every tile of every unit scheduled is ready. *)
Lemma p_run sched c :
  (forall u t, In u sched -> In t (Persistent.tiles_of_unit cfg u) ->
               Persistent.tile_ready cfg t = true) ->
  exists c', Persistent.run cfg sched c = Some c'
    /\ forall q, c' q
         = launch (Persistent.tile_store cfg)
                  (flat_map (Persistent.tiles_of_unit cfg) sched) c q.
Proof.
  revert c. induction sched as [|u rest IH]; intros c Hr.
  - exists c. split; reflexivity.
  - cbn [Persistent.run].
    destruct (p_kernel u c) as [st [E [Hc _]]].
    { intros t Ht. apply (Hr u t); [now left|exact Ht]. }
    rewrite E.
    destruct (IH (Persistent.st_c st)) as [c' [E' Hc']].
    { intros u' t Hu Ht. apply (Hr u' t); [now right|exact Ht]. }
    exists c'. split; [exact E'|].
    intros q. rewrite Hc'. cbn [flat_map]. unfold launch at 2.
    rewrite fold_left_app.
    apply launch_ext; [|exact Hc].
    intros t b b' Hb q'. apply tile_store_ext. exact Hb.
Qed.

End PersistentKernel.

(** ** The swizzle of the persistent kernel *)

Section Swizzle.

Variable cfg : Persistent.args.

Local Abbreviation M := (Persistent.M cfg).
Local Abbreviation BM := (Persistent.BLOCK_SIZE_M cfg).
Local Abbreviation P := (Persistent.num_pid_m cfg).
Local Abbreviation L := (Persistent.LOCAL_WORLD_SIZE cfg).
Local Abbreviation nn := (Persistent.nnodes cfg).
Local Abbreviation nr := (Persistent.num_ranks cfg).
Local Abbreviation Mpr := (Persistent.M_per_rank cfg).
Local Abbreviation pmr := (Persistent.pid_ms_per_rank cfg).

Hypothesis HM : 0 < M.
Hypothesis HBM : 0 < BM.

Lemma swizzle_single_range m :
  0 <= Persistent.swizzle_single cfg m < P.
Proof.
  unfold Persistent.swizzle_single. apply Z.mod_pos_bound.
  apply cdiv_pos; assumption.
Qed.

Lemma swizzle_single_inverse m :
  0 <= m < P ->
  0 <= Persistent.unswizzle_single cfg m < P
  /\ Persistent.swizzle_single cfg (Persistent.unswizzle_single cfg m) = m.
Proof.
  intros Hm. unfold Persistent.unswizzle_single, Persistent.swizzle_single.
  split.
  - apply Z.mod_pos_bound. lia.
  - apply rotate_back; lia.
Qed.

(** The layout the several-node swizzle is written for: whole nodes, and
    shards made of whole row tiles. *)
Hypothesis HL : 0 < L.
Hypothesis Hnn : 1 < nn.
Hypothesis Hnr : nr = nn * L.
Hypothesis HMnr : M mod nr = 0.
Hypothesis HMpr : Mpr mod BM = 0.

Lemma multi_layout : 0 < pmr /\ P = nr * pmr /\ 0 < nr.
Proof.
  assert (Hnr0 : 0 < nr) by nia.
  unfold Persistent.pid_ms_per_rank, Persistent.num_pid_m.
  pose proof (Z.div_mod M nr ltac:(lia)) as E1.
  fold Mpr in E1.
  assert (HMpr0 : 0 < Mpr) by nia.
  pose proof (Z.div_mod Mpr BM ltac:(lia)) as E2.
  assert (Ec : Tl.cdiv Mpr BM = Mpr / BM).
  { replace Mpr with (Mpr / BM * BM) at 1 by lia. apply cdiv_exact. lia. }
  rewrite Ec.
  assert (EP : Tl.cdiv M BM = nr * (Mpr / BM)).
  { replace M with (nr * (Mpr / BM) * BM) by nia. apply cdiv_exact. lia. }
  rewrite EP. repeat split; try lia; nia.
Qed.

Lemma swizzle_multi_range m :
  0 <= m < P -> 0 <= Persistent.swizzle_multi cfg m < P.
Proof.
  intros Hm. destruct multi_layout as [Hc [EP Hnr0]].
  unfold Persistent.swizzle_multi, Persistent.swizzle_m_rank,
    Persistent.swizzle_m_node_id, Persistent.swizzle_m_local_rank,
    Persistent.pid_m_intra_rank, Persistent.m_node_id,
    Persistent.m_local_rank, Persistent.m_rank.
  pose proof (Z.div_mod m pmr ltac:(lia)) as E.
  pose proof (Z.mod_pos_bound m pmr Hc) as B.
  pose proof (Z.mod_pos_bound (m / pmr / L + Persistent.node_id cfg) nn
                ltac:(lia)) as B1.
  pose proof (Z.mod_pos_bound ((m / pmr) mod L + Persistent.rank cfg) L HL)
    as B2.
  set (a := (m / pmr / L + Persistent.node_id cfg) mod nn) in *.
  set (b := ((m / pmr) mod L + Persistent.rank cfg) mod L) in *.
  assert (0 <= a * L + b < nr) by nia.
  nia.
Qed.

Lemma swizzle_multi_inverse m :
  0 <= m < P ->
  0 <= Persistent.unswizzle_multi cfg m < P
  /\ Persistent.swizzle_multi cfg (Persistent.unswizzle_multi cfg m) = m.
Proof.
  intros Hm. destruct multi_layout as [Hc [EP Hnr0]].
  unfold Persistent.unswizzle_multi.
  pose proof (Z.div_mod m pmr ltac:(lia)) as E.
  pose proof (Z.mod_pos_bound m pmr Hc) as B.
  set (r' := m / pmr) in *.
  assert (Hr' : 0 <= r' < nr) by nia.
  pose proof (Z.div_mod r' L ltac:(lia)) as E'.
  pose proof (Z.mod_pos_bound r' L HL) as B'.
  assert (Hnd' : 0 <= r' / L < nn) by nia.
  set (node := (r' / L - Persistent.node_id cfg) mod nn).
  set (local := (r' mod L - Persistent.rank cfg) mod L).
  assert (Hnode : 0 <= node < nn) by (apply Z.mod_pos_bound; lia).
  assert (Hlocal : 0 <= local < L) by (apply Z.mod_pos_bound; lia).
  assert (HR : 0 <= node * L + local < nr) by nia.
  split; [nia|].
  unfold Persistent.swizzle_multi, Persistent.swizzle_m_rank,
    Persistent.swizzle_m_node_id, Persistent.swizzle_m_local_rank,
    Persistent.pid_m_intra_rank, Persistent.m_node_id,
    Persistent.m_local_rank, Persistent.m_rank.
  rewrite (div_mul_add (node * L + local) pmr (m mod pmr) B).
  rewrite (div_mul_add node L local Hlocal).
  rewrite (mod_mul_add node L local Hlocal).
  unfold node at 1. rewrite (rotate_back nn (r' / L) _ ltac:(lia) Hnd').
  unfold local at 1. rewrite (rotate_back L (r' mod L) _ HL B').
  nia.
Qed.

End Swizzle.

(** ** The persistent kernel: what a tile stores *)

Section PersistentStores.

Variable cfg : Persistent.args.

Local Abbreviation a_buf := (Persistent.a_ptr cfg).
Local Abbreviation b_buf := (Persistent.b_ptr cfg).
Local Abbreviation M := (Persistent.M cfg).
Local Abbreviation N := (Persistent.N cfg).
Local Abbreviation K := (Persistent.K cfg).
Local Abbreviation BM := (Persistent.BLOCK_SIZE_M cfg).
Local Abbreviation BN := (Persistent.BLOCK_SIZE_N cfg).
Local Abbreviation BK := (Persistent.BLOCK_SIZE_K cfg).
Local Abbreviation cd := (Persistent.c_desc cfg).
Local Abbreviation ref := (reference (at2 a_buf K 1) (at2 b_buf K 1) K).

Hypothesis HM : 0 < M.
Hypothesis HN : 0 < N.
Hypothesis HK : 0 < K.
Hypothesis HBM : 0 < BM.
Hypothesis HBN : 0 < BN.
Hypothesis HBK : 0 < BK.

Lemma c_in_bounds r c :
  desc_in_bounds cd r c = true <-> (0 <= r < M /\ 0 <= c < N).
Proof.
  unfold desc_in_bounds, Persistent.c_desc. cbn [shape fst snd].
  rewrite !andb_true_iff, !Z.leb_le, !Z.ltb_lt. lia.
Qed.

Lemma c_ptr r c : desc_ptr cd r c = r * N + c.
Proof.
  unfold desc_ptr, Persistent.c_desc. cbn [strides fst snd]. lia.
Qed.

(** The accumulator of an in-range lane of tile [t] is the reference
    value of its element. *)
Lemma p_acc_value t i j :
  0 <= Persistent.pid_m cfg t * BM + i < M ->
  0 <= Persistent.pid_n cfg t * BN + j < N ->
  Persistent.tile_accumulator cfg t i j
  = ref (Persistent.pid_m cfg t * BM + i) (Persistent.pid_n cfg t * BN + j).
Proof.
  intros Hi Hj. unfold reference.
  rewrite <- (tiled_dot K BK
    (fun x => at2 a_buf K 1 (Persistent.pid_m cfg t * BM + i) x
              * at2 b_buf K 1 (Persistent.pid_n cfg t * BN + j) x))
    by lia.
  unfold Persistent.tile_accumulator, Persistent.k_tiles.
  apply sumZ_ext. intros ki Hki.
  unfold Persistent.slice_product, Tl.dot.
  apply sumZ_ext. intros kk Hkk.
  unfold desc_load, Tl.load, desc_in_bounds, desc_ptr,
    Persistent.a_desc, Persistent.b_desc, at2.
  cbn [shape strides fst snd].
  assert (Hx : 0 <= ki * BK + kk) by nia.
  destruct (Z.ltb_spec (ki * BK + kk) K) as [Hlt|Hge].
  - replace (0 <=? Persistent.pid_m cfg t * BM + i) with true
      by (symmetry; apply Z.leb_le; lia).
    replace (Persistent.pid_m cfg t * BM + i <? M) with true
      by (symmetry; apply Z.ltb_lt; lia).
    replace (0 <=? Persistent.pid_n cfg t * BN + j) with true
      by (symmetry; apply Z.leb_le; lia).
    replace (Persistent.pid_n cfg t * BN + j <? N) with true
      by (symmetry; apply Z.ltb_lt; lia).
    replace (0 <=? ki * BK + kk) with true
      by (symmetry; apply Z.leb_le; lia).
    cbn [andb]. reflexivity.
  - rewrite !andb_false_r. cbn [andb]. lia.
Qed.

Section OneStore.

(** One block store into [C] whose in-range lanes hold reference
    values. *)
Variables (rows cols r0 c0 : Z) (vals : Tl.block).

Hypothesis Hvals :
  forall i j, 0 <= i < rows -> 0 <= j < cols ->
    0 <= r0 + i < M -> 0 <= c0 + j < N ->
    vals i j = ref (r0 + i) (c0 + j).

Local Abbreviation st c :=
  (Tl.store c rows cols (fun i j => desc_ptr cd (r0 + i) (c0 + j)) vals
            (fun i j => desc_in_bounds cd (r0 + i) (c0 + j))).

Lemma c_store_cases c q :
  st c q = c q \/
  exists i j, 0 <= i < M /\ 0 <= j < N /\ q = i * N + j /\ st c q = ref i j.
Proof.
  match goal with
  | |- Tl.store c rows cols ?p ?v ?m q = _ \/ _ =>
      destruct (store_cases c rows cols p v m q)
        as [[E _]|[i [j [Hi [Hj [Hm [Hp E]]]]]]]
  end.
  - left. exact E.
  - right. cbv beta in Hm, Hp. apply c_in_bounds in Hm.
    rewrite c_ptr in Hp. exists (r0 + i), (c0 + j).
    split; [tauto|]. split; [tauto|]. split; [lia|].
    rewrite E. apply Hvals; tauto.
Qed.

Lemma c_store_keep c i j :
  0 <= i < M -> 0 <= j < N ->
  c (i * N + j) = ref i j -> st c (i * N + j) = ref i j.
Proof.
  intros Hi Hj Hc.
  destruct (c_store_cases c (i * N + j))
    as [E|[i' [j' [Hi' [Hj' [Eq E]]]]]].
  - rewrite E. exact Hc.
  - destruct (row_major_inj N i j i' j' Hj Hj' Eq) as [-> ->]. exact E.
Qed.

Lemma c_store_hit c i j :
  0 <= i < M -> 0 <= j < N ->
  r0 <= i < r0 + rows -> c0 <= j < c0 + cols ->
  st c (i * N + j) = ref i j.
Proof.
  intros Hi Hj Hr Hc.
  replace (i * N + j) with (desc_ptr cd (r0 + (i - r0)) (c0 + (j - c0)))
    by (rewrite c_ptr; lia).
  assert (Hm : desc_in_bounds cd (r0 + (i - r0)) (c0 + (j - c0)) = true)
    by (apply c_in_bounds; lia).
  rewrite (store_hit c rows cols
             (fun i j => desc_ptr cd (r0 + i) (c0 + j)) vals
             (fun i j => desc_in_bounds cd (r0 + i) (c0 + j))
             (i - r0) (j - c0)); try lia; try exact Hm.
  - rewrite Hvals by lia. f_equal; lia.
  - intros i' j' Hi' Hj' Hm' Hp. cbv beta in Hm', Hp.
    apply c_in_bounds in Hm'. rewrite !c_ptr in Hp.
    destruct (row_major_inj N (r0 + i') (c0 + j') (r0 + (i - r0))
                (c0 + (j - c0))) as [E1 E2]; try lia.
    replace i' with (i - r0) by lia. replace j' with (j - c0) by lia.
    reflexivity.
Qed.

End OneStore.

(** A tile writes nothing but right values, inside [C]. *)
Lemma tile_store_cases t c q :
  Persistent.tile_store cfg t c q = c q \/
  exists i j, 0 <= i < M /\ 0 <= j < N /\ q = i * N + j
              /\ Persistent.tile_store cfg t c q = ref i j.
Proof.
  unfold Persistent.tile_store, Persistent.epilogue_store.
  destruct (Persistent.EPILOGUE_SUBTILE cfg) eqn:Esub; cbn [fst];
    unfold desc_store.
  - match goal with
    | |- Tl.store ?c1 ?rows ?cols _ ?v _ q = _ \/ _ =>
        destruct (c_store_cases rows cols
                    (Persistent.pid_m cfg t * BM)
                    (Persistent.pid_n cfg t * BN + BN / 2) v) with (c := c1)
                    (q := q) as [E|H]
    end.
    + intros i j _ _ Hi Hj.
      rewrite p_acc_value by lia. f_equal. lia.
    + rewrite E.
      apply c_store_cases. intros i j _ _ Hi Hj. apply p_acc_value; lia.
    + right. exact H.
  - apply c_store_cases. intros i j _ _ Hi Hj. apply p_acc_value; lia.
Qed.

(** The tile of element [(i, j)] writes it. *)
Lemma tile_store_hit t c i j :
  0 <= i < M -> 0 <= j < N ->
  Persistent.pid_m cfg t = i / BM -> Persistent.pid_n cfg t = j / BN ->
  (Persistent.EPILOGUE_SUBTILE cfg = true -> BN mod 2 = 0) ->
  Persistent.tile_store cfg t c (i * N + j) = ref i j.
Proof.
  intros Hi Hj Epm Epn Heven.
  pose proof (Z.div_mod i BM ltac:(lia)) as Ei.
  pose proof (Z.mod_pos_bound i BM HBM) as Bi.
  pose proof (Z.div_mod j BN ltac:(lia)) as Ej.
  pose proof (Z.mod_pos_bound j BN HBN) as Bj.
  unfold Persistent.tile_store, Persistent.epilogue_store.
  destruct (Persistent.EPILOGUE_SUBTILE cfg) eqn:Esub; cbn [fst];
    unfold desc_store.
  - specialize (Heven eq_refl).
    pose proof (Z.div_mod BN 2 ltac:(lia)) as Eh.
    destruct (Z_lt_le_dec (j mod BN) (BN / 2)) as [Hlo|Hhi].
    + apply c_store_keep; try assumption.
      * intros i' j' _ _ Hi' Hj'.
        rewrite p_acc_value by lia. f_equal. lia.
      * apply c_store_hit; try assumption; try (unfold Persistent.c_desc; cbn [block_shape fst snd];
             rewrite ?Esub, ?Epm, ?Epn; lia).
        intros i' j' _ _ Hi' Hj'. apply p_acc_value; lia.
    + apply c_store_hit; try assumption; try (unfold Persistent.c_desc; cbn [block_shape fst snd];
             rewrite ?Esub, ?Epm, ?Epn; lia).
      intros i' j' _ _ Hi' Hj'.
      rewrite p_acc_value by lia. f_equal. lia.
  - apply c_store_hit; try assumption; try (unfold Persistent.c_desc; cbn [block_shape fst snd];
             rewrite ?Esub, ?Epm, ?Epn; lia).
    intros i' j' _ _ Hi' Hj'. apply p_acc_value; lia.
Qed.

End PersistentStores.

(** ** Both kernels compute the reference product *)

(** The slots of the wait of an in-range row tile are slots of the flag
    buffer. *)
Lemma slots_in_buffer M BM WS pm r :
  0 < M -> 0 < BM -> 0 < WS -> M mod WS = 0 ->
  0 <= pm -> pm * BM < M ->
  In r (wait_slots (pm * BM / (M / WS))
          ((Z.min (pm * BM + BM) M - 1) / (M / WS) - pm * BM / (M / WS) + 1)) ->
  0 <= r < WS.
Proof.
  intros HM HBM HW Hdiv Hpm Hoff Hr. apply In_wait_slots in Hr.
  set (offs := pm * BM) in *.
  pose proof (Z.div_mod M WS ltac:(lia)) as EM.
  assert (Hmpr : 0 < M / WS) by nia.
  assert (H0 : 0 <= offs / (M / WS)) by (apply Z.div_pos; nia).
  assert (H1 : (Z.min (offs + BM) M - 1) / (M / WS) < WS).
  { apply Z.div_lt_upper_bound; [exact Hmpr|]. nia. }
  lia.
Qed.

Lemma reference_ext A A' B B' K i j :
  (forall k, 0 <= k < K -> A i k = A' i k) ->
  (forall k, 0 <= k < K -> B j k = B' j k) ->
  reference A B K i j = reference A' B' K i j.
Proof.
  intros HA HB. unfold reference. apply sumZ_ext. intros k Hk.
  rewrite HA, HB by exact Hk. reflexivity.
Qed.

(** The non-persistent launch, for any sizes: every element of [C] gets
    its reference value and nothing else is written. *)
Lemma np_gemm (cfg : NonPersistent.args) (sched : list Z) (c : Tl.buffer) :
  0 < NonPersistent.M cfg -> 0 < NonPersistent.N cfg ->
  0 <= NonPersistent.K cfg ->
  0 < NonPersistent.BLOCK_SIZE_M cfg -> 0 < NonPersistent.BLOCK_SIZE_N cfg ->
  0 < NonPersistent.BLOCK_SIZE_K cfg -> 0 < NonPersistent.GROUP_SIZE_M cfg ->
  0 < NonPersistent.WORLD_SIZE cfg ->
  NonPersistent.M cfg mod NonPersistent.WORLD_SIZE cfg = 0 ->
  (forall r, 0 <= r < NonPersistent.WORLD_SIZE cfg ->
             NonPersistent.barrier_ptr cfg r = 1) ->
  dense_view (NonPersistent.M cfg) (NonPersistent.N cfg)
             (NonPersistent.stride_cm cfg) (NonPersistent.stride_cn cfg) ->
  (forall pid, In pid sched <-> 0 <= pid < NonPersistent.grid cfg) ->
  exists c', NonPersistent.run cfg sched c = Some c'
    /\ (forall i j, 0 <= i < NonPersistent.M cfg ->
                    0 <= j < NonPersistent.N cfg ->
          at2 c' (NonPersistent.stride_cm cfg) (NonPersistent.stride_cn cfg)
              i j
          = reference
              (at2 (NonPersistent.a_ptr cfg) (NonPersistent.stride_am cfg)
                   (NonPersistent.stride_ak cfg))
              (at2 (NonPersistent.b_ptr cfg) (NonPersistent.stride_bn cfg)
                   (NonPersistent.stride_bk cfg))
              (NonPersistent.K cfg) i j)
    /\ (forall q,
          (forall i j, 0 <= i < NonPersistent.M cfg ->
                       0 <= j < NonPersistent.N cfg ->
                       q <> i * NonPersistent.stride_cm cfg
                            + j * NonPersistent.stride_cn cfg) ->
          c' q = c q).
Proof.
  intros HM HN HK HBM HBN HBK HG HW Hdiv Hready Hdense Hsched.
  eexists. split.
  - apply np_run_ready. intros pid Hin. apply Hsched in Hin.
    apply dl_wait_true. intros r Hr. apply Hready.
    apply (np_wait_slots_in_buffer cfg HM HN HBM HBN HG pid r HW Hdiv Hin Hr).
  - split.
    + intros i j Hi Hj. unfold at2 at 1. apply launch_written.
      * intros pid b Hin. apply Hsched in Hin.
        destruct (np_body_cases cfg HM HN HK HBM HBN HBK HG pid b
                    (i * NonPersistent.stride_cm cfg
                     + j * NonPersistent.stride_cn cfg) Hin)
          as [E|[i' [j' [Hi' [Hj' [Eq E]]]]]]; [left; exact E|].
        right. destruct (Hdense i j i' j' Hi Hj Hi' Hj' Eq) as [-> ->].
        exact E.
      * destruct (np_body_covers cfg HM HN HK HBM HBN HBK HG i j c Hdense
                    Hi Hj) as [Hpid _].
        eexists. split; [apply Hsched; exact Hpid|].
        intros b.
        apply (np_body_covers cfg HM HN HK HBM HBN HBK HG i j b Hdense Hi Hj).
    + intros q Hq. apply launch_untouched. intros pid b Hin.
      apply Hsched in Hin.
      destruct (np_body_cases cfg HM HN HK HBM HBN HBK HG pid b q Hin)
        as [E|[i' [j' [Hi' [Hj' [Eq _]]]]]]; [exact E|].
      exfalso. exact (Hq i' j' Hi' Hj' Eq).
Qed.

Section PersistentGemm.

Variable cfg : Persistent.args.

Local Abbreviation M := (Persistent.M cfg).
Local Abbreviation N := (Persistent.N cfg).
Local Abbreviation K := (Persistent.K cfg).
Local Abbreviation BM := (Persistent.BLOCK_SIZE_M cfg).
Local Abbreviation BN := (Persistent.BLOCK_SIZE_N cfg).
Local Abbreviation BK := (Persistent.BLOCK_SIZE_K cfg).
Local Abbreviation P := (Persistent.num_pid_m cfg).
Local Abbreviation Q := (Persistent.num_pid_n cfg).

Hypothesis HM : 0 < M.
Hypothesis HN : 0 < N.
Hypothesis HBM : 0 < BM.
Hypothesis HBN : 0 < BN.
Hypothesis HG : 0 < Persistent.GROUP_SIZE_M cfg.
Hypothesis Hnr : 0 < Persistent.num_ranks cfg.
Hypothesis HMnr : M mod Persistent.num_ranks cfg = 0.
Hypothesis Hlayout : Persistent.layout_ok cfg.

Lemma swizzle_m_range m :
  0 <= m < P -> 0 <= Persistent.swizzle_m cfg m < P.
Proof.
  intros Hm. unfold Persistent.swizzle_m.
  destruct Hlayout as [E1|[Hnn [HL [Enr HMpr]]]].
  - rewrite E1. cbn [Z.eqb Pos.eqb]. apply swizzle_single_range; assumption.
  - destruct (Z.eqb_spec (Persistent.nnodes cfg) 1); [lia|].
    apply swizzle_multi_range; assumption.
Qed.

Lemma swizzle_m_inverse m :
  0 <= m < P ->
  0 <= Persistent.unswizzle_m cfg m < P
  /\ Persistent.swizzle_m cfg (Persistent.unswizzle_m cfg m) = m.
Proof.
  intros Hm. unfold Persistent.swizzle_m, Persistent.unswizzle_m.
  destruct Hlayout as [E1|[Hnn [HL [Enr HMpr]]]].
  - rewrite E1. cbn [Z.eqb Pos.eqb]. apply swizzle_single_inverse; assumption.
  - destruct (Z.eqb_spec (Persistent.nnodes cfg) 1); [lia|].
    apply swizzle_multi_inverse; assumption.
Qed.

(** Every tile id of the grid names a tile of the grid. *)
Lemma p_tile_range t :
  0 <= t < Persistent.num_tiles cfg ->
  0 <= Persistent.pid_m cfg t < P /\ 0 <= Persistent.pid_n cfg t < Q.
Proof.
  intros Ht.
  assert (Hg := p_grouped_range cfg HM HN HBM HBN HG t Ht).
  destruct Hg as [_ [_ [Hgm Hgn]]].
  split; [|exact Hgn]. unfold Persistent.pid_m.
  apply swizzle_m_range. exact Hgm.
Qed.

(** Every tile of the grid has a tile id. *)
Lemma p_tile_of_spec m n :
  0 <= m < P -> 0 <= n < Q ->
  0 <= Persistent.tile_of cfg m n < Persistent.num_tiles cfg
  /\ Persistent.pid_m cfg (Persistent.tile_of cfg m n) = m
  /\ Persistent.pid_n cfg (Persistent.tile_of cfg m n) = n.
Proof.
  intros Hm Hn. destruct (swizzle_m_inverse m Hm) as [Hu Eu].
  destruct (p_tile_of_grouped_spec cfg HM HN HBM HBN HG _ n Hu Hn)
    as [Hr [Egm Egn]].
  unfold Persistent.tile_of, Persistent.pid_m.
  split; [exact Hr|]. split; [|exact Egn]. rewrite Egm. exact Eu.
Qed.

(** The wait of every tile of the grid reads slots of the flag buffer. *)
Lemma p_tile_ready t :
  (forall r, 0 <= r < Persistent.num_ranks cfg ->
             Persistent.ready_ptr cfg r = Persistent.ready_value cfg) ->
  0 <= t < Persistent.num_tiles cfg ->
  Persistent.tile_ready cfg t = true.
Proof.
  intros Hready Ht. unfold Persistent.tile_ready. apply dl_wait_true.
  intros r Hr. apply Hready.
  destruct (p_tile_range t Ht) as [Hpm _].
  pose proof (lt_cdiv_mul M BM _ HBM Hpm) as Hoff.
  apply (slots_in_buffer M BM (Persistent.num_ranks cfg)
           (Persistent.pid_m cfg t) r); try assumption; try lia.
Qed.

Hypothesis HK : 0 < K.
Hypothesis HBK : 0 < BK.
Hypothesis HS : 0 < Persistent.NUM_SMS cfg.
Hypothesis Hsub :
  Persistent.EPILOGUE_SUBTILE cfg = true -> BN mod 2 = 0.

Lemma p_num_tiles_pos : 0 < Persistent.num_tiles cfg.
Proof.
  unfold Persistent.num_tiles.
  pose proof (cdiv_pos M BM HBM HM). pose proof (cdiv_pos N BN HBN HN).
  unfold Persistent.num_pid_m, Persistent.num_pid_n. nia.
Qed.

(** The persistent launch: every element of [C] gets its reference
    value and nothing else is written. *)
Lemma p_gemm (sched : list Z) (c : Tl.buffer) :
  (forall r, 0 <= r < Persistent.num_ranks cfg ->
             Persistent.ready_ptr cfg r = Persistent.ready_value cfg) ->
  (forall u, In u sched <-> 0 <= u < Persistent.grid cfg) ->
  exists c', Persistent.run cfg sched c = Some c'
    /\ (forall i j, 0 <= i < M -> 0 <= j < N ->
          at2 c' N 1 i j
          = reference (at2 (Persistent.a_ptr cfg) K 1)
                      (at2 (Persistent.b_ptr cfg) K 1) K i j)
    /\ (forall q, (forall i j, 0 <= i < M -> 0 <= j < N -> q <> i * N + j) ->
                  c' q = c q).
Proof.
  intros Hready Hsched.
  pose proof p_num_tiles_pos as HT.
  assert (Hk : 0 < Persistent.k_tiles cfg)
    by (unfold Persistent.k_tiles; apply cdiv_pos; assumption).
  destruct (p_run cfg Hk HS ltac:(lia) sched c) as [c' [Erun Hc']].
  { intros u t Hu Ht. apply Hsched in Hu. unfold Persistent.grid in Hu.
    apply p_tile_ready; [exact Hready|].
    apply (tiles_within cfg HS u t); [lia|exact Ht]. }
  exists c'. split; [exact Erun|]. split.
  - intros i j Hi Hj. unfold at2 at 1. rewrite Hc'.
    replace (i * N + j * 1) with (i * N + j) by lia.
    assert (Htm : 0 <= i / BM < P).
    { split; [apply Z.div_pos; lia|]. apply div_lt_cdiv; lia. }
    assert (Htn : 0 <= j / BN < Q).
    { split; [apply Z.div_pos; lia|]. apply div_lt_cdiv; lia. }
    destruct (p_tile_of_spec _ _ Htm Htn) as [Ht [Epm Epn]].
    apply launch_written.
    + intros t b _.
      destruct (tile_store_cases cfg HK HBK t b (i * N + j))
        as [E|[i' [j' [Hi' [Hj' [Eq E]]]]]]; [left; exact E|].
      right. destruct (row_major_inj N i j i' j' Hj Hj' Eq) as [-> ->].
      exact E.
    + exists (Persistent.tile_of cfg (i / BM) (j / BN)). split.
      * apply in_flat_map.
        destruct (tiles_cover cfg HS _ Ht) as [Hu Hin].
        eexists. split; [|exact Hin].
        apply Hsched. unfold Persistent.grid.
        pose proof (Z.mod_le (Persistent.tile_of cfg (i / BM) (j / BN))
                      (Persistent.NUM_SMS cfg) ltac:(lia) HS).
        lia.
      * intros b. apply tile_store_hit; assumption.
  - intros q Hq. rewrite Hc'. apply launch_untouched. intros t b _.
    destruct (tile_store_cases cfg HK HBK t b q)
      as [E|[i' [j' [Hi' [Hj' [Eq _]]]]]]; [exact E|].
    exfalso. exact (Hq i' j' Hi' Hj' Eq).
Qed.

End PersistentGemm.

(** ** The phase counter *)

Module HostFacts.
Import Host.

Lemma phases_passed_app w w' :
  phases_passed (w ++ w') = phases_passed w ++ phases_passed w'.
Proof. unfold phases_passed. apply flat_map_app. Qed.

Lemma op_passes_no_phase_np a b rank nl nr serial autotune :
  phases_passed (fst (ag_gemm_non_persistent_op a b rank nl nr serial autotune))
  = [].
Proof.
  unfold ag_gemm_non_persistent_op.
  destruct (negb _); [reflexivity|]. destruct (negb _); [reflexivity|].
  cbn [fst]. destruct serial, (nl =? nr); reflexivity.
Qed.

Lemma op_passes_no_phase_intra mpc a b rank nr serial autotune :
  phases_passed
    (fst (ag_gemm_intra_node_persistent_op mpc a b rank nr serial autotune))
  = [].
Proof.
  unfold ag_gemm_intra_node_persistent_op.
  destruct (negb _); [reflexivity|]. destruct (negb _); [reflexivity|].
  cbn [fst]. destruct serial; reflexivity.
Qed.

Lemma op_passes_no_phase_inter mpc a b rank nr lws target autotune ce :
  phases_passed
    (fst (ag_gemm_inter_node_persistent_op mpc a b rank nr lws target
            autotune ce))
  = [].
Proof.
  unfold ag_gemm_inter_node_persistent_op.
  destruct (negb _); [reflexivity|]. destruct (negb _); [reflexivity|].
  reflexivity.
Qed.

(** A call hands over the phase it finds and leaves it two higher,
    whatever its outcome. *)
Lemma run_call_phase mpc c ctx :
  exists w r ctx',
    run_call mpc c ctx = ((w, r), Some ctx')
    /\ phases_passed w = [ctx_phase ctx]
    /\ ctx_phase ctx' = ctx_phase ctx + 2.
Proof.
  destruct c as [a b persistent | a b lws target persistent];
    unfold run_call, ag_gemm_intra_node, ag_gemm_inter_node,
      ag_gemm_intra_node_with, ag_gemm_inter_node_with.
  - destruct persistent.
    + pose proof (op_passes_no_phase_intra mpc a b
                    (ctx_rank (bump_phase ctx))
                    (ctx_num_ranks (bump_phase ctx))
                    (ctx_serial (bump_phase ctx))
                    (ctx_autotune (bump_phase ctx))) as E.
      destruct (ag_gemm_intra_node_persistent_op _ _ _ _ _ _ _) as [w r].
      do 3 eexists. split; [reflexivity|]. split; [|reflexivity].
      rewrite phases_passed_app. cbn [fst] in E. rewrite E. reflexivity.
    + pose proof (op_passes_no_phase_np a b
                    (ctx_rank (bump_phase ctx))
                    (ctx_num_local_ranks (bump_phase ctx))
                    (ctx_num_ranks (bump_phase ctx))
                    (ctx_serial (bump_phase ctx))
                    (ctx_autotune (bump_phase ctx))) as E.
      destruct (ag_gemm_non_persistent_op _ _ _ _ _ _ _) as [w r].
      do 3 eexists. split; [reflexivity|]. split; [|reflexivity].
      rewrite phases_passed_app. cbn [fst] in E. rewrite E. reflexivity.
  - destruct persistent.
    + pose proof (op_passes_no_phase_inter mpc a b
                    (ctx_rank (bump_phase ctx))
                    (ctx_num_ranks (bump_phase ctx)) lws target
                    (ctx_autotune (bump_phase ctx)) true) as E.
      destruct (ag_gemm_inter_node_persistent_op _ _ _ _ _ _ _ _ _) as [w r].
      do 3 eexists. split; [reflexivity|]. split; [|reflexivity].
      rewrite phases_passed_app. cbn [fst] in E. rewrite E. reflexivity.
    + pose proof (op_passes_no_phase_np a b
                    (ctx_rank (bump_phase ctx))
                    (ctx_num_local_ranks (bump_phase ctx))
                    (ctx_num_ranks (bump_phase ctx))
                    (ctx_serial (bump_phase ctx))
                    (ctx_autotune (bump_phase ctx))) as E.
      destruct (ag_gemm_non_persistent_op _ _ _ _ _ _ _) as [w r].
      do 3 eexists. split; [reflexivity|]. split; [|reflexivity].
      rewrite phases_passed_app. cbn [fst] in E. rewrite E. reflexivity.
Qed.


Lemma fresh_phase ctx : fresh ctx -> ctx_phase ctx = 1.
Proof.
  intros [[A [B [rk [nr [s [au [w E]]]]]]]
         |[A [B [rk [nr [nl [s [au [w E]]]]]]]]].
  - unfold create_ag_gemm_intra_node_context in E.
    destruct (negb _); [discriminate|]. destruct (negb _); [discriminate|].
    inversion E. reflexivity.
  - unfold create_ag_gemm_inter_node_context in E.
    destruct (negb _); [discriminate|]. destruct (negb _); [discriminate|].
    inversion E. reflexivity.
Qed.

End HostFacts.


(** ** Eager checks of the ops and of the constructors *)

(** What the ops and the constructors check of their two tensors. *)
Lemma mismatch_cases (a b : Host.Tensor) :
  Host.shape1 a <> Host.shape1 b
  \/ Host.tensor_dtype a <> Host.tensor_dtype b ->
  negb (Host.shape1 a =? Host.shape1 b) = true
  \/ (negb (Host.shape1 a =? Host.shape1 b) = false
      /\ negb (Host.dtype_eqb (Host.tensor_dtype a) (Host.tensor_dtype b))
         = true).
Proof.
  intros H. destruct (Z.eqb_spec (Host.shape1 a) (Host.shape1 b)) as [E|E].
  - right. split; [reflexivity|].
    destruct H as [H|H]; [contradiction|].
    destruct (Host.tensor_dtype a), (Host.tensor_dtype b);
      try reflexivity; exfalso; apply H; reflexivity.
  - left. reflexivity.
Qed.

(** C7, as the code has it.  Each op and each constructor checks the
    inner dimensions and the dtypes of A and B first: when they differ
    it raises an assertion error and has issued no work at all.  The
    row count of B is not checked against the rank count. *)
Theorem mismatch_rejected_before_any_work
    (multi_processor_count : Z) (a b : Host.Tensor)
    (rank num_local_ranks num_ranks local_world_size signal_target : Z)
    (serial autotune copy_engine_dispatch : bool) :
  Host.shape1 a <> Host.shape1 b
  \/ Host.tensor_dtype a <> Host.tensor_dtype b ->
  (fst (Host.ag_gemm_non_persistent_op a b rank num_local_ranks num_ranks
          serial autotune) = []
   /\ Host.raised (snd (Host.ag_gemm_non_persistent_op a b rank
                          num_local_ranks num_ranks serial autotune)) = true)
  /\ (fst (Host.ag_gemm_intra_node_persistent_op multi_processor_count a b
             rank num_ranks serial autotune) = []
      /\ Host.raised (snd (Host.ag_gemm_intra_node_persistent_op
                             multi_processor_count a b rank num_ranks serial
                             autotune)) = true)
  /\ (fst (Host.ag_gemm_inter_node_persistent_op multi_processor_count a b
             rank num_ranks local_world_size signal_target autotune
             copy_engine_dispatch) = []
      /\ Host.raised (snd (Host.ag_gemm_inter_node_persistent_op
                             multi_processor_count a b rank num_ranks
                             local_world_size signal_target autotune
                             copy_engine_dispatch)) = true)
  /\ (fst (Host.create_ag_gemm_intra_node_context a b rank num_ranks serial
             autotune) = []
      /\ Host.raised (snd (Host.create_ag_gemm_intra_node_context a b rank
                             num_ranks serial autotune)) = true)
  /\ (fst (Host.create_ag_gemm_inter_node_context a b rank num_ranks
             num_local_ranks serial autotune) = []
      /\ Host.raised (snd (Host.create_ag_gemm_inter_node_context a b rank
                             num_ranks num_local_ranks serial autotune))
         = true).
Proof.
  intros H.
  assert (H' : Host.shape1 b <> Host.shape1 a
               \/ Host.tensor_dtype b <> Host.tensor_dtype a)
    by (destruct H; [left|right]; congruence).
  unfold Host.ag_gemm_non_persistent_op,
    Host.ag_gemm_intra_node_persistent_op,
    Host.ag_gemm_inter_node_persistent_op,
    Host.create_ag_gemm_intra_node_context,
    Host.create_ag_gemm_inter_node_context.
  assert (Hd : forall x y, Host.dtype_eqb x y = Host.dtype_eqb y x)
    by (intros x y; destruct x, y; reflexivity).
  destruct (mismatch_cases a b H) as [E|[E1 E2]].
  - assert (E' : negb (Host.shape1 b =? Host.shape1 a) = true)
      by (rewrite Z.eqb_sym; exact E).
    rewrite E, E'. cbn. tauto.
  - assert (E1' : negb (Host.shape1 b =? Host.shape1 a) = false)
      by (rewrite Z.eqb_sym; exact E1).
    rewrite E1, E1', E2. cbn. tauto.
Qed.

(** C7 as stated fails: with matching inner dimensions and dtypes, a
    [B] of 3 rows on 2 ranks is accepted by every op and constructor. *)
Lemma b_rows_not_checked :
  let a := {| Host.shape0 := 2; Host.shape1 := 4;
              Host.tensor_dtype := Host.float16 |} in
  let b := {| Host.shape0 := 3; Host.shape1 := 4;
              Host.tensor_dtype := Host.float16 |} in
  Host.shape0 b mod 2 <> 0
  /\ Host.raised (snd (Host.ag_gemm_non_persistent_op a b 0 2 2 false false))
     = false
  /\ Host.raised (snd (Host.ag_gemm_intra_node_persistent_op 132 a b 0 2
                         false false)) = false
  /\ Host.raised (snd (Host.ag_gemm_inter_node_persistent_op 132 a b 0 2 8 1
                         false true)) = false
  /\ Host.raised (snd (Host.create_ag_gemm_intra_node_context a b 0 2 false
                         false)) = false
  /\ Host.raised (snd (Host.create_ag_gemm_inter_node_context a b 0 2 8 false
                         false)) = false.
Proof.
  cbv zeta. repeat split; try reflexivity. cbn. discriminate.
Qed.

(** ** The rank-aware rotation of the row tiles *)


(** C4, as the code has it.  With one node, both kernels first compute
    the row tile of the grouped ordering and then rotate it modulo the
    number of row tiles: the persistent kernel by
    [rank * cdiv(M_per_rank, BLOCK_SIZE_M)], the non-persistent kernel
    by [cdiv(M_per_rank * rank, BLOCK_SIZE_M)]; the two amounts are the
    same when [BLOCK_SIZE_M] divides [M_per_rank]. *)
Theorem single_tier_rotation
    (pcfg : Persistent.args) (ncfg : NonPersistent.args) (tile_id pid : Z) :
  (Persistent.nnodes pcfg = 1 ->
   0 <= Persistent.rank pcfg < Persistent.num_ranks pcfg ->
   Persistent.pid_m pcfg tile_id
   = (Persistent.grouped_pid_m pcfg tile_id
      + Persistent.rank pcfg
        * Tl.cdiv (Persistent.M pcfg / Persistent.num_ranks pcfg)
                  (Persistent.BLOCK_SIZE_M pcfg))
     mod Tl.cdiv (Persistent.M pcfg) (Persistent.BLOCK_SIZE_M pcfg))
  /\ NonPersistent.pid_m ncfg pid
     = (NonPersistent.grouped_pid_m ncfg pid
        + Tl.cdiv (NonPersistent.M ncfg / NonPersistent.WORLD_SIZE ncfg
                   * NonPersistent.rank ncfg)
                  (NonPersistent.BLOCK_SIZE_M ncfg))
       mod Tl.cdiv (NonPersistent.M ncfg) (NonPersistent.BLOCK_SIZE_M ncfg)
  /\ (0 < NonPersistent.BLOCK_SIZE_M ncfg ->
      (NonPersistent.M ncfg / NonPersistent.WORLD_SIZE ncfg)
        mod NonPersistent.BLOCK_SIZE_M ncfg = 0 ->
      Tl.cdiv (NonPersistent.M ncfg / NonPersistent.WORLD_SIZE ncfg
               * NonPersistent.rank ncfg)
              (NonPersistent.BLOCK_SIZE_M ncfg)
      = NonPersistent.rank ncfg
        * Tl.cdiv (NonPersistent.M ncfg / NonPersistent.WORLD_SIZE ncfg)
                  (NonPersistent.BLOCK_SIZE_M ncfg)).
Proof.
  split; [|split].
  - intros Hnn Hr. unfold Persistent.pid_m, Persistent.swizzle_m.
    rewrite Hnn. cbn [Z.eqb Pos.eqb]. unfold Persistent.swizzle_single.
    rewrite Z.lxor_0_r, Z.add_0_r.
    rewrite (Z.mod_small (Persistent.rank pcfg)) by exact Hr. reflexivity.
  - reflexivity.
  - intros HBM Hdiv.
    set (mpr := NonPersistent.M ncfg / NonPersistent.WORLD_SIZE ncfg) in *.
    set (BM := NonPersistent.BLOCK_SIZE_M ncfg) in *.
    pose proof (Z.div_mod mpr BM ltac:(lia)) as E.
    rewrite Hdiv, Z.add_0_r in E.
    assert (E1 : Tl.cdiv mpr BM = mpr / BM).
    { rewrite E at 1. rewrite Z.mul_comm. apply cdiv_exact. exact HBM. }
    rewrite E1.
    replace (mpr * NonPersistent.rank ncfg)
      with (NonPersistent.rank ncfg * (mpr / BM) * BM) by nia.
    apply cdiv_exact. exact HBM.
Qed.

(** C4 as stated fails for the non-persistent kernel: with 4 ranks,
    shards of 3 rows and row tiles of 2 rows, rank 2 rotates by
    [cdiv(6, 2) = 3] row tiles, not by [2 * cdiv(3, 2) = 4], and the
    program whose grouped row tile is 0 works on row tile 3, not 4. *)
Lemma rotation_amount_differs :
  let cfg := {|
    NonPersistent.a_ptr := fun _ => 0; NonPersistent.b_ptr := fun _ => 0;
    NonPersistent.M := 12; NonPersistent.N := 1; NonPersistent.K := 1;
    NonPersistent.stride_am := 1; NonPersistent.stride_ak := 1;
    NonPersistent.stride_bk := 1; NonPersistent.stride_bn := 1;
    NonPersistent.stride_cm := 1; NonPersistent.stride_cn := 1;
    NonPersistent.rank := 2; NonPersistent.WORLD_SIZE := 4;
    NonPersistent.barrier_ptr := fun _ => 1;
    NonPersistent.BLOCK_SIZE_M := 2; NonPersistent.BLOCK_SIZE_N := 1;
    NonPersistent.BLOCK_SIZE_K := 1; NonPersistent.GROUP_SIZE_M := 8 |} in
  let rowTilesPerRankShard :=
    Tl.cdiv (NonPersistent.m_per_rank cfg) (NonPersistent.BLOCK_SIZE_M cfg) in
  NonPersistent.pid_m_offset cfg = 3
  /\ NonPersistent.rank cfg * rowTilesPerRankShard = 4
  /\ NonPersistent.grouped_pid_m cfg 0 = 0
  /\ NonPersistent.pid_m cfg 0 = 3
  /\ NonPersistent.pid_m cfg 0
     <> (NonPersistent.grouped_pid_m cfg 0
         + NonPersistent.rank cfg * rowTilesPerRankShard)
        mod NonPersistent.num_pid_m cfg.
Proof.
  cbv zeta. repeat split; try reflexivity. vm_compute. discriminate.
Qed.

(** ** The iterations of a scheduling unit *)

Lemma count_loads_a_app l l' :
  count_loads_a (l ++ l') = count_loads_a l + count_loads_a l'.
Proof.
  unfold count_loads_a. rewrite filter_app, length_app. lia.
Qed.

Lemma count_loads_a_slices cfg t n :
  0 <= n ->
  count_loads_a (flat_map (Persistent.slice_events cfg t) (Tl.arange n)) = n.
Proof.
  intros Hn. pattern n. apply natlike_ind; [reflexivity| |exact Hn].
  intros x Hx IH. unfold Z.succ. rewrite arange_succ by exact Hx.
  rewrite flat_map_app, count_loads_a_app, IH. reflexivity.
Qed.

Lemma count_loads_a_tile cfg t :
  0 <= Persistent.k_tiles cfg ->
  count_loads_a (Persistent.tile_events cfg t) = Persistent.k_tiles cfg.
Proof.
  intros Hk. unfold Persistent.tile_events.
  change (EvWait ?a ?b :: ?l) with ([EvWait a b] ++ l).
  rewrite !count_loads_a_app, count_loads_a_slices by exact Hk.
  unfold Persistent.epilogue_store.
  destruct (Persistent.EPILOGUE_SUBTILE cfg); cbn [snd];
    unfold count_loads_a; cbn [filter is_load_a List.length]; lia.
Qed.

Lemma count_loads_a_tiles cfg tiles :
  0 <= Persistent.k_tiles cfg ->
  count_loads_a (flat_map (Persistent.tile_events cfg) tiles)
  = Persistent.k_tiles cfg * Z.of_nat (List.length tiles).
Proof.
  intros Hk. induction tiles as [|t l IH].
  - cbn. lia.
  - cbn [flat_map]. rewrite count_loads_a_app, count_loads_a_tile, IH
      by exact Hk.
    cbn [List.length]. lia.
Qed.

(** C9, as the code has it.  A unit of the persistent kernel whose waits
    all return runs its loop exactly [k_tiles * tiles_per_SM] times,
    where [tiles_per_SM] is [num_tiles // NUM_SMS], plus one for the
    units whose index is below [num_tiles % NUM_SMS]; this is
    [cdiv(num_tiles * k_tiles, NUM_SMS)] when [NUM_SMS] divides
    [num_tiles]. *)
Theorem unit_iterations (cfg : Persistent.args) (start_pid : Z)
    (c : Tl.buffer) :
  0 < Persistent.k_tiles cfg ->
  0 < Persistent.NUM_SMS cfg ->
  0 <= Persistent.num_tiles cfg ->
  0 <= start_pid ->
  (forall t, In t (Persistent.tiles_of_unit cfg start_pid) ->
             Persistent.tile_ready cfg t = true) ->
  Persistent.iterations cfg start_pid c
  = Some (Persistent.k_tiles cfg * Persistent.tiles_per_SM cfg start_pid)
  /\ Persistent.tiles_per_SM cfg start_pid
     = Persistent.num_tiles cfg / Persistent.NUM_SMS cfg
       + (if start_pid <? Persistent.num_tiles cfg mod Persistent.NUM_SMS cfg
          then 1 else 0)
  /\ (Persistent.num_tiles cfg mod Persistent.NUM_SMS cfg = 0 ->
      Persistent.k_tiles cfg * Persistent.tiles_per_SM cfg start_pid
      = Tl.cdiv (Persistent.num_tiles cfg * Persistent.k_tiles cfg)
                (Persistent.NUM_SMS cfg)).
Proof.
  intros Hk HS HT Hp Hr. split; [|split].
  - unfold Persistent.iterations.
    destruct (p_kernel cfg Hk HS HT start_pid c Hr) as [st [E [_ Htr]]].
    rewrite E. cbn [option_map]. f_equal.
    rewrite Htr, count_loads_a_tiles by lia.
    unfold Persistent.tiles_of_unit.
    rewrite length_map, length_arange.
    rewrite Z2Nat.id by (apply tiles_per_SM_nonneg; assumption).
    reflexivity.
  - reflexivity.
  - intros Hdiv. unfold Persistent.tiles_per_SM. rewrite Hdiv.
    destruct (Z.ltb_spec start_pid 0) as [Hneg|Hpos].
    + lia.
    + pose proof (Z.div_mod (Persistent.num_tiles cfg)
                    (Persistent.NUM_SMS cfg) ltac:(lia)) as E.
      rewrite Hdiv, Z.add_0_r in E.
      rewrite Z.add_0_r.
      replace (Persistent.num_tiles cfg * Persistent.k_tiles cfg)
        with (Persistent.k_tiles cfg
              * (Persistent.num_tiles cfg / Persistent.NUM_SMS cfg)
              * Persistent.NUM_SMS cfg) by nia.
      symmetry. apply cdiv_exact. exact HS.
Qed.

(** C9 as stated fails: with 3 tiles of 2 K-slices each on 2 units,
    unit 0 runs 4 iterations and unit 1 runs 2, while
    [cdiv(3 * 2, 2) = 3]. *)
Lemma iterations_not_ceiling :
  let cfg := {|
    Persistent.a_ptr := fun _ => 0; Persistent.b_ptr := fun _ => 0;
    Persistent.M := 24; Persistent.N := 1; Persistent.K := 2;
    Persistent.rank := 0; Persistent.num_ranks := 8;
    Persistent.ready_ptr := fun _ => 1;
    Persistent.BLOCK_SIZE_M := 8; Persistent.BLOCK_SIZE_N := 1;
    Persistent.BLOCK_SIZE_K := 1; Persistent.GROUP_SIZE_M := 8;
    Persistent.EPILOGUE_SUBTILE := false;
    Persistent.NUM_SMS := 2; Persistent.ready_value := 1;
    Persistent.LOCAL_WORLD_SIZE := 8 |} in
  Persistent.num_tiles cfg = 3
  /\ Persistent.k_tiles cfg = 2
  /\ Tl.cdiv (Persistent.num_tiles cfg * Persistent.k_tiles cfg)
             (Persistent.NUM_SMS cfg) = 3
  /\ Persistent.iterations cfg 0 (fun _ => 0) = Some 4
  /\ Persistent.iterations cfg 1 (fun _ => 0) = Some 2.
Proof.
  cbv zeta. repeat split; vm_compute; reflexivity.
Qed.

(** ** Every tile has one scheduling unit *)

(** Tile ids and units.  In the persistent kernel, unit [p] works on
    the tile ids [p, p + NUM_SMS, p + 2 NUM_SMS, ...] for its
    [tiles_per_SM] tiles, and the tile ids of the [NUM_SMS] units are a
    partition of
    [0 .. num_pid_m * num_pid_n): every tile id is held by a unit, only
    by that one and only once, and a unit holds no other id; the
    grouped ordering sends the tile ids one-to-one onto the tiles
    [(pid_m, pid_n)] of the grid.  In the non-persistent kernel the
    grouped and swizzled mapping sends the program ids one-to-one onto
    the tiles of the grid.  The row tile a tile id of the persistent
    kernel is stored at is the grouped one after the swizzle. *)
Theorem one_unit_per_tile (pcfg : Persistent.args) (ncfg : NonPersistent.args) :
  (0 < Persistent.NUM_SMS pcfg ->
   (forall p, Persistent.tiles_of_unit pcfg p
      = map (fun i => p + i * Persistent.NUM_SMS pcfg)
            (Tl.arange (Persistent.tiles_per_SM pcfg p)))
   /\ (forall t, 0 <= t < Persistent.num_tiles pcfg ->
         exists p, 0 <= p < Persistent.NUM_SMS pcfg
                   /\ In t (Persistent.tiles_of_unit pcfg p))
   /\ (forall p t, 0 <= p < Persistent.NUM_SMS pcfg ->
         In t (Persistent.tiles_of_unit pcfg p) ->
         0 <= t < Persistent.num_tiles pcfg)
   /\ (forall p p' t,
         0 <= p < Persistent.NUM_SMS pcfg ->
         0 <= p' < Persistent.NUM_SMS pcfg ->
         In t (Persistent.tiles_of_unit pcfg p) ->
         In t (Persistent.tiles_of_unit pcfg p') -> p = p')
   /\ (forall p, NoDup (Persistent.tiles_of_unit pcfg p))
   /\ (forall p c,
         0 < Persistent.k_tiles pcfg -> 0 <= Persistent.num_tiles pcfg ->
         (forall t, In t (Persistent.tiles_of_unit pcfg p) ->
                    Persistent.tile_ready pcfg t = true) ->
         exists st, Persistent.kernel pcfg p c = Some st
           /\ Persistent.st_trace st
              = flat_map (Persistent.tile_events pcfg)
                         (Persistent.tiles_of_unit pcfg p)))
  /\ (0 < Persistent.M pcfg -> 0 < Persistent.N pcfg ->
      0 < Persistent.BLOCK_SIZE_M pcfg -> 0 < Persistent.BLOCK_SIZE_N pcfg ->
      0 < Persistent.GROUP_SIZE_M pcfg ->
      (forall t, 0 <= t < Persistent.num_tiles pcfg ->
         0 <= Persistent.grouped_pid_m pcfg t < Persistent.num_pid_m pcfg
         /\ 0 <= Persistent.pid_n pcfg t < Persistent.num_pid_n pcfg)
      /\ (forall m n,
            0 <= m < Persistent.num_pid_m pcfg ->
            0 <= n < Persistent.num_pid_n pcfg ->
            exists t, (0 <= t < Persistent.num_tiles pcfg
                       /\ Persistent.grouped_pid_m pcfg t = m
                       /\ Persistent.pid_n pcfg t = n)
                      /\ forall t', 0 <= t' < Persistent.num_tiles pcfg ->
                           Persistent.grouped_pid_m pcfg t' = m ->
                           Persistent.pid_n pcfg t' = n -> t' = t))
  /\ (0 < NonPersistent.M ncfg -> 0 < NonPersistent.N ncfg ->
      0 < NonPersistent.BLOCK_SIZE_M ncfg ->
      0 < NonPersistent.BLOCK_SIZE_N ncfg ->
      0 < NonPersistent.GROUP_SIZE_M ncfg ->
      (forall pid, 0 <= pid < NonPersistent.grid ncfg ->
         0 <= NonPersistent.pid_m ncfg pid < NonPersistent.num_pid_m ncfg
         /\ 0 <= NonPersistent.pid_n ncfg pid < NonPersistent.num_pid_n ncfg)
      /\ (forall m n,
            0 <= m < NonPersistent.num_pid_m ncfg ->
            0 <= n < NonPersistent.num_pid_n ncfg ->
            exists pid, (0 <= pid < NonPersistent.grid ncfg
                         /\ NonPersistent.pid_m ncfg pid = m
                         /\ NonPersistent.pid_n ncfg pid = n)
                        /\ forall pid', 0 <= pid' < NonPersistent.grid ncfg ->
                             NonPersistent.pid_m ncfg pid' = m ->
                             NonPersistent.pid_n ncfg pid' = n -> pid' = pid)).
Proof.
  split; [|split].
  - intros HS. split; [reflexivity|]. split; [|split; [|split; [|split]]].
    + intros t Ht. destruct (tiles_cover pcfg HS t Ht) as [Hp Hin].
      eexists. split; [exact Hp|exact Hin].
    + intros p t Hp Hin. apply (proj1 (tiles_within pcfg HS p t Hp Hin)).
    + intros p p' t Hp Hp' H1 H2.
      apply (tiles_disjoint pcfg HS p p' t); assumption.
    + intros p. apply tiles_NoDup. exact HS.
    + intros p c Hk HT Hr.
      destruct (p_kernel pcfg Hk HS HT p c Hr) as [st [E [_ Htr]]].
      exists st. split; assumption.
  - intros HM HN HBM HBN HG. split.
    + intros t Ht.
      destruct (p_grouped_range pcfg HM HN HBM HBN HG t Ht)
        as [_ [_ [H1 H2]]].
      split; assumption.
    + intros m n Hm Hn.
      destruct (p_tile_of_grouped_spec pcfg HM HN HBM HBN HG m n Hm Hn)
        as [Hr [E1 E2]].
      exists (Persistent.tile_of_grouped pcfg m n).
      split; [split; [exact Hr|split; assumption]|].
      intros t' Ht' E1' E2'.
      rewrite <- (p_grouped_inverse pcfg HM HN HBM HBN HG t' Ht').
      rewrite E1', E2'. reflexivity.
  - intros HM HN HBM HBN HG. split.
    + intros pid Hpid. apply np_tile_range; assumption.
    + intros m n Hm Hn.
      destruct (np_pid_of_tile_spec ncfg HM HN HBM HBN HG m n Hm Hn)
        as [Hr [E1 E2]].
      exists (NonPersistent.pid_of_tile ncfg m n).
      split; [split; [exact Hr|split; assumption]|].
      intros pid' Hpid' E1' E2'.
      rewrite <- (np_pid_of_tile_unique ncfg HM HN HBM HBN HG pid' Hpid').
      rewrite E1', E2'. reflexivity.
Qed.

(** C2.  In the persistent kernel an output tile can be left without a
    unit, or have two; [LOCAL_WORLD_SIZE] is at its default of 8.  In
    the launch of [ag_gemm_inter_node] on rank 9 of 16 ranks for shards
    of 64 rows ([M = 1024], [N = 256], blocks of 128 x 256) C has 8 row
    tiles and one column tile.  The 8 tile ids are shared out one to a
    unit, but the swizzle sends them to the row tiles 9, 10, .., 15,
    8, beyond the row tiles of C: none of the 8 output tiles of C is the
    tile of any unit, and no unit, run on its own, changes the first
    element of any of them.  On rank 0 of 20 ranks, with one row per
    rank, row tiles of one row and 3 units, the tile ids 0 and 16
    belong to the units 0 and 1 and both are stored at output tile
    [(0, 0)]: each of the two units, run on its own, writes [C[0][0]],
    and after the whole launch the rows 16 .. 19 of C have not been
    written. *)
Lemma persistent_tiles_written_by_no_unit :
  let cfg := Examples.sixteen_ranks_persistent in
  let cfg20 := Examples.twenty_ranks 3 in
  ((Persistent.num_pid_m cfg, Persistent.num_pid_n cfg) = (8, 1)
   /\ map (Persistent.tiles_of_unit cfg) (Tl.arange (Persistent.grid cfg))
      = [[0]; [1]; [2]; [3]; [4]; [5]; [6]; [7]]
   /\ map (fun t => (Persistent.pid_m cfg t, Persistent.pid_n cfg t))
          (Tl.arange (Persistent.num_tiles cfg))
      = [(9, 0); (10, 0); (11, 0); (12, 0); (13, 0); (14, 0); (15, 0); (8, 0)]
   /\ map (fun p =>
             option_map
               (fun c' => map (fun m => c' (m * 128 * 256)) (Tl.arange 8))
               (Persistent.run cfg [p] (fun _ => -1)))
          (Tl.arange (Persistent.grid cfg))
      = repeat (Some (repeat (-1) 8)) 8)
  /\ ((Persistent.num_pid_m cfg20, Persistent.num_pid_n cfg20) = (20, 1)
      /\ map (Persistent.tiles_of_unit cfg20)
             (Tl.arange (Persistent.grid cfg20))
         = [[0; 3; 6; 9; 12; 15; 18]; [1; 4; 7; 10; 13; 16; 19];
            [2; 5; 8; 11; 14; 17]]
      /\ map (fun t => (Persistent.pid_m cfg20 t, Persistent.pid_n cfg20 t))
             [0; 16]
         = [(0, 0); (0, 0)]
      /\ map (fun p => option_map (fun c' => c' 0)
                         (Persistent.run cfg20 [p] (fun _ => -1)))
             [0; 1]
         = [Some 1; Some 1]
      /\ option_map (fun c' => map (fun i => at2 c' 20 1 i 0) [16; 17; 18; 19])
           (Persistent.run cfg20 (Tl.arange (Persistent.grid cfg20))
              (fun _ => -1))
         = Some [-1; -1; -1; -1]).
Proof.
  cbv zeta.
  repeat match goal with |- _ /\ _ => split end.
  all: vm_compute; reflexivity.
Qed.

(** ** The flags a tile waits for *)

Section PersistentWaits.

Variable cfg : Persistent.args.

Local Abbreviation k := (Persistent.k_tiles cfg).
Local Abbreviation S := (Persistent.NUM_SMS cfg).

Hypothesis Hk : 0 < k.
Hypothesis HS : 0 < S.
Hypothesis HT : 0 <= Persistent.num_tiles cfg.

(** A unit that returns has found every one of its tiles ready. *)
Lemma p_tiles_needed n : forall st,
  (Persistent.st_ki st = -1 \/ Persistent.st_ki st = k - 1) ->
  Persistent.st_accumulator st = Tl.zeros ->
  Persistent.iterate cfg (Z.to_nat k * n) st <> None ->
  forall i, 0 <= i < Z.of_nat n ->
    Persistent.tile_ready cfg (Persistent.st_tile_id st + (i + 1) * S) = true.
Proof.
  induction n as [|n IH]; intros st Hb Hz Hrun i Hi; [lia|].
  replace (Z.to_nat k * Datatypes.S n)%nat
    with (Z.to_nat k * n + Z.to_nat k)%nat in Hrun by lia.
  rewrite iterate_add in Hrun.
  destruct (Persistent.iterate cfg (Z.to_nat k * n) st) as [st1|] eqn:E1;
    [|congruence].
  assert (Hfirst : forall i0, 0 <= i0 < Z.of_nat n ->
            Persistent.tile_ready cfg
              (Persistent.st_tile_id st + (i0 + 1) * S) = true).
  { apply IH; [exact Hb|exact Hz|congruence]. }
  destruct (Z.eq_dec i (Z.of_nat n)) as [->|Hne]; [|apply Hfirst; lia].
  destruct (p_tiles cfg Hk st n (conj Hb Hz) Hfirst)
    as [st' [E' [Hb' [Ht' _]]]].
  rewrite E1 in E'. inversion E'; subst st'; clear E'.
  destruct (Persistent.tile_ready cfg
              (Persistent.st_tile_id st + (Z.of_nat n + 1) * S)) eqn:Er;
    [reflexivity|].
  exfalso. apply Hrun.
  replace (Z.to_nat k) with (Datatypes.S (Z.to_nat (k - 1))) by lia.
  apply (p_tile_blocked cfg Hk st1 _ Hb').
  rewrite Ht'.
  replace (Persistent.st_tile_id st + Z.of_nat n * S + S)
    with (Persistent.st_tile_id st + (Z.of_nat n + 1) * S) by lia.
  exact Er.
Qed.

Lemma p_kernel_needed start_pid c t :
  Persistent.kernel cfg start_pid c <> None ->
  In t (Persistent.tiles_of_unit cfg start_pid) ->
  Persistent.tile_ready cfg t = true.
Proof.
  intros Hrun Hin. unfold Persistent.kernel in Hrun.
  pose proof (tiles_per_SM_nonneg cfg HS HT start_pid) as Hn.
  rewrite Z2Nat.inj_mul in Hrun by lia.
  apply In_tiles_of_unit in Hin. destruct Hin as [i [Hi ->]].
  pose proof (p_tiles_needed (Z.to_nat (Persistent.tiles_per_SM cfg start_pid))
                (Persistent.init cfg start_pid c)
                (or_introl eq_refl) eq_refl Hrun i ltac:(lia)) as H.
  cbn [Persistent.init Persistent.st_tile_id] in H.
  replace (start_pid + i * S) with (start_pid - S + (i + 1) * S) by lia.
  exact H.
Qed.

End PersistentWaits.

Lemma swizzle_m_nonneg (cfg : Persistent.args) (x : Z) :
  0 < Persistent.M cfg -> 0 < Persistent.BLOCK_SIZE_M cfg ->
  0 < Persistent.LOCAL_WORLD_SIZE cfg -> 1 <= Persistent.nnodes cfg ->
  0 < Persistent.num_ranks cfg ->
  Persistent.M cfg mod Persistent.num_ranks cfg = 0 ->
  0 <= x -> 0 <= Persistent.swizzle_m cfg x.
Proof.
  intros HM HBM HL Hnn Hnr Hdiv Hx. unfold Persistent.swizzle_m.
  destruct (Z.eqb_spec (Persistent.nnodes cfg) 1) as [E|E].
  - apply swizzle_single_range; assumption.
  - unfold Persistent.swizzle_multi, Persistent.swizzle_m_rank,
      Persistent.swizzle_m_node_id, Persistent.swizzle_m_local_rank,
      Persistent.pid_m_intra_rank.
    assert (Hc : 0 < Persistent.pid_ms_per_rank cfg).
    { unfold Persistent.pid_ms_per_rank, Persistent.M_per_rank.
      apply cdiv_pos; [exact HBM|].
      pose proof (Z.div_mod (Persistent.M cfg) (Persistent.num_ranks cfg)
                    ltac:(lia)). nia. }
    pose proof (Z.mod_pos_bound
                  (Persistent.m_node_id cfg x + Persistent.node_id cfg)
                  (Persistent.nnodes cfg) ltac:(lia)) as B1.
    pose proof (Z.mod_pos_bound
                  (Persistent.m_local_rank cfg x + Persistent.rank cfg)
                  (Persistent.LOCAL_WORLD_SIZE cfg) HL) as B2.
    unfold Persistent.m_rank.
    pose proof (Z.div_mod x (Persistent.pid_ms_per_rank cfg) ltac:(lia)) as E1.
    pose proof (Z.mod_pos_bound x (Persistent.pid_ms_per_rank cfg) Hc) as B3.
    nia.
Qed.

(** C3.  Both kernels wait, before the loads of a tile, on exactly the
    flags of the ranks that own its rows.  With [offs_am = pid_m *
    BLOCK_SIZE_M] and [M_per_rank = M // num_ranks], the wait covers the
    slots [rank_beg = offs_am // M_per_rank] to [rank_end = (min(offs_am
    + BLOCK_SIZE_M, M) - 1) // M_per_rank], which are the ranks [r]
    whose rows [r * M_per_rank .. (r+1) * M_per_rank) meet the rows
    [offs_am .. min(offs_am + BLOCK_SIZE_M, M)) of the tile.  In the
    non-persistent kernel the wait is the first step of the program and
    the program goes on exactly when those flags are set; in the
    persistent kernel the steps of a unit are those of its tiles in
    turn, each tile starting with its wait, and a unit that returns has
    found the flags of every one of its tiles set. *)
Theorem waits_on_owner_flags
    (ncfg : NonPersistent.args) (pcfg : Persistent.args) :
  (0 < NonPersistent.M ncfg -> 0 < NonPersistent.N ncfg ->
   0 <= NonPersistent.K ncfg ->
   0 < NonPersistent.BLOCK_SIZE_M ncfg -> 0 < NonPersistent.BLOCK_SIZE_N ncfg ->
   0 < NonPersistent.BLOCK_SIZE_K ncfg -> 0 < NonPersistent.GROUP_SIZE_M ncfg ->
   0 < NonPersistent.M ncfg / NonPersistent.WORLD_SIZE ncfg ->
   forall pid, 0 <= pid < NonPersistent.grid ncfg ->
   let M_per_rank := NonPersistent.M ncfg / NonPersistent.WORLD_SIZE ncfg in
   let offs_am := NonPersistent.pid_m ncfg pid * NonPersistent.BLOCK_SIZE_M ncfg in
   let hi := Z.min (offs_am + NonPersistent.BLOCK_SIZE_M ncfg)
                   (NonPersistent.M ncfg) in
   let rank_beg := offs_am / M_per_rank in
   let rank_end := (hi - 1) / M_per_rank in
   (forall r, In r (wait_slots rank_beg (rank_end - rank_beg + 1))
              <-> owns_rows M_per_rank offs_am hi r)
   /\ (forall c,
         snd (NonPersistent.body ncfg pid c)
         = EvWait rank_beg (rank_end - rank_beg + 1)
           :: flat_map
                (fun k =>
                   [EvLoadA offs_am (k * NonPersistent.BLOCK_SIZE_K ncfg);
                    EvLoadB (NonPersistent.pid_n ncfg pid
                             * NonPersistent.BLOCK_SIZE_N ncfg)
                            (k * NonPersistent.BLOCK_SIZE_K ncfg)])
                (Tl.arange (Tl.cdiv (NonPersistent.K ncfg)
                                    (NonPersistent.BLOCK_SIZE_K ncfg)))
           ++ [EvStoreC offs_am
                        (NonPersistent.pid_n ncfg pid
                         * NonPersistent.BLOCK_SIZE_N ncfg)])
   /\ (forall c,
         ((forall r, owns_rows M_per_rank offs_am hi r ->
                     NonPersistent.barrier_ptr ncfg r = 1) ->
          NonPersistent.kernel ncfg pid c
          = Some (NonPersistent.body ncfg pid c))
         /\ (NonPersistent.kernel ncfg pid c <> None ->
             forall r, owns_rows M_per_rank offs_am hi r ->
                       NonPersistent.barrier_ptr ncfg r = 1)))
  /\ (0 < Persistent.M pcfg -> 0 < Persistent.N pcfg -> 0 < Persistent.K pcfg ->
      0 < Persistent.BLOCK_SIZE_M pcfg -> 0 < Persistent.BLOCK_SIZE_N pcfg ->
      0 < Persistent.BLOCK_SIZE_K pcfg -> 0 < Persistent.GROUP_SIZE_M pcfg ->
      0 < Persistent.NUM_SMS pcfg ->
      0 < Persistent.LOCAL_WORLD_SIZE pcfg -> 1 <= Persistent.nnodes pcfg ->
      0 < Persistent.num_ranks pcfg ->
      Persistent.M pcfg mod Persistent.num_ranks pcfg = 0 ->
      let M_per_rank := Persistent.M pcfg / Persistent.num_ranks pcfg in
      (forall t, 0 <= t < Persistent.num_tiles pcfg ->
         let offs_am := Persistent.pid_m pcfg t * Persistent.BLOCK_SIZE_M pcfg in
         let hi := Z.min (offs_am + Persistent.BLOCK_SIZE_M pcfg)
                         (Persistent.M pcfg) in
         let rank_beg := offs_am / M_per_rank in
         let rank_end := (hi - 1) / M_per_rank in
         (forall r, In r (wait_slots rank_beg (rank_end - rank_beg + 1))
                    <-> owns_rows M_per_rank offs_am hi r)
         /\ (exists rest,
               Persistent.tile_events pcfg t
               = EvWait rank_beg (rank_end - rank_beg + 1)
                 :: EvLoadA offs_am 0 :: rest
               /\ forallb (fun e => negb (is_wait e)) rest = true)
         /\ (Persistent.tile_ready pcfg t = true
             <-> forall r, owns_rows M_per_rank offs_am hi r ->
                   Persistent.ready_ptr pcfg r = Persistent.ready_value pcfg))
      /\ (forall p c,
            (forall t, In t (Persistent.tiles_of_unit pcfg p) ->
                       Persistent.tile_ready pcfg t = true) ->
            exists st, Persistent.kernel pcfg p c = Some st
              /\ Persistent.st_trace st
                 = flat_map (Persistent.tile_events pcfg)
                            (Persistent.tiles_of_unit pcfg p))
      /\ (forall p c t,
            Persistent.kernel pcfg p c <> None ->
            In t (Persistent.tiles_of_unit pcfg p) ->
            Persistent.tile_ready pcfg t = true)).
Proof.
  split.
  - intros HM HN HK HBM HBN HBK HG HMpr pid Hpid
      M_per_rank offs_am hi rank_beg rank_end.
    destruct (np_tile_range ncfg HM HN HBM HBN HG pid Hpid) as [Hpm _].
    pose proof (lt_cdiv_mul _ _ _ HBM Hpm) as Hoff.
    assert (Hown : forall r,
              In r (wait_slots rank_beg (rank_end - rank_beg + 1))
              <-> owns_rows M_per_rank offs_am hi r).
    { intros r.
      apply (wait_slots_owners M_per_rank (NonPersistent.BLOCK_SIZE_M ncfg)
               (NonPersistent.M ncfg) offs_am r); try assumption.
      - unfold offs_am. nia.
      - left. exact Hoff. }
    split; [exact Hown|]. split.
    + intros c. unfold NonPersistent.body. cbn [snd].
      destruct (np_k_loop_spec ncfg HK HBK pid
                  [EvWait rank_beg (rank_end - rank_beg + 1)]) as [_ Ht].
      unfold rank_beg, rank_end, hi, offs_am, M_per_rank in *.
      unfold NonPersistent.rank_beg, NonPersistent.rank_end,
        NonPersistent.m_per_rank.
      rewrite Ht. reflexivity.
    + intros c. unfold NonPersistent.kernel.
      fold offs_am.
      change (NonPersistent.rank_beg ncfg offs_am) with rank_beg.
      change (NonPersistent.rank_end ncfg offs_am) with rank_end.
      split.
      * intros Hready.
        assert (E : dl_wait (NonPersistent.barrier_ptr ncfg) rank_beg
                      (rank_end - rank_beg + 1) 1 = true).
        { apply dl_wait_true. intros r Hr. apply Hready, Hown, Hr. }
        rewrite E. reflexivity.
      * intros Hrun r Hr.
        destruct (dl_wait (NonPersistent.barrier_ptr ncfg) rank_beg
                    (rank_end - rank_beg + 1) 1) eqn:E; [|congruence].
        apply (proj1 (dl_wait_true _ _ _ _) E). apply Hown, Hr.
  - intros HM HN HK HBM HBN HBK HG HS HL Hnn Hnr Hdiv M_per_rank.
    assert (HMpr : 0 < M_per_rank).
    { unfold M_per_rank.
      pose proof (Z.div_mod (Persistent.M pcfg) (Persistent.num_ranks pcfg)
                    ltac:(lia)). nia. }
    assert (Hk : 0 < Persistent.k_tiles pcfg)
      by (unfold Persistent.k_tiles; apply cdiv_pos; assumption).
    assert (HT : 0 <= Persistent.num_tiles pcfg).
    { unfold Persistent.num_tiles, Persistent.num_pid_m,
        Persistent.num_pid_n.
      pose proof (cdiv_pos _ _ HBM HM). pose proof (cdiv_pos _ _ HBN HN).
      nia. }
    split; [|split].
    + intros t Ht offs_am hi rank_beg rank_end.
      assert (Hgm : 0 <= Persistent.grouped_pid_m pcfg t)
        by (apply (p_grouped_range pcfg HM HN HBM HBN HG t Ht)).
      assert (Hpm : 0 <= Persistent.pid_m pcfg t)
        by (apply swizzle_m_nonneg; assumption).
      assert (Hown : forall r,
                In r (wait_slots rank_beg (rank_end - rank_beg + 1))
                <-> owns_rows M_per_rank offs_am hi r).
      { intros r.
        apply (wait_slots_owners M_per_rank (Persistent.BLOCK_SIZE_M pcfg)
                 (Persistent.M pcfg) offs_am r); try assumption.
        - unfold offs_am. nia.
        - right. split; [lia|]. unfold M_per_rank.
          pose proof (Z.div_mod (Persistent.M pcfg)
                        (Persistent.num_ranks pcfg) ltac:(lia)) as E.
          rewrite Hdiv, Z.add_0_r in E.
          apply Z.mod_divide; [lia|].
          exists (Persistent.num_ranks pcfg). exact E. }
      split; [exact Hown|]. split.
      * unfold Persistent.tile_events.
        replace (Persistent.k_tiles pcfg)
          with ((Persistent.k_tiles pcfg - 1) + 1) by lia.
        assert (Ear : Tl.arange (Persistent.k_tiles pcfg - 1 + 1)
                      = 0 :: map (fun i => i + 1)
                               (Tl.arange (Persistent.k_tiles pcfg - 1))).
        { unfold Tl.arange.
          replace (Z.to_nat (Persistent.k_tiles pcfg - 1 + 1))
            with (Datatypes.S (Z.to_nat (Persistent.k_tiles pcfg - 1)))
            by lia.
          cbn [seq map]. f_equal. rewrite <- seq_shift, !map_map.
          apply map_ext. intros n. lia. }
        rewrite Ear. cbn [flat_map Persistent.slice_events app].
        eexists. split; [reflexivity|].
        cbn [forallb is_wait negb andb].
        rewrite forallb_app. apply andb_true_iff. split.
        -- apply forallb_forall. intros e He. apply in_flat_map in He.
           destruct He as [ki [_ He]]. unfold Persistent.slice_events in He.
           destruct He as [<-|[<-|[]]]; reflexivity.
        -- unfold Persistent.epilogue_store.
           destruct (Persistent.EPILOGUE_SUBTILE pcfg); reflexivity.
      * unfold Persistent.tile_ready, Persistent.tile_wait_first,
          Persistent.tile_wait_num.
        change (Persistent.rank_beg pcfg
                  (Persistent.pid_m pcfg t * Persistent.BLOCK_SIZE_M pcfg))
          with rank_beg.
        change (Persistent.rank_end pcfg
                  (Persistent.pid_m pcfg t * Persistent.BLOCK_SIZE_M pcfg))
          with rank_end.
        rewrite dl_wait_true. split.
        -- intros H r Hr. apply H, Hown, Hr.
        -- intros H r Hr. apply H, Hown, Hr.
    + intros p c Hr.
      destruct (p_kernel pcfg Hk HS HT p c Hr) as [st [E [_ Htr]]].
      exists st. split; assumption.
    + intros p c t Hrun Hin.
      apply (p_kernel_needed pcfg Hk HS HT p c t Hrun Hin).
Qed.

(** ** Ragged edges in the non-persistent kernel *)

(** C8, as the code has it.  For any [M] and [N], multiples of the block
    sizes or not: the loads of A and B are masked along K only, and
    their rows are taken modulo [M] and [N], so every element they read
    lies inside the matrix; the store of the C tile is masked with
    [offs_cm < M] and [offs_cn < N]; after the launch every element of
    C holds its value of the product and no offset outside the [M] x
    [N] extent of C has been written. *)
Theorem ragged_edges (cfg : NonPersistent.args) (sched : list Z)
    (c : Tl.buffer) :
  0 < NonPersistent.M cfg -> 0 < NonPersistent.N cfg ->
  0 <= NonPersistent.K cfg ->
  0 < NonPersistent.BLOCK_SIZE_M cfg -> 0 < NonPersistent.BLOCK_SIZE_N cfg ->
  0 < NonPersistent.BLOCK_SIZE_K cfg -> 0 < NonPersistent.GROUP_SIZE_M cfg ->
  0 < NonPersistent.WORLD_SIZE cfg ->
  NonPersistent.M cfg mod NonPersistent.WORLD_SIZE cfg = 0 ->
  (forall r, 0 <= r < NonPersistent.WORLD_SIZE cfg ->
             NonPersistent.barrier_ptr cfg r = 1) ->
  dense_view (NonPersistent.M cfg) (NonPersistent.N cfg)
             (NonPersistent.stride_cm cfg) (NonPersistent.stride_cn cfg) ->
  (forall pid, In pid sched <-> 0 <= pid < NonPersistent.grid cfg) ->
  (forall pid tr k i j kk,
     0 <= pid < NonPersistent.grid cfg -> 0 <= k ->
     0 <= i < NonPersistent.BLOCK_SIZE_M cfg ->
     0 <= j < NonPersistent.BLOCK_SIZE_N cfg ->
     0 <= kk < NonPersistent.BLOCK_SIZE_K cfg ->
     let col := k * NonPersistent.BLOCK_SIZE_K cfg + kk in
     let row_a := (NonPersistent.pid_m cfg pid * NonPersistent.BLOCK_SIZE_M cfg
                   + i) mod NonPersistent.M cfg in
     let row_b := (NonPersistent.pid_n cfg pid * NonPersistent.BLOCK_SIZE_N cfg
                   + j) mod NonPersistent.N cfg in
     NonPersistent.a_mask cfg k i kk = (col <? NonPersistent.K cfg)
     /\ NonPersistent.b_mask cfg k kk j = (col <? NonPersistent.K cfg)
     /\ NonPersistent.a_ptrs (NonPersistent.k_state cfg pid tr k) i kk
        = row_a * NonPersistent.stride_am cfg
          + col * NonPersistent.stride_ak cfg
     /\ NonPersistent.b_ptrs (NonPersistent.k_state cfg pid tr k) kk j
        = col * NonPersistent.stride_bk cfg
          + row_b * NonPersistent.stride_bn cfg
     /\ 0 <= row_a < NonPersistent.M cfg
     /\ 0 <= row_b < NonPersistent.N cfg
     /\ 0 <= col)
  /\ (forall pid i j,
        NonPersistent.c_mask cfg pid i j
        = (NonPersistent.pid_m cfg pid * NonPersistent.BLOCK_SIZE_M cfg + i
           <? NonPersistent.M cfg)
          && (NonPersistent.pid_n cfg pid * NonPersistent.BLOCK_SIZE_N cfg + j
              <? NonPersistent.N cfg))
  /\ exists c', NonPersistent.run cfg sched c = Some c'
       /\ (forall i j, 0 <= i < NonPersistent.M cfg ->
                       0 <= j < NonPersistent.N cfg ->
             at2 c' (NonPersistent.stride_cm cfg) (NonPersistent.stride_cn cfg)
                 i j
             = reference
                 (at2 (NonPersistent.a_ptr cfg) (NonPersistent.stride_am cfg)
                      (NonPersistent.stride_ak cfg))
                 (at2 (NonPersistent.b_ptr cfg) (NonPersistent.stride_bn cfg)
                      (NonPersistent.stride_bk cfg))
                 (NonPersistent.K cfg) i j)
       /\ (forall q,
             (forall i j, 0 <= i < NonPersistent.M cfg ->
                          0 <= j < NonPersistent.N cfg ->
                          q <> i * NonPersistent.stride_cm cfg
                               + j * NonPersistent.stride_cn cfg) ->
             c' q = c q).
Proof.
  intros HM HN HK HBM HBN HBK HG HW Hdiv Hready Hdense Hsched.
  split; [|split].
  - intros pid tr k i j kk Hpid Hk0 Hi Hj Hkk col row_a row_b.
    destruct (np_k_loop_prefix cfg pid tr k Hk0) as [Ha [Hb _]].
    split; [|split; [|split; [|split; [|split; [|split]]]]].
    + unfold NonPersistent.a_mask, col.
      destruct (Z.ltb_spec kk (NonPersistent.K cfg
                               - k * NonPersistent.BLOCK_SIZE_K cfg));
        destruct (Z.ltb_spec (k * NonPersistent.BLOCK_SIZE_K cfg + kk)
                             (NonPersistent.K cfg)); try reflexivity; lia.
    + unfold NonPersistent.b_mask, col.
      destruct (Z.ltb_spec kk (NonPersistent.K cfg
                               - k * NonPersistent.BLOCK_SIZE_K cfg));
        destruct (Z.ltb_spec (k * NonPersistent.BLOCK_SIZE_K cfg + kk)
                             (NonPersistent.K cfg)); try reflexivity; lia.
    + rewrite Ha. unfold NonPersistent.a_ptrs0, NonPersistent.offs_am,
        col, row_a. ring.
    + rewrite Hb. unfold NonPersistent.b_ptrs0, NonPersistent.offs_bn,
        col, row_b. ring.
    + apply Z.mod_pos_bound. exact HM.
    + apply Z.mod_pos_bound. exact HN.
    + unfold col. nia.
  - intros pid i j. reflexivity.
  - apply np_gemm; assumption.
Qed.

(** C8 as stated fails on the loads: with [M = 3] and row blocks of 2,
    the second lane of the second row tile lies beyond the last row of
    A, yet its load is not masked: it reads row [3 mod 3 = 0]. *)
Lemma load_rows_wrap_not_masked :
  let cfg := {|
    NonPersistent.a_ptr := fun q => q; NonPersistent.b_ptr := fun q => q;
    NonPersistent.M := 3; NonPersistent.N := 1; NonPersistent.K := 1;
    NonPersistent.stride_am := 1; NonPersistent.stride_ak := 1;
    NonPersistent.stride_bk := 1; NonPersistent.stride_bn := 1;
    NonPersistent.stride_cm := 1; NonPersistent.stride_cn := 1;
    NonPersistent.rank := 0; NonPersistent.WORLD_SIZE := 1;
    NonPersistent.barrier_ptr := fun _ => 1;
    NonPersistent.BLOCK_SIZE_M := 2; NonPersistent.BLOCK_SIZE_N := 1;
    NonPersistent.BLOCK_SIZE_K := 1; NonPersistent.GROUP_SIZE_M := 8 |} in
  NonPersistent.pid_m cfg 1 = 1
  /\ NonPersistent.M cfg
     <= NonPersistent.pid_m cfg 1 * NonPersistent.BLOCK_SIZE_M cfg + 1
  /\ NonPersistent.a_mask cfg 0 1 0 = true
  /\ NonPersistent.a_ptrs (NonPersistent.k_state cfg 1 [] 0) 1 0 = 0
  /\ ~ NonPersistent.loads_masked_at_boundary cfg.
Proof.
  cbv zeta. split; [reflexivity|]. split; [vm_compute; discriminate|].
  split; [reflexivity|]. split; [reflexivity|].
  intros H. specialize (H 1 0 1 0 0).
  destruct H as [H _]; try (vm_compute; split; congruence).
  assert (E : true = false) by (apply H; vm_compute; discriminate).
  discriminate.
Qed.

(** ** The gathered product *)

(** Where the kernels compute the product.  Let the workspace hold the
    row-wise concatenation of the ranks' shards of A, in rank order, and let
    every readiness flag hold the expected value.  For every
    [num_ranks >= 1], [M = M_per_rank * num_ranks] and positive sizes,
    the non-persistent kernel leaves [C[i][j] = sum over k < K of
    A[i][k] * B[j][k]] for every element of C.  The persistent kernel
    does so where its swizzle is one-to-one onto the row tiles:
    [num_ranks // LOCAL_WORLD_SIZE = 1], or [num_ranks] a multiple of
    [LOCAL_WORLD_SIZE] ([nnodes > 1]) with [M_per_rank] a multiple of
    [BLOCK_SIZE_M]; with [EPILOGUE_SUBTILE], [BLOCK_SIZE_N] is even. *)
Theorem gathered_gemm_is_reference
    (ncfg : NonPersistent.args) (pcfg : Persistent.args)
    (shard : Z -> Z -> Z -> Z) (M_per_rank : Z) (sched : list Z)
    (c : Tl.buffer) :
  (1 <= NonPersistent.WORLD_SIZE ncfg -> 1 <= M_per_rank ->
   NonPersistent.M ncfg = M_per_rank * NonPersistent.WORLD_SIZE ncfg ->
   0 < NonPersistent.N ncfg -> 0 <= NonPersistent.K ncfg ->
   0 < NonPersistent.BLOCK_SIZE_M ncfg -> 0 < NonPersistent.BLOCK_SIZE_N ncfg ->
   0 < NonPersistent.BLOCK_SIZE_K ncfg -> 0 < NonPersistent.GROUP_SIZE_M ncfg ->
   (forall i k, 0 <= i < NonPersistent.M ncfg -> 0 <= k < NonPersistent.K ncfg ->
      at2 (NonPersistent.a_ptr ncfg) (NonPersistent.stride_am ncfg)
          (NonPersistent.stride_ak ncfg) i k
      = concat_shards shard M_per_rank i k) ->
   (forall r, 0 <= r < NonPersistent.WORLD_SIZE ncfg ->
              NonPersistent.barrier_ptr ncfg r = 1) ->
   dense_view (NonPersistent.M ncfg) (NonPersistent.N ncfg)
              (NonPersistent.stride_cm ncfg) (NonPersistent.stride_cn ncfg) ->
   (forall pid, In pid sched <-> 0 <= pid < NonPersistent.grid ncfg) ->
   exists c', NonPersistent.run ncfg sched c = Some c'
     /\ forall i j, 0 <= i < NonPersistent.M ncfg ->
                    0 <= j < NonPersistent.N ncfg ->
          at2 c' (NonPersistent.stride_cm ncfg) (NonPersistent.stride_cn ncfg)
              i j
          = reference (concat_shards shard M_per_rank)
              (at2 (NonPersistent.b_ptr ncfg) (NonPersistent.stride_bn ncfg)
                   (NonPersistent.stride_bk ncfg))
              (NonPersistent.K ncfg) i j)
  /\ (1 <= Persistent.num_ranks pcfg -> 1 <= M_per_rank ->
      Persistent.M pcfg = M_per_rank * Persistent.num_ranks pcfg ->
      0 < Persistent.N pcfg -> 0 < Persistent.K pcfg ->
      0 < Persistent.BLOCK_SIZE_M pcfg -> 0 < Persistent.BLOCK_SIZE_N pcfg ->
      0 < Persistent.BLOCK_SIZE_K pcfg -> 0 < Persistent.GROUP_SIZE_M pcfg ->
      0 < Persistent.NUM_SMS pcfg ->
      Persistent.layout_ok pcfg ->
      (Persistent.EPILOGUE_SUBTILE pcfg = true ->
       Persistent.BLOCK_SIZE_N pcfg mod 2 = 0) ->
      (forall i k, 0 <= i < Persistent.M pcfg -> 0 <= k < Persistent.K pcfg ->
         at2 (Persistent.a_ptr pcfg) (Persistent.K pcfg) 1 i k
         = concat_shards shard M_per_rank i k) ->
      (forall r, 0 <= r < Persistent.num_ranks pcfg ->
                 Persistent.ready_ptr pcfg r = Persistent.ready_value pcfg) ->
      (forall u, In u sched <-> 0 <= u < Persistent.grid pcfg) ->
      exists c', Persistent.run pcfg sched c = Some c'
        /\ forall i j, 0 <= i < Persistent.M pcfg ->
                       0 <= j < Persistent.N pcfg ->
             at2 c' (Persistent.N pcfg) 1 i j
             = reference (concat_shards shard M_per_rank)
                 (at2 (Persistent.b_ptr pcfg) (Persistent.K pcfg) 1)
                 (Persistent.K pcfg) i j).
Proof.
  split.
  - intros HW HMpr EM HN HK HBM HBN HBK HG Hws Hready Hdense Hsched.
    assert (HM : 0 < NonPersistent.M ncfg) by nia.
    assert (Hdiv : NonPersistent.M ncfg mod NonPersistent.WORLD_SIZE ncfg = 0)
      by (rewrite EM; apply Z.mod_mul; lia).
    destruct (np_gemm ncfg sched c HM HN HK HBM HBN HBK HG ltac:(lia) Hdiv
                Hready Hdense Hsched) as [c' [E [Hval _]]].
    exists c'. split; [exact E|]. intros i j Hi Hj.
    rewrite (Hval i j Hi Hj). apply reference_ext.
    + intros k Hk. apply Hws; assumption.
    + reflexivity.
  - intros Hnr HMpr EM HN HK HBM HBN HBK HG HS Hlay Hsub Hws Hready Hsched.
    assert (HM : 0 < Persistent.M pcfg) by nia.
    assert (Hdiv : Persistent.M pcfg mod Persistent.num_ranks pcfg = 0)
      by (rewrite EM; apply Z.mod_mul; lia).
    destruct (p_gemm pcfg HM HN HBM HBN HG ltac:(lia) Hdiv Hlay HK HBK HS Hsub
                sched c Hready Hsched) as [c' [E [Hval _]]].
    exists c'. split; [exact E|]. intros i j Hi Hj.
    rewrite (Hval i j Hi Hj). apply reference_ext.
    + intros k Hk. apply Hws; assumption.
    + reflexivity.
Qed.

(** C1.  The persistent kernel does not leave the product on every
    valid configuration; [LOCAL_WORLD_SIZE] is at its default of 8
    throughout.  On rank 9 of 16 ranks (two nodes of eight), for shards
    of 64 rows, the launch of [ag_gemm_inter_node] has [M = 1024],
    [N = 256], [K = 64] and blocks of 128 x 256 x 64: [M] and [N] are
    multiples of the rank count and of the blocks, every flag is set,
    A and B hold ones, so the product holds 64 everywhere.  The swizzle
    sends the 8 row tiles to the row tiles 8 .. 15, beyond the 8 row
    tiles of C, each tile waits on no flag, and after the launch C
    still holds the zeros it held before; the non-persistent kernel,
    launched by [ag_gemm_intra_node] on the same context and operands,
    stores 64.  The same at small sizes, C zero before the launch: on
    20 ranks ([M = 20], row tiles of one row) the swizzle of rank 0
    sends the row tiles 16 .. 19 where the row tiles 0 .. 3 go as well,
    and row 16 of C is never written; on 16 ranks with shards of one
    row and row tiles of 16 rows ([M = 16]) the swizzle of rank 1 sends
    the only row tile to rows 16 .. 31, beyond C, and nothing is
    written. *)
Lemma persistent_swizzle_misses_tiles :
  let pcfg := Examples.sixteen_ranks_persistent in
  let ncfg := Examples.sixteen_ranks_non_persistent in
  let cfg20 := {|
    Persistent.a_ptr := fun _ => 1; Persistent.b_ptr := fun _ => 1;
    Persistent.M := 20; Persistent.N := 20; Persistent.K := 1;
    Persistent.rank := 0; Persistent.num_ranks := 20;
    Persistent.ready_ptr := fun _ => 1;
    Persistent.BLOCK_SIZE_M := 1; Persistent.BLOCK_SIZE_N := 20;
    Persistent.BLOCK_SIZE_K := 1; Persistent.GROUP_SIZE_M := 8;
    Persistent.EPILOGUE_SUBTILE := false;
    Persistent.NUM_SMS := 4; Persistent.ready_value := 1;
    Persistent.LOCAL_WORLD_SIZE := 8 |} in
  let cfg16 := {|
    Persistent.a_ptr := fun _ => 1; Persistent.b_ptr := fun _ => 1;
    Persistent.M := 16; Persistent.N := 16; Persistent.K := 1;
    Persistent.rank := 1; Persistent.num_ranks := 16;
    Persistent.ready_ptr := fun _ => 1;
    Persistent.BLOCK_SIZE_M := 16; Persistent.BLOCK_SIZE_N := 16;
    Persistent.BLOCK_SIZE_K := 1; Persistent.GROUP_SIZE_M := 8;
    Persistent.EPILOGUE_SUBTILE := false;
    Persistent.NUM_SMS := 4; Persistent.ready_value := 1;
    Persistent.LOCAL_WORLD_SIZE := 8 |} in
  let ones := fun (_ _ : Z) => 1 in
  ((Persistent.M pcfg, Persistent.N pcfg, Persistent.K pcfg) = (1024, 256, 64)
   /\ (Persistent.num_ranks pcfg, Persistent.rank pcfg,
       Persistent.LOCAL_WORLD_SIZE pcfg) = (16, 9, 8)
   /\ (Persistent.BLOCK_SIZE_M pcfg, Persistent.BLOCK_SIZE_N pcfg,
       Persistent.BLOCK_SIZE_K pcfg) = (128, 256, 64)
   /\ map (fun i => reference ones ones 64 i 0) [0; 1; 1023] = [64; 64; 64]
   /\ Persistent.num_pid_m pcfg = 8
   /\ map (fun t => (Persistent.pid_m pcfg t, Persistent.tile_wait_num pcfg t))
          (Tl.arange (Persistent.num_tiles pcfg))
      = [(9, -2); (10, -4); (11, -6); (12, -8); (13, -10); (14, -12);
         (15, -14); (8, 0)]
   /\ option_map (fun c' => map c' [0; 255; 256; 1024 * 256 - 1])
        (Persistent.run pcfg (Tl.arange (Persistent.grid pcfg))
           (fun _ => 0)) = Some [0; 0; 0; 0]
   /\ exists c',
        NonPersistent.run ncfg (Tl.arange (NonPersistent.grid ncfg))
                          (fun _ => 0) = Some c'
        /\ map c' [0; 255; 256; 1024 * 256 - 1] = [64; 64; 64; 64])
  /\ (reference ones ones 1 16 0 = 1
      /\ option_map (fun c' => at2 c' 20 1 16 0)
           (Persistent.run cfg20 (Tl.arange (Persistent.grid cfg20))
              (fun _ => 0)) = Some 0)
  /\ (reference ones ones 1 0 0 = 1
      /\ option_map (fun c' => at2 c' 16 1 0 0)
           (Persistent.run cfg16 (Tl.arange (Persistent.grid cfg16))
              (fun _ => 0)) = Some 0).
Proof.
  cbv zeta. split; [|split].
  - do 7 (split; [vm_compute; reflexivity|]).
    set (cfg := Examples.sixteen_ranks_non_persistent).
    assert (HM : 0 < NonPersistent.M cfg) by (vm_compute; reflexivity).
    assert (HN : 0 < NonPersistent.N cfg) by (vm_compute; reflexivity).
    assert (HK : 0 <= NonPersistent.K cfg) by (vm_compute; discriminate).
    assert (HBM : 0 < NonPersistent.BLOCK_SIZE_M cfg)
      by (vm_compute; reflexivity).
    assert (HBN : 0 < NonPersistent.BLOCK_SIZE_N cfg)
      by (vm_compute; reflexivity).
    assert (HBK : 0 < NonPersistent.BLOCK_SIZE_K cfg)
      by (vm_compute; reflexivity).
    assert (HG : 0 < NonPersistent.GROUP_SIZE_M cfg)
      by (vm_compute; reflexivity).
    assert (HW : 0 < NonPersistent.WORLD_SIZE cfg)
      by (vm_compute; reflexivity).
    assert (Hdiv : NonPersistent.M cfg mod NonPersistent.WORLD_SIZE cfg = 0)
      by (vm_compute; reflexivity).
    assert (Hready : forall r, 0 <= r < NonPersistent.WORLD_SIZE cfg ->
                       NonPersistent.barrier_ptr cfg r = 1)
      by (intros r _; reflexivity).
    assert (Hdense : dense_view (NonPersistent.M cfg) (NonPersistent.N cfg)
               (NonPersistent.stride_cm cfg) (NonPersistent.stride_cn cfg)).
    { change (dense_view 1024 256 256 1). apply row_major_dense; lia. }
    destruct (np_gemm cfg (Tl.arange (NonPersistent.grid cfg)) (fun _ => 0)
                HM HN HK HBM HBN HBK HG HW Hdiv Hready Hdense
                (fun pid => In_arange _ pid)) as [c' [E [Hval _]]].
    exists c'. split; [exact E|].
    change (NonPersistent.M cfg) with 1024 in Hval.
    change (NonPersistent.N cfg) with 256 in Hval.
    change (NonPersistent.stride_cm cfg) with 256 in Hval.
    change (NonPersistent.stride_cn cfg) with 1 in Hval.
    pose proof (Hval 0 0 ltac:(lia) ltac:(lia)) as H1.
    pose proof (Hval 0 255 ltac:(lia) ltac:(lia)) as H2.
    pose proof (Hval 1 0 ltac:(lia) ltac:(lia)) as H3.
    pose proof (Hval 1023 255 ltac:(lia) ltac:(lia)) as H4.
    clear Hval E.
    unfold at2 at 1 in H1. unfold at2 at 1 in H2.
    unfold at2 at 1 in H3. unfold at2 at 1 in H4.
    cbn [map].
    change (0 * 256 + 0 * 1) with 0 in H1.
    change (0 * 256 + 255 * 1) with 255 in H2.
    change (1 * 256 + 0 * 1) with 256 in H3.
    change (1023 * 256 + 255 * 1) with (1024 * 256 - 1) in H4.
    rewrite H1, H2, H3, H4. vm_compute. reflexivity.
  - split; vm_compute; reflexivity.
  - split; vm_compute; reflexivity.
Qed.

(** ** The theorems at the scenario of the specification *)

Lemma scenario_workspace i k :
  0 <= i < 4 -> 0 <= k < 4 ->
  at2 Scenario.workspace 4 1 i k = concat_shards Scenario.shard 2 i k.
Proof.
  intros Hi Hk. unfold at2, Scenario.workspace, concat_shards, Scenario.shard.
  pose proof (Z.div_mod i 2 ltac:(lia)). lia.
Qed.

(** The side conditions of the scenario. *)
Ltac scenario_side :=
  first [ exact scenario_workspace
        | (intros ? _; reflexivity)
        | (apply row_major_dense; cbn; lia)
        | (intros ?; apply In_arange)
        | (left; reflexivity)
        | (let H := fresh in intros H; discriminate H)
        | (cbn; lia)
        | (vm_compute; reflexivity) ].

(** At the scenario, on rank 1, both kernels leave
    [[5,5],[13,13],[21,21],[29,29]] in C. *)
Lemma gathered_gemm_is_reference_witness :
  (exists c',
     NonPersistent.run (Scenario.non_persistent 1 2 2) (Tl.arange 2)
                       (fun _ => 0) = Some c'
     /\ map c' (Tl.arange 8) = [5; 5; 13; 13; 21; 21; 29; 29])
  /\ (exists c',
        Persistent.run (Scenario.persistent 1) (Tl.arange 2) (fun _ => 0)
        = Some c'
        /\ map c' (Tl.arange 8) = [5; 5; 13; 13; 21; 21; 29; 29]).
Proof.
  destruct (gathered_gemm_is_reference (Scenario.non_persistent 1 2 2)
              (Scenario.persistent 1) Scenario.shard 2 (Tl.arange 2)
              (fun _ => 0)) as [Hn Hp].
  split.
  - destruct Hn as [c' [E Hval]]; [> scenario_side .. | ].
    exists c'. split; [exact E|].
    pose proof (Hval 0 0 ltac:(cbn; lia) ltac:(cbn; lia)) as H00.
    pose proof (Hval 0 1 ltac:(cbn; lia) ltac:(cbn; lia)) as H01.
    pose proof (Hval 1 0 ltac:(cbn; lia) ltac:(cbn; lia)) as H10.
    pose proof (Hval 1 1 ltac:(cbn; lia) ltac:(cbn; lia)) as H11.
    pose proof (Hval 2 0 ltac:(cbn; lia) ltac:(cbn; lia)) as H20.
    pose proof (Hval 2 1 ltac:(cbn; lia) ltac:(cbn; lia)) as H21.
    pose proof (Hval 3 0 ltac:(cbn; lia) ltac:(cbn; lia)) as H30.
    pose proof (Hval 3 1 ltac:(cbn; lia) ltac:(cbn; lia)) as H31.
    vm_compute in H00, H01, H10, H11, H20, H21, H30, H31.
    change (map c' (Tl.arange 8))
      with [c' 0; c' 1; c' 2; c' 3; c' 4; c' 5; c' 6; c' 7].
    rewrite H00, H01, H10, H11, H20, H21, H30, H31. reflexivity.
  - destruct Hp as [c' [E Hval]]; [> scenario_side .. | ].
    exists c'. split; [exact E|].
    pose proof (Hval 0 0 ltac:(cbn; lia) ltac:(cbn; lia)) as H00.
    pose proof (Hval 0 1 ltac:(cbn; lia) ltac:(cbn; lia)) as H01.
    pose proof (Hval 1 0 ltac:(cbn; lia) ltac:(cbn; lia)) as H10.
    pose proof (Hval 1 1 ltac:(cbn; lia) ltac:(cbn; lia)) as H11.
    pose proof (Hval 2 0 ltac:(cbn; lia) ltac:(cbn; lia)) as H20.
    pose proof (Hval 2 1 ltac:(cbn; lia) ltac:(cbn; lia)) as H21.
    pose proof (Hval 3 0 ltac:(cbn; lia) ltac:(cbn; lia)) as H30.
    pose proof (Hval 3 1 ltac:(cbn; lia) ltac:(cbn; lia)) as H31.
    vm_compute in H00, H01, H10, H11, H20, H21, H30, H31.
    change (map c' (Tl.arange 8))
      with [c' 0; c' 1; c' 2; c' 3; c' 4; c' 5; c' 6; c' 7].
    rewrite H00, H01, H10, H11, H20, H21, H30, H31. reflexivity.
Defined.

(** C10 at the scenario: rank 1 copies its shard into rows 2 and 3 of
    a workspace of 4 rows and leaves rows 0 and 1 alone. *)
Lemma copy_kernel_owned_rows_witness :
  let local_buf : Tl.buffer := fun q => q + 9 in
  let global' :=
    launch (fun pid g => copy_kernel 0 pid 1 local_buf g 2 4 4 1 4 1 128 256)
           (Tl.arange 1) (fun _ => 0) in
  (forall i j, 0 <= i < 2 -> 0 <= j < 4 ->
     global' ((1 * 2 + i) * 4 + j * 1) = local_buf (i * 4 + j * 1))
  /\ (forall i j, 0 <= i < 4 -> 0 <= j < 4 ->
        ~ (1 * 2 <= i < (1 + 1) * 2) -> global' (i * 4 + j * 1) = 0)
  /\ (forall q,
        (forall i j, 0 <= i < 2 -> 0 <= j < 4 ->
                     q <> (1 * 2 + i) * 4 + j * 1) ->
        global' q = 0).
Proof.
  intros local_buf.
  apply (copy_kernel_owned_rows 0 1 local_buf (fun _ => 0) 2 4 4 1 4 1
           128 256 4 (Tl.arange 1)); try lia.
  - apply row_major_dense. lia.
  - intros pid. apply In_arange.
Defined.


(** C7 at the scenario: a [B] with another inner dimension is rejected
    by the non-persistent op before any work. *)
Lemma mismatch_rejected_before_any_work_witness :
  Host.ag_gemm_non_persistent_op Scenario.tensor_A Scenario.tensor_B_wrong_K
    0 2 2 false false
  = ([], Host.Raise (Host.AssertionError "Incompatible dimensions"))
  /\ fst (Host.create_ag_gemm_intra_node_context Scenario.tensor_A
            Scenario.tensor_B_wrong_K 0 2 false false) = [].
Proof.
  destruct (mismatch_rejected_before_any_work 132 Scenario.tensor_A
              Scenario.tensor_B_wrong_K 0 2 2 8 1 false false true)
    as [_ [_ [_ [[H _] _]]]].
  - left. cbn. lia.
  - split; [reflexivity|exact H].
Defined.


(** C4 at the scenario: rank 1 rotates by one row tile in both kernels. *)
Lemma single_tier_rotation_witness :
  Persistent.pid_m (Scenario.persistent 1) 0 = (0 + 1 * 1) mod 2
  /\ NonPersistent.pid_m (Scenario.non_persistent 1 2 2) 0 = (0 + 1) mod 2
  /\ Tl.cdiv (4 / 2 * 1) 2 = 1 * Tl.cdiv (4 / 2) 2.
Proof.
  destruct (single_tier_rotation (Scenario.persistent 1)
              (Scenario.non_persistent 1 2 2) 0 0) as [H1 [H2 H3]].
  split; [|split].
  - apply H1; [reflexivity|cbn; lia].
  - exact H2.
  - apply H3; [cbn; lia|reflexivity].
Defined.

(** C9 at the scenario: 2 tiles of 2 K-slices on 3 units, unit 0 runs
    2 iterations. *)
Lemma unit_iterations_witness :
  Persistent.iterations (Scenario.persistent 1) 0 (fun _ => 0) = Some (2 * 1).
Proof.
  destruct (unit_iterations (Scenario.persistent 1) 0 (fun _ => 0))
    as [H _].
  - vm_compute. reflexivity.
  - vm_compute. reflexivity.
  - vm_compute. discriminate.
  - lia.
  - intros t [<-|[]]. vm_compute. reflexivity.
  - exact H.
Defined.

(** At the scenario the two tile ids go to the units 0 and 1, and each
    tile of the grid has one id in either kernel. *)
Lemma one_unit_per_tile_witness :
  (forall t, 0 <= t < 2 ->
     exists p, 0 <= p < 3 /\ In t (Persistent.tiles_of_unit
                                     (Scenario.persistent 0) p))
  /\ (forall m n, 0 <= m < 2 -> 0 <= n < 1 ->
        exists t, (0 <= t < 2
                   /\ Persistent.grouped_pid_m (Scenario.persistent 0) t = m
                   /\ Persistent.pid_n (Scenario.persistent 0) t = n)
                  /\ forall t', 0 <= t' < 2 ->
                       Persistent.grouped_pid_m (Scenario.persistent 0) t' = m ->
                       Persistent.pid_n (Scenario.persistent 0) t' = n ->
                       t' = t)
  /\ (forall m n, 0 <= m < 2 -> 0 <= n < 1 ->
        exists pid,
          (0 <= pid < 2
           /\ NonPersistent.pid_m (Scenario.non_persistent 0 2 2) pid = m
           /\ NonPersistent.pid_n (Scenario.non_persistent 0 2 2) pid = n)
          /\ forall pid', 0 <= pid' < 2 ->
               NonPersistent.pid_m (Scenario.non_persistent 0 2 2) pid' = m ->
               NonPersistent.pid_n (Scenario.non_persistent 0 2 2) pid' = n ->
               pid' = pid).
Proof.
  destruct (one_unit_per_tile (Scenario.persistent 0)
              (Scenario.non_persistent 0 2 2)) as [Ha [Hb Hc]].
  split; [|split].
  - destruct Ha as [_ [H _]]; [cbn; lia|]. exact H.
  - destruct Hb as [_ H]; try (cbn; lia). exact H.
  - destruct Hc as [_ H]; try (cbn; lia). exact H.
Defined.

(** C3 at the scenario: on rank 1 the first program of the
    non-persistent kernel and the first tile of the persistent kernel
    work on rows 2 and 3 and wait on slot 1 alone, the rank that owns
    those rows. *)
Lemma waits_on_owner_flags_witness :
  (forall r, In r (wait_slots 1 1) <-> owns_rows 2 2 4 r)
  /\ (forall c,
        NonPersistent.kernel (Scenario.non_persistent 1 2 2) 0 c
        = Some (NonPersistent.body (Scenario.non_persistent 1 2 2) 0 c))
  /\ (Persistent.tile_ready (Scenario.persistent 1) 0 = true
      <-> forall r, owns_rows 2 2 4 r ->
            Persistent.ready_ptr (Scenario.persistent 1) r
            = Persistent.ready_value (Scenario.persistent 1)).
Proof.
  destruct (waits_on_owner_flags (Scenario.non_persistent 1 2 2)
              (Scenario.persistent 1)) as [Hn Hp].
  split; [|split].
  - destruct (Hn ltac:(cbn; lia) ltac:(cbn; lia) ltac:(cbn; lia)
                ltac:(cbn; lia) ltac:(cbn; lia) ltac:(cbn; lia)
                ltac:(cbn; lia) ltac:(vm_compute; reflexivity) 0
                ltac:(vm_compute; split; congruence)) as [H _].
    exact H.
  - intros c.
    destruct (Hn ltac:(cbn; lia) ltac:(cbn; lia) ltac:(cbn; lia)
                ltac:(cbn; lia) ltac:(cbn; lia) ltac:(cbn; lia)
                ltac:(cbn; lia) ltac:(vm_compute; reflexivity) 0
                ltac:(vm_compute; split; congruence)) as [_ [_ H]].
    apply (H c). intros r _. reflexivity.
  - destruct Hp as [H _]; try (cbn; lia); try (vm_compute; reflexivity);
      try (vm_compute; discriminate).
    destruct (H 0 ltac:(vm_compute; split; congruence)) as [_ [_ H3]].
    exact H3.
Defined.

(** C8 at the scenario with blocks of 3 rows and 3 columns, which divide
    neither [M = 4] nor [N = 2]: C holds the product and the offsets
    past it keep their value. *)
Lemma ragged_edges_witness :
  exists c',
    NonPersistent.run (Scenario.non_persistent 1 3 3) (Tl.arange 2)
                      (fun _ => -1) = Some c'
    /\ map c' (Tl.arange 10) = [5; 5; 13; 13; 21; 21; 29; 29; -1; -1].
Proof.
  destruct (ragged_edges (Scenario.non_persistent 1 3 3) (Tl.arange 2)
              (fun _ => -1)) as [_ [_ [c' [E [Hval Hframe]]]]];
    [> scenario_side .. | ].
  exists c'. split; [exact E|].
  pose proof (Hval 0 0 ltac:(cbn; lia) ltac:(cbn; lia)) as H00.
  pose proof (Hval 0 1 ltac:(cbn; lia) ltac:(cbn; lia)) as H01.
  pose proof (Hval 1 0 ltac:(cbn; lia) ltac:(cbn; lia)) as H10.
  pose proof (Hval 1 1 ltac:(cbn; lia) ltac:(cbn; lia)) as H11.
  pose proof (Hval 2 0 ltac:(cbn; lia) ltac:(cbn; lia)) as H20.
  pose proof (Hval 2 1 ltac:(cbn; lia) ltac:(cbn; lia)) as H21.
  pose proof (Hval 3 0 ltac:(cbn; lia) ltac:(cbn; lia)) as H30.
  pose proof (Hval 3 1 ltac:(cbn; lia) ltac:(cbn; lia)) as H31.
  vm_compute in H00, H01, H10, H11, H20, H21, H30, H31.
  assert (H8 : c' 8 = -1) by (apply Hframe; cbn; intros; lia).
  assert (H9 : c' 9 = -1) by (apply Hframe; cbn; intros; lia).
  change (map c' (Tl.arange 10))
    with [c' 0; c' 1; c' 2; c' 3; c' 4; c' 5; c' 6; c' 7; c' 8; c' 9].
  rewrite H00, H01, H10, H11, H20, H21, H30, H31, H8, H9. reflexivity.
Defined.

(** * Further properties of the code *)

(** ** The fused copy and flag kernel *)

Lemma set_symm_barrier_spec num_threads rank num_ranks b q :
  set_symm_barrier num_threads rank num_ranks b q
  = if (0 <=? q) && (q <? num_ranks) && (q <? num_threads)
    then (if q =? rank then 1 else 0) else b q.
Proof.
  unfold set_symm_barrier.
  destruct (Z_le_gt_dec num_threads 0) as [Hle|Hgt].
  - rewrite arange_nonpos by exact Hle. cbn.
    destruct (Z.leb_spec 0 q), (Z.ltb_spec q num_ranks),
      (Z.ltb_spec q num_threads); cbn; try reflexivity; lia.
  - assert (H0 : 0 <= num_threads) by lia. clear Hgt.
    revert q. pattern num_threads. apply natlike_ind; [| |exact H0].
    + intros q. cbn.
      destruct (Z.leb_spec 0 q), (Z.ltb_spec q num_ranks),
        (Z.ltb_spec q 0); cbn; try reflexivity; lia.
    + intros n Hn IH q. change (Z.succ n) with (n + 1).
      rewrite arange_succ by exact Hn. rewrite fold_left_app. cbn [fold_left].
      destruct (Z.ltb_spec n num_ranks) as [Hlt|Hge].
      * unfold LanguageExtra.st. destruct (Z.eqb_spec q n) as [->|Hne].
        -- destruct (Z.leb_spec 0 n), (Z.ltb_spec n num_ranks),
             (Z.ltb_spec n (n + 1)); cbn; try reflexivity; lia.
        -- rewrite IH.
           destruct (Z.leb_spec 0 q), (Z.ltb_spec q num_ranks),
             (Z.ltb_spec q n), (Z.ltb_spec q (n + 1)); cbn;
             try reflexivity; lia.
      * rewrite IH.
        destruct (Z.leb_spec 0 q), (Z.ltb_spec q num_ranks),
          (Z.ltb_spec q n), (Z.ltb_spec q (n + 1)); cbn;
          try reflexivity; lia.
Qed.

Section CopyAndBarrierLaunch.

Variable sync : Type.
Variable barrier : Z -> Z -> sync -> Z -> sync.
Variables (num_threads undef rank num_ranks : Z) (local_data : Tl.buffer).
Variables (M_per_rank N sl0 sl1 sg0 sg1 phase : Z).

Local Abbreviation fused sched mem :=
  (local_copy_and_barrier_all_launch sync barrier num_threads undef sched
     rank num_ranks local_data mem M_per_rank N sl0 sl1 sg0 sg1 phase).

Lemma fused_global sched : forall mem,
  cb_global_buf (fused sched mem)
  = launch (fun pid g => copy_kernel undef pid rank local_data g M_per_rank N
                                     sl0 sl1 sg0 sg1 128 256)
           sched (cb_global_buf mem).
Proof.
  unfold local_copy_and_barrier_all_launch, launch.
  induction sched as [|pid rest IH]; intros mem; [reflexivity|].
  cbn [fold_left]. rewrite IH. reflexivity.
Qed.

Lemma fused_flags sched : forall mem q,
  cb_symm_barrier (fused sched mem) q
  = match sched with
    | [] => cb_symm_barrier mem q
    | _ :: _ =>
        if (0 <=? q) && (q <? num_ranks) && (q <? num_threads)
        then (if q =? rank then 1 else 0) else cb_symm_barrier mem q
    end.
Proof.
  unfold local_copy_and_barrier_all_launch.
  induction sched as [|pid rest IH]; intros mem q; [reflexivity|].
  cbn [fold_left]. rewrite IH.
  unfold copy_and_barrier_all_inter_node_kernel at 1 2.
  cbn [cb_symm_barrier]. rewrite set_symm_barrier_spec.
  destruct rest; [reflexivity|].
  destruct ((0 <=? q) && (q <? num_ranks) && (q <? num_threads));
    reflexivity.
Qed.

End CopyAndBarrierLaunch.

(** X1.  [local_copy_and_barrier_all] without [is_internode] launches
    [copy_and_barrier_all_inter_node_kernel] on one program per 128 x 256
    tile of the shard.  The launch leaves the workspace as the launch of
    [copy_kernel] alone does.  When the shard is not empty, the flag of
    every slot below both [num_ranks] and the number of threads of a
    program is 1 for the rank's own slot and 0 for the others, and the
    other slots keep their value.  When the shard is empty no program
    runs and the memory, flags included, is left as it was. *)
Theorem local_copy_publishes_own_shard
    (sync : Type) (barrier : Z -> Z -> sync -> Z -> sync)
    (num_threads undef rank num_ranks : Z) (local_data : Tl.buffer)
    (mem : copy_barrier_mem sync)
    (M_per_rank N sl0 sl1 sg0 sg1 phase : Z) (sched : list Z) :
  0 <= M_per_rank -> 0 <= N ->
  (forall pid, In pid sched <-> 0 <= pid < copy_grid M_per_rank N 128 256) ->
  let mem' :=
    local_copy_and_barrier_all_launch sync barrier num_threads undef sched
      rank num_ranks local_data mem M_per_rank N sl0 sl1 sg0 sg1 phase in
  cb_global_buf mem'
  = launch (fun pid g => copy_kernel undef pid rank local_data g M_per_rank N
                                     sl0 sl1 sg0 sg1 128 256)
           sched (cb_global_buf mem)
  /\ (0 < M_per_rank -> 0 < N ->
      (forall q, 0 <= q < num_ranks -> q < num_threads ->
         cb_symm_barrier mem' q = if q =? rank then 1 else 0)
      /\ (forall q, ~ (0 <= q < num_ranks /\ q < num_threads) ->
            cb_symm_barrier mem' q = cb_symm_barrier mem q))
  /\ (M_per_rank = 0 \/ N = 0 -> mem' = mem).
Proof.
  intros HM HN Hsched mem'. split; [apply fused_global|]. split.
  - intros HM' HN'.
    assert (Hne : exists pid rest, sched = pid :: rest).
    { assert (Hin : In 0 sched).
      { apply Hsched. unfold copy_grid.
        pose proof (cdiv_pos M_per_rank 128 ltac:(lia) HM').
        pose proof (cdiv_pos N 256 ltac:(lia) HN'). nia. }
      destruct sched as [|pid rest]; [destruct Hin|]. eauto. }
    destruct Hne as [pid [rest E]].
    assert (Hf : forall q,
      cb_symm_barrier mem' q
      = if (0 <=? q) && (q <? num_ranks) && (q <? num_threads)
        then (if q =? rank then 1 else 0) else cb_symm_barrier mem q).
    { intros q. unfold mem'. rewrite fused_flags, E. reflexivity. }
    split.
    + intros q Hq Hq'. rewrite Hf.
      destruct (Z.leb_spec 0 q), (Z.ltb_spec q num_ranks),
        (Z.ltb_spec q num_threads); cbn; try reflexivity; lia.
    + intros q Hq. rewrite Hf.
      destruct (Z.leb_spec 0 q), (Z.ltb_spec q num_ranks),
        (Z.ltb_spec q num_threads); cbn; try reflexivity; lia.
  - intros Hz.
    assert (E : sched = []).
    { destruct sched as [|pid rest]; [reflexivity|]. exfalso.
      assert (Hin : In pid (pid :: rest)) by (left; reflexivity).
      apply Hsched in Hin. unfold copy_grid, Tl.cdiv in Hin.
      destruct Hz as [-> | ->]; cbn in Hin; lia. }
    unfold mem'. rewrite E. reflexivity.
Qed.

(** X1 on rank 1 of 2 with a shard of 2 x 4 elements and 128 threads:
    one program runs, the flags of slots 0 .. 2 were 7 and become 0, 1
    and (beyond the ranks) 7. *)
Lemma local_copy_publishes_own_shard_witness :
  let mem' :=
    local_copy_and_barrier_all_launch unit (fun _ _ s _ => s) 128 0 [0] 1 2
      (fun q => q + 1)
      {| cb_global_buf := fun _ => 0; cb_symm_barrier := fun _ => 7;
         cb_symm_sync := tt |}
      2 4 4 1 4 1 1 in
  map (cb_symm_barrier mem') [0; 1; 2] = [0; 1; 7].
Proof.
  intros mem'.
  destruct (local_copy_publishes_own_shard unit (fun _ _ s _ => s) 128 0 1 2
              (fun q => q + 1)
              {| cb_global_buf := fun _ => 0; cb_symm_barrier := fun _ => 7;
                 cb_symm_sync := tt |}
              2 4 4 1 4 1 1 [0] ltac:(lia) ltac:(lia))
    as [_ [H _]].
  - intros pid. change (copy_grid 2 4 128 256) with 1. cbn. lia.
  - destruct (H ltac:(lia) ltac:(lia)) as [H1 H2].
    subst mem'. cbn [map].
    rewrite (H1 0), (H1 1), (H2 2) by lia. reflexivity.
Defined.

(** ** Flag values of the barrier across calls *)

Module BarrierFacts.
Import Host.










End BarrierFacts.



(** ** Tiles and shards in ring order *)

Lemma ring_owner c WS BM g rk :
  0 < c -> 0 < WS -> 0 < BM -> 0 <= g -> 
  let pm := (g + c * rk) mod (c * WS) in
  let o := (rk + g / c) mod WS in
  pm / c = o
  /\ pm * BM / (c * BM) = o
  /\ (pm * BM + BM - 1) / (c * BM) = o
  /\ pm mod c = g mod c.
Proof.
  intros Hc HW HB Hg pm o.
  pose proof (Z.div_mod g c ltac:(lia)) as Eg.
  pose proof (Z.mod_pos_bound g c Hc) as Bg.
  pose proof (Z.div_mod (g + c * rk) (c * WS) ltac:(nia)) as Ex.
  pose proof (Z.mod_pos_bound (g + c * rk) (c * WS) ltac:(nia)) as Bx.
  fold pm in Ex, Bx.
  pose proof (Z.div_mod pm c ltac:(lia)) as Ep.
  pose proof (Z.mod_pos_bound pm c Hc) as Bp.
  set (q := (g + c * rk) / (c * WS)) in *.
  assert (E1 : (g / c + rk) * c + g mod c = (WS * q + pm / c) * c + pm mod c)
    by nia.
  assert (Ed : g / c + rk = WS * q + pm / c).
  { rewrite <- (div_mul_add (g / c + rk) c (g mod c) Bg).
    rewrite E1. apply div_mul_add. exact Bp. }
  assert (Em : pm mod c = g mod c) by nia.
  assert (Bo : 0 <= pm / c < WS).
  { split; [apply Z.div_pos; lia|]. apply Z.div_lt_upper_bound; nia. }
  assert (Eo : pm / c = o).
  { unfold o. replace (rk + g / c) with (q * WS + pm / c) by lia.
    symmetry. apply mod_mul_add. exact Bo. }
  split; [exact Eo|]. split; [|split; [|exact Em]].
  - rewrite Z.div_mul_cancel_r by lia. exact Eo.
  - rewrite <- Eo.
    replace (pm * BM + BM - 1)
      with (pm / c * (c * BM) + (pm mod c * BM + BM - 1)) by nia.
    apply div_mul_add. nia.
Qed.

Lemma ring_back WS rk a :
  0 <= rk < WS -> 0 <= a < WS -> ((rk + a) mod WS = rk <-> a = 0).
Proof.
  intros Hr Ha. split.
  - intros E. destruct (Z_lt_le_dec (rk + a) WS) as [Hlt|Hge].
    + rewrite Z.mod_small in E by lia. lia.
    + replace (rk + a) with (1 * WS + (rk + a - WS)) in E by lia.
      rewrite mod_mul_add in E by lia. lia.
  - intros ->. rewrite Z.add_0_r. apply Z.mod_small. exact Hr.
Qed.

(** X3.  In the non-persistent kernel, when the shards are whole row
    tiles ([BLOCK_SIZE_M] divides [M // WORLD_SIZE]), every program
    waits on exactly one flag: its tile lies inside the shard of rank
    [(rank + grouped pid_m // tiles per shard) % WORLD_SIZE], so the
    programs go through the shards in ring order starting with the
    rank's own.  With the flags as the local copy leaves them (own flag
    set, the others clear), the programs that can start are exactly
    those of the first [tiles per shard] row tiles of the grouped
    ordering. *)
Theorem np_tiles_follow_ring_order (cfg : NonPersistent.args) (pid : Z) :
  0 < NonPersistent.M cfg -> 0 < NonPersistent.N cfg ->
  0 < NonPersistent.BLOCK_SIZE_M cfg -> 0 < NonPersistent.BLOCK_SIZE_N cfg ->
  0 < NonPersistent.GROUP_SIZE_M cfg ->
  0 < NonPersistent.WORLD_SIZE cfg ->
  NonPersistent.M cfg mod NonPersistent.WORLD_SIZE cfg = 0 ->
  (NonPersistent.M cfg / NonPersistent.WORLD_SIZE cfg)
    mod NonPersistent.BLOCK_SIZE_M cfg = 0 ->
  0 <= pid < NonPersistent.grid cfg ->
  let M_per_rank := NonPersistent.M cfg / NonPersistent.WORLD_SIZE cfg in
  let per_rank := M_per_rank / NonPersistent.BLOCK_SIZE_M cfg in
  let owner := (NonPersistent.rank cfg
                + NonPersistent.grouped_pid_m cfg pid / per_rank)
               mod NonPersistent.WORLD_SIZE cfg in
  let offs_am := NonPersistent.pid_m cfg pid * NonPersistent.BLOCK_SIZE_M cfg in
  NonPersistent.rank_beg cfg offs_am = owner
  /\ NonPersistent.rank_end cfg offs_am = owner
  /\ owner * M_per_rank <= offs_am
  /\ offs_am + NonPersistent.BLOCK_SIZE_M cfg <= (owner + 1) * M_per_rank
  /\ (0 <= NonPersistent.rank cfg < NonPersistent.WORLD_SIZE cfg ->
      (forall r, 0 <= r < NonPersistent.WORLD_SIZE cfg ->
         NonPersistent.barrier_ptr cfg r
         = if r =? NonPersistent.rank cfg then 1 else 0) ->
      forall c, NonPersistent.kernel cfg pid c <> None
                <-> NonPersistent.grouped_pid_m cfg pid < per_rank).
Proof.
  intros HM HN HBM HBN HG HW Hdiv Hblk Hpid Mpr c owner offs.
  set (BM := NonPersistent.BLOCK_SIZE_M cfg) in *.
  set (WS := NonPersistent.WORLD_SIZE cfg) in *.
  set (M := NonPersistent.M cfg) in *.
  set (g := NonPersistent.grouped_pid_m cfg pid) in *.
  pose proof (Z.div_mod M WS ltac:(lia)) as EM. rewrite Hdiv in EM.
  fold Mpr in EM.
  change (Mpr mod BM = 0) in Hblk.
  pose proof (Z.div_mod Mpr BM ltac:(lia)) as EMpr. rewrite Hblk in EMpr.
  fold c in EMpr.
  assert (Hc : 0 < c) by nia.
  assert (EP : NonPersistent.num_pid_m cfg = c * WS).
  { unfold NonPersistent.num_pid_m. fold M BM.
    replace M with (c * WS * BM) by nia. apply cdiv_exact. exact HBM. }
  assert (Eoff : NonPersistent.pid_m_offset cfg = c * NonPersistent.rank cfg).
  { unfold NonPersistent.pid_m_offset, NonPersistent.m_offset,
      NonPersistent.m_per_rank. fold M WS Mpr BM.
    replace (Mpr * NonPersistent.rank cfg)
      with (c * NonPersistent.rank cfg * BM) by nia.
    apply cdiv_exact. exact HBM. }
  assert (Hg : 0 <= g < c * WS).
  { rewrite <- EP. apply np_grouped_mod_bounds; assumption. }
  assert (Epm : NonPersistent.pid_m cfg pid
                = (g + c * NonPersistent.rank cfg) mod (c * WS)).
  { unfold NonPersistent.pid_m. rewrite EP, Eoff. reflexivity. }
  destruct (ring_owner c WS BM g (NonPersistent.rank cfg) Hc HW HBM
              ltac:(lia)) as [E0 [E1 [E2 E3]]].
  rewrite <- Epm in E0, E1, E2, E3. fold owner in E0, E1, E2.
  pose proof (Z.mod_pos_bound (g + c * NonPersistent.rank cfg) (c * WS)
                ltac:(nia)) as Bpm.
  rewrite <- Epm in Bpm.
  assert (Ebeg : NonPersistent.rank_beg cfg offs = owner).
  { unfold NonPersistent.rank_beg, NonPersistent.m_per_rank, offs.
    fold M WS Mpr BM. replace Mpr with (c * BM) by nia. exact E1. }
  assert (Eend : NonPersistent.rank_end cfg offs = owner).
  { unfold NonPersistent.rank_end, NonPersistent.m_per_rank, offs.
    fold M WS Mpr BM. replace Mpr with (c * BM) by nia.
    rewrite Z.min_l by nia.
    replace (NonPersistent.pid_m cfg pid * BM + BM - 1)
      with (NonPersistent.pid_m cfg pid * BM + BM - 1) by lia.
    exact E2. }
  pose proof (Z.div_mod (NonPersistent.pid_m cfg pid) c ltac:(lia)) as Ed.
  pose proof (Z.mod_pos_bound (NonPersistent.pid_m cfg pid) c Hc) as Bd.
  rewrite E0 in Ed.
  split; [exact Ebeg|]. split; [exact Eend|].
  split; [unfold offs; nia|]. split; [unfold offs; nia|].
  intros Hr Hflags cbuf. unfold NonPersistent.kernel.
  fold BM offs. rewrite Ebeg, Eend.
  replace (owner - owner + 1) with 1 by lia.
  assert (Bo : 0 <= owner < WS) by (apply Z.mod_pos_bound; exact HW).
  assert (Ew : dl_wait (NonPersistent.barrier_ptr cfg) owner 1 1
               = (owner =? NonPersistent.rank cfg)).
  { unfold dl_wait. change (Tl.arange 1) with [0]. cbn [forallb].
    rewrite Z.add_0_r, andb_true_r.
    rewrite (Hflags owner Bo).
    destruct (Z.eqb_spec owner (NonPersistent.rank cfg)); reflexivity. }
  rewrite Ew.
  assert (Ba : 0 <= g / c < WS).
  { split; [apply Z.div_pos; lia|]. apply Z.div_lt_upper_bound; nia. }
  pose proof (ring_back WS (NonPersistent.rank cfg) (g / c) Hr Ba) as Hb.
  fold owner in Hb.
  assert (Hz : g / c = 0 <-> g < c).
  { split; intros H.
    - pose proof (Z.div_mod g c ltac:(lia)).
      pose proof (Z.mod_pos_bound g c Hc). nia.
    - apply Z.div_small. lia. }
  destruct (Z.eqb_spec owner (NonPersistent.rank cfg)) as [Eo|Eo].
  - split; [|discriminate]. intros _. apply Hz, Hb, Eo.
  - split; [intros H; exfalso; apply H; reflexivity|].
    intros H. exfalso. apply Eo, Hb, Hz, H.
Qed.

Lemma shard_tile c BM o b :
  0 < c -> 0 < BM -> 0 <= b < c ->
  (o * c + b) * BM / (c * BM) = o
  /\ ((o * c + b) * BM + BM - 1) / (c * BM) = o.
Proof.
  intros Hc HB Hb. split.
  - replace ((o * c + b) * BM) with (o * (c * BM) + b * BM) by ring.
    apply div_mul_add. nia.
  - replace ((o * c + b) * BM + BM - 1)
      with (o * (c * BM) + (b * BM + BM - 1)) by ring.
    apply div_mul_add. nia.
Qed.

(** X4.  In the persistent kernel, on the layouts its swizzle is
    written for and with shards of whole row tiles, every tile waits on
    exactly one flag, that of the rank whose shard holds the tile: with
    one node the rank [(rank + grouped pid_m // pid_ms_per_rank) %
    num_ranks], with several nodes the swizzled rank. *)
Theorem p_tiles_follow_ring_order (cfg : Persistent.args) (t : Z) :
  0 < Persistent.M cfg -> 0 < Persistent.N cfg ->
  0 < Persistent.BLOCK_SIZE_M cfg -> 0 < Persistent.BLOCK_SIZE_N cfg ->
  0 < Persistent.GROUP_SIZE_M cfg ->
  0 < Persistent.num_ranks cfg ->
  Persistent.M cfg mod Persistent.num_ranks cfg = 0 ->
  Persistent.M_per_rank cfg mod Persistent.BLOCK_SIZE_M cfg = 0 ->
  Persistent.layout_ok cfg ->
  0 <= t < Persistent.num_tiles cfg ->
  let per_rank := Persistent.pid_ms_per_rank cfg in
  let g := Persistent.grouped_pid_m cfg t in
  let owner :=
    if Persistent.nnodes cfg =? 1
    then (Persistent.rank cfg + g / per_rank) mod Persistent.num_ranks cfg
    else Persistent.swizzle_m_rank cfg g in
  let offs_am := Persistent.pid_m cfg t * Persistent.BLOCK_SIZE_M cfg in
  Persistent.tile_wait_first cfg t = owner
  /\ Persistent.tile_wait_num cfg t = 1
  /\ 0 <= owner < Persistent.num_ranks cfg
  /\ owner * Persistent.M_per_rank cfg <= offs_am
  /\ offs_am + Persistent.BLOCK_SIZE_M cfg
     <= (owner + 1) * Persistent.M_per_rank cfg.
Proof.
  intros HM HN HBM HBN HG Hnr Hdiv Hblk Hlay Ht c g owner offs.
  set (BM := Persistent.BLOCK_SIZE_M cfg) in *.
  set (nr := Persistent.num_ranks cfg) in *.
  set (M := Persistent.M cfg) in *.
  set (Mpr := Persistent.M_per_rank cfg) in *.
  pose proof (Z.div_mod M nr ltac:(lia)) as EM. rewrite Hdiv in EM.
  change (M / nr) with Mpr in EM.
  pose proof (Z.div_mod Mpr BM ltac:(lia)) as EMpr. rewrite Hblk in EMpr.
  assert (Ec : c = Mpr / BM).
  { unfold c, Persistent.pid_ms_per_rank. fold Mpr BM.
    rewrite EMpr at 1. rewrite Z.add_0_r, Z.mul_comm. apply cdiv_exact.
    exact HBM. }
  rewrite <- Ec in EMpr.
  assert (Hc : 0 < c) by nia.
  assert (EP : Persistent.num_pid_m cfg = c * nr).
  { unfold Persistent.num_pid_m. fold M BM.
    replace M with (c * nr * BM) by nia. apply cdiv_exact. exact HBM. }
  assert (Hg : 0 <= g < c * nr).
  { rewrite <- EP.
    apply (p_grouped_range cfg HM HN HBM HBN HG t). exact Ht. }
  assert (Hown : exists b, 0 <= b < c /\ 0 <= owner < nr
                           /\ Persistent.pid_m cfg t = owner * c + b).
  { unfold Persistent.pid_m, Persistent.swizzle_m, owner. fold g.
    destruct (Z.eqb_spec (Persistent.nnodes cfg) 1) as [E1|E1].
    - unfold Persistent.swizzle_single. fold c nr. rewrite EP.
      rewrite Z.lxor_0_r, Z.add_0_r.
      set (rk := Persistent.rank cfg mod nr).
      destruct (ring_owner c nr BM g rk Hc Hnr HBM ltac:(lia))
        as [E0 [_ [_ E3]]].
      replace (g + rk * c) with (g + c * rk) by ring.
      set (pm := (g + c * rk) mod (c * nr)) in *.
      assert (Eo : (Persistent.rank cfg + g / c) mod nr = pm / c).
      { rewrite E0. unfold rk. rewrite Z.add_mod_idemp_l by lia.
        reflexivity. }
      rewrite Eo. exists (pm mod c).
      split; [apply Z.mod_pos_bound; exact Hc|]. split.
      + rewrite E0. apply Z.mod_pos_bound. exact Hnr.
      + pose proof (Z.div_mod pm c ltac:(lia)). lia.
    - destruct Hlay as [Hl|[Hnn [HL [Enr _]]]]; [contradiction|].
      unfold Persistent.swizzle_multi, Persistent.swizzle_m_rank.
      fold c. exists (Persistent.pid_m_intra_rank cfg g).
      pose proof (Z.mod_pos_bound
                    (Persistent.m_node_id cfg g + Persistent.node_id cfg)
                    (Persistent.nnodes cfg) ltac:(lia)) as B1.
      pose proof (Z.mod_pos_bound
                    (Persistent.m_local_rank cfg g + Persistent.rank cfg)
                    (Persistent.LOCAL_WORLD_SIZE cfg) HL) as B2.
      fold (Persistent.swizzle_m_node_id cfg g) in B1.
      fold (Persistent.swizzle_m_local_rank cfg g) in B2.
      split; [|split; [|reflexivity]].
      + unfold Persistent.pid_m_intra_rank, Persistent.m_rank. fold c.
        pose proof (Z.div_mod g c ltac:(lia)).
        pose proof (Z.mod_pos_bound g c Hc). lia.
      + fold nr in Enr. nia. }
  destruct Hown as [b [Hb [Ho Epm]]].
  destruct (shard_tile c BM owner b Hc HBM Hb) as [E1 E2].
  rewrite <- Epm in E1, E2.
  assert (Ebeg : Persistent.rank_beg cfg offs = owner).
  { unfold Persistent.rank_beg, offs. fold Mpr BM.
    rewrite EMpr, Z.add_0_r, (Z.mul_comm BM c). exact E1. }
  assert (Eend : Persistent.rank_end cfg offs = owner).
  { unfold Persistent.rank_end, offs. fold Mpr BM M.
    rewrite Z.min_l by nia.
    replace Mpr with (c * BM) by lia. exact E2. }
  unfold Persistent.tile_wait_first, Persistent.tile_wait_num.
  fold BM offs. rewrite Ebeg, Eend.
  split; [reflexivity|]. split; [lia|]. split; [exact Ho|].
  unfold offs. rewrite Epm. split; nia.
Qed.

Ltac concrete :=
  first [ (cbn; lia)
        | (vm_compute; reflexivity)
        | (vm_compute; split; congruence)
        | (right; vm_compute; repeat split; congruence)
        | (left; vm_compute; reflexivity) ].

(** X3 at the scenario on rank 1 with blocks of two rows: program 0
    works on rows 2 and 3 and waits on flag 1 alone. *)
Lemma np_tiles_follow_ring_order_witness :
  NonPersistent.rank_beg (Scenario.non_persistent 1 2 2)
    (NonPersistent.pid_m (Scenario.non_persistent 1 2 2) 0 * 2) = 1
  /\ NonPersistent.rank_end (Scenario.non_persistent 1 2 2)
       (NonPersistent.pid_m (Scenario.non_persistent 1 2 2) 0 * 2) = 1.
Proof.
  destruct (np_tiles_follow_ring_order (Scenario.non_persistent 1 2 2) 0)
    as [H1 [H2 _]]; [> concrete .. | ].
  split; [exact H1|exact H2].
Defined.

(** X4 on two nodes of two ranks, rank 1: tile 0 waits on flag 1 alone. *)
Lemma p_tiles_follow_ring_order_witness :
  Persistent.tile_wait_first (Scenario.two_nodes 1) 0 = 1
  /\ Persistent.tile_wait_num (Scenario.two_nodes 1) 0 = 1.
Proof.
  destruct (p_tiles_follow_ring_order (Scenario.two_nodes 1) 0)
    as [H1 [H2 _]]; [> concrete .. | ].
  split; [exact H1|exact H2].
Defined.

(** ** How many flags a tile waits on *)

Lemma wait_num_bounds Mpr BM M offs :
  0 < Mpr -> 0 < BM -> 0 <= offs < M ->
  let beg := offs / Mpr in
  let last := (Z.min (offs + BM) M - 1) / Mpr in
  1 <= last - beg + 1 <= Tl.cdiv (BM - 1) Mpr + 1.
Proof.
  intros HMpr HBM Hoffs beg last.
  set (hi := Z.min (offs + BM) M) in *.
  assert (Hhi : offs < hi <= offs + BM) by (unfold hi; lia).
  pose proof (Z.div_mod offs Mpr ltac:(lia)) as E1.
  pose proof (Z.mod_pos_bound offs Mpr HMpr) as B1.
  pose proof (Z.div_mod (hi - 1) Mpr ltac:(lia)) as E2.
  pose proof (Z.mod_pos_bound (hi - 1) Mpr HMpr) as B2.
  fold beg in E1. fold last in E2.
  pose proof (cdiv_mul_ge (BM - 1) Mpr HMpr) as Hc.
  split; nia.
Qed.

(** X5.  In the non-persistent kernel with at least one row per rank
    ([0 < M // WORLD_SIZE]), every program of the grid waits on at
    least one flag and on at most [cdiv(BLOCK_SIZE_M - 1, m_per_rank)
    + 1] flags.  In the persistent kernel the same bounds hold for
    every tile under two conditions: [num_ranks] divides [M], and the
    ranks are laid out so that the swizzle keeps the row tile inside
    C ([num_ranks // LOCAL_WORLD_SIZE = 1], or whole nodes with shards
    of whole row tiles).  In either kernel, under these conditions,
    the count is at most two when a shard is at least as tall as a row
    tile. *)
Theorem wait_count_bounds
    (ncfg : NonPersistent.args) (pcfg : Persistent.args) :
  (0 < NonPersistent.M ncfg -> 0 < NonPersistent.N ncfg ->
   0 < NonPersistent.BLOCK_SIZE_M ncfg -> 0 < NonPersistent.BLOCK_SIZE_N ncfg ->
   0 < NonPersistent.GROUP_SIZE_M ncfg ->
   0 < NonPersistent.m_per_rank ncfg ->
   forall pid, 0 <= pid < NonPersistent.grid ncfg ->
   let offs_am :=
     NonPersistent.pid_m ncfg pid * NonPersistent.BLOCK_SIZE_M ncfg in
   let num := NonPersistent.rank_end ncfg offs_am
              - NonPersistent.rank_beg ncfg offs_am + 1 in
   1 <= num <= Tl.cdiv (NonPersistent.BLOCK_SIZE_M ncfg - 1)
                       (NonPersistent.m_per_rank ncfg) + 1
   /\ (NonPersistent.BLOCK_SIZE_M ncfg <= NonPersistent.m_per_rank ncfg ->
       num <= 2))
  /\ (0 < Persistent.M pcfg -> 0 < Persistent.N pcfg ->
      0 < Persistent.BLOCK_SIZE_M pcfg -> 0 < Persistent.BLOCK_SIZE_N pcfg ->
      0 < Persistent.GROUP_SIZE_M pcfg ->
      0 < Persistent.num_ranks pcfg ->
      Persistent.M pcfg mod Persistent.num_ranks pcfg = 0 ->
      Persistent.layout_ok pcfg ->
      forall t, 0 <= t < Persistent.num_tiles pcfg ->
      1 <= Persistent.tile_wait_num pcfg t
        <= Tl.cdiv (Persistent.BLOCK_SIZE_M pcfg - 1)
                   (Persistent.M_per_rank pcfg) + 1
      /\ (Persistent.BLOCK_SIZE_M pcfg <= Persistent.M_per_rank pcfg ->
          Persistent.tile_wait_num pcfg t <= 2)).
Proof.
  assert (Hsmall : forall BM Mpr, 0 < BM -> BM <= Mpr ->
                     Tl.cdiv (BM - 1) Mpr <= 1).
  { intros BM Mpr HB Hle. unfold Tl.cdiv.
    apply Z.lt_succ_r, Z.div_lt_upper_bound; lia. }
  split.
  - intros HM HN HBM HBN HG HMpr pid Hpid offs num.
    destruct (np_tile_range ncfg HM HN HBM HBN HG pid Hpid) as [Hm _].
    assert (Hoffs : 0 <= offs < NonPersistent.M ncfg).
    { unfold offs.
      pose proof (lt_cdiv_mul (NonPersistent.M ncfg)
                    (NonPersistent.BLOCK_SIZE_M ncfg) _ HBM Hm). nia. }
    pose proof (wait_num_bounds _ _ _ _ HMpr HBM Hoffs) as Hb.
    cbv zeta in Hb.
    change (1 <= num <= Tl.cdiv (NonPersistent.BLOCK_SIZE_M ncfg - 1)
                                (NonPersistent.m_per_rank ncfg) + 1) in Hb.
    split; [exact Hb|]. intros Hle.
    pose proof (Hsmall _ _ HBM Hle). lia.
  - intros HM HN HBM HBN HG Hnr Hdiv Hlay t Ht.
    assert (Hm : 0 <= Persistent.pid_m pcfg t < Persistent.num_pid_m pcfg)
      by (eapply proj1, p_tile_range; eassumption).
    assert (HMpr : 0 < Persistent.M_per_rank pcfg).
    { unfold Persistent.M_per_rank.
      pose proof (Z.div_mod (Persistent.M pcfg) (Persistent.num_ranks pcfg)
                    ltac:(lia)). nia. }
    assert (Hoffs : 0 <= Persistent.pid_m pcfg t
                         * Persistent.BLOCK_SIZE_M pcfg < Persistent.M pcfg).
    { pose proof (lt_cdiv_mul (Persistent.M pcfg)
                    (Persistent.BLOCK_SIZE_M pcfg) _ HBM Hm). nia. }
    pose proof (wait_num_bounds _ _ _ _ HMpr HBM Hoffs) as Hb.
    cbv zeta in Hb.
    change (1 <= Persistent.tile_wait_num pcfg t
            <= Tl.cdiv (Persistent.BLOCK_SIZE_M pcfg - 1)
                       (Persistent.M_per_rank pcfg) + 1) in Hb.
    split; [exact Hb|]. intros Hle.
    pose proof (Hsmall _ _ HBM Hle). lia.
Qed.

(** ** Flags read beyond the last rank *)

(** X6.  In the non-persistent kernel with at least one row per rank
    ([WORLD_SIZE <= M]), the waits of all programs stay inside the
    [WORLD_SIZE] flags exactly when [WORLD_SIZE] divides [M]; otherwise
    the program of the last row tile waits on a slot at or beyond
    [WORLD_SIZE]. *)
Theorem np_waits_within_flags_iff_whole_shards (cfg : NonPersistent.args) :
  0 < NonPersistent.N cfg ->
  0 < NonPersistent.BLOCK_SIZE_M cfg -> 0 < NonPersistent.BLOCK_SIZE_N cfg ->
  0 < NonPersistent.GROUP_SIZE_M cfg ->
  0 < NonPersistent.WORLD_SIZE cfg ->
  NonPersistent.WORLD_SIZE cfg <= NonPersistent.M cfg ->
  (forall pid r,
     0 <= pid < NonPersistent.grid cfg ->
     In r (wait_slots
             (NonPersistent.rank_beg cfg
                (NonPersistent.pid_m cfg pid * NonPersistent.BLOCK_SIZE_M cfg))
             (NonPersistent.rank_end cfg
                (NonPersistent.pid_m cfg pid * NonPersistent.BLOCK_SIZE_M cfg)
              - NonPersistent.rank_beg cfg
                  (NonPersistent.pid_m cfg pid
                   * NonPersistent.BLOCK_SIZE_M cfg) + 1)) ->
     0 <= r < NonPersistent.WORLD_SIZE cfg)
  <-> NonPersistent.M cfg mod NonPersistent.WORLD_SIZE cfg = 0.
Proof.
  intros HN HBM HBN HG HW HWM.
  assert (HM : 0 < NonPersistent.M cfg) by lia.
  split.
  - intros Hall.
    set (M := NonPersistent.M cfg) in *.
    set (WS := NonPersistent.WORLD_SIZE cfg) in *.
    set (BM := NonPersistent.BLOCK_SIZE_M cfg) in *.
    set (P := NonPersistent.num_pid_m cfg).
    assert (HP : 0 < P) by (apply np_P_pos; assumption).
    assert (HQ : 0 < NonPersistent.num_pid_n cfg)
      by (apply np_Q_pos; assumption).
    assert (Hm : 0 <= P - 1 < NonPersistent.num_pid_m cfg)
      by (fold P; lia).
    assert (Hn : 0 <= 0 < NonPersistent.num_pid_n cfg) by lia.
    destruct (np_pid_of_tile_spec cfg HM HN HBM HBN HG (P - 1) 0 Hm Hn)
      as [Hpid [Epm _]].
    set (pid := NonPersistent.pid_of_tile cfg (P - 1) 0) in *.
    pose proof (Z.div_mod M WS ltac:(lia)) as EM.
    pose proof (Z.mod_pos_bound M WS HW) as BM'.
    set (mpr := M / WS) in *.
    assert (Hmpr : 0 < mpr) by nia.
    destruct (Z.eq_dec (M mod WS) 0) as [E|Hrem]; [exact E|]. exfalso.
    pose proof (cdiv_mul_ge M BM HBM) as Hge.
    change (M <= P * BM) in Hge.
    assert (Hlt : (P - 1) * BM < M).
    { apply lt_cdiv_mul; [exact HBM|]. change (0 <= P - 1 < P). lia. }
    set (beg := NonPersistent.rank_beg cfg
                  (NonPersistent.pid_m cfg pid * BM)) in *.
    set (last := NonPersistent.rank_end cfg
                   (NonPersistent.pid_m cfg pid * BM)) in *.
    assert (Elast : last = (M - 1) / mpr).
    { unfold last, NonPersistent.rank_end, NonPersistent.m_per_rank.
      fold M WS mpr BM. rewrite Epm. rewrite Z.min_r by lia. reflexivity. }
    assert (Ebeg : beg = (P - 1) * BM / mpr).
    { unfold beg, NonPersistent.rank_beg, NonPersistent.m_per_rank.
      fold M WS mpr. rewrite Epm. reflexivity. }
    assert (Hle : beg <= last).
    { rewrite Ebeg, Elast. apply Z.div_le_mono; lia. }
    assert (Hbig : WS <= last).
    { rewrite Elast. apply Z.div_le_lower_bound; [exact Hmpr|]. nia. }
    specialize (Hall pid last Hpid).
    assert (Hin : In last (wait_slots beg (last - beg + 1)))
      by (apply In_wait_slots; lia).
    apply Hall in Hin. lia.
  - intros Hdiv pid r Hpid Hin.
    apply (np_wait_slots_in_buffer cfg HM HN HBM HBN HG pid r HW Hdiv Hpid Hin).
Qed.

(** X5 at the scenario with blocks of three rows over shards of two:
    program 0 of the non-persistent kernel waits on one or two flags;
    tile 0 of the persistent kernel, with blocks of two rows, on one
    or two as well. *)
Lemma wait_count_bounds_witness :
  1 <= NonPersistent.rank_end (Scenario.non_persistent 1 3 3)
         (NonPersistent.pid_m (Scenario.non_persistent 1 3 3) 0 * 3)
       - NonPersistent.rank_beg (Scenario.non_persistent 1 3 3)
           (NonPersistent.pid_m (Scenario.non_persistent 1 3 3) 0 * 3) + 1
    <= 2
  /\ 1 <= Persistent.tile_wait_num (Scenario.persistent 1) 0 <= 2.
Proof.
  destruct (wait_count_bounds (Scenario.non_persistent 1 3 3)
              (Scenario.persistent 1)) as [Hn Hp].
  split.
  - destruct (Hn ltac:(concrete) ltac:(concrete) ltac:(concrete)
                ltac:(concrete) ltac:(concrete) ltac:(concrete) 0
                ltac:(concrete)) as [H _].
    exact H.
  - destruct (Hp ltac:(concrete) ltac:(concrete) ltac:(concrete)
                ltac:(concrete) ltac:(concrete) ltac:(concrete)
                ltac:(concrete) ltac:(concrete) 0 ltac:(concrete))
      as [H _].
    exact H.
Defined.

(** X6 at the scenario: two ranks, four rows, so the wait of program 1
    stays inside the two flags. *)
Lemma np_waits_within_flags_iff_whole_shards_witness :
  forallb (fun r => (0 <=? r) && (r <? 2))
    (wait_slots
       (NonPersistent.rank_beg (Scenario.non_persistent 1 3 3)
          (NonPersistent.pid_m (Scenario.non_persistent 1 3 3) 1 * 3))
       (NonPersistent.rank_end (Scenario.non_persistent 1 3 3)
          (NonPersistent.pid_m (Scenario.non_persistent 1 3 3) 1 * 3)
        - NonPersistent.rank_beg (Scenario.non_persistent 1 3 3)
            (NonPersistent.pid_m (Scenario.non_persistent 1 3 3) 1 * 3)
        + 1))
  = true.
Proof.
  apply forallb_forall. intros r Hr.
  pose proof (proj2 (np_waits_within_flags_iff_whole_shards
                       (Scenario.non_persistent 1 3 3) ltac:(concrete)
                       ltac:(concrete) ltac:(concrete) ltac:(concrete)
                       ltac:(concrete) ltac:(concrete))
                ltac:(reflexivity) 1 r ltac:(concrete) Hr) as H.
  apply andb_true_iff. split; [apply Z.leb_le|apply Z.ltb_lt];
    apply H.
Defined.

(** ** An empty inner dimension *)

Lemma p_run_no_slices (cfg : Persistent.args) (sched : list Z) :
  Persistent.k_tiles cfg = 0 ->
  forall c, Persistent.run cfg sched c = Some c.
Proof.
  intros Hk. induction sched as [|p rest IH]; intros c; [reflexivity|].
  cbn [Persistent.run]. unfold Persistent.kernel. rewrite Hk.
  cbn [Z.mul Z.to_nat Persistent.iterate]. apply IH.
Qed.

(** X7.  With an empty inner dimension ([K = 0]) the two kernels part
    ways: the non-persistent kernel runs no iteration of its loop over
    K and stores the zero accumulator to every element of C; the
    persistent kernel has [k_tiles = 0], so no unit runs any iteration,
    no flag is waited on and C is left exactly as it was. *)
Theorem empty_inner_dimension
    (ncfg : NonPersistent.args) (pcfg : Persistent.args) (sched : list Z)
    (c : Tl.buffer) :
  (NonPersistent.K ncfg = 0 ->
   0 < NonPersistent.M ncfg -> 0 < NonPersistent.N ncfg ->
   0 < NonPersistent.BLOCK_SIZE_M ncfg -> 0 < NonPersistent.BLOCK_SIZE_N ncfg ->
   0 < NonPersistent.BLOCK_SIZE_K ncfg -> 0 < NonPersistent.GROUP_SIZE_M ncfg ->
   0 < NonPersistent.WORLD_SIZE ncfg ->
   NonPersistent.M ncfg mod NonPersistent.WORLD_SIZE ncfg = 0 ->
   (forall r, 0 <= r < NonPersistent.WORLD_SIZE ncfg ->
              NonPersistent.barrier_ptr ncfg r = 1) ->
   dense_view (NonPersistent.M ncfg) (NonPersistent.N ncfg)
              (NonPersistent.stride_cm ncfg) (NonPersistent.stride_cn ncfg) ->
   (forall pid, In pid sched <-> 0 <= pid < NonPersistent.grid ncfg) ->
   exists c', NonPersistent.run ncfg sched c = Some c'
     /\ forall i j, 0 <= i < NonPersistent.M ncfg ->
                    0 <= j < NonPersistent.N ncfg ->
          at2 c' (NonPersistent.stride_cm ncfg) (NonPersistent.stride_cn ncfg)
              i j = 0)
  /\ (Persistent.K pcfg = 0 -> 0 < Persistent.BLOCK_SIZE_K pcfg ->
      Persistent.run pcfg sched c = Some c).
Proof.
  split.
  - intros HK HM HN HBM HBN HBK HG HW Hdiv Hflags Hdense Hsched.
    destruct (np_gemm ncfg sched c HM HN ltac:(lia) HBM HBN HBK HG HW Hdiv
                Hflags Hdense Hsched) as [c' [E [Hval _]]].
    exists c'. split; [exact E|]. intros i j Hi Hj.
    rewrite (Hval i j Hi Hj), HK. reflexivity.
  - intros HK HBK. apply p_run_no_slices.
    unfold Persistent.k_tiles, Tl.cdiv. rewrite HK.
    apply Z.div_small. lia.
Qed.

(** ** Work per scheduling unit *)

Lemma sumZ_floor_or_ceil (k a r : Z) : forall n,
  0 <= n -> 0 <= r ->
  Tl.sumZ n (fun p => k * (a + (if p <? r then 1 else 0)))
  = k * (n * a + Z.min n r).
Proof.
  intros n Hn Hr. revert n Hn. apply natlike_ind.
  - rewrite sumZ_0, Z.min_l by lia. ring.
  - intros n Hn IH. change (Z.succ n) with (n + 1).
    rewrite sumZ_succ by exact Hn. rewrite IH.
    destruct (Z.ltb_spec n r).
    + rewrite !Z.min_l by lia. ring.
    + rewrite !Z.min_r by lia. ring.
Qed.

(** X8.  The units of the persistent kernel share the tiles evenly:
    the tile counts of two units differ by at most one, they add up to
    [num_tiles] over the [NUM_SMS] units, and the loop iterations of all
    units add up to [k_tiles * num_tiles].  A unit whose index is not
    below the number of tiles has no tile: it returns at once without
    waiting, loading or storing, so a grid of [min(NUM_SMS, num_tiles)]
    programs leaves no work undone. *)
Theorem units_share_tiles_evenly (cfg : Persistent.args) :
  0 < Persistent.NUM_SMS cfg -> 0 <= Persistent.num_tiles cfg ->
  (forall p p', 0 <= p -> 0 <= p' ->
     Persistent.tiles_per_SM cfg p - Persistent.tiles_per_SM cfg p' <= 1)
  /\ Tl.sumZ (Persistent.NUM_SMS cfg) (Persistent.tiles_per_SM cfg)
     = Persistent.num_tiles cfg
  /\ Tl.sumZ (Persistent.NUM_SMS cfg)
       (fun p => Persistent.k_tiles cfg * Persistent.tiles_per_SM cfg p)
     = Persistent.k_tiles cfg * Persistent.num_tiles cfg
  /\ (forall p c, Persistent.num_tiles cfg <= p < Persistent.NUM_SMS cfg ->
        Persistent.tiles_per_SM cfg p = 0
        /\ exists st, Persistent.kernel cfg p c = Some st
             /\ Persistent.st_c st = c /\ Persistent.st_trace st = []).
Proof.
  intros HS HT.
  set (S := Persistent.NUM_SMS cfg) in *.
  set (T := Persistent.num_tiles cfg) in *.
  pose proof (Z.div_mod T S ltac:(lia)) as ET.
  pose proof (Z.mod_pos_bound T S HS) as BT.
  assert (Hsum : forall k,
    Tl.sumZ S (fun p => k * Persistent.tiles_per_SM cfg p) = k * T).
  { intros k. unfold Persistent.tiles_per_SM. fold S T.
    rewrite (sumZ_floor_or_ceil k (T / S) (T mod S) S) by lia.
    rewrite Z.min_r by lia. nia. }
  split; [|split; [|split; [exact (Hsum _)|]]].
  - intros p p' _ _. unfold Persistent.tiles_per_SM. fold S T.
    destruct (p <? T mod S), (p' <? T mod S); lia.
  - rewrite <- (Z.mul_1_l T), <- (Hsum 1). apply sumZ_ext.
    intros p _. lia.
  - intros p c Hp.
    assert (E0 : Persistent.tiles_per_SM cfg p = 0).
    { unfold Persistent.tiles_per_SM. fold S T.
      rewrite Z.div_small by lia. rewrite Z.mod_small by lia.
      destruct (Z.ltb_spec p T); lia. }
    split; [exact E0|]. unfold Persistent.kernel. rewrite E0, Z.mul_0_r.
    cbn [Z.to_nat Persistent.iterate]. eexists. split; [reflexivity|].
    split; reflexivity.
Qed.

(** X7 at the scenario with [K = 0]: the non-persistent launch leaves
    zeros in the eight elements of C, the persistent launch leaves C as
    it was although no flag is set. *)
Lemma empty_inner_dimension_witness :
  (exists c',
     NonPersistent.run Examples.empty_K_non_persistent (Tl.arange 2)
                       (fun _ => -1) = Some c'
     /\ forall i j, 0 <= i < 4 -> 0 <= j < 2 -> at2 c' 2 1 i j = 0)
  /\ Persistent.run Examples.empty_K_persistent (Tl.arange 2) (fun _ => -1)
     = Some (fun _ => -1).
Proof.
  destruct (empty_inner_dimension Examples.empty_K_non_persistent
              Examples.empty_K_persistent (Tl.arange 2) (fun _ => -1))
    as [Hn Hp].
  split.
  - apply Hn; [> scenario_side .. ].
  - apply Hp; [> scenario_side .. ].
Defined.

(** X8 at the scenario: two tiles on three units, so unit 2 has no
    tile and the counts add up to 2. *)
Lemma units_share_tiles_evenly_witness :
  Tl.sumZ 3 (Persistent.tiles_per_SM (Scenario.persistent 1)) = 2
  /\ Persistent.tiles_per_SM (Scenario.persistent 1) 2 = 0.
Proof.
  destruct (units_share_tiles_evenly (Scenario.persistent 1)
              ltac:(concrete) ltac:(concrete)) as [_ [H1 [_ H2]]].
  split; [exact H1|].
  exact (proj1 (H2 2 (fun _ => 0) ltac:(concrete))).
Defined.

(** ** Updates between calls *)

Lemma run_call_context mpc c ctx :
  snd (Host.run_call mpc c ctx) = Some (Host.bump_phase ctx).
Proof.
  destruct c as [a b persistent | a b lws target persistent];
    unfold Host.run_call, Host.ag_gemm_intra_node, Host.ag_gemm_inter_node,
      Host.ag_gemm_intra_node_with, Host.ag_gemm_inter_node_with.
  - destruct persistent.
    + destruct (Host.ag_gemm_intra_node_persistent_op _ _ _ _ _ _ _).
      reflexivity.
    + destruct (Host.ag_gemm_non_persistent_op _ _ _ _ _ _ _). reflexivity.
  - destruct persistent.
    + destruct (Host.ag_gemm_inter_node_persistent_op _ _ _ _ _ _ _ _ _).
      reflexivity.
    + destruct (Host.ag_gemm_non_persistent_op _ _ _ _ _ _ _). reflexivity.
Qed.

Lemma call_on_spec mpc h c ctx :
  Host.ctx_local_rank (snd (Context.call_on mpc h c ctx))
  = Host.ctx_local_rank ctx
  /\ (Context.reaches_bump h c ctx = true ->
      Host.phases_passed (fst (fst (Context.call_on mpc h c ctx)))
      = [Host.ctx_phase ctx]
      /\ Host.ctx_phase (snd (Context.call_on mpc h c ctx))
         = Host.ctx_phase ctx + 2)
  /\ (Context.reaches_bump h c ctx = false ->
      Host.raised (snd (fst (Context.call_on mpc h c ctx))) = true
      /\ snd (Context.call_on mpc h c ctx) = ctx).
Proof.
  destruct (HostFacts.run_call_phase mpc c ctx)
    as [w [r [ctx' [E [Hp Hph]]]]].
  pose proof (run_call_context mpc c ctx) as Ec.
  rewrite E in Ec. cbn [snd] in Ec. injection Ec as Ec. subst ctx'.
  destruct c as [a b persistent | a b lws target persistent];
    unfold Context.call_on, Context.reaches_bump;
    unfold Host.run_call, Host.ag_gemm_intra_node, Host.ag_gemm_inter_node
      in E.
  - destruct (Host.ag_gemm_intra_node_with mpc a b ctx persistent)
      as [[w0 r0] c0] eqn:Ew.
    injection E as -> -> ->.
    destruct (Context.empty_ok _ _); cbn [negb andb];
      [|repeat split; try reflexivity; discriminate].
    destruct (Context.subscript_ok (Context.len_workspace_tensors h) _);
      cbn [negb andb]; [|repeat split; try reflexivity; discriminate].
    destruct (Context.subscript_ok (Context.len_barrier_tensors h) _);
      cbn [negb andb]; [|repeat split; try reflexivity; discriminate].
    cbn [fst snd]. split; [reflexivity|]. split; [|discriminate].
    intros _. split; [exact Hp|reflexivity].
  - destruct (Host.ag_gemm_inter_node_with mpc a b ctx lws target persistent)
      as [[w0 r0] c0] eqn:Ew.
    injection E as -> -> ->.
    destruct (Context.empty_ok _ _); cbn [negb andb];
      [|repeat split; try reflexivity; discriminate].
    destruct (Context.subscript_ok (Context.len_workspace_tensors h) _);
      cbn [negb andb]; [|repeat split; try reflexivity; discriminate].
    destruct (Context.subscript_ok (Context.len_barrier_tensors h) _);
      cbn [negb andb]; [|repeat split; try reflexivity; discriminate].
    destruct (Context.subscript_ok (Context.barrier_numel h) _);
      cbn [negb andb]; [|repeat split; try reflexivity; discriminate].
    cbn [fst snd]. split; [reflexivity|]. split; [|discriminate].
    intros _. split; [exact Hp|reflexivity].
Qed.

Lemma run_actions_spec mpc h acts : forall ctx,
  let outs := fst (Context.run_actions mpc h acts ctx) in
  let final := snd (Context.run_actions mpc h acts ctx) in
  List.length outs = List.length (filter Context.is_call acts)
  /\ (forall k o, nth_error outs k = Some o ->
        let n := Z.of_nat
                   (List.length (filter (Context.through h) (firstn k outs))) in
        Host.ctx_phase (Context.oc_found o) = Host.ctx_phase ctx + 2 * n
        /\ Host.ctx_local_rank (Context.oc_found o) = Host.ctx_local_rank ctx
        /\ (Context.through h o = true ->
            Host.phases_passed (Context.oc_work o)
            = [Host.ctx_phase ctx + 2 * n]
            /\ Host.ctx_phase (Context.oc_left o)
               = Host.ctx_phase ctx + 2 * n + 2)
        /\ (Context.through h o = false ->
            Host.raised (Context.oc_result o) = true
            /\ Context.oc_left o = Context.oc_found o))
  /\ Host.ctx_phase final
     = Host.ctx_phase ctx
       + 2 * Z.of_nat (List.length (filter (Context.through h) outs))
  /\ Host.ctx_local_rank final = Host.ctx_local_rank ctx.
Proof.
  induction acts as [|a acts IH]; intros ctx outs final.
  - subst outs final. cbn. split; [reflexivity|]. split; [|split; [lia|reflexivity]].
    intros k o H. destruct k; discriminate.
  - destruct a as [c|rk nr nl s au].
    + subst outs final. cbn [Context.run_actions].
      destruct (call_on_spec mpc h c ctx) as [Hlr [Hthru Hraise]].
      destruct (Context.call_on mpc h c ctx) as [[w r] ctx'].
      cbn [fst snd] in Hlr, Hthru, Hraise.
      destruct (IH ctx') as [IHlen [IHnth [IHph IHlr]]].
      destruct (Context.run_actions mpc h acts ctx') as [os ctx''].
      cbn [fst snd] in *.
      set (o0 := {| Context.oc_call := c; Context.oc_found := ctx;
                    Context.oc_work := w; Context.oc_result := r;
                    Context.oc_left := ctx' |}).
      assert (Hstep : Host.ctx_phase ctx'
                = Host.ctx_phase ctx
                  + 2 * Z.of_nat (List.length
                                    (filter (Context.through h) [o0]))).
      { cbn [filter]. unfold Context.through at 1. cbn [o0 Context.oc_call Context.oc_found].
        destruct (Context.reaches_bump h c ctx) eqn:Eb.
        - destruct (Hthru eq_refl) as [_ Hph]. cbn. lia.
        - destruct (Hraise eq_refl) as [_ ->]. cbn. lia. }
      split; [cbn [filter Context.is_call List.length]; lia|].
      split; [|split].
      * intros k o Hk. destruct k as [|k].
        -- cbn in Hk. injection Hk as <-. cbn [firstn filter List.length].
           cbn [o0 Context.oc_found Context.oc_work Context.oc_left
                Context.oc_result]. unfold Context.through.
           cbn [o0 Context.oc_call Context.oc_found].
           cbn zeta. rewrite Z.mul_0_r, !Z.add_0_r.
           split; [reflexivity|]. split; [reflexivity|]. split.
           ++ intros Hb. destruct (Hthru Hb) as [H1 H2]. split; [exact H1|lia].
           ++ intros Hb. exact (Hraise Hb).
        -- cbn [nth_error] in Hk. specialize (IHnth k o Hk). cbn zeta in IHnth.
           cbn zeta. cbn [firstn].
           change (o0 :: firstn k os) with ([o0] ++ firstn k os).
           rewrite filter_app, length_app, Nat2Z.inj_add.
           destruct IHnth as [H1 [H2 [H3 H4]]].
           rewrite Hstep in H1, H3. rewrite Hlr in H2.
           split; [lia|]. split; [exact H2|]. split.
           ++ intros Hb. destruct (H3 Hb) as [H5 H6]. split.
              ** rewrite H5. f_equal. lia.
              ** lia.
           ++ exact H4.
      * change (o0 :: os) with ([o0] ++ os).
        rewrite filter_app, length_app, Nat2Z.inj_add. lia.
      * rewrite IHlr. exact Hlr.
    + subst outs final. cbn [Context.run_actions filter Context.is_call].
      apply (IH (Context.update ctx rk nr nl s au)).
Qed.

(** X9.  [update] assigns neither [phase] nor [local_rank], and a call
    that raises before [ctx.phase += 2] leaves the phase as it found
    it: that is a call whose [torch.empty] gets a negative size or
    whose subscript [workspace_tensors[..]], [barrier_tensors[..]] or
    [barrier_ptr[rank]] is out of range, as can happen once an update
    has changed [rank] or [num_ranks].  So on a context as the
    constructors return it, whatever updates are made between the
    calls of the two entry points and whatever the context holds, a
    call finds the phase [2 n + 1], where [n] is the number of earlier
    calls that got as far as [ctx.phase += 2]; if it gets as far
    itself it hands [2 n + 1] to [local_copy_and_barrier_all] and
    leaves [2 n + 3], otherwise it raises and leaves the context as it
    was.  The counter ends at twice the number of calls that got
    through plus one, and the local rank stays the one the constructor
    computed. *)
Theorem update_keeps_the_phase
    (multi_processor_count : Z) (h : Context.tensors)
    (acts : list Context.action)
    (ctx : Host.AllGatherGEMMTensorParallelContext) :
  Host.fresh ctx ->
  let outs := fst (Context.run_actions multi_processor_count h acts ctx) in
  let final := snd (Context.run_actions multi_processor_count h acts ctx) in
  List.length outs = List.length (filter Context.is_call acts)
  /\ (forall k o, nth_error outs k = Some o ->
        let n := Z.of_nat
                   (List.length (filter (Context.through h) (firstn k outs))) in
        Host.ctx_phase (Context.oc_found o) = 2 * n + 1
        /\ Host.ctx_local_rank (Context.oc_found o) = Host.ctx_local_rank ctx
        /\ (Context.through h o = true ->
            Host.phases_passed (Context.oc_work o) = [2 * n + 1]
            /\ Host.ctx_phase (Context.oc_left o) = 2 * n + 3)
        /\ (Context.through h o = false ->
            Host.raised (Context.oc_result o) = true
            /\ Context.oc_left o = Context.oc_found o))
  /\ Host.ctx_phase final
     = 2 * Z.of_nat (List.length (filter (Context.through h) outs)) + 1
  /\ Host.ctx_local_rank final = Host.ctx_local_rank ctx.
Proof.
  intros Hf outs final. apply HostFacts.fresh_phase in Hf.
  destruct (run_actions_spec multi_processor_count h acts ctx)
    as [H1 [H2 [H3 H4]]].
  cbv zeta in H1, H2, H3, H4. rewrite Hf in H2, H3.
  split; [exact H1|]. split; [|split; [unfold final, outs; lia|exact H4]].
  intros k o Hk n. destruct (H2 k o Hk) as [G1 [G2 [G3 G4]]].
  fold outs in G1, G3. fold n in G1, G3.
  split; [lia|]. split; [exact G2|]. split; [|exact G4].
  intros Hb. destruct (G3 Hb) as [G5 G6]. split.
  - rewrite G5. f_equal. lia.
  - lia.
Qed.

(** ** Mismatched operands at the entry points *)


(** X9 at the scenario, on a context that holds two workspaces, two
    barrier tensors and two flags in each.  The first call finds
    phase 1 and leaves 3.  After an update to rank 5 a call through
    [ag_gemm_inter_node] raises at [barrier_ptr[5]] and one through
    [ag_gemm_intra_node] at [workspace_tensors[5]]: both find phase 3
    and leave 3.  After an update to rank 1 a call finds 3 and leaves
    5; the local rank is still 0. *)
Lemma update_keeps_the_phase_witness :
  let h := {| Context.len_workspace_tensors := 2;
              Context.len_barrier_tensors := 2;
              Context.barrier_numel := 2 |} in
  let acts :=
    [Context.Call (Host.IntraNode Scenario.tensor_A Scenario.tensor_B true);
     Context.Update 5 2 8 false false;
     Context.Call (Host.InterNode Scenario.tensor_A Scenario.tensor_B 8 1
                                  true);
     Context.Call (Host.IntraNode Scenario.tensor_A Scenario.tensor_B true);
     Context.Update 1 2 8 false false;
     Context.Call (Host.InterNode Scenario.tensor_A Scenario.tensor_B 8 1
                                  true)] in
  map (fun o => (Host.ctx_phase (Context.oc_found o),
                 Host.phases_passed (Context.oc_work o),
                 Host.raised (Context.oc_result o),
                 Host.ctx_phase (Context.oc_left o)))
      (fst (Context.run_actions 132 h acts Scenario.context))
  = [(1, [1], false, 3); (3, [3], true, 3); (3, [], true, 3);
     (3, [3], false, 5)]
  /\ Host.ctx_phase (snd (Context.run_actions 132 h acts Scenario.context))
     = 5
  /\ Host.ctx_local_rank
       (snd (Context.run_actions 132 h acts Scenario.context)) = 0.
Proof.
  intros h acts.
  assert (Hf : Host.fresh Scenario.context).
  { left. exists Scenario.tensor_A, Scenario.tensor_B, 0, 2, false, false.
    eexists. reflexivity. }
  destruct (update_keeps_the_phase 132 h acts Scenario.context Hf)
    as [_ [_ [H3 H4]]].
  split; [reflexivity|]. split; [rewrite H3; reflexivity|exact H4].
Defined.


(** ** The launches of the host functions *)

Lemma configs_blocks (c : Autotune.Config) :
  In c Autotune.matmul_get_configs ->
  Autotune.BLOCK_SIZE_M c = 128
  /\ (Autotune.BLOCK_SIZE_N c = 128 \/ Autotune.BLOCK_SIZE_N c = 256)
  /\ (Autotune.BLOCK_SIZE_K c = 64 \/ Autotune.BLOCK_SIZE_K c = 128)
  /\ Autotune.GROUP_SIZE_M c = 8
  /\ (Autotune.num_stages c = 3 \/ Autotune.num_stages c = 4)
  /\ (Autotune.num_warps c = 4 \/ Autotune.num_warps c = 8).
Proof.
  intros H. cbv [Autotune.matmul_get_configs flat_map map app] in H.
  repeat (destruct H as [<-|H]; [cbn; repeat split; auto|]).
  destruct H.
Qed.

Lemma blocks_positive autotune choice BLOCK_M BLOCK_N BLOCK_K :
  (autotune = true -> In choice Autotune.matmul_get_configs) ->
  0 < BLOCK_M -> 0 < BLOCK_N -> 0 < BLOCK_K ->
  exists BM BN BK G,
    Launches.blocks autotune choice BLOCK_M BLOCK_N BLOCK_K = (BM, BN, BK, G)
    /\ 0 < BM /\ 0 < BN /\ 0 < BK /\ 0 < G.
Proof.
  intros Hc HM HN HK. unfold Launches.blocks. destruct autotune.
  - destruct (configs_blocks choice (Hc eq_refl)) as [E1 [E2 [E3 [E4 _]]]].
    do 4 eexists. split; [reflexivity|]. lia.
  - do 4 eexists. split; [reflexivity|]. lia.
Qed.

(** X11.  [ag_gemm_intra_node] with [persistent] unset, end to end on
    the device: whatever the shapes (at least one rank, one row per
    shard, one row of B), whatever the strides of the workspace and of
    B, with the block sizes of the op's defaults or of any
    configuration of [matmul_get_configs] under autotune, once the
    workspace holds the gathered shards and the flags are set the
    launch the op issues fills the contiguous output C with
    [C[i][j] = sum over k of A[i][k] * B[j][k]] and writes nothing
    outside its [M * N] elements.  The arguments the host passes
    ([M = M_per_rank * num_ranks], the strides of B swapped, the
    strides of [torch.empty]) are what the kernel needs. *)
Theorem intra_node_non_persistent_gemm
    (a b workspace : Launches.DeviceTensor) (barrier : Z -> Z)
    (storage : Tl.buffer) (ctx : Host.AllGatherGEMMTensorParallelContext)
    (choice : Autotune.Config) (shard : Z -> Z -> Z -> Z) (sched : list Z) :
  let cfg := Launches.ag_gemm_intra_node_non_persistent a b workspace barrier
               storage ctx choice in
  let M := Host.ctx_num_ranks ctx * Launches.shape0 a in
  let N := Launches.shape0 b in
  let K := Launches.shape1 b in
  1 <= Host.ctx_num_ranks ctx -> 1 <= Launches.shape0 a -> 1 <= N -> 0 <= K ->
  (Host.ctx_autotune ctx = true -> In choice Autotune.matmul_get_configs) ->
  (forall i k, 0 <= i < M -> 0 <= k < K ->
     at2 (Launches.data workspace) (Launches.stride0 workspace)
         (Launches.stride1 workspace) i k
     = concat_shards shard (Launches.shape0 a) i k) ->
  (forall r, 0 <= r < Host.ctx_num_ranks ctx -> barrier r = 1) ->
  (forall pid, In pid sched <-> 0 <= pid < NonPersistent.grid cfg) ->
  exists c', NonPersistent.run cfg sched storage = Some c'
    /\ (forall i j, 0 <= i < M -> 0 <= j < N ->
          c' (i * N + j)
          = reference (concat_shards shard (Launches.shape0 a))
              (at2 (Launches.data b) (Launches.stride0 b)
                   (Launches.stride1 b)) K i j)
    /\ (forall q, ~ (0 <= q < M * N) -> c' q = storage q).
Proof.
  intros cfg M N K Hnr HMpr HN HK Hchoice Hws Hflags Hsched.
  destruct (blocks_positive (Host.ctx_autotune ctx) choice 128 256 64 Hchoice
              ltac:(lia) ltac:(lia) ltac:(lia))
    as [BM [BN [BK [G [Eb [HBM [HBN [HBK HG]]]]]]]].
  assert (Ecfg : cfg =
    {| NonPersistent.a_ptr := Launches.data workspace;
       NonPersistent.b_ptr := Launches.data b;
       NonPersistent.M := Launches.shape0 a * Host.ctx_num_ranks ctx;
       NonPersistent.N := N; NonPersistent.K := K;
       NonPersistent.stride_am := Launches.stride0 workspace;
       NonPersistent.stride_ak := Launches.stride1 workspace;
       NonPersistent.stride_bk := Launches.stride1 b;
       NonPersistent.stride_bn := Launches.stride0 b;
       NonPersistent.stride_cm := Z.max N 1; NonPersistent.stride_cn := 1;
       NonPersistent.rank := Host.ctx_rank ctx;
       NonPersistent.WORLD_SIZE := Host.ctx_num_ranks ctx;
       NonPersistent.barrier_ptr := barrier;
       NonPersistent.BLOCK_SIZE_M := BM; NonPersistent.BLOCK_SIZE_N := BN;
       NonPersistent.BLOCK_SIZE_K := BK; NonPersistent.GROUP_SIZE_M := G |}).
  { unfold cfg, Launches.ag_gemm_intra_node_non_persistent,
      Launches.ag_gemm_non_persistent_op. rewrite Eb. reflexivity. }
  clearbody cfg. subst cfg.
  match goal with |- context [NonPersistent.run ?c _ _] => set (cfg := c) in * end.
  assert (EM : NonPersistent.M cfg = M) by (unfold M; cbn; ring).
  assert (Emax : Z.max N 1 = N) by lia.
  destruct (np_gemm cfg sched storage) as [c' [E [Hval Hframe]]];
    try (cbn; lia).
  - cbn. apply Z.mod_mul. lia.
  - exact Hflags.
  - cbn. apply row_major_dense. lia.
  - exact Hsched.
  - exists c'. split; [exact E|]. split.
    + intros i j Hi Hj.
      assert (Hi' : 0 <= i < NonPersistent.M cfg) by (rewrite EM; exact Hi).
      specialize (Hval i j Hi' Hj).
      cbn in Hval. unfold at2 at 1 in Hval. rewrite Emax in Hval.
      replace (i * N + j) with (i * N + j * 1) by ring. rewrite Hval.
      apply reference_ext; [|reflexivity].
      intros k Hk. apply Hws; assumption.
    + intros q Hq. apply Hframe. intros i j Hi Hj. rewrite EM in Hi.
      cbn. rewrite Emax. cbn in Hj. intros ->. apply Hq. nia.
Qed.

Lemma blocks_defaults autotune choice :
  (autotune = true -> In choice Autotune.matmul_get_configs) ->
  exists BN BK,
    Launches.blocks autotune choice 128 256 64 = (128, BN, BK, 8)
    /\ 0 < BN /\ 0 < BK.
Proof.
  intros Hc. unfold Launches.blocks. destruct autotune.
  - destruct (configs_blocks choice (Hc eq_refl)) as [E1 [E2 [E3 [E4 _]]]].
    exists (Autotune.BLOCK_SIZE_N choice), (Autotune.BLOCK_SIZE_K choice).
    rewrite E1, E4. split; [reflexivity|]. lia.
  - exists 256, 64. split; [reflexivity|]. lia.
Qed.

(** The layouts the kernel is right on, with its default
    [LOCAL_WORLD_SIZE] of 8. *)
Lemma layout_of_eight (cfg : Persistent.args) :
  Persistent.LOCAL_WORLD_SIZE cfg = 8 ->
  0 < Persistent.num_ranks cfg ->
  Persistent.num_ranks cfg / 8 = 1
  \/ (1 < Persistent.num_ranks cfg / 8
      /\ Persistent.num_ranks cfg mod 8 = 0
      /\ (Persistent.M cfg / Persistent.num_ranks cfg)
           mod Persistent.BLOCK_SIZE_M cfg = 0) ->
  Persistent.layout_ok cfg.
Proof.
  intros EL Hnr [H|[H1 [H2 H3]]]; unfold Persistent.layout_ok,
    Persistent.nnodes, Persistent.M_per_rank; rewrite EL.
  - left. exact H.
  - right. split; [exact H1|]. split; [lia|]. split; [|exact H3].
    pose proof (Z.div_mod (Persistent.num_ranks cfg) 8 ltac:(lia)). lia.
Qed.

(** X12.  [ag_gemm_intra_node] with [persistent] set, end to end on the
    device.  The kernel is launched with its default
    [LOCAL_WORLD_SIZE] of 8 and reads the workspace and B as contiguous
    [*, K] matrices.  With 8 to 15 ranks, or with a multiple of 8 from
    16 on and shards of a multiple of 128 rows, once the workspace
    holds the gathered shards and the flags are set, the launch over
    [min(NUM_SMS, number of tiles)] units fills C with the product and
    writes nothing outside its [M * N] elements. *)
Theorem intra_node_persistent_gemm
    (multi_processor_count : Z)
    (a b workspace : Launches.DeviceTensor) (barrier : Z -> Z)
    (storage : Tl.buffer) (ctx : Host.AllGatherGEMMTensorParallelContext)
    (choice : Autotune.Config) (shard : Z -> Z -> Z -> Z) (sched : list Z) :
  let cfg := Launches.ag_gemm_intra_node_persistent multi_processor_count
               a b workspace barrier ctx choice in
  let num_ranks := Host.ctx_num_ranks ctx in
  let M := Launches.shape0 a * num_ranks in
  let N := Launches.shape0 b in
  let K := Launches.shape1 b in
  1 <= Launches.shape0 a -> 1 <= N -> 1 <= K -> 0 < multi_processor_count ->
  (8 <= num_ranks < 16
   \/ (16 <= num_ranks /\ num_ranks mod 8 = 0
       /\ Launches.shape0 a mod 128 = 0)) ->
  (Host.ctx_autotune ctx = true -> In choice Autotune.matmul_get_configs) ->
  (forall i k, 0 <= i < M -> 0 <= k < K ->
     at2 (Launches.data workspace) K 1 i k
     = concat_shards shard (Launches.shape0 a) i k) ->
  (forall r, 0 <= r < num_ranks -> barrier r = 1) ->
  (forall u, In u sched <-> 0 <= u < Persistent.grid cfg) ->
  exists c', Persistent.run cfg sched storage = Some c'
    /\ (forall i j, 0 <= i < M -> 0 <= j < N ->
          c' (i * N + j)
          = reference (concat_shards shard (Launches.shape0 a))
              (at2 (Launches.data b) K 1) K i j)
    /\ (forall q, ~ (0 <= q < M * N) -> c' q = storage q).
Proof.
  intros cfg nr M N K HMpr HN HK Hmpc Hlay Hchoice Hws Hflags Hsched.
  destruct (blocks_defaults (Host.ctx_autotune ctx) choice Hchoice)
    as [BN [BK [Eb [HBN HBK]]]].
  assert (Ecfg : cfg =
    {| Persistent.a_ptr := Launches.data workspace;
       Persistent.b_ptr := Launches.data b;
       Persistent.M := M; Persistent.N := N; Persistent.K := K;
       Persistent.rank := Host.ctx_rank ctx; Persistent.num_ranks := nr;
       Persistent.ready_ptr := barrier;
       Persistent.BLOCK_SIZE_M := 128; Persistent.BLOCK_SIZE_N := BN;
       Persistent.BLOCK_SIZE_K := BK; Persistent.GROUP_SIZE_M := 8;
       Persistent.EPILOGUE_SUBTILE := false;
       Persistent.NUM_SMS := multi_processor_count;
       Persistent.ready_value := 1; Persistent.LOCAL_WORLD_SIZE := 8 |}).
  { unfold cfg, Launches.ag_gemm_intra_node_persistent,
      Launches.ag_gemm_intra_node_persistent_op. rewrite Eb. reflexivity. }
  clearbody cfg. subst cfg.
  match goal with |- context [Persistent.run ?c _ _] => set (cfg := c) in * end.
  assert (Hnr : 0 < nr) by lia.
  assert (Ediv : M / nr = Launches.shape0 a)
    by (unfold M; apply Z.div_mul; lia).
  assert (Hlayout : Persistent.layout_ok cfg).
  { apply layout_of_eight; [reflexivity|exact Hnr|].
    change (nr / 8 = 1
            \/ (1 < nr / 8 /\ nr mod 8 = 0 /\ (M / nr) mod 128 = 0)).
    rewrite Ediv. pose proof (Z.div_mod nr 8 ltac:(lia)).
    pose proof (Z.mod_pos_bound nr 8 ltac:(lia)).
    destruct Hlay as [H8|[H16 [Hm Ha]]]; [left; lia|right].
    split; [lia|]. split; assumption. }
  destruct (p_gemm cfg) with (sched := sched) (c := storage)
    as [c' [E [Hval Hframe]]];
    try exact Hlayout; try exact Hflags; try exact Hsched;
    try (cbn; nia); try (cbn; discriminate).
  - cbn. apply Z.mod_mul. lia.
  - exists c'. split; [exact E|]. split.
    + intros i j Hi Hj. specialize (Hval i j Hi Hj).
      cbn in Hval. unfold at2 at 1 in Hval.
      replace (i * N + j) with (i * N + j * 1) by ring. rewrite Hval.
      apply reference_ext; [|reflexivity].
      intros k Hk. apply Hws; assumption.
    + intros q Hq. apply Hframe. intros i j Hi Hj.
      cbn in Hi, Hj |- *. intros ->. apply Hq. nia.
Qed.

(** X13.  [gemm_non_persistent] without autotune computes
    [C[i][j] = sum over k of a[i][k] * b[j][k]] for operands of any
    strides, whenever [ctx.num_ranks] divides the row count of [a]: the
    flags it passes are all ones, so no program is held back. *)
Theorem local_gemm_non_persistent
    (a b : Launches.DeviceTensor) (storage : Tl.buffer)
    (ctx : Host.AllGatherGEMMTensorParallelContext)
    (BLOCK_M BLOCK_N BLOCK_K : Z) (beyond : Z -> Z) (sched : list Z) :
  let cfg := Launches.gemm_non_persistent a b storage ctx BLOCK_M BLOCK_N
               BLOCK_K beyond in
  let M := Launches.shape0 a in
  let K := Launches.shape1 a in
  let N := Launches.shape0 b in
  1 <= M -> 1 <= N -> 0 <= K ->
  0 < BLOCK_M -> 0 < BLOCK_N -> 0 < BLOCK_K ->
  1 <= Host.ctx_num_ranks ctx -> M mod Host.ctx_num_ranks ctx = 0 ->
  (forall pid, In pid sched <-> 0 <= pid < NonPersistent.grid cfg) ->
  exists c', NonPersistent.run cfg sched storage = Some c'
    /\ (forall i j, 0 <= i < M -> 0 <= j < N ->
          c' (i * N + j)
          = reference
              (at2 (Launches.data a) (Launches.stride0 a)
                   (Launches.stride1 a))
              (at2 (Launches.data b) (Launches.stride0 b)
                   (Launches.stride1 b)) K i j)
    /\ (forall q, ~ (0 <= q < M * N) -> c' q = storage q).
Proof.
  intros cfg M K N HM HN HK HBM HBN HBK Hnr Hdiv Hsched.
  assert (Emax : Z.max N 1 = N) by lia.
  destruct (np_gemm cfg sched storage) as [c' [E [Hval Hframe]]];
    try (cbn; lia); try exact Hdiv; try exact Hsched.
  - intros r Hr. cbn in Hr |- *. unfold Launches.torch_ones.
    destruct (Z.leb_spec 0 r), (Z.ltb_spec r (Host.ctx_num_ranks ctx));
      cbn; try reflexivity; lia.
  - cbn. apply row_major_dense. lia.
  - exists c'. split; [exact E|]. split.
    + intros i j Hi Hj. specialize (Hval i j Hi Hj).
      cbn in Hval. unfold at2 at 1 in Hval. fold N in Hval.
      rewrite Emax in Hval.
      replace (i * N + j) with (i * N + j * 1) by ring. exact Hval.
    + intros q Hq. apply Hframe. intros i j Hi Hj.
      cbn in Hi, Hj |- *. fold N. rewrite Emax. intros ->. apply Hq.
      fold M in Hi. fold N in Hj. nia.
Qed.

(** X14.  [gemm_persistent] computes the product of [a] and [b] read
    as contiguous [*, K] matrices, with the block sizes of the context
    or of any configuration of [matmul_get_configs] under autotune,
    whenever [ctx.num_ranks] divides the row count of [a] and the rank
    count suits the kernel's [LOCAL_WORLD_SIZE] of 8: 8 to 15 ranks, or
    a multiple of 8 from 16 on with [M / num_ranks] a multiple of the
    row block. *)
Theorem local_gemm_persistent
    (multi_processor_count : Z) (a b : Launches.DeviceTensor)
    (storage : Tl.buffer) (ctx : Host.AllGatherGEMMTensorParallelContext)
    (choice : Autotune.Config) (BLOCK_M BLOCK_N BLOCK_K : Z)
    (beyond : Z -> Z) (sched : list Z) :
  let cfg := Launches.gemm_persistent multi_processor_count a b ctx choice
               BLOCK_M BLOCK_N BLOCK_K beyond in
  let num_ranks := Host.ctx_num_ranks ctx in
  let M := Launches.shape0 a in
  let K := Launches.shape1 a in
  let N := Launches.shape0 b in
  1 <= M -> 1 <= N -> 1 <= K -> 0 < multi_processor_count ->
  0 < BLOCK_M -> 0 < BLOCK_N -> 0 < BLOCK_K ->
  (Host.ctx_autotune ctx = true -> In choice Autotune.matmul_get_configs) ->
  M mod num_ranks = 0 ->
  (8 <= num_ranks < 16
   \/ (16 <= num_ranks /\ num_ranks mod 8 = 0
       /\ (M / num_ranks) mod Persistent.BLOCK_SIZE_M cfg = 0)) ->
  (forall u, In u sched <-> 0 <= u < Persistent.grid cfg) ->
  exists c', Persistent.run cfg sched storage = Some c'
    /\ (forall i j, 0 <= i < M -> 0 <= j < N ->
          c' (i * N + j)
          = reference (at2 (Launches.data a) K 1) (at2 (Launches.data b) K 1)
                      K i j)
    /\ (forall q, ~ (0 <= q < M * N) -> c' q = storage q).
Proof.
  intros cfg nr M K N HM HN HK Hmpc HBM HBN HBK Hchoice Hdiv Hlay Hsched.
  destruct (blocks_positive (Host.ctx_autotune ctx) choice BLOCK_M BLOCK_N
              BLOCK_K Hchoice HBM HBN HBK)
    as [BM [BN [BK [G [Eb [HBM' [HBN' [HBK' HG]]]]]]]].
  assert (Ecfg : cfg =
    {| Persistent.a_ptr := Launches.data a;
       Persistent.b_ptr := Launches.data b;
       Persistent.M := M; Persistent.N := N; Persistent.K := K;
       Persistent.rank := Host.ctx_rank ctx; Persistent.num_ranks := nr;
       Persistent.ready_ptr := Launches.torch_ones nr beyond;
       Persistent.BLOCK_SIZE_M := BM; Persistent.BLOCK_SIZE_N := BN;
       Persistent.BLOCK_SIZE_K := BK; Persistent.GROUP_SIZE_M := G;
       Persistent.EPILOGUE_SUBTILE := false;
       Persistent.NUM_SMS := multi_processor_count;
       Persistent.ready_value := 1; Persistent.LOCAL_WORLD_SIZE := 8 |}).
  { unfold cfg, Launches.gemm_persistent. rewrite Eb. reflexivity. }
  clearbody cfg. subst cfg.
  match goal with |- context [Persistent.run ?c _ _] => set (cfg := c) in * end.
  assert (Hnr : 0 < nr) by lia.
  assert (Hlayout : Persistent.layout_ok cfg).
  { apply layout_of_eight; [reflexivity|exact Hnr|].
    change (nr / 8 = 1
            \/ (1 < nr / 8 /\ nr mod 8 = 0
                /\ (M / nr) mod Persistent.BLOCK_SIZE_M cfg = 0)).
    pose proof (Z.div_mod nr 8 ltac:(lia)).
    pose proof (Z.mod_pos_bound nr 8 ltac:(lia)).
    destruct Hlay as [H8|[H16 [Hm Ha]]]; [left; lia|right].
    split; [lia|]. split; assumption. }
  destruct (p_gemm cfg) with (sched := sched) (c := storage)
    as [c' [E [Hval Hframe]]];
    try exact Hlayout; try exact Hdiv; try exact Hsched;
    try (cbn; lia); try (cbn; discriminate).
  - intros r Hr. cbn in Hr |- *. unfold Launches.torch_ones.
    destruct (Z.leb_spec 0 r), (Z.ltb_spec r nr); cbn; try reflexivity; lia.
  - exists c'. split; [exact E|]. split.
    + intros i j Hi Hj. specialize (Hval i j Hi Hj).
      cbn in Hval. unfold at2 at 1 in Hval.
      replace (i * N + j) with (i * N + j * 1) by ring. exact Hval.
    + intros q Hq. apply Hframe. intros i j Hi Hj.
      cbn in Hi, Hj |- *. intros ->. apply Hq. nia.
Qed.

Lemma examples_workspace i k :
  at2 Scenario.workspace 4 1 i k = concat_shards Scenario.shard 2 i k.
Proof.
  unfold at2, Scenario.workspace, concat_shards, Scenario.shard.
  pose proof (Z.div_mod i 2 ltac:(lia)). lia.
Qed.

Ltac launch_side :=
  first [ (intros ? ? _ _; apply examples_workspace)
        | (intros ? _; reflexivity)
        | (intros ?; apply In_arange)
        | (let H := fresh in intros H; discriminate H)
        | (cbn; lia)
        | (vm_compute; reflexivity)
        | (left; cbn; lia) ].

(** X11 at the scenario: two ranks, shards of 2 x 4, one program of
    128 x 256; the element [C[0][0]] is [1 * 1 + 4 * 1 = 5]. *)
Lemma intra_node_non_persistent_gemm_witness :
  let cfg := Launches.ag_gemm_intra_node_non_persistent Examples.shard_a
               Examples.tensor_b Examples.workspace (fun _ => 1)
               (fun _ => -1) Scenario.context Examples.config in
  exists c',
    NonPersistent.run cfg (Tl.arange (NonPersistent.grid cfg)) (fun _ => -1)
    = Some c'
    /\ map c' (Tl.arange 9) = [5; 5; 13; 13; 21; 21; 29; 29; -1].
Proof.
  intros cfg.
  destruct (intra_node_non_persistent_gemm Examples.shard_a Examples.tensor_b
              Examples.workspace (fun _ => 1) (fun _ => -1) Scenario.context
              Examples.config Scenario.shard
              (Tl.arange (NonPersistent.grid cfg)))
    as [c' [E [Hval Hframe]]]; [> launch_side .. | ].
  exists c'. split; [exact E|].
  pose proof (Hval 0 0 ltac:(cbn; lia) ltac:(cbn; lia)) as H00.
  pose proof (Hval 0 1 ltac:(cbn; lia) ltac:(cbn; lia)) as H01.
  pose proof (Hval 1 0 ltac:(cbn; lia) ltac:(cbn; lia)) as H10.
  pose proof (Hval 1 1 ltac:(cbn; lia) ltac:(cbn; lia)) as H11.
  pose proof (Hval 2 0 ltac:(cbn; lia) ltac:(cbn; lia)) as H20.
  pose proof (Hval 2 1 ltac:(cbn; lia) ltac:(cbn; lia)) as H21.
  pose proof (Hval 3 0 ltac:(cbn; lia) ltac:(cbn; lia)) as H30.
  pose proof (Hval 3 1 ltac:(cbn; lia) ltac:(cbn; lia)) as H31.
  vm_compute in H00, H01, H10, H11, H20, H21, H30, H31.
  assert (H8 : c' 8 = -1) by (apply Hframe; cbn; lia).
  change (map c' (Tl.arange 9))
    with [c' 0; c' 1; c' 2; c' 3; c' 4; c' 5; c' 6; c' 7; c' 8].
  rewrite H00, H01, H10, H11, H20, H21, H30, H31, H8. reflexivity.
Defined.

(** X12 on one node of eight ranks with shards of 2 x 4: the element
    [C[15][1]] is [62 + 63 = 125], and the offset past C keeps its
    value. *)
Lemma intra_node_persistent_gemm_witness :
  let cfg := Launches.ag_gemm_intra_node_persistent 132 Examples.shard_a
               Examples.tensor_b Examples.workspace (fun _ => 1)
               Examples.context_of_eight Examples.config in
  exists c',
    Persistent.run cfg (Tl.arange (Persistent.grid cfg)) (fun _ => -1)
    = Some c'
    /\ c' 0 = 5 /\ c' 31 = 125 /\ c' 32 = -1.
Proof.
  intros cfg.
  destruct (intra_node_persistent_gemm 132 Examples.shard_a Examples.tensor_b
              Examples.workspace (fun _ => 1) (fun _ => -1)
              Examples.context_of_eight Examples.config Scenario.shard
              (Tl.arange (Persistent.grid cfg)))
    as [c' [E [Hval Hframe]]]; [> launch_side .. | ].
  exists c'. split; [exact E|].
  pose proof (Hval 0 0 ltac:(cbn; lia) ltac:(cbn; lia)) as H0.
  pose proof (Hval 15 1 ltac:(cbn; lia) ltac:(cbn; lia)) as H31.
  vm_compute in H0, H31.
  split; [exact H0|]. split; [exact H31|]. apply Hframe. cbn. lia.
Defined.

(** X13 on the whole 4 x 4 matrix of the scenario with two ranks and
    blocks of 3 x 3 x 3. *)
Lemma local_gemm_non_persistent_witness :
  let cfg := Launches.gemm_non_persistent (Examples.whole_a 4)
               Examples.tensor_b (fun _ => -1) Scenario.context 3 3 3
               (fun _ => 0) in
  exists c',
    NonPersistent.run cfg (Tl.arange (NonPersistent.grid cfg)) (fun _ => -1)
    = Some c'
    /\ c' 0 = 5 /\ c' 7 = 29 /\ c' 8 = -1.
Proof.
  intros cfg.
  destruct (local_gemm_non_persistent (Examples.whole_a 4) Examples.tensor_b
              (fun _ => -1) Scenario.context 3 3 3 (fun _ => 0)
              (Tl.arange (NonPersistent.grid cfg)))
    as [c' [E [Hval Hframe]]]; [> launch_side .. | ].
  exists c'. split; [exact E|].
  pose proof (Hval 0 0 ltac:(cbn; lia) ltac:(cbn; lia)) as H0.
  pose proof (Hval 3 1 ltac:(cbn; lia) ltac:(cbn; lia)) as H7.
  vm_compute in H0, H7.
  split; [exact H0|]. split; [exact H7|]. apply Hframe. cbn. lia.
Defined.

(** X14 on the first 16 rows of the workspace with eight ranks and
    blocks of 3 x 3 x 3. *)
Lemma local_gemm_persistent_witness :
  let cfg := Launches.gemm_persistent 132 (Examples.whole_a 16)
               Examples.tensor_b Examples.context_of_eight Examples.config
               3 3 3 (fun _ => 0) in
  exists c',
    Persistent.run cfg (Tl.arange (Persistent.grid cfg)) (fun _ => -1)
    = Some c'
    /\ c' 0 = 5 /\ c' 31 = 125 /\ c' 32 = -1.
Proof.
  intros cfg.
  destruct (local_gemm_persistent 132 (Examples.whole_a 16) Examples.tensor_b
              (fun _ => -1) Examples.context_of_eight Examples.config 3 3 3
              (fun _ => 0) (Tl.arange (Persistent.grid cfg)))
    as [c' [E [Hval Hframe]]]; [> launch_side .. | ].
  exists c'. split; [exact E|].
  pose proof (Hval 0 0 ltac:(cbn; lia) ltac:(cbn; lia)) as H0.
  pose proof (Hval 15 1 ltac:(cbn; lia) ltac:(cbn; lia)) as H31.
  vm_compute in H0, H31.
  split; [exact H0|]. split; [exact H31|]. apply Hframe. cbn. lia.
Defined.



(** ** Names of the non-persistent kernel *)

Module ReprFacts.
Import Host Repr.
Local Open Scope string_scope.

Lemma append_cancel_l (h s s' : string) : h ++ s = h ++ s' -> s = s'.
Proof.
  induction h as [|c h IH]; cbn; intros E; [exact E|].
  inversion E. apply IH. assumption.
Qed.

(** Two strings free of [sep], each followed by [sep]: the first [sep]
    of the whole marks where they end. *)
Lemma split_at_sep (sep : ascii) : forall s s' r r',
  free_of sep s = true -> free_of sep s' = true ->
  s ++ String sep r = s' ++ String sep r' -> s = s' /\ r = r'.
Proof.
  induction s as [|c s IH]; intros s' r r' Hs Hs' E.
  - destruct s' as [|c' s']; cbn in E.
    + inversion E. split; reflexivity.
    + inversion E. subst c'. cbn in Hs'. rewrite Ascii.eqb_refl in Hs'.
      discriminate.
  - destruct s' as [|c' s']; cbn in E.
    + inversion E. subst c. cbn in Hs. rewrite Ascii.eqb_refl in Hs.
      discriminate.
    + inversion E. subst c'. cbn in Hs, Hs'.
      apply andb_true_iff in Hs, Hs'.
      destruct (IH s' r r' (proj2 Hs) (proj2 Hs') H1) as [-> ->].
      split; reflexivity.
Qed.

Lemma uint_free_of (sep : ascii) (d : Decimal.uint) :
  free_of sep "0123456789" = true ->
  free_of sep (NilEmpty.string_of_uint d) = true.
Proof.
  intros H. cbn in H. repeat (apply andb_true_iff in H; destruct H as [? H]).
  induction d; cbn; try reflexivity; apply andb_true_iff; split; assumption.
Qed.

Lemma str_free_of (sep : ascii) (n : Z) :
  free_of sep "-0123456789" = true -> free_of sep (str n) = true.
Proof.
  intros H. cbn [free_of] in H. apply andb_true_iff in H.
  destruct H as [Hm Hd].
  assert (Hu : forall d, free_of sep (NilZero.string_of_uint d) = true).
  { intros d. pose proof (uint_free_of sep d Hd) as Hf.
    destruct d; try exact Hf. cbn in Hd |- *.
    apply andb_true_iff in Hd. rewrite (proj1 Hd). reflexivity. }
  unfold str. destruct (Z.to_int n) as [d|d]; cbn [NilZero.string_of_int].
  - apply Hu.
  - cbn [free_of]. rewrite Hm. apply Hu.
Qed.

Lemma str_inj (n n' : Z) : str n = str n' -> n = n'.
Proof.
  unfold str. intros E. apply DecimalZ.to_int_inj.
  assert (Hn : forall z, Z.to_int z <> Decimal.Pos Decimal.Nil
                         /\ Z.to_int z <> Decimal.Neg Decimal.Nil).
  { intros z. destruct z as [|p|p]; cbn; split; try discriminate;
      intros H; inversion H;
      exact (DecimalPos.Unsigned.to_uint_nonnil p ltac:(assumption)). }
  pose proof (NilZero.isi (Z.to_int n) (proj1 (Hn n)) (proj2 (Hn n))) as E1.
  pose proof (NilZero.isi (Z.to_int n') (proj1 (Hn n')) (proj2 (Hn n')))
    as E2.
  rewrite E in E1. rewrite E1 in E2. inversion E2. reflexivity.
Qed.

Lemma trans_letter first second s :
  trans first second = Return s -> s = "n" \/ s = "t".
Proof.
  unfold trans. destruct (is_one first); [intros E; inversion E; auto|].
  destruct (is_one second); [intros E; inversion E; auto|discriminate].
Qed.

Lemma trans_raised first second :
  raised (trans first second) = false
  <-> first = Some 1%Z \/ second = Some 1%Z.
Proof.
  assert (H1 : forall v, is_one v = true <-> v = Some 1%Z).
  { intros [n|]; cbn; [|split; discriminate].
    rewrite Z.eqb_eq. split; [intros ->; reflexivity|].
    intros E. inversion E. reflexivity. }
  unfold trans. destruct (is_one first) eqn:Ef.
  - cbn. split; [intros _; left; apply H1, Ef|reflexivity].
  - destruct (is_one second) eqn:Es; cbn.
    + split; [intros _; right; apply H1, Es|reflexivity].
    + split; [discriminate|].
      intros [H|H]; apply H1 in H; congruence.
Qed.

End ReprFacts.

(** X16.  [_kernel_consumer_gemm_non_persistent_repr] returns a name
    exactly when each of A, B and C has a stride that is the constant
    1, and raises otherwise.  The name tells launches apart: two
    proxies on one device with the same element types get the same
    name only if their three block sizes are equal and their three
    layout letters are equal. *)
Theorem repr_names (cap_major cap_minor : Z) (p p' : Repr.proxy) :
  (Host.raised
     (Repr._kernel_consumer_gemm_non_persistent_repr cap_major cap_minor p)
   = false
   <-> (Repr.stride_am p = Some 1 \/ Repr.stride_ak p = Some 1)
       /\ (Repr.stride_bk p = Some 1 \/ Repr.stride_bn p = Some 1)
       /\ (Repr.stride_cm p = Some 1 \/ Repr.stride_cn p = Some 1))
  /\ (forall name,
        Repr._kernel_consumer_gemm_non_persistent_repr cap_major cap_minor p
        = Host.Return name ->
        Repr._kernel_consumer_gemm_non_persistent_repr cap_major cap_minor p'
        = Host.Return name ->
        Repr.lstrip_star (Repr.signature_a_ptr p)
        = Repr.lstrip_star (Repr.signature_a_ptr p') ->
        Repr.lstrip_star (Repr.signature_b_ptr p)
        = Repr.lstrip_star (Repr.signature_b_ptr p') ->
        Repr.lstrip_star (Repr.signature_c_ptr p)
        = Repr.lstrip_star (Repr.signature_c_ptr p') ->
        Repr.BLOCK_SIZE_M p = Repr.BLOCK_SIZE_M p'
        /\ Repr.BLOCK_SIZE_N p = Repr.BLOCK_SIZE_N p'
        /\ Repr.BLOCK_SIZE_K p = Repr.BLOCK_SIZE_K p'
        /\ Repr.trans (Repr.stride_am p) (Repr.stride_ak p)
           = Repr.trans (Repr.stride_am p') (Repr.stride_ak p')
        /\ Repr.trans (Repr.stride_bk p) (Repr.stride_bn p)
           = Repr.trans (Repr.stride_bk p') (Repr.stride_bn p')
        /\ Repr.trans (Repr.stride_cm p) (Repr.stride_cn p)
           = Repr.trans (Repr.stride_cm p') (Repr.stride_cn p')).
Proof.
  split.
  - unfold Repr._kernel_consumer_gemm_non_persistent_repr.
    rewrite <- !ReprFacts.trans_raised.
    destruct (Repr.trans (Repr.stride_am p) (Repr.stride_ak p));
      destruct (Repr.trans (Repr.stride_bk p) (Repr.stride_bn p));
      destruct (Repr.trans (Repr.stride_cm p) (Repr.stride_cn p));
      cbn; intuition congruence.
  - intros name E E' Ea Eb Ec.
    unfold Repr._kernel_consumer_gemm_non_persistent_repr in E, E'.
    rewrite <- Ea, <- Eb, <- Ec in E'.
    destruct (Repr.trans (Repr.stride_am p) (Repr.stride_ak p))
      as [|ta] eqn:Ta; [discriminate|].
    destruct (Repr.trans (Repr.stride_bk p) (Repr.stride_bn p))
      as [|tb] eqn:Tb; [discriminate|].
    destruct (Repr.trans (Repr.stride_cm p) (Repr.stride_cn p))
      as [|tc] eqn:Tc; [discriminate|].
    destruct (Repr.trans (Repr.stride_am p') (Repr.stride_ak p'))
      as [|ta'] eqn:Ta'; [discriminate|].
    destruct (Repr.trans (Repr.stride_bk p') (Repr.stride_bn p'))
      as [|tb'] eqn:Tb'; [discriminate|].
    destruct (Repr.trans (Repr.stride_cm p') (Repr.stride_cn p'))
      as [|tc'] eqn:Tc'; [discriminate|].
    inversion E as [En]. inversion E' as [En']. rewrite <- En' in En.
    clear E E' En'.
    cbn [String.append] in En.
    repeat (first [ apply ReprFacts.append_cancel_l in En
                  | injection En as En ]).
    assert (Fx : forall n, Repr.free_of "x" (Repr.str n) = true)
      by (intros n; apply ReprFacts.str_free_of; reflexivity).
    assert (Fu : forall n, Repr.free_of "_" (Repr.str n) = true)
      by (intros n; apply ReprFacts.str_free_of; reflexivity).
    apply ReprFacts.split_at_sep in En; [|apply Fx|apply Fx].
    destruct En as [EM En].
    apply ReprFacts.split_at_sep in En; [|apply Fx|apply Fx].
    destruct En as [EN En].
    apply ReprFacts.split_at_sep in En; [|apply Fu|apply Fu].
    destruct En as [EK En].
    apply ReprFacts.str_inj in EM, EN, EK.
    split; [exact EM|]. split; [exact EN|]. split; [exact EK|].
    destruct (ReprFacts.trans_letter _ _ _ Ta) as [-> | ->];
      destruct (ReprFacts.trans_letter _ _ _ Tb) as [-> | ->];
      destruct (ReprFacts.trans_letter _ _ _ Tc) as [-> | ->];
      destruct (ReprFacts.trans_letter _ _ _ Ta') as [-> | ->];
      destruct (ReprFacts.trans_letter _ _ _ Tb') as [-> | ->];
      destruct (ReprFacts.trans_letter _ _ _ Tc') as [-> | ->];
      cbn in En; try discriminate En; repeat split; reflexivity.
Qed.

(** X16 on the launch of the op with contiguous [float16] operands on
    a device of capability 9.0. *)
Lemma repr_names_witness :
  Host.raised
    (Repr._kernel_consumer_gemm_non_persistent_repr 9 0 Examples.proxy)
  = false
  /\ Repr._kernel_consumer_gemm_non_persistent_repr 9 0 Examples.proxy
     = Host.Return
         "triton3x_sm90_ag_gemm_tensorop_fp16_fp16_fp16_128x256x64_tnt"%string.
Proof.
  split; [|reflexivity].
  apply (proj1 (repr_names 9 0 Examples.proxy Examples.proxy)).
  cbn. repeat split; auto.
Defined.

(** ** Launch metadata *)

(** X17.  [_matmul_launch_metadata] raises a [KeyError] exactly when
    [M], [N] or [K] is not among the arguments, or when neither [c_ptr]
    nor [FP8_OUTPUT] is.  For a launch that has [M], [N], [K] and
    [c_ptr], as those of the two kernels of this file have, it raises
    nothing, never looks [FP8_OUTPUT] up, and returns three entries in
    this order: the name with the sizes, the flop count under the key
    [flops] followed by the bit width of an element of C, and the byte
    count [element_size * (M * K + N * K + M * N)]. *)
Theorem launch_metadata_entries
    (float : Type) (float_of_int : Z -> float)
    (fmul : float -> float -> float) (two : float)
    (kernel_name : string) (args : Metadata.launch_args) :
  (Host.raised
     (Metadata._matmul_launch_metadata float float_of_int fmul two
        kernel_name args) = true
   <-> Metadata.arg_M args = None \/ Metadata.arg_N args = None
       \/ Metadata.arg_K args = None
       \/ (Metadata.arg_c_ptr args = None
           /\ Metadata.arg_FP8_OUTPUT args = None))
  /\ (forall M N K element_size,
        Metadata.arg_M args = Some M -> Metadata.arg_N args = Some N ->
        Metadata.arg_K args = Some K ->
        Metadata.arg_c_ptr args = Some element_size ->
        Metadata._matmul_launch_metadata float float_of_int fmul two
          kernel_name args
        = Host.Return
            [("name"%string,
              Metadata.Str
                (kernel_name ++ " [M=" ++ Repr.str M ++ ", N=" ++ Repr.str N
                 ++ ", K=" ++ Repr.str K ++ "]")%string);
             (String.append "flops" (Repr.str (element_size * 8)),
              Metadata.Float
                (fmul (fmul (fmul two (float_of_int M)) (float_of_int N))
                      (float_of_int K)));
             ("bytes"%string,
              Metadata.Int (element_size * (M * K + N * K + M * N)))]).
Proof.
  split.
  - unfold Metadata._matmul_launch_metadata.
    destruct (Metadata.arg_M args) as [M|];
      [|cbn; split; [auto|reflexivity]].
    destruct (Metadata.arg_N args) as [N|];
      [|cbn; split; [auto|reflexivity]].
    destruct (Metadata.arg_K args) as [K|];
      [|cbn; split; [auto|reflexivity]].
    destruct (Metadata.arg_c_ptr args) as [es|].
    + cbn. split; [discriminate|].
      intros [H|[H|[H|[H _]]]]; discriminate H.
    + destruct (Metadata.arg_FP8_OUTPUT args) as [fp8|].
      * cbn. split; [discriminate|].
        intros [H|[H|[H|[_ H]]]]; discriminate H.
      * cbn. split; [auto|reflexivity].
  - intros M N K es EM EN EK Ec.
    unfold Metadata._matmul_launch_metadata. rewrite EM, EN, EK, Ec.
    reflexivity.
Qed.

(** X17 on the scenario with a [float16] output: the key is [flops16]
    and the bytes are [2 * (16 + 8 + 8) = 64]. *)
Lemma launch_metadata_entries_witness :
  Metadata._matmul_launch_metadata Z (fun n => n) Z.mul 2
    "kernel_consumer_gemm_persistent"
    {| Metadata.arg_M := Some 4; Metadata.arg_N := Some 2;
       Metadata.arg_K := Some 4; Metadata.arg_c_ptr := Some 2;
       Metadata.arg_FP8_OUTPUT := None |}
  = Host.Return
      [("name"%string,
        Metadata.Str "kernel_consumer_gemm_persistent [M=4, N=2, K=4]");
       ("flops16"%string, Metadata.Float 64);
       ("bytes"%string, Metadata.Int 64)].
Proof.
  apply (proj2 (launch_metadata_entries Z (fun n => n) Z.mul 2
                  "kernel_consumer_gemm_persistent"
                  {| Metadata.arg_M := Some 4; Metadata.arg_N := Some 2;
                     Metadata.arg_K := Some 4; Metadata.arg_c_ptr := Some 2;
                     Metadata.arg_FP8_OUTPUT := None |})
           4 2 4 2); reflexivity.
Defined.

(** ** What a program reads of the workspace *)

Lemma store_ext_masked buf buf' rows cols ptrs vals vals' mask q :
  buf q = buf' q ->
  (forall i j, 0 <= i < rows -> 0 <= j < cols -> mask i j = true ->
     vals i j = vals' i j) ->
  Tl.store buf rows cols ptrs vals mask q
  = Tl.store buf' rows cols ptrs vals' mask q.
Proof.
  intros Hb Hv. unfold Tl.store.
  destruct (find _ _) as [[i j]|] eqn:E; [|exact Hb].
  apply find_some in E. destruct E as [Hin Hp]. apply In_lanes in Hin.
  cbn [fst snd] in *. apply andb_true_iff in Hp.
  apply Hv; tauto.
Qed.

(** Unfolds the index arithmetic of a kernel down to the fields of its
    arguments. *)
Ltac to_fields :=
  cbv -[Z.add Z.sub Z.mul Z.div Z.modulo Z.min Z.max Z.lxor Z.eqb Z.ltb Z.leb
        Z.to_nat Z.of_nat andb negb
        Tl.cdiv Tl.arange Tl.sumZ Tl.store Tl.load Tl.dot Tl.lanes
        dl_wait wait_slots List.map List.flat_map List.app List.fold_left
        forallb find seq].

Section NonPersistentOnWorkspace.

Variables (cfg : NonPersistent.args) (a : Tl.buffer).

Lemma np_on_pid_m pid :
  NonPersistent.pid_m (np_on_workspace cfg a) pid = NonPersistent.pid_m cfg pid.
Proof. destruct cfg. to_fields. reflexivity. Qed.

Lemma np_on_pid_n pid :
  NonPersistent.pid_n (np_on_workspace cfg a) pid = NonPersistent.pid_n cfg pid.
Proof. destruct cfg. to_fields. reflexivity. Qed.

Lemma np_on_wait pid :
  NonPersistent.kernel (np_on_workspace cfg a) pid
  = fun c =>
      if dl_wait (NonPersistent.barrier_ptr cfg)
           (NonPersistent.rank_beg cfg
              (NonPersistent.pid_m cfg pid * NonPersistent.BLOCK_SIZE_M cfg))
           (NonPersistent.rank_end cfg
              (NonPersistent.pid_m cfg pid * NonPersistent.BLOCK_SIZE_M cfg)
            - NonPersistent.rank_beg cfg
                (NonPersistent.pid_m cfg pid * NonPersistent.BLOCK_SIZE_M cfg)
            + 1) 1
      then Some (NonPersistent.body (np_on_workspace cfg a) pid c)
      else None.
Proof.
  unfold NonPersistent.kernel. rewrite np_on_pid_m.
  destruct cfg. reflexivity.
Qed.

Lemma np_on_body pid c :
  NonPersistent.body (np_on_workspace cfg a) pid c
  = (Tl.store c (NonPersistent.BLOCK_SIZE_M cfg)
       (NonPersistent.BLOCK_SIZE_N cfg) (NonPersistent.c_ptrs cfg pid)
       (NonPersistent.accumulator
          (NonPersistent.k_loop (np_on_workspace cfg a) pid
             [EvWait
                (NonPersistent.rank_beg cfg
                   (NonPersistent.pid_m cfg pid
                    * NonPersistent.BLOCK_SIZE_M cfg))
                (NonPersistent.rank_end cfg
                   (NonPersistent.pid_m cfg pid
                    * NonPersistent.BLOCK_SIZE_M cfg)
                 - NonPersistent.rank_beg cfg
                     (NonPersistent.pid_m cfg pid
                      * NonPersistent.BLOCK_SIZE_M cfg) + 1)]))
       (NonPersistent.c_mask cfg pid),
     NonPersistent.ktrace
       (NonPersistent.k_loop (np_on_workspace cfg a) pid
          [EvWait
             (NonPersistent.rank_beg cfg
                (NonPersistent.pid_m cfg pid * NonPersistent.BLOCK_SIZE_M cfg))
             (NonPersistent.rank_end cfg
                (NonPersistent.pid_m cfg pid * NonPersistent.BLOCK_SIZE_M cfg)
              - NonPersistent.rank_beg cfg
                  (NonPersistent.pid_m cfg pid
                   * NonPersistent.BLOCK_SIZE_M cfg) + 1)])
     ++ [EvStoreC (NonPersistent.pid_m cfg pid
                   * NonPersistent.BLOCK_SIZE_M cfg)
                  (NonPersistent.pid_n cfg pid
                   * NonPersistent.BLOCK_SIZE_N cfg)]).
Proof.
  unfold NonPersistent.body. rewrite np_on_pid_m, np_on_pid_n.
  destruct cfg. reflexivity.
Qed.

Ltac np_fields H :=
  cbn [np_on_workspace NonPersistent.a_ptr NonPersistent.b_ptr
       NonPersistent.M NonPersistent.N NonPersistent.K
       NonPersistent.stride_am NonPersistent.stride_ak
       NonPersistent.stride_bk NonPersistent.stride_bn
       NonPersistent.stride_cm NonPersistent.stride_cn
       NonPersistent.rank NonPersistent.WORLD_SIZE NonPersistent.barrier_ptr
       NonPersistent.BLOCK_SIZE_M NonPersistent.BLOCK_SIZE_N
       NonPersistent.BLOCK_SIZE_K NonPersistent.GROUP_SIZE_M] in H.

Lemma np_on_acc_value pid tr i j :
  0 <= NonPersistent.K cfg -> 0 < NonPersistent.BLOCK_SIZE_K cfg ->
  0 <= NonPersistent.pid_m cfg pid * NonPersistent.BLOCK_SIZE_M cfg + i
    < NonPersistent.M cfg ->
  0 <= NonPersistent.pid_n cfg pid * NonPersistent.BLOCK_SIZE_N cfg + j
    < NonPersistent.N cfg ->
  NonPersistent.accumulator
    (NonPersistent.k_loop (np_on_workspace cfg a) pid tr) i j
  = reference
      (at2 a (NonPersistent.stride_am cfg) (NonPersistent.stride_ak cfg))
      (at2 (NonPersistent.b_ptr cfg) (NonPersistent.stride_bn cfg)
           (NonPersistent.stride_bk cfg))
      (NonPersistent.K cfg)
      (NonPersistent.pid_m cfg pid * NonPersistent.BLOCK_SIZE_M cfg + i)
      (NonPersistent.pid_n cfg pid * NonPersistent.BLOCK_SIZE_N cfg + j).
Proof.
  intros HK HBK Hrow Hcol.
  pose proof (np_acc_value (np_on_workspace cfg a)) as H. np_fields H.
  specialize (H HK HBK pid tr i j).
  rewrite np_on_pid_m, np_on_pid_n in H. exact (H Hrow Hcol).
Qed.

Lemma np_on_ktrace pid tr :
  0 <= NonPersistent.K cfg -> 0 < NonPersistent.BLOCK_SIZE_K cfg ->
  NonPersistent.ktrace (NonPersistent.k_loop (np_on_workspace cfg a) pid tr)
  = NonPersistent.ktrace (NonPersistent.k_loop cfg pid tr).
Proof.
  intros HK HBK.
  pose proof (np_k_loop_spec (np_on_workspace cfg a)) as H. np_fields H.
  destruct (H HK HBK pid tr) as [_ E].
  rewrite np_on_pid_m, np_on_pid_n in E. rewrite E.
  destruct (np_k_loop_spec cfg HK HBK pid tr) as [_ E0]. rewrite E0.
  reflexivity.
Qed.

End NonPersistentOnWorkspace.

(** X18.  A program of the non-persistent kernel depends on the
    workspace only through the shards it has waited for.  If two
    contents of the workspace agree on the rows of the ranks whose
    flags the program waits on, the program behaves the same on both:
    it returns on both or on neither, and when it returns C and its
    steps are the same.  The rows its loads reach beyond the tile by
    wrapping modulo [M] never get into C. *)
Theorem np_program_reads_awaited_shards
    (cfg : NonPersistent.args) (a' : Tl.buffer) (pid : Z) (c : Tl.buffer) :
  0 < NonPersistent.M cfg -> 0 < NonPersistent.N cfg ->
  0 <= NonPersistent.K cfg ->
  0 < NonPersistent.BLOCK_SIZE_M cfg -> 0 < NonPersistent.BLOCK_SIZE_N cfg ->
  0 < NonPersistent.BLOCK_SIZE_K cfg -> 0 < NonPersistent.GROUP_SIZE_M cfg ->
  0 < NonPersistent.m_per_rank cfg ->
  0 <= pid < NonPersistent.grid cfg ->
  let offs_am := NonPersistent.pid_m cfg pid * NonPersistent.BLOCK_SIZE_M cfg in
  let awaited :=
    wait_slots (NonPersistent.rank_beg cfg offs_am)
               (NonPersistent.rank_end cfg offs_am
                - NonPersistent.rank_beg cfg offs_am + 1) in
  (forall i k, 0 <= i < NonPersistent.M cfg -> 0 <= k < NonPersistent.K cfg ->
     In (i / NonPersistent.m_per_rank cfg) awaited ->
     at2 (NonPersistent.a_ptr cfg) (NonPersistent.stride_am cfg)
         (NonPersistent.stride_ak cfg) i k
     = at2 a' (NonPersistent.stride_am cfg) (NonPersistent.stride_ak cfg)
           i k) ->
  same_outcome (NonPersistent.kernel cfg pid c)
               (NonPersistent.kernel (np_on_workspace cfg a') pid c).
Proof.
  intros HM HN HK HBM HBN HBK HG HMpr Hpid offs awaited Hagree.
  rewrite np_on_wait. unfold NonPersistent.kernel. fold offs.
  destruct (dl_wait _ _ _ _); [|exact I].
  rewrite np_on_body. unfold NonPersistent.body, same_outcome. fold offs.
  split.
  - intros q. apply store_ext_masked; [reflexivity|].
    intros i j Hi Hj Hm. unfold NonPersistent.c_mask in Hm.
    apply andb_true_iff in Hm. destruct Hm as [Hm1 Hm2].
    apply Z.ltb_lt in Hm1, Hm2.
    destruct (np_tile_range cfg HM HN HBM HBN HG pid Hpid) as [Hpm Hpn].
    assert (Hrow : 0 <= NonPersistent.pid_m cfg pid
                        * NonPersistent.BLOCK_SIZE_M cfg + i
                   < NonPersistent.M cfg) by nia.
    assert (Hcol : 0 <= NonPersistent.pid_n cfg pid
                        * NonPersistent.BLOCK_SIZE_N cfg + j
                   < NonPersistent.N cfg) by nia.
    rewrite (np_acc_value cfg HK HBK pid _ i j Hrow Hcol).
    rewrite (np_on_acc_value cfg a' pid _ i j HK HBK Hrow Hcol).
    apply reference_ext; [|reflexivity].
    intros k Hk. apply Hagree; [exact Hrow|exact Hk|].
    unfold awaited, NonPersistent.rank_beg, NonPersistent.rank_end.
    apply (wait_slots_owners (NonPersistent.m_per_rank cfg)
             (NonPersistent.BLOCK_SIZE_M cfg) (NonPersistent.M cfg) offs);
      [exact HMpr|exact HBM|unfold offs; nia|left; unfold offs; nia|].
    unfold offs.
    set (row := NonPersistent.pid_m cfg pid
                * NonPersistent.BLOCK_SIZE_M cfg + i) in *.
    exists row.
    pose proof (Z.div_mod row (NonPersistent.m_per_rank cfg) ltac:(lia)).
    pose proof (Z.mod_pos_bound row (NonPersistent.m_per_rank cfg) HMpr).
    split; [nia|unfold row; lia].
  - rewrite (np_on_ktrace cfg a' pid _ HK HBK). reflexivity.
Qed.

Lemma epilogue_store_ext_masked (cfg : Persistent.args) c c' o1 o2
    (acc acc' : Tl.block) :
  0 < Persistent.BLOCK_SIZE_N cfg ->
  (forall i j, 0 <= i < Persistent.BLOCK_SIZE_M cfg ->
     0 <= j < Persistent.BLOCK_SIZE_N cfg ->
     desc_in_bounds (Persistent.c_desc cfg) (o1 + i) (o2 + j) = true ->
     acc i j = acc' i j) ->
  (forall q, c q = c' q) ->
  forall q, fst (Persistent.epilogue_store cfg c o1 o2 acc) q
            = fst (Persistent.epilogue_store cfg c' o1 o2 acc') q.
Proof.
  intros HBN Hacc Hc q. unfold Persistent.epilogue_store, desc_store.
  pose proof (Z.div_mod (Persistent.BLOCK_SIZE_N cfg) 2 ltac:(lia)) as E2.
  pose proof (Z.mod_pos_bound (Persistent.BLOCK_SIZE_N cfg) 2 ltac:(lia))
    as B2.
  destruct (Persistent.EPILOGUE_SUBTILE cfg) eqn:Esub; cbn [fst].
  - apply store_ext_masked.
    + apply store_ext_masked; [apply Hc|].
      intros i j Hi Hj Hm. unfold Persistent.c_desc in Hi, Hj.
      cbn [block_shape fst snd] in Hi, Hj. rewrite Esub in Hj.
      apply Hacc; [exact Hi|lia|exact Hm].
    + intros i j Hi Hj Hm. unfold Persistent.c_desc in Hi, Hj.
      cbn [block_shape fst snd] in Hi, Hj. rewrite Esub in Hj.
      apply Hacc; [exact Hi|lia|].
      rewrite <- Hm. f_equal. lia.
  - apply store_ext_masked; [apply Hc|].
    intros i j Hi Hj Hm. unfold Persistent.c_desc in Hi, Hj.
    cbn [block_shape fst snd] in Hi, Hj. rewrite Esub in Hj.
    apply Hacc; assumption.
Qed.

Section PersistentOnWorkspace.

Variables (cfg : Persistent.args) (a : Tl.buffer).

Ltac p_fields H :=
  cbn [p_on_workspace Persistent.a_ptr Persistent.b_ptr
       Persistent.M Persistent.N Persistent.K Persistent.rank
       Persistent.num_ranks Persistent.ready_ptr
       Persistent.BLOCK_SIZE_M Persistent.BLOCK_SIZE_N
       Persistent.BLOCK_SIZE_K Persistent.GROUP_SIZE_M
       Persistent.EPILOGUE_SUBTILE Persistent.NUM_SMS
       Persistent.ready_value Persistent.LOCAL_WORLD_SIZE] in H.

Lemma p_on_pid_m t :
  Persistent.pid_m (p_on_workspace cfg a) t = Persistent.pid_m cfg t.
Proof. destruct cfg. to_fields. reflexivity. Qed.

Lemma p_on_pid_n t :
  Persistent.pid_n (p_on_workspace cfg a) t = Persistent.pid_n cfg t.
Proof. destruct cfg. to_fields. reflexivity. Qed.

Lemma p_on_tile_ready t :
  Persistent.tile_ready (p_on_workspace cfg a) t = Persistent.tile_ready cfg t.
Proof. destruct cfg. to_fields. reflexivity. Qed.

Lemma p_on_tiles_of_unit p :
  Persistent.tiles_of_unit (p_on_workspace cfg a) p
  = Persistent.tiles_of_unit cfg p.
Proof. destruct cfg. to_fields. reflexivity. Qed.

Lemma p_on_tile_events t :
  Persistent.tile_events (p_on_workspace cfg a) t
  = Persistent.tile_events cfg t.
Proof. destruct cfg. to_fields. reflexivity. Qed.

Lemma p_on_epilogue_store c o1 o2 acc :
  Persistent.epilogue_store (p_on_workspace cfg a) c o1 o2 acc
  = Persistent.epilogue_store cfg c o1 o2 acc.
Proof. destruct cfg. to_fields. reflexivity. Qed.

Lemma p_on_k_tiles :
  Persistent.k_tiles (p_on_workspace cfg a) = Persistent.k_tiles cfg.
Proof. destruct cfg. to_fields. reflexivity. Qed.

Lemma p_on_num_tiles :
  Persistent.num_tiles (p_on_workspace cfg a) = Persistent.num_tiles cfg.
Proof. destruct cfg. to_fields. reflexivity. Qed.

Lemma p_on_tile_store t c q :
  Persistent.tile_store (p_on_workspace cfg a) t c q
  = fst (Persistent.epilogue_store cfg c
           (Persistent.pid_m cfg t * Persistent.BLOCK_SIZE_M cfg)
           (Persistent.pid_n cfg t * Persistent.BLOCK_SIZE_N cfg)
           (Persistent.tile_accumulator (p_on_workspace cfg a) t)) q.
Proof.
  unfold Persistent.tile_store.
  rewrite p_on_pid_m, p_on_pid_n, p_on_epilogue_store. reflexivity.
Qed.

Lemma p_on_acc_value t i j :
  0 < Persistent.K cfg -> 0 < Persistent.BLOCK_SIZE_K cfg ->
  0 <= Persistent.pid_m cfg t * Persistent.BLOCK_SIZE_M cfg + i
    < Persistent.M cfg ->
  0 <= Persistent.pid_n cfg t * Persistent.BLOCK_SIZE_N cfg + j
    < Persistent.N cfg ->
  Persistent.tile_accumulator (p_on_workspace cfg a) t i j
  = reference (at2 a (Persistent.K cfg) 1)
      (at2 (Persistent.b_ptr cfg) (Persistent.K cfg) 1) (Persistent.K cfg)
      (Persistent.pid_m cfg t * Persistent.BLOCK_SIZE_M cfg + i)
      (Persistent.pid_n cfg t * Persistent.BLOCK_SIZE_N cfg + j).
Proof.
  intros HK HBK Hrow Hcol.
  pose proof (p_acc_value (p_on_workspace cfg a)) as H. p_fields H.
  specialize (H HK HBK t i j).
  rewrite p_on_pid_m, p_on_pid_n in H. exact (H Hrow Hcol).
Qed.

(** A unit on the other workspace, when its waits return. *)
Lemma p_on_kernel start_pid c :
  0 < Persistent.k_tiles cfg -> 0 < Persistent.NUM_SMS cfg ->
  0 <= Persistent.num_tiles cfg ->
  (forall t, In t (Persistent.tiles_of_unit cfg start_pid) ->
             Persistent.tile_ready cfg t = true) ->
  exists st, Persistent.kernel (p_on_workspace cfg a) start_pid c = Some st
    /\ (forall q, Persistent.st_c st q
          = launch (Persistent.tile_store (p_on_workspace cfg a))
                   (Persistent.tiles_of_unit cfg start_pid) c q)
    /\ Persistent.st_trace st
       = flat_map (Persistent.tile_events cfg)
                  (Persistent.tiles_of_unit cfg start_pid).
Proof.
  intros Hk HS HT Hready.
  pose proof (p_kernel (p_on_workspace cfg a)) as H.
  rewrite p_on_k_tiles, p_on_num_tiles in H. p_fields H.
  specialize (H Hk HS HT start_pid c).
  rewrite p_on_tiles_of_unit in H.
  destruct H as [st [E [Hc Htr]]].
  - intros t Ht. rewrite p_on_tile_ready. apply Hready, Ht.
  - exists st. split; [exact E|]. split; [exact Hc|].
    rewrite Htr. apply flat_map_ext. intros t. apply p_on_tile_events.
Qed.

(** A unit on the other workspace returns only if its tiles are
    ready. *)
Lemma p_on_kernel_needed start_pid c t :
  0 < Persistent.k_tiles cfg -> 0 < Persistent.NUM_SMS cfg ->
  0 <= Persistent.num_tiles cfg ->
  Persistent.kernel (p_on_workspace cfg a) start_pid c <> None ->
  In t (Persistent.tiles_of_unit cfg start_pid) ->
  Persistent.tile_ready cfg t = true.
Proof.
  intros Hk HS HT Hrun Hin.
  pose proof (p_kernel_needed (p_on_workspace cfg a)) as H.
  rewrite p_on_k_tiles, p_on_num_tiles in H. p_fields H.
  specialize (H Hk HS HT start_pid c t Hrun).
  rewrite p_on_tiles_of_unit, p_on_tile_ready in H. exact (H Hin).
Qed.

End PersistentOnWorkspace.

(** X19.  A unit of the persistent kernel depends on the workspace
    only through the shards its tiles have waited for: on the layouts
    the swizzle is written for, two contents of the workspace that
    agree, for every tile of the unit, on the rows of the ranks that
    tile waits on give the same outcome, the same C and the same
    steps. *)
Theorem p_unit_reads_awaited_shards
    (cfg : Persistent.args) (a' : Tl.buffer) (start_pid : Z) (c : Tl.buffer) :
  0 < Persistent.M cfg -> 0 < Persistent.N cfg -> 0 < Persistent.K cfg ->
  0 < Persistent.BLOCK_SIZE_M cfg -> 0 < Persistent.BLOCK_SIZE_N cfg ->
  0 < Persistent.BLOCK_SIZE_K cfg -> 0 < Persistent.GROUP_SIZE_M cfg ->
  0 < Persistent.NUM_SMS cfg ->
  0 < Persistent.num_ranks cfg ->
  Persistent.M cfg mod Persistent.num_ranks cfg = 0 ->
  Persistent.layout_ok cfg ->
  0 <= start_pid < Persistent.NUM_SMS cfg ->
  (forall t i k,
     In t (Persistent.tiles_of_unit cfg start_pid) ->
     0 <= i < Persistent.M cfg -> 0 <= k < Persistent.K cfg ->
     In (i / Persistent.M_per_rank cfg)
        (wait_slots (Persistent.tile_wait_first cfg t)
                    (Persistent.tile_wait_num cfg t)) ->
     at2 (Persistent.a_ptr cfg) (Persistent.K cfg) 1 i k
     = at2 a' (Persistent.K cfg) 1 i k) ->
  same_unit_outcome (Persistent.kernel cfg start_pid c)
                    (Persistent.kernel (p_on_workspace cfg a') start_pid c).
Proof.
  intros HM HN HK HBM HBN HBK HG HS Hnr Hdiv Hlay Hp Hagree.
  assert (Hk : 0 < Persistent.k_tiles cfg) by (apply cdiv_pos; assumption).
  assert (HT : 0 <= Persistent.num_tiles cfg).
  { pose proof (p_P_pos cfg HM HBM). pose proof (p_Q_pos cfg HN HBN).
    unfold Persistent.num_tiles. nia. }
  assert (HMpr : 0 < Persistent.M_per_rank cfg).
  { unfold Persistent.M_per_rank.
    pose proof (Z.div_mod (Persistent.M cfg) (Persistent.num_ranks cfg)
                  ltac:(lia)). nia. }
  assert (Htile : forall t, In t (Persistent.tiles_of_unit cfg start_pid) ->
            forall b b', (forall q, b q = b' q) ->
            forall q, Persistent.tile_store cfg t b q
                      = Persistent.tile_store (p_on_workspace cfg a') t b' q).
  { intros t Hin b b' Hb q.
    destruct (tiles_within cfg HS start_pid t Hp Hin) as [Ht _].
    destruct (p_tile_range cfg HM HN HBM HBN HG Hdiv Hlay t Ht)
      as [Hpm Hpn].
    rewrite p_on_tile_store. unfold Persistent.tile_store.
    apply epilogue_store_ext_masked; [exact HBN| |exact Hb].
    intros i j Hi Hj Hm. apply c_in_bounds in Hm. destruct Hm as [Hrow Hcol].
    rewrite (p_acc_value cfg HK HBK t i j Hrow Hcol).
    rewrite (p_on_acc_value cfg a' t i j HK HBK Hrow Hcol).
    apply reference_ext; [|reflexivity].
    intros k Hk'. apply (Hagree t _ k Hin Hrow Hk').
    unfold Persistent.tile_wait_first, Persistent.tile_wait_num,
      Persistent.rank_beg, Persistent.rank_end.
    set (offs := Persistent.pid_m cfg t * Persistent.BLOCK_SIZE_M cfg) in *.
    apply (wait_slots_owners (Persistent.M_per_rank cfg)
             (Persistent.BLOCK_SIZE_M cfg) (Persistent.M cfg) offs);
      [exact HMpr|exact HBM|unfold offs; nia|left; lia|].
    exists (offs + i).
    pose proof (Z.div_mod (offs + i) (Persistent.M_per_rank cfg) ltac:(lia)).
    pose proof (Z.mod_pos_bound (offs + i) (Persistent.M_per_rank cfg) HMpr).
    split; [nia|lia]. }
  assert (Hlaunch : forall tiles,
            (forall t, In t tiles ->
                       In t (Persistent.tiles_of_unit cfg start_pid)) ->
            forall b b', (forall q, b q = b' q) ->
            forall q, launch (Persistent.tile_store cfg) tiles b q
                      = launch (Persistent.tile_store (p_on_workspace cfg a'))
                               tiles b' q).
  { induction tiles as [|t tiles IH]; intros Hsub b b' Hb q; [apply Hb|].
    cbn [launch fold_left]. apply IH.
    - intros t' Ht'. apply Hsub. right. exact Ht'.
    - apply Htile; [apply Hsub; left; reflexivity|exact Hb]. }
  unfold same_unit_outcome.
  destruct (Persistent.kernel cfg start_pid c) as [st|] eqn:E.
  - assert (Hready : forall t,
              In t (Persistent.tiles_of_unit cfg start_pid) ->
              Persistent.tile_ready cfg t = true).
    { intros t Hin.
      apply (p_kernel_needed cfg Hk HS HT start_pid c t);
        [rewrite E; discriminate|exact Hin]. }
    destruct (p_on_kernel cfg a' start_pid c Hk HS HT Hready)
      as [st' [E' [Hc' Htr']]].
    destruct (p_kernel cfg Hk HS HT start_pid c Hready)
      as [st0 [E0 [Hc0 Htr0]]].
    rewrite E0 in E. inversion E. subst st0. rewrite E'. split.
    + intros q. rewrite Hc0, Hc'.
      apply Hlaunch; [intros t Ht; exact Ht|reflexivity].
    + rewrite Htr0, Htr'. reflexivity.
  - destruct (Persistent.kernel (p_on_workspace cfg a') start_pid c)
      as [st'|] eqn:E'; [|exact I].
    assert (Hready : forall t,
              In t (Persistent.tiles_of_unit cfg start_pid) ->
              Persistent.tile_ready cfg t = true).
    { intros t Hin.
      apply (p_on_kernel_needed cfg a' start_pid c t Hk HS HT);
        [rewrite E'; discriminate|exact Hin]. }
    destruct (p_kernel cfg Hk HS HT start_pid c Hready) as [st0 [E0 _]].
    rewrite E0 in E. discriminate.
Qed.

Lemma examples_rows_of_rank_1 i k :
  0 <= k < 4 -> 1 <= i / 2 < 1 + 1 ->
  at2 Scenario.workspace 4 1 i k
  = at2 Examples.workspace_without_rank_0 4 1 i k.
Proof.
  intros Hk Hi. unfold at2, Examples.workspace_without_rank_0,
    Scenario.workspace.
  pose proof (Z.div_mod i 2 ltac:(lia)).
  pose proof (Z.mod_pos_bound i 2 ltac:(lia)).
  destruct (Z.ltb_spec (i * 4 + k * 1) 8); [lia|reflexivity].
Qed.

(** X18 at the scenario on rank 1: program 0 works on the rows of rank
    1, so it does the same whether the shard of rank 0 has arrived or
    not. *)
Lemma np_program_reads_awaited_shards_witness :
  same_outcome
    (NonPersistent.kernel (Scenario.non_persistent 1 2 2) 0 (fun _ => -1))
    (NonPersistent.kernel
       (np_on_workspace (Scenario.non_persistent 1 2 2)
                        Examples.workspace_without_rank_0)
       0 (fun _ => -1)).
Proof.
  apply np_program_reads_awaited_shards; [> concrete .. | ].
  intros i k _ Hk Hin. apply In_wait_slots in Hin.
  apply examples_rows_of_rank_1; [exact Hk|exact Hin].
Defined.

(** X19 at the scenario on rank 1: unit 0 has tile 0, on the rows of
    rank 1. *)
Lemma p_unit_reads_awaited_shards_witness :
  same_unit_outcome
    (Persistent.kernel (Scenario.persistent 1) 0 (fun _ => -1))
    (Persistent.kernel
       (p_on_workspace (Scenario.persistent 1)
                       Examples.workspace_without_rank_0)
       0 (fun _ => -1)).
Proof.
  apply p_unit_reads_awaited_shards; [> concrete .. | ].
  intros t i k Ht _ Hk Hin. destruct Ht as [<-|[]].
  apply In_wait_slots in Hin.
  apply examples_rows_of_rank_1; [exact Hk|exact Hin].
Defined.
